(* ===== verification/_CoqProject ===== *)
-Q . S2P
Prelude.v
Text.v
Errors.v
Validation.v
Models.v
Schema.v
Valkey.v
Collections.v
Effects.v
Reference.v
Access.v
Auth.v
Logic.v
Services.v
Members.v
Ownership.v
Conversations.v
Repository.v
History.v
HotHistory.v
Presence.v
Rooms.v
Fanout.v
Notify.v
NotifyApi.v
Outbox.v
Channels.v
Handler.v
EndToEnd.v
Sockets.v
Metrics.v
Account.v
Admin.v
Storage.v
S3.v
Media.v
Files.v
Discovery.v
Preview.v
Routes.v
Delivery.v
CacheTypes.v
Startup.v
Process.v
Float64.v
Bench.v
Gate.v
Workload.v
Accounting.v
BenchServer.v
UnitTests.v
