(* ===== verification/Prelude.v ===== *)
(** * vussa: a verification development of the chat backend

    The backend of vussa ([src/backend/src]) is an HTTP and WebSocket chat server
    over three services: a PostgreSQL database, a Valkey cache and an object
    store. This library models its request handlers, its background workers and
    its startup as executable definitions, and proves what makes them correct. It
    does the same for the load generator that comes with it ([src/bench/src]).

    ** How the program is put together

    A request reaches a handler of [api/*.rs] through the table of [routes.rs]; a
    client with a socket sends events to [websocket/handler.rs]. Both start by
    loading the session of the cookie from Valkey ([auth.rs]), check the CSRF
    token and the permissions, and run SQL statements, some in a transaction.
    What concerns other clients is published to a room and forwarded by the room
    manager ([websocket/rooms.rs]). What must survive a crash is queued in the
    same transaction as an outbox event or a notification delivery, which two
    workers claim, carry out and complete ([outbox.rs],
    [notifications/delivery.rs]); two timers delete expired messages and orphaned
    files ([bootstrap.rs]).

    The load generator ([bench/src/main.rs]) logs simulated users in, lets them
    through two gates together, has them read over HTTP and talk over sockets
    while they move shared counters, and decides from the counters whether the
    server sustained them.

    ** How it is modelled

    A handler is a function in the monad [Effects.M K E A]: it reads an
    environment and threads a world, and ends in [Ok] or in the [Err] of an early
    return. The world has the database (a record of tables, [Schema.Db]), the
    cache (any [Valkey]), the connection pool, the events published and sent, and
    the stored blobs. The environment gives each step its clock, its fresh
    identifier and random bytes, and its fault: a request to a service is one
    step, and may be lost before it acts or after. A theorem that names no
    assumption on the environment holds whatever is lost; [healthy] says nothing
    is, [no_lost_ack] that a request that fails had no effect. [transaction] rolls
    back on an error and may itself lose its acknowledgement. SQL statements are
    functions from a database to a result and a database, with the constraints
    they can violate; each is one step, so row locks never wait.

    Integers are [Z], with the casts and the wrap-around of the code written out
    ([as_i64], [as_u64], [checked_unsigned]); strings are lists of code points
    with their UTF-8 length, so a length in bytes and one in characters differ as
    in Rust. Scores of sorted sets, doubles in Valkey, are exact integers, as
    they are below 2^53 milliseconds. Strings are ordered by code points, as in
    the [C] collation.

    What the repository does not contain is an interface with the laws its
    documentation states and a concrete instance for the witnesses: [Unicode]
    (case tables, [lower]), [UuidText], [JsonText] and [Bitcode] (round trips),
    [Crypto] (hashes), [Valkey] (the documented commands), [FileSystem],
    [UrlCrate], [ObjectService], [TextSearch], [HtmlCrate], [Fanout.Broadcast]
    ([tokio]'s channels). The email and push
    sinks, the recovery notifier and the scanner are records that answer by
    themselves at each step.

    A simulated user of the load generator is a function in the monad
    [Workload.Task]: it threads what is outside ([Workload.Outside]: the answers,
    the frames, the clock, none of them restricted) and leaves the trace of its
    updates of the counters. A run interleaves the traces in any way. The gates
    are a step relation with one step per atomic access, over the documented
    behaviour of [tokio]'s [Notify] ([Gate.Notify]). Doubles are the IEEE
    operations of [SpecFloat], not reals.

    ** The files

    Foundations: [Prelude] (results, tables as lists, ordered and unique tables,
    the hint databases), [Text] (strings), [Errors] ([error.rs]), [Models]
    ([models.rs]), [Schema] ([backend/migrations]), [Valkey] (the commands and
    their semantics), [Collections] (keys seen as collections), [Effects] (the
    monad, [cache.rs], [websocket/broadcast.rs], frames), [Reference] (instances
    and samples), [Logic] (a program logic over the monad).

    Identity and access: [Validation] (every input check of the handlers),
    [Access] (permissions, bans, channel access, [persistence.rs]), [Auth]
    ([auth.rs]: sessions, rate limits, CSRF, the shared password verifications as
    a step relation), [Account] ([api/account.rs]), [Admin] ([api/admin.rs]).

    Channels: [Services] ([services.rs]), [Members] ([api/members.rs]),
    [Ownership] and [Conversations] (their theorems), [Channels]
    ([api/channels.rs], [api/drafts.rs]).

    Messages: [Repository] ([repository/postgres.rs]), [History] and [HotHistory]
    ([websocket/history.rs] and its specification as a sorted window), [Presence]
    ([websocket/presence.rs]), [Rooms] ([websocket/rooms.rs], the registry and its
    sockets as a step relation), [Fanout] (what the sockets of a room receive),
    [Handler] ([websocket/handler.rs]), [EndToEnd] (a message from its sender's
    frame to the sockets of the room), [Sockets] ([handle_socket] as a program,
    many at a time, over the world and the room manager), [Media]
    ([api/media.rs]), [Discovery] and [Preview] ([api/discovery.rs]).

    Notifications and workers: [Notify] and [NotifyApi] ([api/notifications.rs]),
    [Outbox] ([outbox.rs], [notifications/delivery.rs]), [Delivery] (the webhook
    notifiers, and the drain of the queue).

    Files: [Storage] and [S3] ([storage.rs], [storage/scanner.rs]), [Files]
    (uploads, downloads and the collector).

    The whole: [Routes] ([routes.rs], [api/types.rs]: every request and its
    handler), [CacheTypes] (the types of the cache keys), [Startup]
    ([bootstrap.rs], the seeds of [repository/postgres.rs]), [Process]
    ([bootstrap::run]: the boot in its order), [Metrics] ([clock.rs],
    [metrics.rs]), [UnitTests] (the repository's own tests of pure functions,
    evaluated on the model).

    The load generator ([bench/src/main.rs]): [Float64] (doubles, and when a
    rounded ratio decides as the exact one), [Bench] (arguments, counters, report,
    [main]), [Gate] ([SetupGate], [wait_for_phase]), [Workload] (requests, logins,
    [api_smoke], [run_api_workload], [user_loop], [run_once]), [Accounting] (what
    the counters of a run say about its users, and what these were really
    answered), [BenchServer] (its requests served by [Routes.serve]).

    ** What is shown

    Of the whole surface ([Routes], [CacheTypes]): no request acts without its
    session, its CSRF token and its permission; a [GET] writes nothing but
    default preferences; every key of the cache keeps the type of its family, and
    no command meets a value of another type. Startup leaves an administrator who
    can do everything, and a process that serves has a prepared database, all its
    workers and its settings in range.

    Messages: a message is stored only by an author who may post there, and once
    per client identifier; a page holds the newest messages before its cursor,
    those deleted without their text; retention deletes the expired messages and their replies and nothing else;
    the hot history refines a sorted window of at most 300 messages; the pages of
    a search visit every match once and end. A send that succeeds is stored and
    reaches every socket of its room that reads on, unless the message was sent
    before: the retry of a stored message is not broadcast. What a
    socket reads belongs to a room its user was let into; no path through
    [handle_socket] loses a client of a room or of the gauge.

    Channels: access is decided as the specification [CanSee] says; one owner per
    private channel, whatever fails; an invite is used at most as often as it
    allows; the room registry counts exactly the sockets in a room; a socket is
    sent the events of its room, in order and without loss unless it falls a whole
    buffer behind, and of no other room.

    Accounts: a login stores one session, of the enabled account whose password
    was given, and touches no other; a recovery token works once; concurrent password checks give
    each caller the verdict of its own password; revoking sessions ends all of
    them; the last administrator stays; rate counters allow their limit and no
    more.

    Notifications and workers: only users who can see a message are notified,
    and repeating the work changes nothing; claims are exclusive for a minute;
    the delivery queue drains, 32 rows a turn.

    Files: the filesystem and S3 stores refine the contract the handlers use; a
    storage key cannot leave its directory; every file on record has its
    contents; a download is given to those who may see the file; the collector
    removes the orphans; the answer to a link preview depends on no address but
    a checked one.

    The load generator: in a run that passes the server really let every user in,
    its socket connected, and every message was acknowledged; the verdict computed with doubles is the one
    of integers; no user is left at a gate and none passes it early; the search
    for the capacity ends; the percentiles never read out of range and the report
    does not depend on how the users interleave; its reading requests are routes
    of the server, and leave the database and the files as they were.

    The theorems of kind [error] exhibit what goes wrong: a failed change of room
    and a page of history that skips messages. So do
    [Ownership.transfer_race_breaks_ownership], [Files.upload_lost_ack],
    [Repository.edit_revives_deleted_message], [Account.deleted_account_logs_in],
    [Media.saved_list_shows_deleted_text] and [Bench.capacity_search_stuck].

    ** Bounds and fuel

    [Repository.cascade] follows replies of replies with as much fuel as there
    are messages, each pass adding one or stopping ([cascade_closed]).
    [Discovery.follow] asks for one page more than there are matches, each page
    that has a cursor holding a match. [Delivery.delivery_rounds] needs a turn
    for every 32 rows due. [Workload.api_fuel] counts the requests that fit in
    the duration ([Accounting.steady_load_counted] shows that none is left out),
    and [Bench.capacity_search] shows 33 rounds enough for [--max-users] below
    its largest value. All other recursions are structural.

    ** Not modelled

    The extractors of axum (a request arrives decoded), tracing, the recorder
    behind the metrics, the wait of [tokio] timers and the interleaving of handlers inside one statement
    or command (the concurrent parts are step relations or take an arbitrary
    fault at each step); migrations, connecting, TLS, the HTTP server and the
    signals. Of the load generator, the
    parsing of the command line by clap, the text it prints, its sleeps and the
    pools of its HTTP clients. The front end is not Rust, and keeps no server
    state. *)
From Stdlib Require Export ZArith Lia ZifyBool Sorted Permutation.
From stdpp Require Export base tactics option list sorting gmap sets strings.

#[export] Set Default Goal Selector "!".

Declare Scope rust_scope.
Delimit Scope rust_scope with rust.

(** ** Results: Rust's [Result] and its [From] conversions *)

Inductive Result (E A : Type) : Type :=
| Ok (a : A)
| Err (e : E).
Arguments Ok {E A} a.
Arguments Err {E A} e.

(** [From E F] is the conversion the [?] operator inserts. *)
Class From (E F : Type) := from_err : E -> F.
#[export] Instance from_refl E : From E E | 10 := fun e => e.

Definition is_ok {E A} (r : Result E A) : bool :=
  match r with Ok _ => true | Err _ => false end.

Definition result_map {E A B} (f : A -> B) (r : Result E A) : Result E B :=
  match r with Ok a => Ok (f a) | Err e => Err e end.

(** [iter.collect::<Result<Vec<_>, _>>()]: the first error, or all values. *)
Fixpoint collect_results {E A} (l : list (Result E A)) : Result E (list A) :=
  match l with
  | [] => Ok []
  | Ok a :: l' => result_map (cons a) (collect_results l')
  | Err e :: _ => Err e
  end.

Lemma collect_results_map_ok {E A B} (f : A -> B) (l : list A) :
  collect_results (map (fun a => Ok (E := E) (f a)) l) = Ok (map f l).
Proof. induction l as [|a l IH]; simpl; [done|]. by rewrite IH. Qed.

Lemma collect_results_ok {E A} (l : list (Result E A)) out :
  collect_results l = Ok out -> l = map Ok out.
Proof.
  revert out. induction l as [|[a|e] l IH]; intros out; simpl; [by intros [= <-]| |done].
  destruct (collect_results l) as [rest|]; [|done]. intros [= <-]. simpl. f_equal. by apply IH.
Qed.

(** ** Machine integers *)

Open Scope Z_scope.

Definition i64_min : Z := - 2 ^ 63.
Definition i64_max : Z := 2 ^ 63 - 1.
Definition u64_max : Z := 2 ^ 64 - 1.
Definition u32_max : Z := 2 ^ 32 - 1.

(** [value as u64] and [value as i64] on a 64-bit source: keep the low 64
    bits, read them unsigned or in two's complement. *)
Definition as_u64 (z : Z) : Z := z mod 2 ^ 64.
Definition as_i64 (z : Z) : Z :=
  let u := z mod 2 ^ 64 in if u <? 2 ^ 63 then u else u - 2 ^ 64.
Definition as_u32 (z : Z) : Z := z mod 2 ^ 32.

Definition clamp (lo hi z : Z) : Z := Z.max lo (Z.min z hi).
(** [limit.unwrap_or(100).clamp(1, 200)] *)
Definition page_limit (limit : option Z) : Z := clamp 1 200 (default 100 limit).
Definition i64_saturating_mul (a b : Z) : Z := clamp i64_min i64_max (a * b).
Definition saturating_sub (a b : Z) : Z := Z.max 0 (a - b).

Lemma as_i64_id z : 0 <= z <= i64_max -> as_i64 z = z.
Proof.
  unfold as_i64, i64_max. intros H.
  rewrite Z.mod_small by lia. destruct (z <? 2 ^ 63) eqn:E; lia.
Qed.

Lemma as_u64_id z : 0 <= z <= u64_max -> as_u64 z = z.
Proof. unfold as_u64, u64_max. intros H. apply Z.mod_small. lia. Qed.

Lemma as_i64_range z : i64_min <= as_i64 z <= i64_max.
Proof.
  unfold as_i64, i64_min, i64_max.
  pose proof (Z.mod_pos_bound z (2 ^ 64) ltac:(lia)).
  destruct (_ <? _) eqn:E; lia.
Qed.

Lemma as_u64_as_i64 z : as_u64 (as_i64 z) = as_u64 z.
Proof.
  unfold as_u64, as_i64. destruct (_ <? _).
  - apply Z.mod_mod. lia.
  - rewrite <- (Z.mod_add _ 1) by lia.
    replace (z mod 2 ^ 64 - 2 ^ 64 + 1 * 2 ^ 64) with (z mod 2 ^ 64) by lia.
    apply Z.mod_mod. lia.
Qed.

Lemma clamp_range lo hi z : lo <= hi -> lo <= clamp lo hi z <= hi.
Proof. unfold clamp. lia. Qed.

(** ** Boolean tests *)

Notation "x ≟ y" := (bool_decide (x = y)) (at level 70, no associativity) : rust_scope.
Open Scope rust_scope.

Definition is_none {A} (o : option A) : bool :=
  match o with None => true | Some _ => false end.
Definition is_some {A} (o : option A) : bool := negb (is_none o).

Lemma is_none_true {A} (o : option A) : is_none o = true <-> o = None.
Proof. destruct o; simpl; split; congruence. Qed.

(** ** Tables: the SQL clauses the statements are built from

    A table is the list of its rows in insertion order. *)

Section Tables.
Context {R : Type}.

Definition where_ (p : R -> bool) (t : list R) : list R := List.filter p t.
Definition exists_row (p : R -> bool) (t : list R) : bool := existsb p t.
Definition update_where (p : R -> bool) (f : R -> R) (t : list R) : list R :=
  map (fun r => if p r then f r else r) t.
Definition delete_where (p : R -> bool) (t : list R) : list R :=
  List.filter (fun r => negb (p r)) t.
Definition count_rows (p : R -> bool) (t : list R) : Z :=
  Z.of_nat (length (where_ p t)).
Definition first_row (p : R -> bool) (t : list R) : option R := List.find p t.

Lemma in_where p t r : In r (where_ p t) <-> In r t /\ p r = true.
Proof. apply filter_In. Qed.

Lemma in_delete_where p t r : In r (delete_where p t) <-> In r t /\ p r = false.
Proof. unfold delete_where. rewrite filter_In, negb_true_iff. done. Qed.

Lemma in_update_where p f t r :
  In r (update_where p f t) <->
  exists r0, In r0 t /\ r = if p r0 then f r0 else r0.
Proof. unfold update_where. rewrite in_map_iff. firstorder. Qed.

Lemma exists_row_true p t : exists_row p t = true <-> exists r, In r t /\ p r = true.
Proof. apply existsb_exists. Qed.

Lemma exists_row_false p t : exists_row p t = false <-> forall r, In r t -> p r = false.
Proof.
  unfold exists_row. rewrite <- not_true_iff_false, existsb_exists.
  split.
  - intros H r Hr. apply not_true_iff_false. intros E. apply H. eauto.
  - intros H (r & Hr & E). rewrite (H r Hr) in E. done.
Qed.

Lemma first_row_some p t r : first_row p t = Some r -> In r t /\ p r = true.
Proof. apply find_some. Qed.

Lemma first_row_none p t : first_row p t = None <-> exists_row p t = false.
Proof.
  rewrite exists_row_false. split.
  - intros H r Hr. eapply find_none; eauto.
  - intros H. destruct (first_row p t) as [r|] eqn:E; [|done].
    apply first_row_some in E as [Hin Hp]. rewrite (H r Hin) in Hp. done.
Qed.

Lemma update_where_none p f t : exists_row p t = false -> update_where p f t = t.
Proof.
  rewrite exists_row_false. unfold update_where. intros H.
  rewrite <- (map_id t) at 2. apply map_ext_in. intros r Hr. by rewrite H.
Qed.

Lemma delete_where_none p t : exists_row p t = false -> delete_where p t = t.
Proof.
  rewrite exists_row_false. unfold delete_where. intros H.
  induction t as [|r t IH]; simpl; [done|].
  rewrite (H r (or_introl eq_refl)). simpl. f_equal. apply IH.
  intros r' Hr'. apply H. by right.
Qed.

Lemma where_nil_exists p t : where_ p t = [] <-> exists_row p t = false.
Proof.
  rewrite exists_row_false. split.
  - intros H r Hr. destruct (p r) eqn:E; [|done].
    assert (In r (where_ p t)) as HH by (by apply in_where).
    rewrite H in HH. done.
  - intros H. destruct (where_ p t) as [|r l] eqn:E; [done|].
    assert (In r (where_ p t)) as HH by (rewrite E; by left).
    apply in_where in HH as [Hin Hp]. rewrite (H r Hin) in Hp. done.
Qed.

Lemma length_update_where p f t : length (update_where p f t) = length t.
Proof. apply length_map. Qed.
End Tables.

(** Uniqueness of a key column, and how the statements keep it. *)
Definition unique_on {R K} (key : R -> K) (t : list R) : Prop := List.NoDup (map key t).

Section Unique.
Context {R K : Type} (key : R -> K).
Implicit Types (t : list R).

Lemma unique_on_nil : unique_on key [].
Proof. constructor. Qed.

Lemma unique_on_snoc t r :
  unique_on key t -> (forall r', In r' t -> key r' <> key r) -> unique_on key (t ++ [r]).
Proof.
  unfold unique_on. intros Hu Hf. rewrite map_app. simpl.
  apply NoDup_ListNoDup. apply NoDup_app. split; [by apply NoDup_ListNoDup|].
  split; [|apply NoDup_singleton].
  intros k Hk ->%list_elem_of_singleton.
  apply list_elem_of_In, in_map_iff in Hk as (r' & E & Hin). by eapply Hf.
Qed.

Lemma unique_on_update t p f :
  (forall r, p r = true -> key (f r) = key r) ->
  unique_on key t -> unique_on key (update_where p f t).
Proof.
  unfold unique_on, update_where. intros Hf. rewrite map_map.
  rewrite (map_ext_in (fun r => key (if p r then f r else r)) key); [done|].
  intros r _. destruct (p r) eqn:E; [by apply Hf|done].
Qed.

Lemma unique_on_filter t p : unique_on key t -> unique_on key (List.filter p t).
Proof.
  unfold unique_on. induction t as [|r t IH]; simpl; [done|].
  inversion 1 as [|? ? Hn Hu]; subst. destruct (p r); simpl; [|by apply IH].
  constructor; [|by apply IH].
  rewrite in_map_iff. intros (r' & E & Hin%filter_In). apply Hn.
  rewrite <- E. apply in_map. tauto.
Qed.

Lemma unique_on_take n t : unique_on key t -> unique_on key (take n t).
Proof.
  unfold unique_on. rewrite <- (take_drop n t) at 1. rewrite map_app. apply NoDup_app_remove_r.
Qed.

Lemma unique_on_eq t r1 r2 :
  unique_on key t -> In r1 t -> In r2 t -> key r1 = key r2 -> r1 = r2.
Proof.
  unfold unique_on. induction t as [|r t IH]; simpl; [done|].
  inversion 1 as [|? ? Hn Hu]; subst.
  intros [->|H1] [->|H2] E; auto.
  - exfalso. apply Hn. rewrite E. by apply in_map.
  - exfalso. apply Hn. rewrite <- E. by apply in_map.
Qed.
End Unique.

(** ** First rows and counts *)

Lemma first_row_update_miss {R} (q p : R -> bool) f t :
  (forall r, p r = true -> q r = false /\ q (f r) = false) ->
  first_row q (update_where p f t) = first_row q t.
Proof.
  intros H. unfold first_row, update_where. induction t as [|r t IH]; simpl; [done|].
  destruct (p r) eqn:E; [|by rewrite IH]. destruct (H r E) as [-> ->]. done.
Qed.
Lemma first_row_update {R} (p : R -> bool) (q : R -> bool) (g : R -> R) t :
  (forall r, p (g r) = p r) ->
  first_row p (update_where q g t) = (fun r => if q r then g r else r) <$> first_row p t.
Proof.
  intros Hp. unfold first_row, update_where. induction t as [|r t IH]; simpl; [done|].
  assert (p (if q r then g r else r) = p r) as -> by (destruct (q r); [apply Hp|done]).
  destruct (p r); simpl; [done|]. exact IH.
Qed.
Lemma first_row_app {R} (p : R -> bool) t1 t2 :
  first_row p (t1 ++ t2) = match first_row p t1 with Some r => Some r | None => first_row p t2 end.
Proof. unfold first_row. induction t1 as [|r t1 IH]; simpl; [done|]. by destruct (p r). Qed.
Lemma update_where_id {R} (p : R -> bool) (g : R -> R) t :
  (forall r, In r t -> p r = true -> g r = r) -> update_where p g t = t.
Proof.
  intros H. unfold update_where. rewrite <- (map_id t) at 2. apply map_ext_in. intros r Hr.
  destruct (p r) eqn:E; [by apply H|done].
Qed.
Lemma count_rows_cons {R} (p : R -> bool) r t : count_rows p (r :: t) = (if p r then 1 else 0) + count_rows p t.
Proof. unfold count_rows, where_. simpl. destruct (p r); simpl; lia. Qed.
Lemma count_rows_split {R} (p q : R -> bool) (t : list R) :
  count_rows p t = count_rows (fun r => p r && q r) t + count_rows p (delete_where q t).
Proof.
  induction t as [|r t IH]; [done|]. rewrite !count_rows_cons, IH. unfold delete_where. simpl.
  destruct (q r) eqn:Eq; simpl; rewrite ?count_rows_cons, ?andb_true_r, ?andb_false_r; simpl; lia.
Qed.
Lemma count_rows_ext {R} (p q : R -> bool) (t : list R) :
  (forall r, In r t -> p r = q r) -> count_rows p t = count_rows q t.
Proof.
  induction t as [|r t IH]; intros H; [done|].
  rewrite !count_rows_cons, (H r (or_introl eq_refl)), IH by (intros r' Hr; apply H; by right). done.
Qed.
Lemma count_rows_none {R} (p : R -> bool) (t : list R) : exists_row p t = false -> count_rows p t = 0.
Proof. intros H%where_nil_exists. unfold count_rows, where_ in *. by rewrite H. Qed.
(** Rows that agree on a unique key are one row. *)
Lemma count_rows_unique {R Key} (key : R -> Key) (p : R -> bool) (k : Key) (t : list R) :
  unique_on key t -> (forall r, In r t -> p r = true -> key r = k) -> count_rows p t <= 1.
Proof.
  unfold unique_on. induction t as [|r t IH]; [done|]. rewrite count_rows_cons. simpl.
  intros Hn Hk. apply List.NoDup_cons_iff in Hn as [Hr Hn].
  destruct (p r) eqn:E; simpl; [|apply IH; [done|]; intros r' Hin; apply Hk; by right].
  rewrite count_rows_none; [lia|]. apply exists_row_false. intros r' Hin. destruct (p r') eqn:E'; [|done].
  exfalso. apply Hr. rewrite (Hk r (or_introl eq_refl) E), <- (Hk r' (or_intror Hin) E').
  by apply in_map.
Qed.

(** ** ORDER BY and LIMIT *)

Definition limit_rows {R} (n : Z) (t : list R) : list R := take (Z.to_nat n) t.

Definition rel_of {R} (le : R -> R -> bool) (a b : R) : Prop := le a b = true.
#[export] Instance rel_of_dec {R} (le : R -> R -> bool) : RelDecision (rel_of le) :=
  fun a b => bool_eq_dec (le a b) true.

Section OrderBy.
Context {R : Type} (le : R -> R -> bool).

(** Stable: rows that compare equal keep their order. *)
Definition order_by (t : list R) : list R :=
  merge_sort (rel_of le) t.

Lemma order_by_permutation t : Permutation (order_by t) t.
Proof. apply merge_sort_Permutation. Qed.

Lemma in_order_by t r : In r (order_by t) <-> In r t.
Proof.
  split; intros H; (eapply Permutation_in; [|exact H]).
  - apply order_by_permutation.
  - symmetry. apply order_by_permutation.
Qed.

Lemma length_order_by t : length (order_by t) = length t.
Proof. apply Permutation_length, order_by_permutation. Qed.

Lemma order_by_sorted t :
  (forall a b, le a b = true \/ le b a = true) ->
  (forall a b c, le a b = true -> le b c = true -> le a c = true) ->
  StronglySorted (rel_of le) (order_by t).
Proof.
  intros Htot Htr. apply StronglySorted_merge_sort.
  - intros a b c. apply Htr.
  - intros a b. apply Htot.
Qed.
End OrderBy.

(** ** Lists *)

Lemma StronglySorted_app_iff {A} (R : A -> A -> Prop) (l1 l2 : list A) :
  StronglySorted R (l1 ++ l2) <->
  StronglySorted R l1 /\ StronglySorted R l2 /\ (forall a b, In a l1 -> In b l2 -> R a b).
Proof.
  induction l1 as [|a l1 IH]; simpl.
  - split; [intros H; repeat split; [constructor|done|done]|by intros (_ & H & _)].
  - split.
    + inversion 1 as [|? ? Hs Hf]; subst. apply IH in Hs as (H1 & H2 & H3).
      apply Forall_app in Hf as [Hf1 Hf2]. repeat split; [by constructor|done|].
      intros x y [<-|Hx] Hy; [|by apply H3].
      rewrite List.Forall_forall in Hf2. by apply Hf2.
    + intros (H1 & H2 & H3). inversion H1 as [|? ? Hs Hf]; subst. constructor.
      * apply IH. repeat split; [done|done|]. intros x y Hx Hy. apply H3; [by right|done].
      * apply Forall_app. split; [done|]. apply List.Forall_forall.
        intros y Hy. apply H3; [by left|done].
Qed.

Lemma in_reverse {A} (l : list A) (a : A) : In a (reverse l) <-> In a l.
Proof. unfold reverse. rewrite rev_append_rev, app_nil_r. symmetry. apply in_rev. Qed.

Lemma StronglySorted_reverse {A} (R : A -> A -> Prop) (l : list A) :
  StronglySorted R l -> StronglySorted (fun a b => R b a) (reverse l).
Proof.
  induction 1 as [|a l Hs IH Hf]; [constructor|].
  rewrite reverse_cons. apply StronglySorted_app_iff. repeat split; [done| |].
  - repeat constructor.
  - intros x y Hx [<-|[]]. rewrite List.Forall_forall in Hf. apply Hf.
    apply in_reverse. exact Hx.
Qed.

Lemma Forall_In {A} (P : A -> Prop) (l : list A) a : Forall P l -> In a l -> P a.
Proof. rewrite List.Forall_forall. auto. Qed.

Lemma in_take {A} n (l : list A) a : In a (take n l) -> In a l.
Proof. intros H. rewrite <- (take_drop n l). apply in_app_iff. by left. Qed.

Lemma in_drop {A} n (l : list A) a : In a (drop n l) -> In a l.
Proof. intros H. rewrite <- (take_drop n l). apply in_app_iff. by right. Qed.

Lemma StronglySorted_take {A} (R : A -> A -> Prop) n (l : list A) :
  StronglySorted R l -> StronglySorted R (take n l).
Proof. intros H. rewrite <- (take_drop n l) in H. by apply StronglySorted_app_iff in H as (? & _). Qed.

Lemma StronglySorted_drop {A} (R : A -> A -> Prop) n (l : list A) :
  StronglySorted R l -> StronglySorted R (drop n l).
Proof. intros H. rewrite <- (take_drop n l) in H. by apply StronglySorted_app_iff in H as (_ & ? & _). Qed.

(** What a limit cuts off a sorted list is past everything it keeps. *)
Lemma sorted_take_spec {A} (R : A -> A -> Prop) n (l : list A) x :
  StronglySorted R l -> In x l ->
  In x (take n l) \/ (length (take n l) = n /\ forall y, In y (take n l) -> R y x).
Proof.
  intros Hs Hx. rewrite <- (take_drop n l) in Hs, Hx.
  apply StronglySorted_app_iff in Hs as (_ & _ & Hr). apply in_app_iff in Hx as [Hx|Hx]; [by left|].
  right. split; [|by intros y Hy; apply Hr].
  rewrite length_take. destruct (decide (n <= length l)%nat); [lia|].
  rewrite drop_ge in Hx by lia. done.
Qed.

Lemma StronglySorted_Forall2 {A B} (P : A -> B -> Prop) (R : A -> A -> Prop) (R' : B -> B -> Prop) l l' :
  Forall2 P l l' -> (forall a b x y, P a x -> P b y -> R a b -> R' x y) ->
  StronglySorted R l -> StronglySorted R' l'.
Proof.
  intros H Hr. induction H as [|a x l l' Hax H IH]; intros Hs; [constructor|].
  inversion Hs as [|? ? Hs' Hf]; subst. constructor; [by apply IH|].
  clear -Hax H Hf Hr. induction H as [|b y l l' Hby H IH]; [constructor|].
  inversion Hf; subst. constructor; [by apply (Hr a b)|by apply IH].
Qed.

Lemma in_Forall2_l {A B} (P : A -> B -> Prop) l l' a :
  Forall2 P l l' -> In a l -> exists x, In x l' /\ P a x.
Proof.
  induction 1 as [|b y l l' Hby H IH]; simpl; [done|].
  intros [->|Hin]; [eauto|]. destruct (IH Hin) as (x & ? & ?). eauto.
Qed.
Lemma in_Forall2_r {A B} (P : A -> B -> Prop) l l' x :
  Forall2 P l l' -> In x l' -> exists a, In a l /\ P a x.
Proof.
  induction 1 as [|b y l l' Hby H IH]; simpl; [done|].
  intros [->|Hin]; [eauto|]. destruct (IH Hin) as (a & ? & ?). eauto.
Qed.

Lemma NoDup_map_sublist {A B} (f : A -> B) (l : list A) n :
  List.NoDup (map f l) -> List.NoDup (map f (take n l)).
Proof.
  rewrite <- (take_drop n l) at 1. rewrite map_app. intros H%NoDup_ListNoDup%NoDup_app.
  apply NoDup_ListNoDup. tauto.
Qed.

Lemma NoDup_map_reverse {A B} (f : A -> B) (l : list A) :
  List.NoDup (map f l) -> List.NoDup (map f (reverse l)).
Proof.
  intros H. apply (Permutation_NoDup (l := map f l)); [|done].
  apply Permutation_map. symmetry. apply reverse_Permutation.
Qed.

(** [Vec::split_off(at)] keeps the tail from [at]. *)
Definition split_off {A} (n : nat) (l : list A) : list A := drop n l.
Definition truncate {A} (n : nat) (l : list A) : list A := take n l.

(** ** Automation *)

Create HintDb rows.
#[export] Hint Resolve unique_on_snoc unique_on_update unique_on_filter unique_on_take unique_on_nil : rows.
#[export] Hint Rewrite @in_where @in_delete_where @in_update_where @in_order_by : rows.

Ltac bool_simpl :=
  repeat match goal with
  | H : _ && _ = true |- _ => apply andb_true_iff in H as [? ?]
  | H : _ || _ = false |- _ => apply orb_false_iff in H as [? ?]
  | H : negb _ = true |- _ => apply negb_true_iff in H
  | H : negb _ = false |- _ => apply negb_false_iff in H
  | H : bool_decide _ = true |- _ => apply bool_decide_eq_true_1 in H
  | H : bool_decide _ = false |- _ => apply bool_decide_eq_false_1 in H
  | H : is_none _ = true |- _ => apply is_none_true in H
  end.

(** ** Counting the entries of a map *)

Section CountEntries.
Context `{Countable K} {A : Type} (p : A -> bool).
Implicit Types (m : gmap K A).

Definition count_entries m : nat := size (filter (fun e : K * A => p e.2 = true) m).

Lemma count_entries_insert m k a :
  m !! k = None -> count_entries (<[k := a]> m) = ((if p a then 1 else 0) + count_entries m)%nat.
Proof.
  intros Hk. unfold count_entries. destruct (p a) eqn:E.
  - rewrite map_filter_insert_True by done. rewrite map_size_insert_None; [done|].
    apply map_lookup_filter_None. by left.
  - rewrite map_filter_insert_not'; [done|simpl; congruence|]. intros y Hy. by rewrite Hk in Hy.
Qed.

Lemma count_entries_split m k a :
  m !! k = Some a -> count_entries m = ((if p a then 1 else 0) + count_entries (delete k m))%nat.
Proof.
  intros Hk. rewrite <- (insert_delete_id m k a Hk) at 1. apply count_entries_insert, lookup_delete_eq.
Qed.

(** An entry that changes moves the count by what it loses and gains. *)
Lemma count_entries_replace m k old a :
  m !! k = Some old ->
  ((if p old then 1 else 0) + count_entries (<[k := a]> m) = (if p a then 1 else 0) + count_entries m)%nat.
Proof.
  intros Hk. rewrite (count_entries_split m k old Hk).
  rewrite <- (insert_delete_eq m k a), count_entries_insert by apply lookup_delete_eq. lia.
Qed.

Lemma count_entries_size m : (count_entries m <= size m)%nat.
Proof. apply map_size_filter. Qed.
End CountEntries.

(** Maps that agree on which keys count have as many. *)
Lemma count_entries_match `{Countable K} {A B} (p : A -> bool) (q : B -> bool) (m : gmap K A) (m' : gmap K B) :
  (forall k, (exists a, m !! k = Some a /\ p a = true) <-> exists b, m' !! k = Some b /\ q b = true) ->
  count_entries p m = count_entries q m'.
Proof.
  intros Hk. unfold count_entries. rewrite <- !(size_dom (D := gset K)). f_equal.
  apply set_eq. intros k. rewrite !elem_of_dom. specialize (Hk k). unfold is_Some.
  setoid_rewrite map_lookup_filter_Some. exact Hk.
Qed.
