(* ===== verification/Text.v ===== *)
(** * Rust strings

    A [String] is the list of its Unicode scalar values; [len] is its length in
    UTF-8 bytes, as in Rust. The character classes that need the Unicode tables
    ([char::is_alphanumeric], [str::to_lowercase]) and PostgreSQL's [lower] are
    the interface [Unicode], whose laws fix them on ASCII. *)
From Stdlib Require Import Ascii String.
From S2P Require Export Prelude.

Notation rstr := (list Z).

Definition code (a : ascii) : Z := Z.of_N (N_of_ascii a).
(** A string literal. *)
Definition rs (s : string) : rstr := map code (list_ascii_of_string s).

(** ** Lengths *)

Definition utf8_char_len (c : Z) : Z :=
  if c <? 128 then 1 else if c <? 2048 then 2 else if c <? 65536 then 3 else 4.
Fixpoint len (s : rstr) : Z :=
  match s with [] => 0 | c :: s' => utf8_char_len c + len s' end.
Definition is_empty {A} (s : list A) : bool := match s with [] => true | _ => false end.

Lemma utf8_char_len_range c : 1 <= utf8_char_len c <= 4.
Proof. unfold utf8_char_len. repeat destruct (_ <? _); lia. Qed.

Lemma len_app s1 s2 : len (s1 ++ s2) = len s1 + len s2.
Proof. induction s1 as [|c s1 IH]; simpl; [done|]. rewrite IH. lia. Qed.

Lemma len_bounds s : Z.of_nat (length s) <= len s <= 4 * Z.of_nat (length s).
Proof.
  induction s as [|c s IH]; simpl; [lia|].
  pose proof (utf8_char_len_range c). lia.
Qed.

Lemma len_ascii s : Forall (fun c => 0 <= c < 128) s -> len s = Z.of_nat (length s).
Proof.
  induction 1 as [|c s Hc Hs IH]; simpl; [done|]. unfold utf8_char_len.
  destruct (c <? 128) eqn:E; lia.
Qed.

(** ** Character classes *)

Definition in_range (lo hi c : Z) : bool := (lo <=? c) && (c <=? hi).
(** The Unicode [White_Space] property. *)
Definition is_whitespace (c : Z) : bool :=
  in_range 9 13 c || (c =? 32) || (c =? 133) || (c =? 160) || (c =? 5760)
  || in_range 8192 8202 c || (c =? 8232) || (c =? 8233) || (c =? 8239)
  || (c =? 8287) || (c =? 12288).
(** The general category [Cc]. *)
Definition is_control (c : Z) : bool := in_range 0 31 c || in_range 127 159 c.
Definition is_ascii_digit (c : Z) : bool := in_range 48 57 c.
Definition is_ascii_upper (c : Z) : bool := in_range 65 90 c.
Definition is_ascii_lower (c : Z) : bool := in_range 97 122 c.
Definition is_ascii_alphanumeric (c : Z) : bool :=
  is_ascii_digit c || is_ascii_upper c || is_ascii_lower c.
Definition is_ascii_hexdigit (c : Z) : bool :=
  is_ascii_digit c || in_range 65 70 c || in_range 97 102 c.
Definition is_ascii_graphic (c : Z) : bool := in_range 33 126 c.
Definition ascii_lower (c : Z) : Z := if is_ascii_upper c then c + 32 else c.
Definition eq_ignore_ascii_case (a b : rstr) : bool :=
  map ascii_lower a ≟ map ascii_lower b.

(** The digits a string starts with, their number, and the rest. *)
Fixpoint read_digits (acc count : Z) (s : rstr) : Z * Z * rstr :=
  match s with
  | c :: s' => if is_ascii_digit c then read_digits (acc * 10 + (c - 48)) (count + 1) s' else (acc, count, s)
  | [] => (acc, count, [])
  end.
(** [raw.parse()] for an unsigned integer of the given maximum. *)
Definition parse_unsigned (limit : Z) (raw : rstr) : option Z :=
  let s := match raw with c :: s' => if c =? 43 then s' else raw | [] => [] end in
  let '(n, count, rest) := read_digits 0 0 s in
  if (0 <? count) && is_empty rest && (n <=? limit) then Some n else None.

Definition ascii_string (s : rstr) : Prop := Forall (fun c => 0 <= c < 128) s.

Class Unicode := {
  char_is_alphanumeric : Z -> bool;
  to_lowercase : rstr -> rstr;
  pg_lower : rstr -> rstr;
  alphanumeric_ascii c : 0 <= c < 128 -> char_is_alphanumeric c = is_ascii_alphanumeric c;
  to_lowercase_ascii s : ascii_string s -> to_lowercase s = map ascii_lower s;
  pg_lower_ascii s : ascii_string s -> pg_lower s = map ascii_lower s
}.

(** An instance with ASCII tables, for evaluation. *)
#[local] Program Instance ascii_unicode : Unicode := {|
  char_is_alphanumeric := is_ascii_alphanumeric;
  to_lowercase := map ascii_lower;
  pg_lower := map ascii_lower
|}.
Solve All Obligations with done.

(** ** Splitting and trimming *)

Fixpoint trim_start_matches (p : Z -> bool) (s : rstr) : rstr :=
  match s with
  | [] => []
  | c :: s' => if p c then trim_start_matches p s' else s
  end.
Definition trim_matches (p : Z -> bool) (s : rstr) : rstr :=
  reverse (trim_start_matches p (reverse (trim_start_matches p s))).
Definition trim (s : rstr) : rstr := trim_matches is_whitespace s.

(** The maximal runs of characters outside [p], empty ones included. *)
Fixpoint split_on (p : Z -> bool) (s : rstr) : list rstr :=
  match s with
  | [] => [[]]
  | c :: s' =>
      if p c then [] :: split_on p s'
      else match split_on p s' with
           | [] => [[c]]
           | w :: ws => (c :: w) :: ws
           end
  end.
Definition split_whitespace (s : rstr) : list rstr :=
  List.filter (fun w => negb (is_empty w)) (split_on is_whitespace s).

Definition strip_prefix_char (c : Z) (s : rstr) : option rstr :=
  match s with c' :: s' => if c' =? c then Some s' else None | [] => None end.

Fixpoint split_once (c : Z) (s : rstr) : option (rstr * rstr) :=
  match s with
  | [] => None
  | c' :: s' =>
      if c' =? c then Some ([], s')
      else match split_once c s' with
           | Some (a, b) => Some (c' :: a, b)
           | None => None
           end
  end.

Fixpoint starts_with (p s : rstr) : bool :=
  match p, s with
  | [], _ => true
  | c :: p', c' :: s' => (c =? c') && starts_with p' s'
  | _, [] => false
  end.

(** [slice::iter().find_map] *)
Fixpoint find_map {A B} (f : A -> option B) (l : list A) : option B :=
  match l with
  | [] => None
  | a :: l' => match f a with Some b => Some b | None => find_map f l' end
  end.

(** Byte-wise order on strings (code-point order coincides with it). *)
Fixpoint str_leb (a b : rstr) : bool :=
  match a, b with
  | [], _ => true
  | _ :: _, [] => false
  | x :: a', y :: b' => (x <? y) || ((x =? y) && str_leb a' b')
  end.

Lemma str_leb_refl a : str_leb a a = true.
Proof. induction a as [|x a IH]; simpl; [done|]. rewrite IH. lia. Qed.

Lemma str_leb_total a b : str_leb a b = true \/ str_leb b a = true.
Proof.
  revert b. induction a as [|x a IH]; intros [|y b]; simpl; auto.
  destruct (IH b); lia.
Qed.

Lemma str_leb_trans a b c : str_leb a b = true -> str_leb b c = true -> str_leb a c = true.
Proof.
  revert b c. induction a as [|x a IH]; intros [|y b] [|z c]; simpl; try done.
  intros H1 H2. specialize (IH b c).
  destruct (str_leb a b), (str_leb b c); try (rewrite IH by done); lia.
Qed.

Lemma str_leb_antisym a b : str_leb a b = true -> str_leb b a = true -> a = b.
Proof.
  revert b. induction a as [|x a IH]; intros [|y b]; simpl; try done.
  intros H1 H2. assert (x = y) as -> by lia. f_equal. apply IH; lia.
Qed.

(** ** Facts about trimming *)

Lemma trim_start_matches_suffix p s : exists t, s = t ++ trim_start_matches p s.
Proof.
  induction s as [|c s [t IH]]; simpl; [by exists []|].
  destruct (p c); [|by exists []]. exists (c :: t). simpl. by f_equal.
Qed.

Lemma trim_start_matches_head p s c s' :
  trim_start_matches p s = c :: s' -> p c = false.
Proof.
  induction s as [|x s IH]; simpl; [done|].
  destruct (p x) eqn:E; [done|]. by intros [= <- <-].
Qed.

Lemma trim_start_matches_id p s :
  (forall c s', s = c :: s' -> p c = false) -> trim_start_matches p s = s.
Proof. destruct s as [|c s]; [done|]. intros H. simpl. by rewrite (H c s eq_refl). Qed.

(** The trimmed string is an infix, so every property of single characters and
    every bound on the length carries over. *)
Lemma trim_matches_infix p s : exists t1 t2, s = t1 ++ trim_matches p s ++ t2.
Proof.
  destruct (trim_start_matches_suffix p s) as [t1 H1].
  destruct (trim_start_matches_suffix p (reverse (trim_start_matches p s))) as [t2 H2].
  exists t1, (reverse t2). rewrite H1 at 1. f_equal. unfold trim_matches.
  rewrite <- reverse_app, <- H2. by rewrite reverse_involutive.
Qed.

Lemma trim_matches_in p s c : In c (trim_matches p s) -> In c s.
Proof.
  destruct (trim_matches_infix p s) as (t1 & t2 & H). intros Hc.
  rewrite H, !in_app_iff. auto.
Qed.

Lemma trim_matches_len p s : len (trim_matches p s) <= len s.
Proof.
  destruct (trim_matches_infix p s) as (t1 & t2 & H). rewrite H at 2.
  rewrite !len_app. pose proof (len_bounds t1). pose proof (len_bounds t2). lia.
Qed.

Lemma trim_matches_length p s : (length (trim_matches p s) <= length s)%nat.
Proof.
  destruct (trim_matches_infix p s) as (t1 & t2 & H). rewrite H at 2.
  rewrite !length_app. lia.
Qed.

Lemma trim_matches_last p s c t : trim_matches p s = t ++ [c] -> p c = false.
Proof.
  unfold trim_matches. intros H. apply (f_equal reverse) in H.
  rewrite reverse_involutive, reverse_app in H. simpl in H.
  by apply trim_start_matches_head in H.
Qed.

Lemma trim_matches_head p s c t : trim_matches p s = c :: t -> p c = false.
Proof.
  unfold trim_matches. set (u := trim_start_matches p s). intros H.
  destruct (trim_start_matches_suffix p (reverse u)) as [v Hv].
  apply (f_equal reverse) in Hv. rewrite reverse_involutive, reverse_app, H in Hv.
  by apply (trim_start_matches_head p s c (t ++ reverse v)).
Qed.

Lemma trim_matches_id p s :
  (forall c t, s = c :: t -> p c = false) -> (forall c t, s = t ++ [c] -> p c = false) ->
  trim_matches p s = s.
Proof.
  intros Hh Hl. unfold trim_matches. rewrite (trim_start_matches_id p s Hh).
  rewrite trim_start_matches_id; [apply reverse_involutive|].
  intros c t H. apply (Hl c (reverse t)). rewrite <- (reverse_involutive s), H.
  by rewrite reverse_cons.
Qed.

Lemma trim_matches_idem p s : trim_matches p (trim_matches p s) = trim_matches p s.
Proof.
  apply trim_matches_id.
  - intros c t H. by eapply trim_matches_head.
  - intros c t H. by eapply trim_matches_last.
Qed.

(** ** Facts about splitting *)

Lemma in_split_on p s w c : In w (split_on p s) -> In c w -> In c s /\ p c = false.
Proof.
  revert w. induction s as [|x s IH]; intros w; simpl.
  - by intros [<-|[]].
  - destruct (p x) eqn:E.
    + intros [<-|Hw] Hc; [done|]. destruct (IH w Hw Hc). auto.
    + destruct (split_on p s) as [|w0 ws]; simpl.
      * intros [<-|[]] [<-|[]]. auto.
      * intros [<-|Hw] Hc.
        -- destruct Hc as [<-|Hc]; [auto|]. destruct (IH w0 (or_introl eq_refl) Hc). auto.
        -- destruct (IH w (or_intror Hw) Hc). auto.
Qed.

Lemma forallb_in {A} (p : A -> bool) l a : forallb p l = true -> In a l -> p a = true.
Proof. intros H. rewrite forallb_forall in H. apply H. Qed.

Lemma rs_ascii s : forallb (fun c => in_range 0 127 c) (rs s) = true -> ascii_string (rs s).
Proof.
  intros H. apply List.Forall_forall. intros c Hc.
  apply (forallb_in _ _ _ H) in Hc. unfold in_range in Hc. lia.
Qed.

(** Text without the separator is left alone. *)
Lemma trim_matches_none p s : Forall (fun c => p c = false) s -> trim_matches p s = s.
Proof.
  intros H. apply trim_matches_id; intros c t ->.
  - by inversion H.
  - apply Forall_app in H as [_ H]. by inversion H.
Qed.

Lemma split_on_none p s : Forall (fun c => p c = false) s -> split_on p s = [s].
Proof. induction 1 as [|c s Hc Hs IH]; simpl; [done|]. by rewrite Hc, IH. Qed.

Lemma split_once_app c a b : Forall (fun x => x <> c) a -> split_once c (a ++ c :: b) = Some (a, b).
Proof.
  induction 1 as [|x a Hx Ha IH]; simpl.
  - by rewrite Z.eqb_refl.
  - replace (x =? c) with false by lia. by rewrite IH.
Qed.
