(* ===== verification/Errors.v ===== *)
(** * Errors

    [error.rs]: the application error with its HTTP status, the errors of the
    database driver and of the repository, and the conversions [?] applies. *)
From Stdlib Require Import String.
From S2P Require Export Prelude.

Notation StatusCode := Z (only parsing).
Definition BAD_REQUEST : StatusCode := 400.
Definition UNAUTHORIZED : StatusCode := 401.
Definition FORBIDDEN : StatusCode := 403.
Definition NOT_FOUND : StatusCode := 404.
Definition TOO_MANY_REQUESTS : StatusCode := 429.
Definition INTERNAL_SERVER_ERROR : StatusCode := 500.
Definition SERVICE_UNAVAILABLE : StatusCode := 503.

Record AppError := mkAppError { status : StatusCode; message : string }.

Definition bad_request (m : string) : AppError := mkAppError BAD_REQUEST m.
Definition unauthorized (m : string) : AppError := mkAppError UNAUTHORIZED m.
Definition forbidden (m : string) : AppError := mkAppError FORBIDDEN m.
Definition not_found (m : string) : AppError := mkAppError NOT_FOUND m.
Definition internal_server_error (m : string) : AppError := mkAppError INTERNAL_SERVER_ERROR m.
Definition service_unavailable (m : string) : AppError := mkAppError SERVICE_UNAVAILABLE m.
Definition too_many_requests (m : string) : AppError := mkAppError TOO_MANY_REQUESTS m.

(** The driver errors the code can meet: a constraint violation reported by the
    server ([sqlx::Error::Database]), [fetch_one] on no row, a column that does
    not decode, and a lost connection. *)
Inductive SqlxError := SqlxDatabase | SqlxRowNotFound | SqlxDecode | SqlxIo.

(** [redis::RedisError]: a reply of the wrong type or a lost connection. *)
Inductive RedisError := RedisWrongType | RedisIo.

Inductive RepositoryError :=
| Database (error : SqlxError)
| Migration (error : string)
| NotFound
| Forbidden.

#[export] Instance repository_from_sqlx : From SqlxError RepositoryError := Database.

#[export] Instance app_from_sqlx : From SqlxError AppError :=
  fun _ => internal_server_error "database request failed".
#[export] Instance app_from_redis : From RedisError AppError :=
  fun _ => service_unavailable "cache service unavailable".
#[export] Instance app_from_repository : From RepositoryError AppError := fun error =>
  match error with
  | NotFound => not_found "resource not found"
  | Forbidden => forbidden "operation not permitted"
  | Database _ => internal_server_error "database request failed"
  | Migration _ => internal_server_error "database initialization failed"
  end.

Definition map_conflict (error : RepositoryError) : AppError :=
  match error with
  | Database SqlxDatabase => bad_request "email or username already exists"
  | other => from_err other
  end.

(** [IntoResponse]: the status, the headers and the JSON body's [error] field. *)
Definition into_response (e : AppError) : StatusCode * list (string * string) * string :=
  let headers := if status e =? TOO_MANY_REQUESTS then [("retry-after"%string, "1"%string)] else [] in
  (status e, headers, message e).

(** The condition a handler checks before it goes on. *)
Definition ensure {E} (b : bool) (e : E) : Result E unit := if b then Ok tt else Err e.
