(* ===== verification/Validation.v ===== *)
(** * Input validation

    The pure functions every handler runs its input through: channel names,
    drafts, usernames, emoji, upload names, download headers, mentions, cookies
    and the WebSocket origin. *)
From Stdlib Require Import String.
From S2P Require Export Text Errors.

Definition MAIN_CHANNEL : rstr := rs "main".

(** ** Headers *)

(** [HeaderMap]: names with the bytes of their values. *)
Notation HeaderMap := (list (rstr * rstr)).

Definition visible_ascii (c : Z) : bool := in_range 32 126 c || (c =? 9).
(** [headers.get(name).and_then(|v| v.to_str().ok())] *)
Definition header_str (headers : HeaderMap) (name : rstr) : option rstr :=
  match first_row (fun h => h.1 ≟ name) headers with
  | Some (_, v) => if forallb visible_ascii v then Some v else None
  | None => None
  end.

Definition cookie_value (headers : HeaderMap) (name : rstr) : option rstr :=
  match header_str headers (rs "cookie") with
  | None => None
  | Some v =>
      find_map (fun part =>
        match split_once 61 (trim part) with
        | Some (key, value) => if key ≟ name then Some value else None
        | None => None
        end) (split_on (fun c => c =? 59) v)
  end.

Definition client_ip (headers : HeaderMap) : rstr :=
  match header_str headers (rs "cf-connecting-ip") with
  | Some ip => ip
  | None =>
      match header_str headers (rs "x-real-ip") with
      | Some ip => ip
      | None =>
          match header_str headers (rs "x-forwarded-for") with
          | Some s => match split_on (fun c => c =? 44) s with
                      | ip :: _ => trim ip
                      | [] => rs "127.0.0.1"
                      end
          | None => rs "127.0.0.1"
          end
      end
  end.

Definition websocket_origin_allowed (headers : HeaderMap) (configured_origin : option rstr) : bool :=
  match header_str headers (rs "origin") with
  | None => true
  | Some origin =>
      match configured_origin with
      | Some configured => origin ≟ configured
      | None =>
          match header_str headers (rs "host") with
          | None => false
          | Some host =>
              (origin ≟ (rs "http://" ++ host)) || (origin ≟ (rs "https://" ++ host))
          end
      end
  end.

(** [constant_time_compare]: the bytes are folded with [|=] of their [^]. *)
Definition constant_time_compare (a_bytes b_bytes : list Z) : bool :=
  if negb (length a_bytes =? length b_bytes)%nat then false
  else
    let result :=
      fold_left (fun result '(x, y) => Z.lor result (Z.lxor x y)) (combine a_bytes b_bytes) 0 in
    result =? 0.

(** ** Names *)

Section Names.
Context {U : Unicode}.

Definition normalize_channel_name (raw : rstr) : Result AppError rstr :=
  let name := trim raw in
  if is_empty name || (len name >? 40) then
    Err (bad_request "channel name must be 1–40 characters")
  else if (name ≟ MAIN_CHANNEL)
       || negb (forallb (fun c => char_is_alphanumeric c || (c =? 45) || (c =? 95)) name) then
    Err (bad_request "channel name may contain only letters, numbers, '-' and '_'")
  else Ok (to_lowercase name).

(** [normalize_channel_name(..).or_else(..)] of [JoinChannel] and [LoadHistory]. *)
Definition normalize_or_main (raw : rstr) : Result AppError rstr :=
  match normalize_channel_name raw with
  | Ok name => Ok name
  | Err _ => if raw ≟ MAIN_CHANNEL then Ok MAIN_CHANNEL else Err (bad_request "invalid channel")
  end.

Definition reserved_usernames : list rstr :=
  map rs ["admin"; "system"; "here"; "channel"; "everyone"; "administrator"; "moderator"]%string.

Definition validate_username (username : rstr) : Result AppError unit :=
  if (len username <? 2) || (len username >? 40)
     || negb (forallb (fun c => char_is_alphanumeric c || (c =? 95) || (c =? 45)) username) then
    Err (bad_request "invalid username")
  else
    let lower := to_lowercase username in
    if existsb (fun r => lower ≟ r) reserved_usernames then
      Err (bad_request "username is reserved")
    else Ok tt.

(** ** Mentions *)

Definition mention_char (c : Z) : bool :=
  is_ascii_alphanumeric c || (c =? 95) || (c =? 45).

(** [BTreeSet::insert] on the ascending list of its elements. *)
Fixpoint btree_insert (x : rstr) (l : list rstr) : list rstr :=
  match l with
  | [] => [x]
  | y :: l' =>
      if x ≟ y then l else if str_leb x y then x :: l else y :: btree_insert x l'
  end.

Definition mention_token (actor_username : rstr) (token : rstr) : option rstr :=
  match strip_prefix_char 64 token with
  | None => None
  | Some username =>
      let username := trim_matches (fun c => negb (mention_char c)) username in
      if negb (is_empty username) && (len username <=? 64)
         && negb (username ≟ rs "channel") && negb (username ≟ rs "here")
         && negb (to_lowercase username ≟ actor_username)
      then Some (to_lowercase username) else None
  end.

Definition extract_mentioned_usernames (text actor_username : rstr) : list rstr :=
  let actor_username := to_lowercase actor_username in
  fold_left (fun usernames token =>
    match mention_token actor_username token with
    | Some username => btree_insert username usernames
    | None => usernames
    end) (split_whitespace text) [].

Inductive MentionScope := ScopeChannel | ScopeHere.
#[export] Instance mention_scope_eq_dec : EqDecision MentionScope.
Proof. solve_decision. Defined.

Definition mention_scope (text : rstr) : option MentionScope :=
  find_map (fun token =>
    match strip_prefix_char 64 token with
    | None => None
    | Some rest =>
        let username := to_lowercase (trim_matches (fun c => negb (mention_char c)) rest) in
        if username ≟ rs "channel" then Some ScopeChannel
        else if username ≟ rs "here" then Some ScopeHere else None
    end) (split_whitespace text).
End Names.

Definition normalize_draft_body (raw : rstr) : Result AppError rstr :=
  let body := trim raw in
  if len body >? 2000 then Err (bad_request "draft must be at most 2000 characters") else Ok body.

Definition normalize_emoji (raw : rstr) : Result AppError rstr :=
  let emoji := trim raw in
  if is_empty emoji || (len emoji >? 64) || existsb is_control emoji then
    Err (bad_request "emoji must be 1–64 printable characters")
  else Ok emoji.

(** The text check of [SendMessage] and [EditMessage]. *)
Definition normalize_message_text (raw : rstr) : Result AppError rstr :=
  let text := trim raw in
  if is_empty text || (len text >? 2000) then
    Err (bad_request "message must be 1–2000 characters")
  else Ok text.

Definition validate_retention_days (value : option Z) : Result AppError (option Z) :=
  match value with
  | Some days =>
      if (1 <=? days) && (days <=? 3650) then Ok value
      else Err (bad_request "retention must be between 1 and 3650 days")
  | None => Ok value
  end.

(** The length test of [password_hash]. *)
Definition password_policy (password : rstr) : Result AppError unit :=
  if (len password <? 12) || (len password >? 200) then
    Err (bad_request "password must be 12–200 characters")
  else Ok tt.

(** ** Upload and download names *)

Definition is_separator (c : Z) : bool := (c =? 47) || (c =? 92).

Definition sanitize_upload_name (name : rstr) : rstr :=
  let base := match last (split_on is_separator name) with
              | Some b => b | None => rs "upload.bin" end in
  trim (take 255 (List.filter (fun c => negb (is_control c)) base)).

(** The UTF-8 bytes of a string. *)
Definition utf8_encode_char (c : Z) : list Z :=
  if c <? 128 then [c]
  else if c <? 2048 then [192 + c / 64; 128 + c mod 64]
  else if c <? 65536 then [224 + c / 4096; 128 + (c / 64) mod 64; 128 + c mod 64]
  else [240 + c / 262144; 128 + (c / 4096) mod 64; 128 + (c / 64) mod 64; 128 + c mod 64].
Definition as_bytes (s : rstr) : list Z := concat (map utf8_encode_char s).

Definition hex_upper (d : Z) : Z := if d <? 10 then 48 + d else 55 + d.
Definition attr_char (b : Z) : bool :=
  is_ascii_alphanumeric b
  || existsb (fun c => b =? c) [33; 35; 36; 38; 43; 45; 46; 94; 95; 96; 124; 126].
Definition percent_encode_byte (b : Z) : rstr :=
  if attr_char b then [b] else [37; hex_upper (b / 16); hex_upper (b mod 16)].
Definition not_line_break (b : Z) : bool := negb ((b =? 13) || (b =? 10) || (b =? 0)).

Definition ascii_fallback (name : rstr) : rstr :=
  let ascii := take 150 (List.filter (fun c =>
    is_ascii_graphic c && negb ((c =? 34) || (c =? 92) || (c =? 59))) name) in
  if is_empty ascii then rs "download" else ascii.
Definition encoded_name (name : rstr) : rstr :=
  concat (map percent_encode_byte (List.filter not_line_break (as_bytes name))).
Definition content_disposition (name : rstr) : rstr :=
  rs "attachment; filename=" ++ [34] ++ ascii_fallback name ++ [34]
  ++ rs "; filename*=UTF-8''" ++ encoded_name name.

(** ** Blob keys ([FilesystemBlobStore::path], [S3BlobStore::request_url]) *)
Definition storage_key_valid (key : rstr) : bool :=
  negb (is_empty key || existsb (fun c => c =? 47) key || existsb (fun c => c =? 92) key
        || (key ≟ rs ".") || (key ≟ rs "..")).

(** ** Preview text *)
Definition bounded_text (value : rstr) (limit : nat) : option rstr :=
  let normalized :=
    match split_whitespace value with
    | [] => []
    | w :: ws => w ++ concat (map (fun w => 32 :: w) ws)
    end in
  if is_empty normalized then None else Some (take limit normalized).

(** ** Theorems *)

Section CompareFacts.
Lemma fold_lor_zero (l : list (Z * Z)) acc :
  fold_left (fun r '(x, y) => Z.lor r (Z.lxor x y)) l acc = 0
  <-> acc = 0 /\ Forall (fun '(x, y) => x = y) l.
Proof.
  revert acc. induction l as [|[x y] l IH]; intros acc; simpl; [naive_solver|].
  rewrite IH, Z.lor_eq_0_iff, Z.lxor_eq_0_iff, Forall_cons. tauto.
Qed.

Lemma combine_all_eq (a b : list Z) :
  length a = length b -> Forall (fun '(x, y) => x = y) (combine a b) <-> a = b.
Proof.
  revert b. induction a as [|x a IH]; intros [|y b]; simpl; try done.
  intros [= E]. rewrite Forall_cons, (IH b E). naive_solver.
Qed.
End CompareFacts.

(** The CSRF comparison, a loop that folds [|=] over the XOR of the bytes,
    accepts exactly the equal strings: no two different tokens collide in the
    accumulator and no equal pair is refused. *)
Theorem constant_time_compare_correct a b : constant_time_compare a b = true <-> a = b.
Proof.
  unfold constant_time_compare.
  destruct (length a =? length b)%nat eqn:E; simpl.
  - apply Nat.eqb_eq in E. rewrite Z.eqb_eq, fold_lor_zero, (combine_all_eq a b E). tauto.
  - apply Nat.eqb_neq in E. split; [done|]. by intros ->.
Qed.

Section UploadFacts.
Lemma in_last {A} (l : list A) a : last l = Some a -> In a l.
Proof. intros H%last_Some_elem_of. by apply list_elem_of_In. Qed.

Lemma last_split_on_no_sep p s w c :
  last (split_on p s) = Some w -> In c w -> p c = false.
Proof. intros Hw%in_last Hc. by apply (in_split_on p s w c). Qed.
End UploadFacts.

(** An upload name kept by the server is a bare file name: it has no path
    separator of either kind, no control character, at most 255 characters and
    no surrounding white space, whatever the client sent. *)
Theorem sanitize_upload_name_safe name :
  let out := sanitize_upload_name name in
  (forall c, In c out -> is_separator c = false /\ is_control c = false)
  /\ (length out <= 255)%nat /\ trim out = out.
Proof.
  unfold sanitize_upload_name.
  destruct (last (split_on is_separator name)) as [b|] eqn:E.
  - split; [|split].
    + intros c Hc%trim_matches_in%in_take. apply filter_In in Hc as [Hc Hn].
      split; [by eapply last_split_on_no_sep|]. by apply negb_true_iff.
    + etrans; [apply trim_matches_length|]. rewrite length_take. lia.
    + apply trim_matches_idem.
  - exfalso. apply last_None in E. destruct name as [|c name]; simpl in E; [done|].
    destruct (is_separator c); [done|]. by destruct (split_on is_separator name).
Qed.

Section DispositionFacts.
Definition unhex (h : Z) : Z := if h <? 58 then h - 48 else h - 55.
(** The reader of RFC 5987 values. *)
Fixpoint percent_decode (s : list Z) : list Z :=
  match s with
  | [] => []
  | c :: s' =>
      match s' with
      | h :: l :: s'' =>
          if c =? 37 then (16 * unhex h + unhex l) :: percent_decode s''
          else c :: percent_decode s'
      | _ => c :: percent_decode s'
      end
  end.

Definition byte_ok (b : Z) : bool :=
  let e := percent_encode_byte b in
  forallb (fun c => in_range 33 126 c && negb ((c =? 34) || (c =? 92))) e
  && match e with
     | [c] => negb (c =? 37) && (c =? b)
     | [c; h; l] => (c =? 37) && (16 * unhex h + unhex l =? b)
     | _ => false
     end.

Lemma bytes_ok b : 0 <= b < 256 -> byte_ok b = true.
Proof.
  intros Hb.
  assert (forallb byte_ok (map Z.of_nat (seq 0 256)) = true) as H by (vm_compute; reflexivity).
  apply (forallb_in _ _ _ H). apply in_map_iff. exists (Z.to_nat b).
  rewrite in_seq. lia.
Qed.

Lemma percent_decode_encode l :
  Forall (fun b => 0 <= b < 256) l ->
  percent_decode (concat (map percent_encode_byte l)) = l.
Proof.
  induction 1 as [|b l Hb Hl IH]; simpl; [done|].
  pose proof (bytes_ok b Hb) as H. unfold byte_ok in H.
  apply andb_true_iff in H as [_ H].
  destruct (percent_encode_byte b) as [|c [|h [|l0 [|? ?]]]]; try done.
  - apply andb_true_iff in H as [H1 H2]. apply negb_true_iff in H1.
    apply Z.eqb_eq in H2 as ->. simpl.
    destruct (concat _) as [|h [|l0 r]] eqn:E; simpl in *; rewrite ?H1; by rewrite ?IH.
  - apply andb_true_iff in H as [H1 H2]. simpl. rewrite H1.
    apply Z.eqb_eq in H2 as ->. by rewrite IH.
Qed.

Definition scalar (c : Z) : Prop := 0 <= c < 1114112.

Lemma utf8_encode_char_bytes c :
  scalar c -> Forall (fun b => 0 <= b < 256) (utf8_encode_char c).
Proof.
  unfold scalar, utf8_encode_char. intros Hc.
  pose proof (Z.mod_pos_bound c 64 ltac:(lia)).
  pose proof (Z.mod_pos_bound (c / 64) 64 ltac:(lia)).
  pose proof (Z.mod_pos_bound (c / 4096) 64 ltac:(lia)).
  assert (0 <= c / 64 /\ 64 * (c / 64) <= c) by (split; [apply Z.div_pos|apply Z.mul_div_le]; lia).
  assert (0 <= c / 4096 /\ 4096 * (c / 4096) <= c) by (split; [apply Z.div_pos|apply Z.mul_div_le]; lia).
  assert (0 <= c / 262144 /\ 262144 * (c / 262144) <= c) by (split; [apply Z.div_pos|apply Z.mul_div_le]; lia).
  generalize dependent (c mod 64). generalize dependent ((c / 64) mod 64).
  generalize dependent ((c / 4096) mod 64). generalize dependent (c / 64).
  generalize dependent (c / 4096). generalize dependent (c / 262144). intros.
  destruct (c <? 128) eqn:?; [|destruct (c <? 2048) eqn:?; [|destruct (c <? 65536) eqn:?]];
    repeat (apply List.Forall_cons; [lia|]); apply List.Forall_nil.
Qed.

Lemma as_bytes_bytes s : Forall scalar s -> Forall (fun b => 0 <= b < 256) (as_bytes s).
Proof.
  induction 1 as [|c s Hc Hs IH]; [constructor|].
  unfold as_bytes. simpl. apply Forall_app. split; [by apply utf8_encode_char_bytes|done].
Qed.

Lemma utf8_encode_char_inj c d r r' :
  scalar c -> scalar d -> utf8_encode_char c ++ r = utf8_encode_char d ++ r' -> c = d /\ r = r'.
Proof.
  unfold scalar, utf8_encode_char. intros Hc Hd.
  destruct (c <? 128) eqn:?; [|destruct (c <? 2048) eqn:?; [|destruct (c <? 65536) eqn:?]];
    (destruct (d <? 128) eqn:?; [|destruct (d <? 2048) eqn:?; [|destruct (d <? 65536) eqn:?]]);
    cbn [app]; intros [=]; try subst r'; Z.to_euclidean_division_equations; split; try lia; congruence.
Qed.

Lemma as_bytes_inj s t : Forall scalar s -> Forall scalar t -> as_bytes s = as_bytes t -> s = t.
Proof.
  intros Hs. revert t. induction Hs as [|c s Hc Hs IH]; intros [|d t] Ht; [done|..].
  - unfold as_bytes, utf8_encode_char. simpl. by repeat destruct (_ <? _).
  - unfold as_bytes, utf8_encode_char. simpl. by repeat destruct (_ <? _).
  - inversion_clear Ht as [|? ? Hd Ht']. intros E.
    change (utf8_encode_char c ++ as_bytes s = utf8_encode_char d ++ as_bytes t) in E.
    apply utf8_encode_char_inj in E as [-> E]; [|done..]. f_equal. by apply IH.
Qed.

Lemma length_as_bytes s : Z.of_nat (length (as_bytes s)) = len s.
Proof.
  induction s as [|c s IH]; [done|].
  change (as_bytes (c :: s)) with (utf8_encode_char c ++ as_bytes s).
  rewrite length_app, Nat2Z.inj_add, IH. cbn [len]. f_equal.
  unfold utf8_encode_char, utf8_char_len. by repeat destruct (_ <? _).
Qed.

Lemma Forall_bool_filter {A} (P : A -> Prop) p (l : list A) :
  Forall P l -> Forall P (List.filter p l).
Proof.
  induction 1 as [|a l Ha Hl IH]; simpl; [constructor|].
  destruct (p a); [by constructor|done].
Qed.

Lemma encoded_name_chars name c :
  Forall scalar name -> In c (encoded_name name) ->
  in_range 33 126 c = true /\ c <> 34 /\ c <> 92.
Proof.
  intros Hs Hc. unfold encoded_name in Hc.
  apply in_concat in Hc as (e & He & Hc). apply in_map_iff in He as (b & <- & Hb).
  assert (0 <= b < 256) as Hr.
  { apply filter_In in Hb as [Hb _]. by apply (Forall_In _ _ _ (as_bytes_bytes name Hs)). }
  pose proof (bytes_ok b Hr) as H. unfold byte_ok in H.
  apply andb_true_iff in H as [H _]. apply (forallb_in _ _ _ H) in Hc. lia.
Qed.

Lemma ascii_fallback_chars name c :
  In c (ascii_fallback name) -> in_range 33 126 c = true /\ c <> 34 /\ c <> 92 /\ c <> 59.
Proof.
  unfold ascii_fallback. destruct (is_empty _).
  - intros Hc. assert (forallb (fun c => in_range 33 126 c
      && negb ((c =? 34) || (c =? 92) || (c =? 59))) (rs "download") = true) as H by reflexivity.
    apply (forallb_in _ _ _ H) in Hc. lia.
  - intros [_ H]%in_take%filter_In. unfold is_ascii_graphic in H. lia.
Qed.

Lemma ascii_fallback_nonempty name : ascii_fallback name <> [].
Proof. unfold ascii_fallback. destruct (take 150 _); done. Qed.
End DispositionFacts.

(** The download header never lets a stored file name escape its header
    field: every character is visible ASCII (so [HeaderValue] accepts it and no
    CR or LF splits the response), the quoted fallback is non-empty and free of
    quotes, backslashes and semicolons, and decoding the extended value gives
    back the UTF-8 bytes of the name without CR, LF and NUL. *)
Theorem content_disposition_safe name (Hs : Forall scalar name) :
  (forall c, In c (content_disposition name) -> in_range 32 126 c = true)
  /\ ascii_fallback name <> []
  /\ (forall c, In c (ascii_fallback name) -> c <> 34 /\ c <> 92 /\ c <> 59)
  /\ percent_decode (encoded_name name) = List.filter not_line_break (as_bytes name).
Proof.
  split; [|split; [|split]].
  - intros c. unfold content_disposition.
    rewrite !in_app_iff. intros [H|[H|[H|[H|[H|H]]]]].
    + assert (forallb (in_range 32 126) (rs "attachment; filename=") = true) as HH by reflexivity.
      by apply (forallb_in _ _ _ HH).
    + destruct H as [<-|[]]. reflexivity.
    + apply ascii_fallback_chars in H as [H _]. unfold in_range in *. lia.
    + destruct H as [<-|[]]. reflexivity.
    + assert (forallb (in_range 32 126) (rs "; filename*=UTF-8''") = true) as HH by reflexivity.
      by apply (forallb_in _ _ _ HH).
    + apply (encoded_name_chars name c Hs) in H as [H _]. unfold in_range in *. lia.
  - apply ascii_fallback_nonempty.
  - intros c H%ascii_fallback_chars. tauto.
  - apply percent_decode_encode. apply Forall_bool_filter, as_bytes_bytes, Hs.
Qed.

Lemma content_disposition_safe_witness :
  percent_decode (encoded_name [233; 34; 13; 46])
  = List.filter not_line_break (as_bytes [233; 34; 13; 46]).
Proof.
  apply (content_disposition_safe [233; 34; 13; 46]).
  repeat constructor; unfold scalar; lia.
Defined.

(** Evaluations below use the ASCII tables. *)
#[local] Existing Instance ascii_unicode.

Section MentionFacts.
Context {U : Unicode}.

Definition str_lt (a b : rstr) : Prop := str_leb a b = true /\ a <> b.

Lemma str_lt_trans a b c : str_lt a b -> str_lt b c -> str_lt a c.
Proof.
  intros [H1 N1] [H2 N2]. split; [by eapply str_leb_trans|].
  intros <-. apply N1. by apply str_leb_antisym.
Qed.

Lemma in_btree_insert x l y : In y (btree_insert x l) <-> y = x \/ In y l.
Proof.
  induction l as [|z l IH]; simpl; [naive_solver|].
  case_bool_decide; subst; [simpl; naive_solver|].
  destruct (str_leb x z); simpl; rewrite ?IH; naive_solver.
Qed.

Lemma btree_insert_sorted x l :
  StronglySorted str_lt l -> StronglySorted str_lt (btree_insert x l).
Proof.
  induction 1 as [|z l Hs IH Hf]; simpl; [repeat constructor|].
  case_bool_decide as Hxz; [by constructor|].
  destruct (str_leb x z) eqn:E.
  - constructor; [by constructor|]. constructor; [done|].
    eapply List.Forall_impl; [|exact Hf]. intros a Ha. by eapply str_lt_trans.
  - constructor; [done|]. apply List.Forall_forall. intros y [->|Hy]%in_btree_insert.
    + destruct (str_leb_total x z) as [HH|HH]; [congruence|]. split; [done|congruence].
    + rewrite List.Forall_forall in Hf. by apply Hf.
Qed.

Lemma mention_fold_spec actor tokens acc :
  StronglySorted str_lt acc ->
  let out := fold_left (fun usernames token =>
    match mention_token actor token with
    | Some username => btree_insert username usernames
    | None => usernames
    end) tokens acc in
  StronglySorted str_lt out
  /\ (forall u, In u out <-> In u acc \/ exists t, In t tokens /\ mention_token actor t = Some u).
Proof.
  revert acc. induction tokens as [|t tokens IH]; intros acc Hs; cbn [fold_left].
  - split; [done|]. intros u. split; [auto|]. by intros [?|(? & [] & _)].
  - destruct (IH (match mention_token actor t with Some u => btree_insert u acc | None => acc end))
      as [Hs' Hin].
    { destruct (mention_token actor t); [by apply btree_insert_sorted|done]. }
    split; [exact Hs'|]. intros u. rewrite Hin.
    destruct (mention_token actor t) as [v|] eqn:E; rewrite ?in_btree_insert; split.
    + intros [[->|?]|(t' & ? & ?)]; [right; exists t; split; [by left|done]|auto|].
      right. exists t'. split; [by right|done].
    + intros [?|(t' & [<-|?] & Ht)]; [auto| |by eauto]. left. left. congruence.
    + intros [?|(t' & ? & ?)]; [auto|]. right. exists t'. split; [by right|done].
    + intros [?|(t' & [<-|?] & Ht)]; [auto|congruence|by eauto].
Qed.

(** Where a mention comes from: a white-space separated token that starts with
    [@], stripped of punctuation on both sides. *)
Definition mentioned_in (text actor u : rstr) : Prop :=
  exists token rest, In token (split_whitespace text)
    /\ strip_prefix_char 64 token = Some rest
    /\ let name := trim_matches (fun c => negb (mention_char c)) rest in
       name <> [] /\ len name <= 64 /\ name <> rs "channel" /\ name <> rs "here"
       /\ u = to_lowercase name /\ u <> to_lowercase actor.

Lemma mention_token_spec text actor u :
  (exists token, In token (split_whitespace text) /\ mention_token (to_lowercase actor) token = Some u)
  <-> mentioned_in text actor u.
Proof.
  unfold mentioned_in, mention_token. split.
  - intros (token & Hin & H). destruct (strip_prefix_char 64 token) as [rest|] eqn:E; [|done].
    set (name := trim_matches _ rest) in *.
    destruct (_ && _) eqn:Hc in H; [|done]. injection H as <-.
    rewrite !andb_true_iff, !negb_true_iff, !bool_decide_eq_false in Hc. destruct Hc as [[[[H1 H2] H3] H4] H5].
    exists token, rest. do 2 (split; [done|]). fold name. repeat split; try done; [by destruct name|lia].
  - intros (token & rest & Hin & E & H). exists token. split; [done|]. rewrite E.
    set (name := trim_matches _ rest) in *. destruct H as (H1 & H2 & H3 & H4 & -> & H5).
    replace (_ && _) with true; [done|]. symmetry.
    rewrite !andb_true_iff, !negb_true_iff, !bool_decide_eq_false. repeat split; try done; [by destruct name|lia].
Qed.
End MentionFacts.

(** The mentioned usernames are exactly the mentions of the text: they are
    strictly ascending, so without repetitions, and a name is listed if and only
    if it is the lower case of an [@] token stripped of punctuation, with one to
    64 bytes, that is neither [channel] nor [here] nor the author. *)
Theorem extract_mentioned_usernames_spec {U : Unicode} text actor :
  let out := extract_mentioned_usernames text actor in
  StronglySorted str_lt out /\ (forall u, In u out <-> mentioned_in text actor u).
Proof.
  unfold extract_mentioned_usernames. cbv zeta.
  destruct (mention_fold_spec (to_lowercase actor) (split_whitespace text) []) as [Hs Hin]; [constructor|].
  split; [exact Hs|]. intros u. rewrite Hin, <- mention_token_spec. split; [by intros [[]|?]|auto].
Qed.

(** The scope test lowers the name before it compares, the exclusion in the
    mention list compares first: [@Channel] is both. *)
Theorem capitalised_scope_becomes_username :
  mention_scope (rs "hello @Channel") = Some ScopeChannel
  /\ extract_mentioned_usernames (rs "hello @Channel") (rs "author") = [rs "channel"]
  /\ extract_mentioned_usernames (rs "hello @channel") (rs "author") = [].
Proof. repeat split; vm_compute; reflexivity. Qed.

Section ChannelNameFacts.
Context {U : Unicode}.

Definition channel_name_char (c : Z) : bool :=
  is_ascii_digit c || is_ascii_lower c || (c =? 45) || (c =? 95).

Lemma ascii_lower_channel_char c :
  is_ascii_alphanumeric c || (c =? 45) || (c =? 95) = true ->
  channel_name_char (ascii_lower c) = true.
Proof.
  unfold channel_name_char, ascii_lower, is_ascii_alphanumeric, is_ascii_upper,
    is_ascii_lower, is_ascii_digit, in_range. intros H.
  destruct ((65 <=? c) && (c <=? 90)) eqn:E; lia.
Qed.

Lemma channel_char_ws c : channel_name_char c = true -> is_whitespace c = false.
Proof.
  unfold channel_name_char, is_whitespace, is_ascii_lower, is_ascii_digit, in_range. lia.
Qed.

Lemma channel_char_lower c : channel_name_char c = true -> ascii_lower c = c.
Proof.
  unfold channel_name_char, ascii_lower, is_ascii_upper, is_ascii_lower, is_ascii_digit, in_range.
  intros H. destruct ((65 <=? c) && (c <=? 90)) eqn:E; lia.
Qed.

Lemma trim_ascii s : ascii_string s -> ascii_string (trim s).
Proof.
  unfold ascii_string. rewrite !List.Forall_forall. intros H c Hc%trim_matches_in. by apply H.
Qed.

Lemma normalize_channel_name_ok raw out :
  ascii_string raw -> normalize_channel_name raw = Ok out ->
  out = map ascii_lower (trim raw) /\ trim raw <> [] /\ len (trim raw) <= 40
  /\ trim raw <> MAIN_CHANNEL /\ Forall (fun c => channel_name_char c = true) out.
Proof.
  unfold normalize_channel_name. intros Ha.
  pose proof (trim_ascii raw Ha) as Ht. set (name := trim raw) in *.
  destruct (is_empty name || (len name >? 40)) eqn:E1; [done|].
  destruct ((name ≟ MAIN_CHANNEL) || _) eqn:E2; [done|]. intros [= <-].
  bool_simpl. rewrite to_lowercase_ascii by done.
  repeat split; [by destruct name|lia|done|].
  apply List.Forall_forall. intros c (c0 & <- & Hc)%in_map_iff.
  apply ascii_lower_channel_char.
  match goal with H : forallb _ name = true |- _ => apply (forallb_in _ _ _ H) in Hc as Hn end.
  rewrite alphanumeric_ascii in Hn; [done|]. by apply (Forall_In _ _ _ Ht).
Qed.

Lemma channel_chars_ascii name : Forall (fun c => channel_name_char c = true) name -> ascii_string name.
Proof.
  intros Hf. eapply List.Forall_impl; [|exact Hf].
  unfold channel_name_char, is_ascii_digit, is_ascii_lower, in_range. intros c. lia.
Qed.

Lemma channel_char_alphanumeric c :
  channel_name_char c = true -> char_is_alphanumeric c || (c =? 45) || (c =? 95) = true.
Proof.
  intros H. rewrite alphanumeric_ascii
    by (unfold channel_name_char, is_ascii_digit, is_ascii_lower, in_range in H; lia).
  unfold channel_name_char, is_ascii_alphanumeric in *.
  destruct (is_ascii_digit c), (is_ascii_upper c), (is_ascii_lower c), (c =? 45); done.
Qed.

Lemma lowercase_channel_chars name :
  Forall (fun c => channel_name_char c = true) name -> to_lowercase name = name.
Proof.
  intros Hf. rewrite to_lowercase_ascii by (by apply channel_chars_ascii).
  rewrite <- (map_id name) at 2. apply map_ext_in. intros c Hc.
  rewrite List.Forall_forall in Hf. by apply channel_char_lower, Hf.
Qed.

(** A name of the normal form is its own. *)
Lemma normal_channel_name name :
  Forall (fun c => channel_name_char c = true) name -> name <> [] -> len name <= 40 -> name <> MAIN_CHANNEL ->
  normalize_channel_name name = Ok name.
Proof.
  intros Hf Hne Hlen Hmain.
  assert (trim name = name) as Htr.
  { rewrite List.Forall_forall in Hf. apply trim_matches_id; intros c t ->;
      apply channel_char_ws, Hf; [by left|]. apply in_app_iff. right. by left. }
  unfold normalize_channel_name. rewrite Htr.
  replace (is_empty name) with false by (by destruct name).
  replace (len name >? 40) with false by lia. simpl.
  rewrite bool_decide_eq_false_2 by done. simpl.
  replace (forallb _ name) with true; [by rewrite lowercase_channel_chars|].
  symmetry. apply forallb_forall. intros c Hc. apply channel_char_alphanumeric. by apply (Forall_In _ _ _ Hf).
Qed.
End ChannelNameFacts.

(** On ASCII input a normalised channel name is non-empty, at most 40
    bytes, made of [a-z], [0-9], [-] and [_], and normalising it again gives
    the same name unless it is the reserved [main]. *)
Theorem normalize_channel_name_spec {U : Unicode} raw out
    (Ha : ascii_string raw) (Hn : normalize_channel_name raw = Ok out) :
  out <> [] /\ len out <= 40 /\ Forall (fun c => channel_name_char c = true) out
  /\ (out <> MAIN_CHANNEL -> normalize_channel_name out = Ok out).
Proof.
  destruct (normalize_channel_name_ok raw out Ha Hn) as (Ho & Hne & Hl & Hm & Hf).
  assert (len out = len (trim raw)) as Hlen.
  { rewrite !len_ascii by (by apply trim_ascii || by apply channel_chars_ascii).
    rewrite Ho. by rewrite length_map. }
  assert (out <> []) as Hne' by (rewrite Ho; by destruct (trim raw)).
  repeat split; [done|lia|done|]. intros Hmain. apply normal_channel_name; try done. lia.
Qed.

Lemma normalize_channel_name_spec_witness :
  normalize_channel_name (rs "  Team-Room  ") = Ok (rs "team-room")
  /\ len (rs "team-room") <= 40.
Proof.
  split; [reflexivity|].
  apply (normalize_channel_name_spec (rs "  Team-Room  ")); [|reflexivity].
  apply rs_ascii. reflexivity.
Defined.

(** The reserved name is compared before the case is folded, so another
    spelling of it is normalised to the reserved name itself. *)
Example capitalised_main_is_accepted : normalize_channel_name (rs "Main") = Ok MAIN_CHANNEL.
Proof. reflexivity. Qed.
