(* ===== verification/Models.v ===== *)
(** * Identifiers, JSON and the data model

    [models.rs]: the users, messages, participants and events the components
    exchange, with the serde and bitcode boundaries. The [uuid] text format,
    the [serde_json] text format and the [bitcode] format are interfaces
    ([UuidText], [JsonText], [Bitcode]) whose laws are the round trips; the
    hashes are the interface [Crypto]. *)
From Stdlib Require Import String.
From S2P Require Export Text Errors.

(** ** Uuid *)

Record Uuid := mkUuid { uuid_val : N; uuid_bound : Is_true (uuid_val <? 2 ^ 128)%N }.

#[export] Instance uuid_eq_dec : EqDecision Uuid.
Proof.
  intros [x Hx] [y Hy]. destruct (decide (x = y)) as [->|Hne].
  - left. f_equal. apply Is_true_pi.
  - right. congruence.
Defined.

Definition mk_uuid (v : N) : option Uuid :=
  match decide (Is_true (v <? 2 ^ 128)%N) with
  | left H => Some (mkUuid v H)
  | right _ => None
  end.

Lemma mk_uuid_val u : mk_uuid (uuid_val u) = Some u.
Proof.
  destruct u as [v H]. unfold mk_uuid. simpl. destruct (decide _) as [H'|H']; [|done].
  do 2 f_equal. apply Is_true_pi.
Qed.

#[export] Program Instance uuid_countable : Countable Uuid :=
  inj_countable uuid_val mk_uuid mk_uuid_val.

(** [Uuid] derives its order from the bytes, which is the order of the value. *)
Definition uuid_leb (a b : Uuid) : bool := (uuid_val a <=? uuid_val b)%N.
Definition uuid_ltb (a b : Uuid) : bool := (uuid_val a <? uuid_val b)%N.
Definition uuid_nil : Uuid := mkUuid 0 I.

Lemma uuid_leb_antisym a b : uuid_leb a b = true -> uuid_leb b a = true -> a = b.
Proof.
  destruct a as [x Hx], b as [y Hy]. unfold uuid_leb. simpl. intros H1 H2.
  assert (x = y) as -> by lia. f_equal. apply Is_true_pi.
Qed.

(** The [uuid] crate's text format. *)
Class UuidText := {
  uuid_to_string : Uuid -> rstr;
  uuid_parse : rstr -> option Uuid;
  uuid_parse_to_string u : uuid_parse (uuid_to_string u) = Some u;
  uuid_text_class u :
    Forall (fun c => is_ascii_digit c || in_range 97 102 c || (c =? 45) = true) (uuid_to_string u)
}.

(** [Uuid::as_bytes]: sixteen bytes, the most significant first. *)
Definition uuid_as_bytes (u : Uuid) : list Z :=
  map (fun i => Z.land (Z.shiftr (Z.of_N (uuid_val u)) (8 * (15 - i))) 255) (seqZ 0 16).

Lemma uuid_to_string_inj {T : UuidText} a b : uuid_to_string a = uuid_to_string b -> a = b.
Proof. intros H%(f_equal uuid_parse). rewrite !uuid_parse_to_string in H. congruence. Qed.

(** The hashes of the [sha2] and [argon2] crates. *)
Class Crypto := {
  sha256 : list Z -> list Z;
  sha256_length bytes : length (sha256 bytes) = 32%nat;
  argon2_hash : list Z -> rstr -> option rstr;
  argon2_verify : rstr -> rstr -> bool;
  argon2_verify_hash salt password h :
    argon2_hash salt password = Some h -> argon2_verify password h = true
}.

(** ** JSON *)

Inductive json :=
| JNull
| JBool (b : bool)
| JNum (z : Z)
| JStr (s : rstr)
| JArr (l : list json)
| JObj (l : list (rstr * json)).

Definition json_get (j : json) (field : rstr) : option json :=
  match j with
  | JObj l => match first_row (fun kv => kv.1 ≟ field) l with Some (_, v) => Some v | None => None end
  | _ => None
  end.
Definition json_as_str (j : json) : option rstr := match j with JStr s => Some s | _ => None end.
Definition json_as_bool (j : json) : option bool := match j with JBool b => Some b | _ => None end.
Definition json_as_array (j : json) : option (list json) :=
  match j with JArr l => Some l | _ => None end.
Definition json_empty : json := JObj [].

Class JsonText := {
  json_to_string : json -> rstr;
  json_from_str : rstr -> option json;
  json_from_to j : json_from_str (json_to_string j) = Some j
}.

(** ** The data model *)

Record AuthUser := mkAuthUser {
  user_id : Uuid;
  email : rstr;
  username : rstr;
  roles : list rstr;
  permissions : list rstr
}.

Record Session := mkSession { session_id : Uuid; csrf : rstr; session_user : AuthUser }.

(** The values the [CHECK] constraints admit for [channels.kind] and
    [channel_members.membership_role]. *)
Inductive ChannelKind := Public | Private | Direct.
Inductive MemberRole := Owner | Moderator | Member.

#[export] Instance channel_kind_eq_dec : EqDecision ChannelKind.
Proof. solve_decision. Defined.
#[export] Instance member_role_eq_dec : EqDecision MemberRole.
Proof. solve_decision. Defined.

Record ChannelMember := mkChannelMember {
  member_user_id : Uuid; member_username : rstr; membership_role : MemberRole
}.

Record ReactionSummary := mkReactionSummary {
  reaction_message_id : Uuid; reaction_emoji : rstr; reaction_user_ids : list Uuid
}.

Record ConversationSummary := mkConversationSummary {
  conv_id : Uuid;
  conv_name : rstr;
  conv_kind : ChannelKind;
  conv_owner_user_id : option Uuid;
  conv_display_name : rstr;
  conv_peer_user_id : option Uuid;
  conv_peer_username : option rstr;
  conv_last_message_at : option Z
}.

Record ChatMessage := mkChatMessage {
  msg_id : Uuid;
  msg_channel : rstr;
  msg_username : rstr;
  msg_text : rstr;
  msg_created_at : Z;
  msg_edited : bool;
  msg_deleted : bool;
  msg_root_message_id : option Uuid;
  msg_reply_count : Z;
  msg_metadata : json;
  msg_mentions : list rstr;
  msg_client_id : option rstr;
  msg_file_ids : list Uuid
}.

Record StoredMessage := mkStoredMessage {
  stored_id : Uuid;
  stored_channel : rstr;
  stored_username : rstr;
  stored_text : rstr;
  stored_created_at : Z;
  stored_edited : bool;
  stored_deleted : bool;
  stored_root_message_id : option Uuid;
  stored_reply_count : Z;
  stored_metadata_json : rstr;
  stored_mentions : list rstr;
  stored_client_id : option rstr;
  stored_file_ids : list Uuid;
  stored_owner_session : Uuid
}.

Record Participant := mkParticipant {
  part_user_id : Uuid;
  part_username : rstr;
  part_display_name : rstr;
  part_custom_status : rstr;
  part_roles : list rstr;
  part_online : bool
}.

Inductive HistorySource := Cache | DatabaseSource.

Inductive ClientEvent :=
| ListChannels
| CreateChannel (name : rstr)
| CreatePrivateChannel (name : rstr)
| OpenDirect (user : Uuid)
| InviteMember (channel : rstr) (user : Uuid)
| RemoveMember (channel : rstr) (user : Uuid)
| JoinChannel (name : rstr)
| DeleteChannel (name : rstr)
| DeleteMessage (id : Uuid)
| AddReaction (message_id : Uuid) (emoji : rstr)
| RemoveReaction (message_id : Uuid) (emoji : rstr)
| Typing (typing : bool)
| MarkRead (message_id : Uuid) (created_at : Z)
| SendMessage (text : rstr) (root_message_id : option Uuid) (client_id : option rstr)
    (file_ids : list Uuid)
| EditMessage (id : Uuid) (text : rstr)
| LoadHistory (channel : rstr) (before_created_at : Z) (before_id : Uuid)
| LoadThread (message_id : Uuid) (before_created_at : option Z) (before_id : option Uuid)
| Heartbeat.

Inductive ServerEvent :=
| SvWelcome (name : rstr)
| SvChannels (channels : list rstr)
| SvPrivateConversations (conversations : list ConversationSummary)
| SvMembers (channel : rstr) (members : list ChannelMember)
| SvChannelCreated (name : rstr)
| SvChannelDeleted (name : rstr)
| SvJoined (name : rstr)
| SvHistory (channel : rstr) (messages : list ChatMessage) (source : HistorySource) (has_more : bool)
| SvHistoryPage (channel : rstr) (messages : list ChatMessage) (source : HistorySource) (has_more : bool)
| SvMessage (m : ChatMessage)
| SvMessageUpdated (m : ChatMessage)
| SvThreadHistory (root_message_id : Uuid) (messages : list ChatMessage) (has_more : bool)
| SvReactionUpdated (channel : rstr) (reaction : ReactionSummary)
| SvTyping (channel : rstr) (user : Uuid) (name : rstr) (typing : bool)
| SvReadStateUpdated (channel : rstr) (user : Uuid) (message_id : Uuid) (created_at : Z)
| SvError (text : string)
| SvParticipants (channel : rstr) (participants : list Participant)
| SvParticipantJoined (channel : rstr) (participant : Participant)
| SvParticipantLeft (channel : rstr) (user : Uuid)
| SvPresenceSync (channel : rstr) (participants : list Participant).

(** ** Rows of the message queries *)

(** The columns the message SELECTs return; [bigint] columns are [i64]. *)
Record MessageSelect := mkMessageSelect {
  sel_id : Uuid;
  sel_channel : rstr;
  sel_username : rstr;
  sel_text : rstr;
  sel_created_at : Z;
  sel_edited : bool;
  sel_deleted : bool;
  sel_root_message_id : option Uuid;
  sel_reply_count : Z;
  sel_metadata : json;
  sel_mentions : list rstr;
  sel_client_id : option rstr;
  sel_file_ids : list Uuid
}.

(** [T::try_from(i64)] for an unsigned [T] with maximum [max]. *)
Definition checked_unsigned (max value : Z) : Result SqlxError Z :=
  if (0 <=? value) && (value <=? max) then Ok value else Err SqlxDecode.

Definition try_from_row (row : MessageSelect) : Result SqlxError ChatMessage :=
  match checked_unsigned u64_max (sel_created_at row), checked_unsigned u32_max (sel_reply_count row) with
  | Ok created_at, Ok reply_count =>
      Ok {| msg_id := sel_id row; msg_channel := sel_channel row; msg_username := sel_username row;
            msg_text := sel_text row; msg_created_at := created_at; msg_edited := sel_edited row;
            msg_deleted := sel_deleted row; msg_root_message_id := sel_root_message_id row;
            msg_reply_count := reply_count; msg_metadata := sel_metadata row;
            msg_mentions := sel_mentions row; msg_client_id := sel_client_id row;
            msg_file_ids := sel_file_ids row |}
  | Err e, _ => Err e
  | _, Err e => Err e
  end.

Section Stored.
Context {J : JsonText}.

Definition from_message (m : ChatMessage) (owner_session : Uuid) : StoredMessage :=
  {| stored_id := msg_id m; stored_channel := msg_channel m; stored_username := msg_username m;
     stored_text := msg_text m; stored_created_at := msg_created_at m;
     stored_edited := msg_edited m; stored_deleted := msg_deleted m;
     stored_root_message_id := msg_root_message_id m; stored_reply_count := msg_reply_count m;
     stored_metadata_json := json_to_string (msg_metadata m); stored_mentions := msg_mentions m;
     stored_client_id := msg_client_id m; stored_file_ids := msg_file_ids m;
     stored_owner_session := owner_session |}.

Definition into_message (s : StoredMessage) : ChatMessage :=
  {| msg_id := stored_id s; msg_channel := stored_channel s; msg_username := stored_username s;
     msg_text := stored_text s; msg_created_at := stored_created_at s;
     msg_edited := stored_edited s; msg_deleted := stored_deleted s;
     msg_root_message_id := stored_root_message_id s; msg_reply_count := stored_reply_count s;
     msg_metadata := match json_from_str (stored_metadata_json s) with
                     | Some j => j | None => json_empty end;
     msg_mentions := stored_mentions s; msg_client_id := stored_client_id s;
     msg_file_ids := stored_file_ids s |}.

Lemma into_from_message m s : into_message (from_message m s) = m.
Proof. destruct m. unfold into_message, from_message. simpl. by rewrite json_from_to. Qed.
End Stored.

(** The [bitcode] format of [StoredMessage]. *)
Class Bitcode := {
  bitcode_encode : StoredMessage -> rstr;
  bitcode_decode : rstr -> option StoredMessage;
  bitcode_decode_encode m : bitcode_decode (bitcode_encode m) = Some m
}.

(** ** serde of the values kept in the cache *)

Section Serde.
Context {T : UuidText}.

Definition json_uuid (u : Uuid) : json := JStr (uuid_to_string u).
Definition json_as_uuid (j : json) : option Uuid := json_as_str j ≫= uuid_parse.
Definition json_as_strings (j : json) : option (list rstr) :=
  json_as_array j ≫= mapM json_as_str.

Definition user_to_json (u : AuthUser) : json :=
  JObj [(rs "id", json_uuid (user_id u)); (rs "email", JStr (email u));
        (rs "username", JStr (username u)); (rs "roles", JArr (map JStr (roles u)));
        (rs "permissions", JArr (map JStr (permissions u)))].
Definition user_from_json (j : json) : option AuthUser :=
  id ← json_get j (rs "id") ≫= json_as_uuid;
  email ← json_get j (rs "email") ≫= json_as_str;
  name ← json_get j (rs "username") ≫= json_as_str;
  roles ← json_get j (rs "roles") ≫= json_as_strings;
  permissions ← json_get j (rs "permissions") ≫= json_as_strings;
  Some (mkAuthUser id email name roles permissions).

(** [#[serde(default)]]: an absent field is the empty string. *)
Definition json_str_default (j : json) (field : rstr) : option rstr :=
  match json_get j field with None => Some [] | Some v => json_as_str v end.

Definition participant_to_json (p : Participant) : json :=
  JObj [(rs "user_id", json_uuid (part_user_id p)); (rs "username", JStr (part_username p));
        (rs "display_name", JStr (part_display_name p));
        (rs "custom_status", JStr (part_custom_status p));
        (rs "roles", JArr (map JStr (part_roles p))); (rs "online", JBool (part_online p))].
Definition participant_from_json (j : json) : option Participant :=
  id ← json_get j (rs "user_id") ≫= json_as_uuid;
  name ← json_get j (rs "username") ≫= json_as_str;
  display ← json_str_default j (rs "display_name");
  custom ← json_str_default j (rs "custom_status");
  roles ← json_get j (rs "roles") ≫= json_as_strings;
  online ← json_get j (rs "online") ≫= json_as_bool;
  Some (mkParticipant id name display custom roles online).

Lemma json_as_uuid_uuid u : json_as_uuid (json_uuid u) = Some u.
Proof. apply uuid_parse_to_string. Qed.

Lemma mapM_json_strings (l : list rstr) : mapM json_as_str (map JStr l) = Some l.
Proof. induction l as [|s l IH]; simpl; [done|]. by rewrite IH. Qed.

Lemma json_get_head k v l : json_get (JObj ((k, v) :: l)) k = Some v.
Proof. unfold json_get. simpl. by rewrite bool_decide_eq_true_2. Qed.
Lemma json_get_tail k k' v l :
  (k ≟ k') = false -> json_get (JObj ((k, v) :: l)) k' = json_get (JObj l) k'.
Proof. unfold json_get. simpl. intros H. by rewrite H. Qed.

Lemma user_from_to_json u : user_from_json (user_to_json u) = Some u.
Proof.
  destruct u. unfold user_from_json, user_to_json, json_as_strings.
  repeat (rewrite json_get_tail by reflexivity || rewrite json_get_head).
  simpl. rewrite json_as_uuid_uuid. simpl. rewrite !mapM_json_strings. done.
Qed.

Lemma participant_from_to_json p : participant_from_json (participant_to_json p) = Some p.
Proof.
  destruct p. unfold participant_from_json, participant_to_json, json_as_strings, json_str_default.
  repeat (rewrite json_get_tail by reflexivity || rewrite json_get_head).
  simpl. rewrite json_as_uuid_uuid. simpl. rewrite mapM_json_strings. done.
Qed.
End Serde.

(** A message written to the hot cache and read back is the message: the
    binary record, with its metadata serialised as JSON text, loses nothing. *)
Theorem stored_message_round_trip {J : JsonText} {B : Bitcode} m s :
  option_map into_message (bitcode_decode (bitcode_encode (from_message m s))) = Some m.
Proof. rewrite bitcode_decode_encode. simpl. by rewrite into_from_message. Qed.

Section RowFacts.
Lemma checked_unsigned_ok max v w : checked_unsigned max v = Ok w -> w = v /\ 0 <= v <= max.
Proof. unfold checked_unsigned. destruct (_ && _) eqn:E; [|done]. intros [= <-]. lia. Qed.

Lemma try_from_row_ok row m :
  try_from_row row = Ok m ->
  msg_id m = sel_id row /\ msg_created_at m = sel_created_at row
  /\ 0 <= msg_created_at m <= u64_max /\ 0 <= msg_reply_count m <= u32_max.
Proof.
  unfold try_from_row.
  destruct (checked_unsigned _ (sel_created_at row)) eqn:E1; [|done].
  destruct (checked_unsigned _ (sel_reply_count row)) eqn:E2; [|done].
  apply checked_unsigned_ok in E1 as [-> ?], E2 as [-> ?]. intros [= <-]. done.
Qed.
End RowFacts.
