(* ===== verification/Schema.v ===== *)
(** * The database schema

    One record per table of [backend/migrations], with the columns the
    statements use, and the database as the record of its tables. A [set_]
    function replaces one table. *)
From S2P Require Export Models.

Record UserRow := mkUserRow {
  u_id : Uuid; u_email : rstr; u_username : rstr; u_password_hash : rstr;
  u_disabled_at : option Z; u_role_version : Z; u_created_at : Z; u_updated_at : Z;
  u_deleted_at : option Z; u_display_name : rstr; u_custom_status : rstr;
  u_status_expires_at : option Z
}.

Record RoleRow := mkRoleRow {
  ro_id : Uuid; ro_name : rstr
}.

Record PermissionRow := mkPermissionRow {
  pe_id : Uuid; pe_name : rstr
}.

Record RolePermissionRow := mkRolePermissionRow {
  rp_role_id : Uuid; rp_permission_id : Uuid
}.

Record UserRoleRow := mkUserRoleRow {
  ur_user_id : Uuid; ur_role_id : Uuid; ur_assigned_at : Z
}.

Record ChannelRow := mkChannelRow {
  c_id : Uuid; c_name : rstr; c_kind : ChannelKind; c_owner_user_id : option Uuid;
  c_direct_key : option rstr; c_created_at : Z; c_deleted_at : option Z;
  c_archived_at : option Z; c_description : rstr; c_retention_days : Z;
  c_posting_restricted : bool
}.

Record MemberRow := mkMemberRow {
  cm_channel_id : Uuid; cm_user_id : Uuid; cm_role : MemberRole;
  cm_invited_by : option Uuid; cm_created_at : Z
}.

Record MessageRow := mkMessageRow {
  m_id : Uuid; m_channel_id : Uuid; m_username : rstr; m_text : rstr; m_created_at : Z;
  m_edited : bool; m_owner_session : Uuid; m_owner_user_id : option Uuid;
  m_root_message_id : option Uuid; m_client_id : option rstr; m_metadata : json;
  m_mentions : list rstr; m_deleted_at : option Z; m_deleted_by : option Uuid;
  m_deletion_reason : option rstr
}.

Record FileRow := mkFileRow {
  f_id : Uuid; f_uploader_user_id : Uuid; f_storage_key : rstr; f_original_name : rstr;
  f_content_type : rstr; f_size_bytes : Z; f_checksum : rstr; f_created_at : Z;
  f_deleted_at : option Z
}.

Record MessageFileRow := mkMessageFileRow {
  mf_message_id : Uuid; mf_file_id : Uuid
}.

Record ReactionRow := mkReactionRow {
  re_message_id : Uuid; re_user_id : Uuid; re_emoji : rstr; re_created_at : Z
}.

Record ReadRow := mkReadRow {
  rd_user_id : Uuid; rd_channel_id : Uuid; rd_last_read_created_at : Z;
  rd_last_read_message_id : option Uuid; rd_updated_at : Z
}.

Record DraftRow := mkDraftRow {
  dr_user_id : Uuid; dr_channel_id : Uuid; dr_body : rstr; dr_updated_at : Z
}.

Record FavoriteRow := mkFavoriteRow {
  fav_user_id : Uuid; fav_channel_id : Uuid; fav_created_at : Z
}.

Record InviteRow := mkInviteRow {
  inv_id : Uuid; inv_channel_id : Uuid; inv_token_hash : rstr; inv_created_by : Uuid;
  inv_expires_at : option Z; inv_max_uses : Z; inv_uses : Z; inv_created_at : Z
}.

Record BanRow := mkBanRow {
  ban_id : Uuid; ban_user_id : Uuid; ban_channel_id : option Uuid; ban_reason : rstr;
  ban_created_by : option Uuid; ban_expires_at : option Z; ban_created_at : Z;
  ban_revoked_at : option Z; ban_revoked_by : option Uuid
}.

Record AuditRow := mkAuditRow {
  au_id : Uuid; au_actor_user_id : option Uuid; au_action : rstr; au_target_type : rstr;
  au_target_id : Uuid; au_metadata : json; au_created_at : Z
}.

Record OutboxRow := mkOutboxRow {
  ob_id : Uuid; ob_topic : rstr; ob_payload : json; ob_created_at : Z;
  ob_published_at : option Z; ob_attempts : Z; ob_claimed_at : option Z
}.

Record NotificationRow := mkNotificationRow {
  n_id : Uuid; n_user_id : Uuid; n_actor_user_id : option Uuid; n_kind : rstr;
  n_message_id : option Uuid; n_channel_id : option Uuid; n_body : rstr; n_created_at : Z;
  n_read_at : option Z
}.

Record PreferenceRow := mkPreferenceRow {
  np_user_id : Uuid; np_mentions : bool; np_direct_messages : bool;
  np_channel_messages : bool; np_email_enabled : bool; np_browser_push_enabled : bool;
  np_updated_at : Z
}.

Record DeliveryRow := mkDeliveryRow {
  d_id : Uuid; d_notification_id : Uuid; d_user_id : Uuid; d_channel : rstr;
  d_email : rstr; d_kind : rstr; d_body : rstr; d_attempts : Z; d_next_attempt_at : Z;
  d_claimed_at : option Z; d_sent_at : option Z; d_last_error : option rstr
}.

Record SubscriptionRow := mkSubscriptionRow {
  sub_id : Uuid; sub_user_id : Uuid; sub_endpoint : rstr; sub_p256dh : rstr;
  sub_auth : rstr; sub_created_at : Z; sub_updated_at : Z
}.

Record RecoveryRow := mkRecoveryRow {
  rt_id : Uuid; rt_user_id : Uuid; rt_token_hash : rstr; rt_expires_at : Z;
  rt_created_at : Z; rt_used_at : option Z
}.

Record SavedRow := mkSavedRow {
  sv_user_id : Uuid; sv_message_id : Uuid; sv_created_at : Z
}.

Record ReportRow := mkReportRow {
  rep_id : Uuid; rep_message_id : Uuid; rep_reporter_user_id : Uuid; rep_reason : rstr;
  rep_status : rstr; rep_created_at : Z; rep_resolved_at : option Z;
  rep_resolved_by : option Uuid
}.

Record EditHistoryRow := mkEditHistoryRow {
  eh_id : Uuid; eh_message_id : Uuid; eh_editor_user_id : option Uuid; eh_previous_text : rstr;
  eh_created_at : Z
}.

Record Db := mkDb {
  users : list UserRow; roles_t : list RoleRow; permissions_t : list PermissionRow;
  role_permissions : list RolePermissionRow; user_roles : list UserRoleRow;
  channels : list ChannelRow; channel_members : list MemberRow; messages : list MessageRow;
  files : list FileRow; message_files : list MessageFileRow;
  message_reactions : list ReactionRow; channel_reads : list ReadRow;
  channel_drafts : list DraftRow; channel_favorites : list FavoriteRow;
  channel_invite_links : list InviteRow; user_bans : list BanRow;
  audit_events : list AuditRow; outbox_events : list OutboxRow;
  notifications : list NotificationRow; notification_preferences : list PreferenceRow;
  notification_deliveries : list DeliveryRow;
  notification_subscriptions : list SubscriptionRow;
  account_recovery_tokens : list RecoveryRow; saved_messages : list SavedRow;
  message_reports : list ReportRow; message_edit_history : list EditHistoryRow
}.

Definition empty_db : Db :=
  mkDb [] [] [] [] [] [] [] [] [] [] [] [] [] [] [] [] [] [] [] [] [] [] [] [] [] [].

Definition set_users (f : list UserRow -> list UserRow) (d : Db) : Db :=
  mkDb (f (users d)) (roles_t d) (permissions_t d) (role_permissions d) (user_roles d)
    (channels d) (channel_members d) (messages d) (files d) (message_files d)
    (message_reactions d) (channel_reads d) (channel_drafts d) (channel_favorites d)
    (channel_invite_links d) (user_bans d) (audit_events d) (outbox_events d)
    (notifications d) (notification_preferences d) (notification_deliveries d)
    (notification_subscriptions d) (account_recovery_tokens d) (saved_messages d)
    (message_reports d) (message_edit_history d).

Definition set_roles_t (f : list RoleRow -> list RoleRow) (d : Db) : Db :=
  mkDb (users d) (f (roles_t d)) (permissions_t d) (role_permissions d) (user_roles d)
    (channels d) (channel_members d) (messages d) (files d) (message_files d)
    (message_reactions d) (channel_reads d) (channel_drafts d) (channel_favorites d)
    (channel_invite_links d) (user_bans d) (audit_events d) (outbox_events d)
    (notifications d) (notification_preferences d) (notification_deliveries d)
    (notification_subscriptions d) (account_recovery_tokens d) (saved_messages d)
    (message_reports d) (message_edit_history d).

Definition set_permissions_t (f : list PermissionRow -> list PermissionRow) (d : Db) : Db :=
  mkDb (users d) (roles_t d) (f (permissions_t d)) (role_permissions d) (user_roles d)
    (channels d) (channel_members d) (messages d) (files d) (message_files d)
    (message_reactions d) (channel_reads d) (channel_drafts d) (channel_favorites d)
    (channel_invite_links d) (user_bans d) (audit_events d) (outbox_events d)
    (notifications d) (notification_preferences d) (notification_deliveries d)
    (notification_subscriptions d) (account_recovery_tokens d) (saved_messages d)
    (message_reports d) (message_edit_history d).

Definition set_role_permissions (f : list RolePermissionRow -> list RolePermissionRow) (d : Db) : Db :=
  mkDb (users d) (roles_t d) (permissions_t d) (f (role_permissions d)) (user_roles d)
    (channels d) (channel_members d) (messages d) (files d) (message_files d)
    (message_reactions d) (channel_reads d) (channel_drafts d) (channel_favorites d)
    (channel_invite_links d) (user_bans d) (audit_events d) (outbox_events d)
    (notifications d) (notification_preferences d) (notification_deliveries d)
    (notification_subscriptions d) (account_recovery_tokens d) (saved_messages d)
    (message_reports d) (message_edit_history d).

Definition set_user_roles (f : list UserRoleRow -> list UserRoleRow) (d : Db) : Db :=
  mkDb (users d) (roles_t d) (permissions_t d) (role_permissions d) (f (user_roles d))
    (channels d) (channel_members d) (messages d) (files d) (message_files d)
    (message_reactions d) (channel_reads d) (channel_drafts d) (channel_favorites d)
    (channel_invite_links d) (user_bans d) (audit_events d) (outbox_events d)
    (notifications d) (notification_preferences d) (notification_deliveries d)
    (notification_subscriptions d) (account_recovery_tokens d) (saved_messages d)
    (message_reports d) (message_edit_history d).

Definition set_channels (f : list ChannelRow -> list ChannelRow) (d : Db) : Db :=
  mkDb (users d) (roles_t d) (permissions_t d) (role_permissions d) (user_roles d)
    (f (channels d)) (channel_members d) (messages d) (files d) (message_files d)
    (message_reactions d) (channel_reads d) (channel_drafts d) (channel_favorites d)
    (channel_invite_links d) (user_bans d) (audit_events d) (outbox_events d)
    (notifications d) (notification_preferences d) (notification_deliveries d)
    (notification_subscriptions d) (account_recovery_tokens d) (saved_messages d)
    (message_reports d) (message_edit_history d).

Definition set_channel_members (f : list MemberRow -> list MemberRow) (d : Db) : Db :=
  mkDb (users d) (roles_t d) (permissions_t d) (role_permissions d) (user_roles d)
    (channels d) (f (channel_members d)) (messages d) (files d) (message_files d)
    (message_reactions d) (channel_reads d) (channel_drafts d) (channel_favorites d)
    (channel_invite_links d) (user_bans d) (audit_events d) (outbox_events d)
    (notifications d) (notification_preferences d) (notification_deliveries d)
    (notification_subscriptions d) (account_recovery_tokens d) (saved_messages d)
    (message_reports d) (message_edit_history d).

Definition set_messages (f : list MessageRow -> list MessageRow) (d : Db) : Db :=
  mkDb (users d) (roles_t d) (permissions_t d) (role_permissions d) (user_roles d)
    (channels d) (channel_members d) (f (messages d)) (files d) (message_files d)
    (message_reactions d) (channel_reads d) (channel_drafts d) (channel_favorites d)
    (channel_invite_links d) (user_bans d) (audit_events d) (outbox_events d)
    (notifications d) (notification_preferences d) (notification_deliveries d)
    (notification_subscriptions d) (account_recovery_tokens d) (saved_messages d)
    (message_reports d) (message_edit_history d).

Definition set_files (f : list FileRow -> list FileRow) (d : Db) : Db :=
  mkDb (users d) (roles_t d) (permissions_t d) (role_permissions d) (user_roles d)
    (channels d) (channel_members d) (messages d) (f (files d)) (message_files d)
    (message_reactions d) (channel_reads d) (channel_drafts d) (channel_favorites d)
    (channel_invite_links d) (user_bans d) (audit_events d) (outbox_events d)
    (notifications d) (notification_preferences d) (notification_deliveries d)
    (notification_subscriptions d) (account_recovery_tokens d) (saved_messages d)
    (message_reports d) (message_edit_history d).

Definition set_message_files (f : list MessageFileRow -> list MessageFileRow) (d : Db) : Db :=
  mkDb (users d) (roles_t d) (permissions_t d) (role_permissions d) (user_roles d)
    (channels d) (channel_members d) (messages d) (files d) (f (message_files d))
    (message_reactions d) (channel_reads d) (channel_drafts d) (channel_favorites d)
    (channel_invite_links d) (user_bans d) (audit_events d) (outbox_events d)
    (notifications d) (notification_preferences d) (notification_deliveries d)
    (notification_subscriptions d) (account_recovery_tokens d) (saved_messages d)
    (message_reports d) (message_edit_history d).

Definition set_message_reactions (f : list ReactionRow -> list ReactionRow) (d : Db) : Db :=
  mkDb (users d) (roles_t d) (permissions_t d) (role_permissions d) (user_roles d)
    (channels d) (channel_members d) (messages d) (files d) (message_files d)
    (f (message_reactions d)) (channel_reads d) (channel_drafts d) (channel_favorites d)
    (channel_invite_links d) (user_bans d) (audit_events d) (outbox_events d)
    (notifications d) (notification_preferences d) (notification_deliveries d)
    (notification_subscriptions d) (account_recovery_tokens d) (saved_messages d)
    (message_reports d) (message_edit_history d).

Definition set_channel_reads (f : list ReadRow -> list ReadRow) (d : Db) : Db :=
  mkDb (users d) (roles_t d) (permissions_t d) (role_permissions d) (user_roles d)
    (channels d) (channel_members d) (messages d) (files d) (message_files d)
    (message_reactions d) (f (channel_reads d)) (channel_drafts d) (channel_favorites d)
    (channel_invite_links d) (user_bans d) (audit_events d) (outbox_events d)
    (notifications d) (notification_preferences d) (notification_deliveries d)
    (notification_subscriptions d) (account_recovery_tokens d) (saved_messages d)
    (message_reports d) (message_edit_history d).

Definition set_channel_drafts (f : list DraftRow -> list DraftRow) (d : Db) : Db :=
  mkDb (users d) (roles_t d) (permissions_t d) (role_permissions d) (user_roles d)
    (channels d) (channel_members d) (messages d) (files d) (message_files d)
    (message_reactions d) (channel_reads d) (f (channel_drafts d)) (channel_favorites d)
    (channel_invite_links d) (user_bans d) (audit_events d) (outbox_events d)
    (notifications d) (notification_preferences d) (notification_deliveries d)
    (notification_subscriptions d) (account_recovery_tokens d) (saved_messages d)
    (message_reports d) (message_edit_history d).

Definition set_channel_favorites (f : list FavoriteRow -> list FavoriteRow) (d : Db) : Db :=
  mkDb (users d) (roles_t d) (permissions_t d) (role_permissions d) (user_roles d)
    (channels d) (channel_members d) (messages d) (files d) (message_files d)
    (message_reactions d) (channel_reads d) (channel_drafts d) (f (channel_favorites d))
    (channel_invite_links d) (user_bans d) (audit_events d) (outbox_events d)
    (notifications d) (notification_preferences d) (notification_deliveries d)
    (notification_subscriptions d) (account_recovery_tokens d) (saved_messages d)
    (message_reports d) (message_edit_history d).

Definition set_channel_invite_links (f : list InviteRow -> list InviteRow) (d : Db) : Db :=
  mkDb (users d) (roles_t d) (permissions_t d) (role_permissions d) (user_roles d)
    (channels d) (channel_members d) (messages d) (files d) (message_files d)
    (message_reactions d) (channel_reads d) (channel_drafts d) (channel_favorites d)
    (f (channel_invite_links d)) (user_bans d) (audit_events d) (outbox_events d)
    (notifications d) (notification_preferences d) (notification_deliveries d)
    (notification_subscriptions d) (account_recovery_tokens d) (saved_messages d)
    (message_reports d) (message_edit_history d).

Definition set_user_bans (f : list BanRow -> list BanRow) (d : Db) : Db :=
  mkDb (users d) (roles_t d) (permissions_t d) (role_permissions d) (user_roles d)
    (channels d) (channel_members d) (messages d) (files d) (message_files d)
    (message_reactions d) (channel_reads d) (channel_drafts d) (channel_favorites d)
    (channel_invite_links d) (f (user_bans d)) (audit_events d) (outbox_events d)
    (notifications d) (notification_preferences d) (notification_deliveries d)
    (notification_subscriptions d) (account_recovery_tokens d) (saved_messages d)
    (message_reports d) (message_edit_history d).

Definition set_audit_events (f : list AuditRow -> list AuditRow) (d : Db) : Db :=
  mkDb (users d) (roles_t d) (permissions_t d) (role_permissions d) (user_roles d)
    (channels d) (channel_members d) (messages d) (files d) (message_files d)
    (message_reactions d) (channel_reads d) (channel_drafts d) (channel_favorites d)
    (channel_invite_links d) (user_bans d) (f (audit_events d)) (outbox_events d)
    (notifications d) (notification_preferences d) (notification_deliveries d)
    (notification_subscriptions d) (account_recovery_tokens d) (saved_messages d)
    (message_reports d) (message_edit_history d).

Definition set_outbox_events (f : list OutboxRow -> list OutboxRow) (d : Db) : Db :=
  mkDb (users d) (roles_t d) (permissions_t d) (role_permissions d) (user_roles d)
    (channels d) (channel_members d) (messages d) (files d) (message_files d)
    (message_reactions d) (channel_reads d) (channel_drafts d) (channel_favorites d)
    (channel_invite_links d) (user_bans d) (audit_events d) (f (outbox_events d))
    (notifications d) (notification_preferences d) (notification_deliveries d)
    (notification_subscriptions d) (account_recovery_tokens d) (saved_messages d)
    (message_reports d) (message_edit_history d).

Definition set_notifications (f : list NotificationRow -> list NotificationRow) (d : Db) : Db :=
  mkDb (users d) (roles_t d) (permissions_t d) (role_permissions d) (user_roles d)
    (channels d) (channel_members d) (messages d) (files d) (message_files d)
    (message_reactions d) (channel_reads d) (channel_drafts d) (channel_favorites d)
    (channel_invite_links d) (user_bans d) (audit_events d) (outbox_events d)
    (f (notifications d)) (notification_preferences d) (notification_deliveries d)
    (notification_subscriptions d) (account_recovery_tokens d) (saved_messages d)
    (message_reports d) (message_edit_history d).

Definition set_notification_preferences (f : list PreferenceRow -> list PreferenceRow) (d : Db) : Db :=
  mkDb (users d) (roles_t d) (permissions_t d) (role_permissions d) (user_roles d)
    (channels d) (channel_members d) (messages d) (files d) (message_files d)
    (message_reactions d) (channel_reads d) (channel_drafts d) (channel_favorites d)
    (channel_invite_links d) (user_bans d) (audit_events d) (outbox_events d)
    (notifications d) (f (notification_preferences d)) (notification_deliveries d)
    (notification_subscriptions d) (account_recovery_tokens d) (saved_messages d)
    (message_reports d) (message_edit_history d).

Definition set_notification_deliveries (f : list DeliveryRow -> list DeliveryRow) (d : Db) : Db :=
  mkDb (users d) (roles_t d) (permissions_t d) (role_permissions d) (user_roles d)
    (channels d) (channel_members d) (messages d) (files d) (message_files d)
    (message_reactions d) (channel_reads d) (channel_drafts d) (channel_favorites d)
    (channel_invite_links d) (user_bans d) (audit_events d) (outbox_events d)
    (notifications d) (notification_preferences d) (f (notification_deliveries d))
    (notification_subscriptions d) (account_recovery_tokens d) (saved_messages d)
    (message_reports d) (message_edit_history d).

Definition set_notification_subscriptions (f : list SubscriptionRow -> list SubscriptionRow) (d : Db) : Db :=
  mkDb (users d) (roles_t d) (permissions_t d) (role_permissions d) (user_roles d)
    (channels d) (channel_members d) (messages d) (files d) (message_files d)
    (message_reactions d) (channel_reads d) (channel_drafts d) (channel_favorites d)
    (channel_invite_links d) (user_bans d) (audit_events d) (outbox_events d)
    (notifications d) (notification_preferences d) (notification_deliveries d)
    (f (notification_subscriptions d)) (account_recovery_tokens d) (saved_messages d)
    (message_reports d) (message_edit_history d).

Definition set_account_recovery_tokens (f : list RecoveryRow -> list RecoveryRow) (d : Db) : Db :=
  mkDb (users d) (roles_t d) (permissions_t d) (role_permissions d) (user_roles d)
    (channels d) (channel_members d) (messages d) (files d) (message_files d)
    (message_reactions d) (channel_reads d) (channel_drafts d) (channel_favorites d)
    (channel_invite_links d) (user_bans d) (audit_events d) (outbox_events d)
    (notifications d) (notification_preferences d) (notification_deliveries d)
    (notification_subscriptions d) (f (account_recovery_tokens d)) (saved_messages d)
    (message_reports d) (message_edit_history d).

Definition set_saved_messages (f : list SavedRow -> list SavedRow) (d : Db) : Db :=
  mkDb (users d) (roles_t d) (permissions_t d) (role_permissions d) (user_roles d)
    (channels d) (channel_members d) (messages d) (files d) (message_files d)
    (message_reactions d) (channel_reads d) (channel_drafts d) (channel_favorites d)
    (channel_invite_links d) (user_bans d) (audit_events d) (outbox_events d)
    (notifications d) (notification_preferences d) (notification_deliveries d)
    (notification_subscriptions d) (account_recovery_tokens d) (f (saved_messages d))
    (message_reports d) (message_edit_history d).

Definition set_message_reports (f : list ReportRow -> list ReportRow) (d : Db) : Db :=
  mkDb (users d) (roles_t d) (permissions_t d) (role_permissions d) (user_roles d)
    (channels d) (channel_members d) (messages d) (files d) (message_files d)
    (message_reactions d) (channel_reads d) (channel_drafts d) (channel_favorites d)
    (channel_invite_links d) (user_bans d) (audit_events d) (outbox_events d)
    (notifications d) (notification_preferences d) (notification_deliveries d)
    (notification_subscriptions d) (account_recovery_tokens d) (saved_messages d)
    (f (message_reports d)) (message_edit_history d).

Definition set_message_edit_history (f : list EditHistoryRow -> list EditHistoryRow) (d : Db) : Db :=
  mkDb (users d) (roles_t d) (permissions_t d) (role_permissions d) (user_roles d)
    (channels d) (channel_members d) (messages d) (files d) (message_files d)
    (message_reactions d) (channel_reads d) (channel_drafts d) (channel_favorites d)
    (channel_invite_links d) (user_bans d) (audit_events d) (outbox_events d)
    (notifications d) (notification_preferences d) (notification_deliveries d)
    (notification_subscriptions d) (account_recovery_tokens d) (saved_messages d)
    (message_reports d) (f (message_edit_history d)).

(** Column updates. *)

Definition set_u_password_hash (v : rstr) (r : UserRow) : UserRow :=
  mkUserRow (u_id r) (u_email r) (u_username r) v (u_disabled_at r) (u_role_version r)
    (u_created_at r) (u_updated_at r) (u_deleted_at r) (u_display_name r) (u_custom_status r)
    (u_status_expires_at r).

Definition set_u_disabled_at (v : option Z) (r : UserRow) : UserRow :=
  mkUserRow (u_id r) (u_email r) (u_username r) (u_password_hash r) v (u_role_version r)
    (u_created_at r) (u_updated_at r) (u_deleted_at r) (u_display_name r) (u_custom_status r)
    (u_status_expires_at r).

Definition set_u_role_version (v : Z) (r : UserRow) : UserRow :=
  mkUserRow (u_id r) (u_email r) (u_username r) (u_password_hash r) (u_disabled_at r) v
    (u_created_at r) (u_updated_at r) (u_deleted_at r) (u_display_name r) (u_custom_status r)
    (u_status_expires_at r).

Definition set_u_updated_at (v : Z) (r : UserRow) : UserRow :=
  mkUserRow (u_id r) (u_email r) (u_username r) (u_password_hash r) (u_disabled_at r)
    (u_role_version r) (u_created_at r) v (u_deleted_at r) (u_display_name r)
    (u_custom_status r) (u_status_expires_at r).

Definition set_u_deleted_at (v : option Z) (r : UserRow) : UserRow :=
  mkUserRow (u_id r) (u_email r) (u_username r) (u_password_hash r) (u_disabled_at r)
    (u_role_version r) (u_created_at r) (u_updated_at r) v (u_display_name r)
    (u_custom_status r) (u_status_expires_at r).

Definition set_u_username (v : rstr) (r : UserRow) : UserRow :=
  mkUserRow (u_id r) (u_email r) v (u_password_hash r) (u_disabled_at r) (u_role_version r)
    (u_created_at r) (u_updated_at r) (u_deleted_at r) (u_display_name r) (u_custom_status r)
    (u_status_expires_at r).

Definition set_u_display_name (v : rstr) (r : UserRow) : UserRow :=
  mkUserRow (u_id r) (u_email r) (u_username r) (u_password_hash r) (u_disabled_at r)
    (u_role_version r) (u_created_at r) (u_updated_at r) (u_deleted_at r) v
    (u_custom_status r) (u_status_expires_at r).

Definition set_u_custom_status (v : rstr) (r : UserRow) : UserRow :=
  mkUserRow (u_id r) (u_email r) (u_username r) (u_password_hash r) (u_disabled_at r)
    (u_role_version r) (u_created_at r) (u_updated_at r) (u_deleted_at r) (u_display_name r) v
    (u_status_expires_at r).

Definition set_u_status_expires_at (v : option Z) (r : UserRow) : UserRow :=
  mkUserRow (u_id r) (u_email r) (u_username r) (u_password_hash r) (u_disabled_at r)
    (u_role_version r) (u_created_at r) (u_updated_at r) (u_deleted_at r) (u_display_name r)
    (u_custom_status r) v.

Definition set_c_deleted_at (v : option Z) (r : ChannelRow) : ChannelRow :=
  mkChannelRow (c_id r) (c_name r) (c_kind r) (c_owner_user_id r) (c_direct_key r)
    (c_created_at r) v (c_archived_at r) (c_description r) (c_retention_days r)
    (c_posting_restricted r).

Definition set_c_archived_at (v : option Z) (r : ChannelRow) : ChannelRow :=
  mkChannelRow (c_id r) (c_name r) (c_kind r) (c_owner_user_id r) (c_direct_key r)
    (c_created_at r) (c_deleted_at r) v (c_description r) (c_retention_days r)
    (c_posting_restricted r).

Definition set_c_owner_user_id (v : option Uuid) (r : ChannelRow) : ChannelRow :=
  mkChannelRow (c_id r) (c_name r) (c_kind r) v (c_direct_key r) (c_created_at r)
    (c_deleted_at r) (c_archived_at r) (c_description r) (c_retention_days r)
    (c_posting_restricted r).

Definition set_c_name (v : rstr) (r : ChannelRow) : ChannelRow :=
  mkChannelRow (c_id r) v (c_kind r) (c_owner_user_id r) (c_direct_key r) (c_created_at r)
    (c_deleted_at r) (c_archived_at r) (c_description r) (c_retention_days r)
    (c_posting_restricted r).

Definition set_c_description (v : rstr) (r : ChannelRow) : ChannelRow :=
  mkChannelRow (c_id r) (c_name r) (c_kind r) (c_owner_user_id r) (c_direct_key r)
    (c_created_at r) (c_deleted_at r) (c_archived_at r) v (c_retention_days r)
    (c_posting_restricted r).

Definition set_c_retention_days (v : Z) (r : ChannelRow) : ChannelRow :=
  mkChannelRow (c_id r) (c_name r) (c_kind r) (c_owner_user_id r) (c_direct_key r)
    (c_created_at r) (c_deleted_at r) (c_archived_at r) (c_description r) v
    (c_posting_restricted r).

Definition set_c_posting_restricted (v : bool) (r : ChannelRow) : ChannelRow :=
  mkChannelRow (c_id r) (c_name r) (c_kind r) (c_owner_user_id r) (c_direct_key r)
    (c_created_at r) (c_deleted_at r) (c_archived_at r) (c_description r) (c_retention_days r)
    v.

Definition set_cm_role (v : MemberRole) (r : MemberRow) : MemberRow :=
  mkMemberRow (cm_channel_id r) (cm_user_id r) v (cm_invited_by r) (cm_created_at r).

Definition set_m_text (v : rstr) (r : MessageRow) : MessageRow :=
  mkMessageRow (m_id r) (m_channel_id r) (m_username r) v (m_created_at r) (m_edited r)
    (m_owner_session r) (m_owner_user_id r) (m_root_message_id r) (m_client_id r)
    (m_metadata r) (m_mentions r) (m_deleted_at r) (m_deleted_by r) (m_deletion_reason r).

Definition set_m_edited (v : bool) (r : MessageRow) : MessageRow :=
  mkMessageRow (m_id r) (m_channel_id r) (m_username r) (m_text r) (m_created_at r) v
    (m_owner_session r) (m_owner_user_id r) (m_root_message_id r) (m_client_id r)
    (m_metadata r) (m_mentions r) (m_deleted_at r) (m_deleted_by r) (m_deletion_reason r).

Definition set_m_deleted_at (v : option Z) (r : MessageRow) : MessageRow :=
  mkMessageRow (m_id r) (m_channel_id r) (m_username r) (m_text r) (m_created_at r)
    (m_edited r) (m_owner_session r) (m_owner_user_id r) (m_root_message_id r) (m_client_id r)
    (m_metadata r) (m_mentions r) v (m_deleted_by r) (m_deletion_reason r).

Definition set_m_deleted_by (v : option Uuid) (r : MessageRow) : MessageRow :=
  mkMessageRow (m_id r) (m_channel_id r) (m_username r) (m_text r) (m_created_at r)
    (m_edited r) (m_owner_session r) (m_owner_user_id r) (m_root_message_id r) (m_client_id r)
    (m_metadata r) (m_mentions r) (m_deleted_at r) v (m_deletion_reason r).

Definition set_m_deletion_reason (v : option rstr) (r : MessageRow) : MessageRow :=
  mkMessageRow (m_id r) (m_channel_id r) (m_username r) (m_text r) (m_created_at r)
    (m_edited r) (m_owner_session r) (m_owner_user_id r) (m_root_message_id r) (m_client_id r)
    (m_metadata r) (m_mentions r) (m_deleted_at r) (m_deleted_by r) v.

Definition set_f_deleted_at (v : option Z) (r : FileRow) : FileRow :=
  mkFileRow (f_id r) (f_uploader_user_id r) (f_storage_key r) (f_original_name r)
    (f_content_type r) (f_size_bytes r) (f_checksum r) (f_created_at r) v.

Definition set_inv_uses (v : Z) (r : InviteRow) : InviteRow :=
  mkInviteRow (inv_id r) (inv_channel_id r) (inv_token_hash r) (inv_created_by r)
    (inv_expires_at r) (inv_max_uses r) v (inv_created_at r).

Definition set_ban_revoked_at (v : option Z) (r : BanRow) : BanRow :=
  mkBanRow (ban_id r) (ban_user_id r) (ban_channel_id r) (ban_reason r) (ban_created_by r)
    (ban_expires_at r) (ban_created_at r) v (ban_revoked_by r).

Definition set_ban_revoked_by (v : option Uuid) (r : BanRow) : BanRow :=
  mkBanRow (ban_id r) (ban_user_id r) (ban_channel_id r) (ban_reason r) (ban_created_by r)
    (ban_expires_at r) (ban_created_at r) (ban_revoked_at r) v.

Definition set_ob_published_at (v : option Z) (r : OutboxRow) : OutboxRow :=
  mkOutboxRow (ob_id r) (ob_topic r) (ob_payload r) (ob_created_at r) v (ob_attempts r)
    (ob_claimed_at r).

Definition set_ob_attempts (v : Z) (r : OutboxRow) : OutboxRow :=
  mkOutboxRow (ob_id r) (ob_topic r) (ob_payload r) (ob_created_at r) (ob_published_at r) v
    (ob_claimed_at r).

Definition set_ob_claimed_at (v : option Z) (r : OutboxRow) : OutboxRow :=
  mkOutboxRow (ob_id r) (ob_topic r) (ob_payload r) (ob_created_at r) (ob_published_at r)
    (ob_attempts r) v.

Definition set_n_body (v : rstr) (r : NotificationRow) : NotificationRow :=
  mkNotificationRow (n_id r) (n_user_id r) (n_actor_user_id r) (n_kind r) (n_message_id r)
    (n_channel_id r) v (n_created_at r) (n_read_at r).

Definition set_n_read_at (v : option Z) (r : NotificationRow) : NotificationRow :=
  mkNotificationRow (n_id r) (n_user_id r) (n_actor_user_id r) (n_kind r) (n_message_id r)
    (n_channel_id r) (n_body r) (n_created_at r) v.

Definition set_d_attempts (v : Z) (r : DeliveryRow) : DeliveryRow :=
  mkDeliveryRow (d_id r) (d_notification_id r) (d_user_id r) (d_channel r) (d_email r)
    (d_kind r) (d_body r) v (d_next_attempt_at r) (d_claimed_at r) (d_sent_at r)
    (d_last_error r).

Definition set_d_next_attempt_at (v : Z) (r : DeliveryRow) : DeliveryRow :=
  mkDeliveryRow (d_id r) (d_notification_id r) (d_user_id r) (d_channel r) (d_email r)
    (d_kind r) (d_body r) (d_attempts r) v (d_claimed_at r) (d_sent_at r) (d_last_error r).

Definition set_d_claimed_at (v : option Z) (r : DeliveryRow) : DeliveryRow :=
  mkDeliveryRow (d_id r) (d_notification_id r) (d_user_id r) (d_channel r) (d_email r)
    (d_kind r) (d_body r) (d_attempts r) (d_next_attempt_at r) v (d_sent_at r)
    (d_last_error r).

Definition set_d_sent_at (v : option Z) (r : DeliveryRow) : DeliveryRow :=
  mkDeliveryRow (d_id r) (d_notification_id r) (d_user_id r) (d_channel r) (d_email r)
    (d_kind r) (d_body r) (d_attempts r) (d_next_attempt_at r) (d_claimed_at r) v
    (d_last_error r).

Definition set_d_last_error (v : option rstr) (r : DeliveryRow) : DeliveryRow :=
  mkDeliveryRow (d_id r) (d_notification_id r) (d_user_id r) (d_channel r) (d_email r)
    (d_kind r) (d_body r) (d_attempts r) (d_next_attempt_at r) (d_claimed_at r) (d_sent_at r)
    v.

Definition set_rt_used_at (v : option Z) (r : RecoveryRow) : RecoveryRow :=
  mkRecoveryRow (rt_id r) (rt_user_id r) (rt_token_hash r) (rt_expires_at r) (rt_created_at r)
    v.
