(* ===== verification/Valkey.v ===== *)
(** * The Valkey interface

    The commands the backend issues, as data indexed by the type of their
    reply, and the interface [Valkey]: a server that executes them at a given
    server time. The laws say that a server, seen through [vk_view], answers as
    the documented command semantics [keyspace_exec] does: lazily expired keys,
    [INCR] keeping the time to live, sorted sets ordered by score and then by
    member, empty collections removed. [Keyspace] itself is an instance. *)
From S2P Require Export Models.

(** ** Commands *)

Inductive VCmd : Type -> Type :=
| Hset (key : rstr) (fields : list (rstr * rstr)) : VCmd Z
| Hmget (key : rstr) (fields : list rstr) : VCmd (list (option rstr))
| Hdel (key : rstr) (fields : list rstr) : VCmd Z
| Zadd (key : rstr) (score : Z) (member : rstr) : VCmd Z
| Zrem (key : rstr) (members : list rstr) : VCmd Z
| Zrange (key : rstr) (start stop : Z) : VCmd (list rstr)
| Zrevrangebyscore (key : rstr) (max : Z) (count : Z) : VCmd (list rstr)
| Sadd (key member : rstr) : VCmd Z
| Srem (key : rstr) (members : list rstr) : VCmd Z
| Smembers (key : rstr) : VCmd (list rstr)
| Incr (key : rstr) : VCmd Z
| Expire (key : rstr) (seconds : Z) : VCmd bool
| Ttl (key : rstr) : VCmd Z
| Exists (key : rstr) : VCmd bool
| Del (keys : list rstr) : VCmd Z
| Setex (key : rstr) (seconds : Z) (value : rstr) : VCmd unit
| Mget (keys : list rstr) : VCmd (list (option rstr)).

(** A command of a pipeline whose reply is ignored. *)
Inductive VAction :=
| act {A : Type} (c : VCmd A).

(** ** The documented semantics *)

Inductive VValue :=
| VStr (s : rstr)
| VInt (z : Z)
| VHash (h : gmap rstr rstr)
| VZset (z : gmap rstr Z)
| VSet (s : gset rstr).

(** A key with its value and the time, in milliseconds, it expires at. *)
Record VEntry := mkVEntry { ve_value : VValue; ve_expire : option Z }.

Notation Keyspace := (gmap rstr VEntry).

Definition expired (now : Z) (e : VEntry) : bool :=
  match ve_expire e with Some t => t <=? now | None => false end.
Definition live (now : Z) (ks : Keyspace) (key : rstr) : option VEntry :=
  match ks !! key with
  | Some e => if expired now e then None else Some e
  | None => None
  end.

(** Sorted sets are enumerated by score, then by member. *)
Definition zset_le (a b : rstr * Z) : bool :=
  (a.2 <? b.2) || ((a.2 =? b.2) && str_leb a.1 b.1).
Definition zset_sorted (z : gmap rstr Z) : list (rstr * Z) := order_by zset_le (map_to_list z).

(** [ZRANGE key start stop] with negative indices counted from the end. *)
Definition index_slice {A : Type} (l : list A) (start stop : Z) : list A :=
  let n := Z.of_nat (length l) in
  let s := if start <? 0 then Z.max 0 (n + start) else start in
  let e := if stop <? 0 then n + stop else Z.min stop (n - 1) in
  if (e <? s) then [] else take (Z.to_nat (e - s + 1)) (drop (Z.to_nat s) l).

Definition hash_view (o : option VEntry) : Result RedisError (gmap rstr rstr) :=
  match o with
  | None => Ok ∅
  | Some e => match ve_value e with VHash h => Ok h | _ => Err RedisWrongType end
  end.
Definition zset_view (o : option VEntry) : Result RedisError (gmap rstr Z) :=
  match o with
  | None => Ok ∅
  | Some e => match ve_value e with VZset z => Ok z | _ => Err RedisWrongType end
  end.
Definition set_view (o : option VEntry) : Result RedisError (gset rstr) :=
  match o with
  | None => Ok ∅
  | Some e => match ve_value e with VSet s => Ok s | _ => Err RedisWrongType end
  end.
Definition int_view (o : option VEntry) : Result RedisError Z :=
  match o with
  | None => Ok 0
  | Some e => match ve_value e with VInt z => Ok z | _ => Err RedisWrongType end
  end.
Definition str_view (o : option VEntry) : option rstr :=
  match o with
  | Some e => match ve_value e with VStr s => Some s | _ => None end
  | None => None
  end.

Definition keep_expire (o : option VEntry) : option Z := o ≫= ve_expire.

(** Store a collection, removing the key when the collection is empty. *)
Definition put (key : rstr) (v : VValue) (empty : bool) (expire : option Z) (ks : Keyspace) : Keyspace :=
  if empty then delete key ks else <[key := mkVEntry v expire]> ks.

Definition run_view {V A : Type} (view : Result RedisError V) (ks : Keyspace)
    (f : V -> A * Keyspace) : Result RedisError A * Keyspace :=
  match view with
  | Ok v => let '(a, ks') := f v in (Ok a, ks')
  | Err e => (Err e, ks)
  end.

Definition bool_z (b : bool) : Z := if b then 1 else 0.

Definition keyspace_exec {A : Type} (now : Z) (c : VCmd A) (ks : Keyspace) :
    Result RedisError A * Keyspace :=
  match c in VCmd A return Result RedisError A * Keyspace with
  | Hset key fields =>
      let o := live now ks key in
      run_view (hash_view o) ks (fun h =>
        let h' := fold_left (fun h '(f, v) => <[f := v]> h) fields h in
        (Z.of_nat (size h') - Z.of_nat (size h),
         put key (VHash h') (bool_decide (h' = ∅)) (keep_expire o) ks))
  | Hmget key fields =>
      run_view (hash_view (live now ks key)) ks (fun h => (map (fun f => h !! f) fields, ks))
  | Hdel key fields =>
      let o := live now ks key in
      run_view (hash_view o) ks (fun h =>
        let h' := fold_left (fun h f => delete f h) fields h in
        (Z.of_nat (size h) - Z.of_nat (size h'),
         put key (VHash h') (bool_decide (h' = ∅)) (keep_expire o) ks))
  | Zadd key score member =>
      let o := live now ks key in
      run_view (zset_view o) ks (fun z =>
        (bool_z (is_none (z !! member)),
         put key (VZset (<[member := score]> z)) false (keep_expire o) ks))
  | Zrem key members =>
      let o := live now ks key in
      run_view (zset_view o) ks (fun z =>
        let z' := fold_left (fun z m => delete m z) members z in
        (Z.of_nat (size z) - Z.of_nat (size z'),
         put key (VZset z') (bool_decide (z' = ∅)) (keep_expire o) ks))
  | Zrange key start stop =>
      run_view (zset_view (live now ks key)) ks (fun z =>
        (map fst (index_slice (zset_sorted z) start stop), ks))
  | Zrevrangebyscore key max count =>
      run_view (zset_view (live now ks key)) ks (fun z =>
        (limit_rows count (map fst (where_ (fun e => e.2 <=? max) (reverse (zset_sorted z)))), ks))
  | Sadd key member =>
      let o := live now ks key in
      run_view (set_view o) ks (fun s =>
        (bool_z (bool_decide (member ∉ s)),
         put key (VSet ({[member]} ∪ s)) false (keep_expire o) ks))
  | Srem key members =>
      let o := live now ks key in
      run_view (set_view o) ks (fun s =>
        let s' := s ∖ list_to_set members in
        (Z.of_nat (size s) - Z.of_nat (size s'),
         put key (VSet s') (bool_decide (s' = ∅)) (keep_expire o) ks))
  | Smembers key =>
      run_view (set_view (live now ks key)) ks (fun s => (elements s, ks))
  | Incr key =>
      let o := live now ks key in
      run_view (int_view o) ks (fun z =>
        (z + 1, put key (VInt (z + 1)) false (keep_expire o) ks))
  | Expire key seconds =>
      match live now ks key with
      | Some e => (Ok true, <[key := mkVEntry (ve_value e) (Some (now + 1000 * seconds))]> ks)
      | None => (Ok false, ks)
      end
  | Ttl key =>
      match live now ks key with
      | Some e => match ve_expire e with
                  | Some t => (Ok ((t - now + 500) / 1000), ks)
                  | None => (Ok (-1), ks)
                  end
      | None => (Ok (-2), ks)
      end
  | Exists key => (Ok (is_some (live now ks key)), ks)
  | Del keys =>
      (Ok (Z.of_nat (length (List.filter (fun k => is_some (live now ks k)) (remove_dups keys)))),
       fold_left (fun ks k => delete k ks) keys ks)
  | Setex key seconds value =>
      (Ok tt, <[key := mkVEntry (VStr value) (Some (now + 1000 * seconds))]> ks)
  | Mget keys => (Ok (map (fun k => str_view (live now ks k)) keys), ks)
  end.

(** ** The interface *)

Class Valkey (K : Type) := {
  vk_exec : forall {A : Type}, Z -> VCmd A -> K -> Result RedisError A * K;
  vk_view : K -> Keyspace;
  vk_law : forall (A : Type) now (c : VCmd A) k,
    let '(r, k') := vk_exec now c k in (r, vk_view k') = keyspace_exec now c (vk_view k)
}.

#[local] Program Instance keyspace_valkey : Valkey Keyspace := {|
  vk_exec := @keyspace_exec;
  vk_view := fun ks => ks
|}.
Next Obligation. intros A now c ks. by destruct (keyspace_exec now c ks). Qed.

Section Laws.
Context {K} {V : Valkey K}.

Lemma vk_exec_fst {A : Type} now (c : VCmd A) k :
  (vk_exec now c k).1 = (keyspace_exec now c (vk_view k)).1.
Proof. pose proof (vk_law A now c k) as H. destruct (vk_exec now c k). by rewrite <- H. Qed.

Lemma vk_exec_snd {A : Type} now (c : VCmd A) k :
  vk_view (vk_exec now c k).2 = (keyspace_exec now c (vk_view k)).2.
Proof. pose proof (vk_law A now c k) as H. destruct (vk_exec now c k). by rewrite <- H. Qed.

(** A [MULTI]/[EXEC] block: every command runs, replies are dropped. *)
Definition exec_actions (now : Z) (cs : list VAction) (k : K) : K :=
  fold_left (fun k '(act c) => (vk_exec now c k).2) cs k.
End Laws.

Definition keyspace_actions (now : Z) (cs : list VAction) (ks : Keyspace) : Keyspace :=
  fold_left (fun ks '(act c) => (keyspace_exec now c ks).2) cs ks.

Lemma exec_actions_view {K} {V : Valkey K} now cs k :
  vk_view (exec_actions now cs k) = keyspace_actions now cs (vk_view k).
Proof.
  revert k. unfold exec_actions, keyspace_actions.
  induction cs as [|[A c] cs IH]; intros k; simpl; [done|].
  rewrite IH. by rewrite vk_exec_snd.
Qed.

(** ** Facts about the documented semantics *)

Section KeyspaceFacts.
Lemma live_some now ks key e :
  live now ks key = Some e <-> ks !! key = Some e /\ expired now e = false.
Proof. unfold live. destruct (ks !! key) as [e'|]; [|by split; [|intros []]].
  destruct (expired now e') eqn:E; 
    (split; [intros H; simplify_eq; auto|intros [H H']; simplify_eq; congruence]).
Qed.

Lemma live_insert_eq now ks key v t :
  live now (<[key := mkVEntry v t]> ks) key
  = if match t with Some t => t <=? now | None => false end then None else Some (mkVEntry v t).
Proof. unfold live. rewrite lookup_insert_eq. done. Qed.

Lemma live_insert_ne now ks k1 k2 e : k1 <> k2 -> live now (<[k1 := e]> ks) k2 = live now ks k2.
Proof. unfold live. intros H. by rewrite lookup_insert_ne. Qed.

Lemma live_delete_eq now ks key : live now (delete key ks) key = None.
Proof. unfold live. by rewrite lookup_delete_eq. Qed.

Lemma live_delete_ne now ks k1 k2 : k1 <> k2 -> live now (delete k1 ks) k2 = live now ks k2.
Proof. unfold live. intros H. by rewrite lookup_delete_ne. Qed.

(** The keys a command may change; it leaves every other key as it is. *)
Definition written_keys {A : Type} (c : VCmd A) : list rstr :=
  match c with
  | Hset key _ | Hdel key _ | Zadd key _ _ | Zrem key _ | Sadd key _ | Srem key _
  | Incr key | Expire key _ | Setex key _ _ => [key]
  | Del keys => keys
  | Hmget _ _ | Zrange _ _ _ | Zrevrangebyscore _ _ _ | Smembers _ | Ttl _ | Exists _ | Mget _ => []
  end.
Definition action_keys (a : VAction) : list rstr := match a with act c => written_keys c end.

Lemma put_other key v empty expire ks k : k <> key -> put key v empty expire ks !! k = ks !! k.
Proof.
  intros Hne. unfold put. destruct empty; [by rewrite lookup_delete_ne|by rewrite lookup_insert_ne].
Qed.

Lemma keyspace_exec_other {A : Type} now (c : VCmd A) ks k :
  ~ In k (written_keys c) -> (keyspace_exec now c ks).2 !! k = ks !! k.
Proof.
  intros Hk. destruct c; simpl in *; unfold run_view; repeat case_match; simplify_eq; simpl;
    try done; try (apply put_other; intuition congruence);
    try (rewrite lookup_insert_ne by intuition congruence); try reflexivity.
  revert ks. induction keys as [|k0 keys IH]; intros ks; simpl in *; [done|].
  rewrite IH by intuition. apply lookup_delete_ne. intuition congruence.
Qed.

Lemma keyspace_actions_other now cs ks k :
  Forall (fun a => ~ In k (action_keys a)) cs -> keyspace_actions now cs ks !! k = ks !! k.
Proof.
  intros H. unfold keyspace_actions. revert ks.
  induction H as [|[A c] cs Hc _ IH]; intros ks; simpl; [done|].
  rewrite IH. by apply keyspace_exec_other.
Qed.

Lemma zset_le_total a b : zset_le a b = true \/ zset_le b a = true.
Proof. unfold zset_le. destruct (str_leb_total a.1 b.1) as [->| ->]; lia. Qed.

Lemma zset_le_trans a b c : zset_le a b = true -> zset_le b c = true -> zset_le a c = true.
Proof.
  unfold zset_le. intros H1 H2.
  assert (str_leb a.1 b.1 = true -> str_leb b.1 c.1 = true -> str_leb a.1 c.1 = true) as Ht
    by apply str_leb_trans.
  destruct (str_leb a.1 b.1), (str_leb b.1 c.1); try rewrite Ht by done; lia.
Qed.

Lemma zset_sorted_sorted z : StronglySorted (rel_of zset_le) (zset_sorted z).
Proof. apply order_by_sorted; [apply zset_le_total|apply zset_le_trans]. Qed.

Lemma in_zset_sorted z m s : In (m, s) (zset_sorted z) <-> z !! m = Some s.
Proof.
  unfold zset_sorted. rewrite in_order_by, <- list_elem_of_In. apply elem_of_map_to_list.
Qed.

Lemma length_zset_sorted z : length (zset_sorted z) = size z.
Proof. unfold zset_sorted. rewrite length_order_by. apply length_map_to_list. Qed.

Lemma zset_sorted_nodup z : List.NoDup (map fst (zset_sorted z)).
Proof.
  eapply (Permutation_NoDup (l := map fst (map_to_list z))).
  - apply Permutation_map. symmetry. apply order_by_permutation.
  - apply NoDup_ListNoDup, NoDup_fst_map_to_list.
Qed.
End KeyspaceFacts.
