(* ===== verification/Collections.v ===== *)
(** * Collections in the cache

    A key that holds a hash, a set or a sorted set without expiry, seen as a
    function from keyspaces to collections, and what the commands do to it. *)
From Stdlib Require Import String.
From S2P Require Export Valkey.

(** ** Keys that hold a collection without expiry *)

Definition zset_at (ks : Keyspace) (key : rstr) (z : gmap rstr Z) : Prop :=
  ks !! key = if bool_decide (z = ∅) then None else Some (mkVEntry (VZset z) None).
Definition hash_at (ks : Keyspace) (key : rstr) (h : gmap rstr rstr) : Prop :=
  ks !! key = if bool_decide (h = ∅) then None else Some (mkVEntry (VHash h) None).

Definition set_at (ks : Keyspace) (key : rstr) (s : gset rstr) : Prop :=
  ks !! key = if bool_decide (s = ∅) then None else Some (mkVEntry (VSet s) None).

Lemma set_at_empty key : set_at ∅ key ∅.
Proof. unfold set_at. rewrite bool_decide_eq_true_2 by done. apply lookup_empty. Qed.

Section Collections.
Implicit Types (ks : Keyspace).

Lemma live_no_expire now ks key v :
  ks !! key = Some (mkVEntry v None) -> live now ks key = Some (mkVEntry v None).
Proof. intros H. by apply live_some. Qed.

Lemma zset_at_view now ks key z :
  zset_at ks key z -> zset_view (live now ks key) = Ok z /\ keep_expire (live now ks key) = None.
Proof.
  unfold zset_at, live. intros ->. destruct (bool_decide (z = ∅)) eqn:E; [|done].
  apply bool_decide_eq_true in E as ->. done.
Qed.
Lemma hash_at_view now ks key h :
  hash_at ks key h -> hash_view (live now ks key) = Ok h /\ keep_expire (live now ks key) = None.
Proof.
  unfold hash_at, live. intros ->. destruct (bool_decide (h = ∅)) eqn:E; [|done].
  apply bool_decide_eq_true in E as ->. done.
Qed.

Lemma put_zset ks key z :
  zset_at (put key (VZset z) (bool_decide (z = ∅)) None ks) key z.
Proof.
  unfold zset_at, put. destruct (bool_decide (z = ∅)); [apply lookup_delete_eq|apply lookup_insert_eq].
Qed.
Lemma put_hash ks key h :
  hash_at (put key (VHash h) (bool_decide (h = ∅)) None ks) key h.
Proof.
  unfold hash_at, put. destruct (bool_decide (h = ∅)); [apply lookup_delete_eq|apply lookup_insert_eq].
Qed.
Lemma put_ne ks key key' v e x : key <> key' -> put key v e x ks !! key' = ks !! key'.
Proof. unfold put. intros H. destruct e; [by apply lookup_delete_ne|by apply lookup_insert_ne]. Qed.

Lemma exec_zadd now ks key z s m :
  zset_at ks key z ->
  zset_at (keyspace_exec now (Zadd key s m) ks).2 key (<[m := s]> z)
  /\ forall key', key <> key' -> (keyspace_exec now (Zadd key s m) ks).2 !! key' = ks !! key'.
Proof.
  intros H. destruct (zset_at_view now _ _ _ H) as [Hv He]. simpl. rewrite Hv, He. simpl.
  split; [|intros key' Hne; by apply lookup_insert_ne].
  pose proof (put_zset ks key (<[m := s]> z)) as Hp.
  by rewrite bool_decide_eq_false_2 in Hp by apply insert_non_empty.
Qed.

Lemma set_at_view (now : Z) ks (key : rstr) (s : gset rstr) :
  set_at ks key s -> set_view (live now ks key) = Ok s /\ keep_expire (live now ks key) = None.
Proof.
  unfold set_at, live. intros ->. destruct (bool_decide (s = ∅)) eqn:E; [|done]. by bool_simpl; subst.
Qed.

Lemma exec_sadd (now : Z) ks (key : rstr) (s : gset rstr) (m : rstr) :
  set_at ks key s ->
  set_at (keyspace_exec now (Sadd key m) ks).2 key ({[m]} ∪ s)
  /\ forall key', key <> key' -> (keyspace_exec now (Sadd key m) ks).2 !! key' = ks !! key'.
Proof.
  intros H. destruct (set_at_view now _ _ _ H) as [Hv He]. simpl. rewrite Hv, He. simpl.
  split; [|intros key' Hne; by apply lookup_insert_ne].
  unfold set_at. rewrite bool_decide_eq_false_2 by set_solver. apply lookup_insert_eq.
Qed.

Lemma exec_srem (now : Z) ks (key : rstr) (s : gset rstr) (ms : list rstr) :
  set_at ks key s ->
  set_at (keyspace_exec now (Srem key ms) ks).2 key (s ∖ list_to_set ms)
  /\ forall key', key <> key' -> (keyspace_exec now (Srem key ms) ks).2 !! key' = ks !! key'.
Proof.
  intros H. destruct (set_at_view now _ _ _ H) as [Hv He]. simpl. rewrite Hv, He. simpl.
  unfold set_at, put. destruct (bool_decide (s ∖ list_to_set ms = ∅)) eqn:E; split.
  - apply lookup_delete_eq.
  - intros key' Hne. by apply lookup_delete_ne.
  - apply lookup_insert_eq.
  - intros key' Hne. by apply lookup_insert_ne.
Qed.

Lemma exec_hset1 now ks key h f v :
  hash_at ks key h ->
  hash_at (keyspace_exec now (Hset key [(f, v)]) ks).2 key (<[f := v]> h)
  /\ forall key', key <> key' -> (keyspace_exec now (Hset key [(f, v)]) ks).2 !! key' = ks !! key'.
Proof.
  intros H. destruct (hash_at_view now _ _ _ H) as [Hv He]. simpl. rewrite Hv, He. simpl.
  split; [apply put_hash|intros key' Hne; by apply put_ne].
Qed.

Lemma exec_zrem now ks key z ms :
  zset_at ks key z ->
  zset_at (keyspace_exec now (Zrem key ms) ks).2 key (fold_left (fun z m => delete m z) ms z)
  /\ forall key', key <> key' -> (keyspace_exec now (Zrem key ms) ks).2 !! key' = ks !! key'.
Proof.
  intros H. destruct (zset_at_view now _ _ _ H) as [Hv He]. simpl. rewrite Hv, He. simpl.
  split; [apply put_zset|intros key' Hne; by apply put_ne].
Qed.
Lemma exec_hdel now ks key h fs :
  hash_at ks key h ->
  hash_at (keyspace_exec now (Hdel key fs) ks).2 key (fold_left (fun h f => delete f h) fs h)
  /\ forall key', key <> key' -> (keyspace_exec now (Hdel key fs) ks).2 !! key' = ks !! key'.
Proof.
  intros H. destruct (hash_at_view now _ _ _ H) as [Hv He]. simpl. rewrite Hv, He. simpl.
  split; [apply put_hash|intros key' Hne; by apply put_ne].
Qed.

Lemma lookup_fold_delete {A} (ks : list rstr) (m : gmap rstr A) k :
  fold_left (fun m k => delete k m) ks m !! k = if bool_decide (k ∈ ks) then None else m !! k.
Proof.
  revert m. induction ks as [|k' ks IH]; intros m; cbn [fold_left].
  - by rewrite bool_decide_eq_false_2 by apply not_elem_of_nil.
  - rewrite IH. destruct (decide (k = k')) as [->|Hne].
    + rewrite (bool_decide_eq_true_2 (k' ∈ k' :: ks)) by left.
      destruct (bool_decide _); [done|apply lookup_delete_eq].
    + rewrite lookup_delete_ne by congruence.
      destruct (decide (k ∈ ks)) as [Hin|Hin].
      * rewrite (bool_decide_eq_true_2 (k ∈ ks)) by done.
        by rewrite (bool_decide_eq_true_2 (k ∈ k' :: ks)) by by right.
      * rewrite (bool_decide_eq_false_2 (k ∈ ks)) by done.
        rewrite (bool_decide_eq_false_2 (k ∈ k' :: ks)); [done|]. by apply not_elem_of_cons.
Qed.

(** A sorted enumeration of a sorted set is the enumeration. *)
#[local] Instance zset_le_antisym : AntiSymm (=) (rel_of zset_le).
Proof.
  intros [a s] [b t]. unfold rel_of, zset_le. simpl. intros H1 H2.
  assert (s = t) as -> by lia. f_equal. apply str_leb_antisym; lia.
Qed.

Lemma zset_sorted_unique z l :
  List.NoDup l -> StronglySorted (rel_of zset_le) l -> (forall m s, In (m, s) l <-> z !! m = Some s) ->
  zset_sorted z = l.
Proof.
  intros Hn Hs Hin. apply (StronglySorted_unique (rel_of zset_le)); [apply zset_sorted_sorted|done|].
  apply NoDup_Permutation.
  - apply NoDup_ListNoDup. eapply NoDup_map_inv, zset_sorted_nodup.
  - by apply NoDup_ListNoDup.
  - intros [m s]. rewrite !list_elem_of_In, Hin. apply in_zset_sorted.
Qed.
End Collections.
