(* ===== verification/Effects.v ===== *)
(** * The effects of a handler

    A handler runs in [M E A]: it reads an environment (the clock, the fresh
    identifiers and random bytes, and which requests to the services fail) and
    threads a world (the database, the cache, the connection pool, the
    published and the sent events, the object store). [Err] is Rust's early return through [?];
    the effects done before it stay. Every request to a service is one step,
    and the environment may lose it before or after the server acts. *)
From Stdlib Require Import String.
From S2P Require Export Schema Valkey.

Inductive Fault := NoFault | FaultBefore | FaultAfter.

Record Env := mkEnv {
  env_clock : nat -> Z;        (** Unix milliseconds at each step *)
  env_uuid : nat -> Uuid;      (** [Uuid::now_v7()] *)
  env_random : nat -> list Z;  (** 32 random bytes *)
  env_fault : nat -> Fault;
  env_torn : nat -> nat        (** how much of a lost write arrives *)
}.

(** [ValkeyPool]: how many connections, the round-robin index, and whether the
    lock is poisoned. *)
Record ValkeyPool := mkPool { pool_len : Z; pool_index : Z; pool_poisoned : bool }.

Record World (K : Type) := mkWorld {
  w_step : nat;
  w_db : Db;
  w_cache : K;
  w_pool : ValkeyPool;
  w_published : list (rstr * ServerEvent);
  w_sent : list ServerEvent;
  w_blobs : gmap rstr (list Z)  (** the object store, by key *)
}.
Arguments mkWorld {K}. Arguments w_step {K}. Arguments w_db {K}. Arguments w_cache {K}.
Arguments w_pool {K}. Arguments w_published {K}. Arguments w_sent {K}. Arguments w_blobs {K}.

Definition M (K E A : Type) : Type := Env -> World K -> Result E A * World K.

Section WorldUpdates.
Context {K : Type}.
Implicit Types (w : World K).
Definition tick w :=
  mkWorld (S (w_step w)) (w_db w) (w_cache w) (w_pool w) (w_published w) (w_sent w) (w_blobs w).
Definition with_db (d : Db) w :=
  mkWorld (w_step w) d (w_cache w) (w_pool w) (w_published w) (w_sent w) (w_blobs w).
Definition with_cache (c : K) w :=
  mkWorld (w_step w) (w_db w) c (w_pool w) (w_published w) (w_sent w) (w_blobs w).
Definition with_pool (p : ValkeyPool) w :=
  mkWorld (w_step w) (w_db w) (w_cache w) p (w_published w) (w_sent w) (w_blobs w).
Definition with_published (e : rstr * ServerEvent) w :=
  mkWorld (w_step w) (w_db w) (w_cache w) (w_pool w) (w_published w ++ [e]) (w_sent w) (w_blobs w).
Definition with_sent (e : ServerEvent) w :=
  mkWorld (w_step w) (w_db w) (w_cache w) (w_pool w) (w_published w) (w_sent w ++ [e]) (w_blobs w).
Definition with_blobs (b : gmap rstr (list Z)) w :=
  mkWorld (w_step w) (w_db w) (w_cache w) (w_pool w) (w_published w) (w_sent w) b.
End WorldUpdates.

(** ** The monad *)

Section Monad.
Context {K : Type}.

Definition ret {E A} (a : A) : M K E A := fun _ w => (Ok a, w).
Definition throw {E A} (e : E) : M K E A := fun _ w => (Err e, w).
Definition bind {E A B} (m : M K E A) (f : A -> M K E B) : M K E B := fun env w =>
  match m env w with
  | (Ok a, w') => f a env w'
  | (Err e, w') => (Err e, w')
  end.

(** [result?] on a plain result. *)
Definition lift {E F A} `{From E F} (r : Result E A) : M K F A :=
  match r with Ok a => ret a | Err e => throw (from_err e) end.
(** [option.ok_or(e)?] *)
Definition ok_or {E A} (o : option A) (e : E) : M K E A :=
  match o with Some a => ret a | None => throw e end.
(** [call.await?] where the error converts. *)
Definition conv {E F A} `{From E F} (m : M K E A) : M K F A := fun env w =>
  match m env w with
  | (Ok a, w') => (Ok a, w')
  | (Err e, w') => (Err (from_err e), w')
  end.
(** A call whose result is inspected instead of propagated. *)
Definition attempt {E F A} (m : M K E A) : M K F (Result E A) := fun env w =>
  match m env w with (r, w') => (Ok r, w') end.

Fixpoint for_each {E A} (l : list A) (f : A -> M K E unit) : M K E unit :=
  match l with
  | [] => ret tt
  | a :: l' => bind (f a) (fun _ => for_each l' f)
  end.
End Monad.

Declare Scope m_scope.
Delimit Scope m_scope with m.
Notation "x <- c1 ;; c2" := (bind c1 (fun x => c2))
  (at level 100, c1 at next level, right associativity) : m_scope.
Notation "c1 ;; c2" := (bind c1 (fun _ => c2))
  (at level 100, right associativity) : m_scope.
Open Scope m_scope.

(** ** Requests *)

Section Requests.
Context {K : Type}.

(** [Clock::now_millis], [now_millis()] *)
Definition now_millis {E} : M K E Z := fun env w => (Ok (env_clock env (w_step w)), tick w).
(** [Uuid::now_v7()] *)
Definition now_v7 {E} : M K E Uuid := fun env w => (Ok (env_uuid env (w_step w)), tick w).
(** [rand::rng().fill_bytes] on 32 bytes *)
Definition fill_bytes {E} : M K E (list Z) := fun env w => (Ok (env_random env (w_step w)), tick w).

(** A statement on the pool or on the open transaction. *)
Definition execute {E A} `{From SqlxError E} (f : Db -> Result SqlxError (A * Db)) : M K E A :=
  fun env w =>
    match env_fault env (w_step w) with
    | FaultBefore => (Err (from_err SqlxIo), tick w)
    | NoFault =>
        match f (w_db w) with
        | Ok (a, d) => (Ok a, with_db d (tick w))
        | Err e => (Err (from_err e), tick w)
        end
    | FaultAfter =>
        match f (w_db w) with
        | Ok (_, d) => (Err (from_err SqlxIo), with_db d (tick w))
        | Err e => (Err (from_err SqlxIo), tick w)
        end
    end.

(** A SELECT. *)
Definition query {E A} `{From SqlxError E} (f : Db -> A) : M K E A :=
  fun env w =>
    match env_fault env (w_step w) with
    | NoFault => (Ok (f (w_db w)), tick w)
    | _ => (Err (from_err SqlxIo), tick w)
    end.

(** [begin ... commit]: the statements of the body see and change the
    transaction's view; an early return drops the transaction, which rolls
    back; losing the acknowledgement of the commit leaves it committed. *)
Definition transaction {E A} `{From SqlxError E} (body : M K E A) : M K E A :=
  fun env w =>
    match env_fault env (w_step w) with
    | NoFault =>
        match body env (tick w) with
        | (Err e, w1) => (Err e, with_db (w_db w) w1)
        | (Ok a, w1) =>
            match env_fault env (w_step w1) with
            | NoFault => (Ok a, tick w1)
            | FaultBefore => (Err (from_err SqlxIo), with_db (w_db w) (tick w1))
            | FaultAfter => (Err (from_err SqlxIo), tick w1)
            end
        end
    | _ => (Err (from_err SqlxIo), tick w)
    end.

(** [socket.send] *)
Definition send_event (e : ServerEvent) : M K AppError unit := fun env w =>
  match env_fault env (w_step w) with
  | NoFault => (Ok tt, with_sent e (tick w))
  | FaultBefore => (Err (bad_request "connection closed"), tick w)
  | FaultAfter => (Err (bad_request "connection closed"), with_sent e (tick w))
  end.
End Requests.

Section CacheRequests.
Context {K : Type} {V : Valkey K}.

(** [ValkeyPool::connection] *)
Definition connection : M K AppError Z := fun _ w =>
  let p := w_pool w in
  if pool_poisoned p then (Err (service_unavailable "cache connection unavailable"), w)
  else if pool_len p =? 0 then (Err (service_unavailable "cache connection unavailable"), w)
  else (Ok (pool_index p mod pool_len p),
        with_pool (mkPool (pool_len p) (as_u64 (pool_index p + 1)) (pool_poisoned p)) w).

(** One command on a connection. *)
Definition command {A} (c : VCmd A) : M K AppError A := fun env w =>
  match env_fault env (w_step w) with
  | FaultBefore => (Err (from_err RedisIo), tick w)
  | NoFault =>
      let '(r, k) := vk_exec (env_clock env (w_step w)) c (w_cache w) in
      (match r with Ok a => Ok a | Err e => Err (from_err e) end, with_cache k (tick w))
  | FaultAfter =>
      (Err (from_err RedisIo),
       with_cache (vk_exec (env_clock env (w_step w)) c (w_cache w)).2 (tick w))
  end.

(** [redis::pipe().atomic()] with every reply ignored. *)
Definition pipe_atomic (cs : list VAction) : M K AppError unit := fun env w =>
  match env_fault env (w_step w) with
  | FaultBefore => (Err (from_err RedisIo), tick w)
  | NoFault => (Ok tt, with_cache (exec_actions (env_clock env (w_step w)) cs (w_cache w)) (tick w))
  | FaultAfter =>
      (Err (from_err RedisIo),
       with_cache (exec_actions (env_clock env (w_step w)) cs (w_cache w)) (tick w))
  end.

(** [PUBLISH] of a serialised event. *)
Definition publish (target : rstr) (event : ServerEvent) : M K AppError unit := fun env w =>
  match env_fault env (w_step w) with
  | NoFault => (Ok tt, with_published (target, event) (tick w))
  | FaultBefore => (Err (from_err RedisIo), tick w)
  | FaultAfter => (Err (from_err RedisIo), with_published (target, event) (tick w))
  end.

Definition room_key (channel : rstr) : rstr := rs "chat:room:" ++ channel.

Definition broadcast (channel : rstr) (event : ServerEvent) : M K AppError unit :=
  connection ;;
  let publish_channel :=
    if channel ≟ rs "_control" then channel else rs "chat:room:" ++ channel in
  publish publish_channel event.

Definition broadcast_control (event : ServerEvent) : M K AppError unit :=
  broadcast (rs "_control") event.
End CacheRequests.

(** ** Reasoning: healthy runs *)

(** No request is lost. *)
Definition healthy (env : Env) : Prop := forall n, env_fault env n = NoFault.
(** No acknowledgement is lost: a request that fails had no effect. *)
Definition no_lost_ack (env : Env) : Prop := forall n, env_fault env n <> FaultAfter.
Definition pool_ok (p : ValkeyPool) : Prop := pool_poisoned p = false /\ 0 < pool_len p.

Create Rewrite HintDb run.

Section Healthy.
Context {K : Type}.
Implicit Types (w : World K).

Lemma run_bind {E A B} (m : M K E A) (f : A -> M K E B) env w :
  bind m f env w = match m env w with
                   | (Ok a, w') => f a env w' | (Err e, w') => (Err e, w') end.
Proof. done. Qed.
Lemma run_bind_ok {E A B} (m : M K E A) (f : A -> M K E B) env w a w' :
  m env w = (Ok a, w') -> bind m f env w = f a env w'.
Proof. unfold bind. by intros ->. Qed.
Lemma run_bind_err {E A B} (m : M K E A) (f : A -> M K E B) env w e w' :
  m env w = (Err e, w') -> bind m f env w = (Err e, w').
Proof. unfold bind. by intros ->. Qed.
(** A run is its result with the world it leaves. *)
Lemma run_split {E A} (m : M K E A) env w r : (m env w).1 = r -> m env w = (r, (m env w).2).
Proof. intros <-. apply surjective_pairing. Qed.
Lemma bind_ok_inv {E A B} (m : M K E A) (f : A -> M K E B) env w b w2 :
  bind m f env w = (Ok b, w2) -> exists a w1, m env w = (Ok a, w1) /\ f a env w1 = (Ok b, w2).
Proof. unfold bind. destruct (m env w) as [[a|e] w1]; [eauto|done]. Qed.

Lemma run_query {E A} `{From SqlxError E} (f : Db -> A) env w :
  healthy env -> (query f : M K E A) env w = (Ok (f (w_db w)), tick w).
Proof. intros Hh. unfold query. by rewrite Hh. Qed.

Lemma query_ok_inv {E A} `{From SqlxError E} (f : Db -> A) env w a w' :
  (query f : M K E A) env w = (Ok a, w') -> a = f (w_db w) /\ w' = tick w.
Proof. unfold query. destruct (env_fault _ _); [by intros [= <- <-]|done..]. Qed.

Lemma run_execute {E A} `{From SqlxError E} (f : Db -> Result SqlxError (A * Db)) env w :
  healthy env ->
  (execute f : M K E A) env w
  = match f (w_db w) with
    | Ok (a, d) => (Ok a, with_db d (tick w)) | Err e => (Err (from_err e), tick w) end.
Proof. intros Hh. unfold execute. by rewrite Hh. Qed.

Lemma run_transaction {E A} `{From SqlxError E} (body : M K E A) env w :
  healthy env ->
  transaction body env w
  = match body env (tick w) with
    | (Ok a, w1) => (Ok a, tick w1) | (Err e, w1) => (Err e, with_db (w_db w) w1) end.
Proof.
  intros Hh. unfold transaction. rewrite Hh.
  destruct (body env (tick w)) as [[a|e] w1]; [|done]. by rewrite Hh.
Qed.

Lemma run_send_event e env w :
  healthy env -> send_event e env w = (Ok tt, with_sent e (tick w)).
Proof. intros Hh. unfold send_event. by rewrite Hh. Qed.

(** A transaction is all or nothing: whatever fails, the database afterwards
    is the one before or the one the whole body produced. *)
Lemma transaction_atomic {E A} `{From SqlxError E} (body : M K E A) env w r w' :
  transaction body env w = (r, w') ->
  w_db w' = w_db w
  \/ exists a w1, body env (tick w) = (Ok a, w1) /\ w_db w' = w_db w1 /\ (is_ok r = true -> r = Ok a).
Proof.
  unfold transaction. destruct (env_fault env (w_step w)).
  - destruct (body env (tick w)) as [[a|e] w1]; simpl.
    + destruct (env_fault env (w_step w1)); intros [= <- <-]; simpl; eauto 8.
      right. exists a, w1. done.
    + intros [= <- <-]. by left.
  - intros [= <- <-]. by left.
  - intros [= <- <-]. by left.
Qed.

Lemma transaction_err_clean {E A} `{From SqlxError E} (body : M K E A) env w e w' :
  no_lost_ack env -> transaction body env w = (Err e, w') -> w_db w' = w_db w.
Proof.
  intros Hn. unfold transaction. pose proof (Hn (w_step w)).
  destruct (env_fault env (w_step w)) eqn:?; [|by intros [= <- <-]|done].
  destruct (body env (tick w)) as [[a|e'] w1]; [|by intros [= <- <-]].
  pose proof (Hn (w_step w1)).
  destruct (env_fault env (w_step w1)) eqn:?; [done|by intros [= <- <-]|done].
Qed.

Lemma transaction_ok_inv {E A} `{From SqlxError E} (body : M K E A) env w a w' :
  transaction body env w = (Ok a, w') ->
  exists w1, body env (tick w) = (Ok a, w1) /\ w' = tick w1.
Proof.
  unfold transaction. destruct (env_fault env (w_step w)); [|done|done].
  destruct (body env (tick w)) as [[b|e] w1]; [|done].
  destruct (env_fault env (w_step w1)); intros [= <- <-]. eauto.
Qed.
End Healthy.

Section HealthyCache.
Context {K : Type} {V : Valkey K}.
Implicit Types (w : World K).

Lemma run_command {A} (c : VCmd A) env w :
  healthy env ->
  command c env w
  = let '(r, k) := vk_exec (env_clock env (w_step w)) c (w_cache w) in
    (match r with Ok a => Ok a | Err e => Err (from_err e) end, with_cache k (tick w)).
Proof. intros Hh. unfold command. by rewrite Hh. Qed.

Lemma run_pipe_atomic cs env w :
  healthy env ->
  pipe_atomic cs env w
  = (Ok tt, with_cache (exec_actions (env_clock env (w_step w)) cs (w_cache w)) (tick w)).
Proof. intros Hh. unfold pipe_atomic. by rewrite Hh. Qed.

Lemma run_publish t e env w :
  healthy env -> publish t e env w = (Ok tt, with_published (t, e) (tick w)).
Proof. intros Hh. unfold publish. by rewrite Hh. Qed.

Definition next_pool (p : ValkeyPool) : ValkeyPool :=
  mkPool (pool_len p) (as_u64 (pool_index p + 1)) (pool_poisoned p).

Lemma next_pool_ok p : pool_ok p -> pool_ok (next_pool p).
Proof. done. Qed.

Lemma run_connection env w :
  pool_ok (w_pool w) ->
  connection env w = (Ok (pool_index (w_pool w) mod pool_len (w_pool w)),
                      with_pool (next_pool (w_pool w)) w).
Proof.
  intros [Hp Hl]. unfold connection, next_pool. rewrite Hp.
  destruct (pool_len (w_pool w) =? 0) eqn:E; [lia|done].
Qed.
End HealthyCache.

(** ** Reasoning: what an operation may change *)

(** A frame is a preorder on worlds that the passing of steps and the choice of
    a connection respect, and that a rollback respects. *)
Class FrameRel {K} (R : World K -> World K -> Prop) := {
  frame_refl w : R w w;
  frame_trans w1 w2 w3 : R w1 w2 -> R w2 w3 -> R w1 w3;
  frame_tick w : R w (tick w);
  frame_pool w p : R w (with_pool p w);
  frame_rollback w w1 : R w w1 -> R w (with_db (w_db w) w1)
}.

(** What a frame lets the services do. *)
Class FrameDbFree {K} (R : World K -> World K -> Prop) := frame_db w d : R w (with_db d w).
Class FrameCacheFree {K} (R : World K -> World K -> Prop) := frame_cache w k : R w (with_cache k w).
Class FramePubFree {K} (R : World K -> World K -> Prop) := frame_pub w e : R w (with_published e w).
Class FrameSentFree {K} (R : World K -> World K -> Prop) := frame_sent w e : R w (with_sent e w).

Definition Frame {K E A} (R : World K -> World K -> Prop) (m : M K E A) : Prop :=
  forall env w, R w (m env w).2.

Create HintDb frame.

Section Frames.
Context {K : Type} (R : World K -> World K -> Prop) `{FR : !FrameRel R}.

Lemma frame_ret {E A} (a : A) : Frame (E := E) R (ret a).
Proof. intros env w. apply frame_refl. Qed.
Lemma frame_throw {E A} (e : E) : Frame (A := A) R (throw e).
Proof. intros env w. apply frame_refl. Qed.
Lemma frame_bind {E A B} (m : M K E A) (f : A -> M K E B) :
  Frame R m -> (forall a, Frame R (f a)) -> Frame R (bind m f).
Proof.
  intros Hm Hf env w. unfold bind. specialize (Hm env w).
  destruct (m env w) as [[a|e] w1]; simpl in *; [|done].
  eapply frame_trans; [exact Hm|apply Hf].
Qed.
Lemma frame_lift {E F A} `{From E F} (r : Result E A) : Frame (E := F) R (lift r).
Proof. destruct r; [apply frame_ret|apply frame_throw]. Qed.
Lemma frame_ok_or {E A} (o : option A) (e : E) : Frame R (ok_or o e).
Proof. destruct o; [apply frame_ret|apply frame_throw]. Qed.
Lemma frame_conv {E F A} `{From E F} (m : M K E A) : Frame R m -> Frame (E := F) R (conv m).
Proof. intros Hm env w. specialize (Hm env w). unfold conv. by destruct (m env w) as [[]]. Qed.
Lemma frame_attempt {E F A} (m : M K E A) : Frame R m -> Frame (E := F) R (attempt m).
Proof. intros Hm env w. specialize (Hm env w). unfold attempt. by destruct (m env w). Qed.
Lemma frame_for_each {E A} (l : list A) (f : A -> M K E unit) :
  (forall a, Frame R (f a)) -> Frame R (for_each l f).
Proof.
  intros Hf. induction l as [|a l IH]; simpl; [apply frame_ret|]. by apply frame_bind.
Qed.
Lemma frame_now_millis {E} : Frame (E := E) R now_millis.
Proof. intros env w. apply frame_tick. Qed.
Lemma frame_now_v7 {E} : Frame (E := E) R now_v7.
Proof. intros env w. apply frame_tick. Qed.
Lemma frame_fill_bytes {E} : Frame (E := E) R fill_bytes.
Proof. intros env w. apply frame_tick. Qed.
Lemma frame_query {E A} `{From SqlxError E} (f : Db -> A) : Frame (E := E) R (query f).
Proof. intros env w. unfold query. destruct (env_fault _ _); apply frame_tick. Qed.
Lemma frame_execute {E A} `{From SqlxError E} (f : Db -> Result SqlxError (A * Db)) :
  (forall w a d, f (w_db w) = Ok (a, d) -> R w (with_db d w)) -> Frame (E := E) R (execute f).
Proof.
  intros Hf env w. unfold execute.
  assert (forall a d, f (w_db w) = Ok (a, d) -> R w (with_db d (tick w))) as Hf'.
  { intros a d Hd. eapply frame_trans; [apply frame_tick|]. by apply (Hf (tick w) a). }
  destruct (env_fault _ _); [|apply frame_tick|];
    destruct (f (w_db w)) as [[a d]|e] eqn:Hd; simpl; first [by eapply Hf'|apply frame_tick].
Qed.
Lemma frame_transaction {E A} `{From SqlxError E} (body : M K E A) :
  Frame R body -> Frame R (transaction body).
Proof.
  intros Hb env w. unfold transaction.
  assert (R w (body env (tick w)).2) as Hw by (eapply frame_trans; [apply frame_tick|apply Hb]).
  destruct (env_fault _ _); simpl; [|apply frame_tick..].
  destruct (body env (tick w)) as [[a|e] w1]; simpl in *; [|by apply frame_rollback].
  assert (R w (tick w1)) by (eapply frame_trans; [exact Hw|apply frame_tick]).
  destruct (env_fault _ _); simpl; [done|by apply frame_rollback|done].
Qed.
Lemma frame_send_event `{!FrameSentFree R} e : Frame R (send_event e).
Proof.
  intros env w. unfold send_event.
  assert (R w (with_sent e (tick w))) by (eapply frame_trans; [apply frame_tick|apply frame_sent]).
  destruct (env_fault _ _); simpl; [done|apply frame_tick|done].
Qed.
Lemma frame_connection : Frame R connection.
Proof.
  intros env w. unfold connection.
  destruct (pool_poisoned _); [apply frame_refl|].
  destruct (_ =? 0); [apply frame_refl|apply frame_pool].
Qed.

Context {V : Valkey K}.
Lemma frame_command `{!FrameCacheFree R} {A} (c : VCmd A) : Frame R (command c).
Proof.
  intros env w. unfold command.
  assert (forall k, R w (with_cache k (tick w))) as Hk
    by (intros k; eapply frame_trans; [apply frame_tick|apply frame_cache]).
  destruct (env_fault _ _); simpl; [|apply frame_tick|apply Hk].
  destruct (vk_exec _ _ _). apply Hk.
Qed.
Lemma frame_pipe_atomic `{!FrameCacheFree R} cs : Frame R (pipe_atomic cs).
Proof.
  intros env w. unfold pipe_atomic.
  assert (forall k, R w (with_cache k (tick w))) as Hk
    by (intros k; eapply frame_trans; [apply frame_tick|apply frame_cache]).
  destruct (env_fault _ _); simpl; [apply Hk|apply frame_tick|apply Hk].
Qed.
Lemma frame_publish `{!FramePubFree R} t e : Frame R (publish t e).
Proof.
  intros env w. unfold publish.
  assert (R w (with_published (t, e) (tick w)))
    by (eapply frame_trans; [apply frame_tick|apply frame_pub]).
  destruct (env_fault _ _); simpl; [done|apply frame_tick|done].
Qed.
Lemma frame_broadcast `{!FramePubFree R} c e : Frame R (broadcast c e).
Proof. apply frame_bind; [apply frame_connection|]. intros _. apply frame_publish. Qed.
End Frames.

#[export] Hint Resolve frame_ret frame_throw frame_lift frame_ok_or frame_now_millis frame_now_v7
  frame_fill_bytes frame_query frame_send_event frame_connection frame_command frame_pipe_atomic
  frame_publish frame_broadcast : frame.

(** Walk through a handler: sequencing, branches, transactions and caught calls
    are structural, the rest is looked up in the database [frame]. *)
Ltac frame_step :=
  match goal with
  | |- Frame _ (bind _ _) => apply frame_bind; [exact _| |intros ?]
  | |- Frame _ (transaction _) => apply frame_transaction; [exact _|]
  | |- Frame _ (conv _) => apply frame_conv
  | |- Frame _ (attempt _) => apply frame_attempt
  | |- Frame _ (for_each _ _) => apply frame_for_each; [exact _|intros ?]
  | |- Frame _ (if ?b then _ else _) => destruct b
  | |- Frame _ (match ?x with _ => _ end) => destruct x
  | |- Frame _ (let _ := _ in _) => cbv zeta
  | |- Frame _ _ => solve [eauto 4 with frame typeclass_instances]
  end.
Ltac frame_auto := repeat frame_step.

(** The frame of a relation on databases. *)
Definition DbRel {K} (P : Db -> Db -> Prop) (w w' : World K) : Prop := P (w_db w) (w_db w').

#[export] Instance db_rel_frame {K} (P : Db -> Db -> Prop) `{!PreOrder P} :
  FrameRel (K := K) (DbRel P).
Proof.
  split; unfold DbRel; simpl.
  - intros w. reflexivity.
  - intros w1 w2 w3 H1 H2. by transitivity (w_db w2).
  - intros w. reflexivity.
  - intros w p. reflexivity.
  - intros w w1 _. reflexivity.
Qed.
#[export] Instance db_rel_cache {K} (P : Db -> Db -> Prop) `{!PreOrder P} :
  FrameCacheFree (K := K) (DbRel P).
Proof. intros w k. unfold DbRel. simpl. reflexivity. Qed.
#[export] Instance db_rel_pub {K} (P : Db -> Db -> Prop) `{!PreOrder P} :
  FramePubFree (K := K) (DbRel P).
Proof. intros w k. unfold DbRel. simpl. reflexivity. Qed.
#[export] Instance db_rel_sent {K} (P : Db -> Db -> Prop) `{!PreOrder P} :
  FrameSentFree (K := K) (DbRel P).
Proof. intros w k. unfold DbRel. simpl. reflexivity. Qed.

(** The frame of a database invariant. *)
Definition keeps (I : Db -> Prop) (d d' : Db) : Prop := I d -> I d'.
#[export] Instance keeps_preorder I : PreOrder (keeps I).
Proof. split; unfold keeps; [auto|]. intros x y z. auto. Qed.

(** The frame of "the database is untouched". *)
#[export] Instance eq_db_preorder : PreOrder (@eq Db).
Proof. split; [by intros x|]. by intros x y z -> ->. Qed.

(** The frame of "neither a table nor a stored file changed". *)
Definition Quiet {K} (w w' : World K) : Prop := w_db w' = w_db w /\ w_blobs w' = w_blobs w.
#[export] Instance quiet_frame {K} : FrameRel (@Quiet K).
Proof.
  split; unfold Quiet; simpl; try done.
  - intros w1 w2 w3 (?&?) (?&?). split; congruence.
  - intros w w1 (?&?). done.
Qed.
#[export] Instance quiet_cache {K} : FrameCacheFree (@Quiet K).
Proof. by intros w k. Qed.
#[export] Instance quiet_pub {K} : FramePubFree (@Quiet K).
Proof. by intros w k. Qed.
#[export] Instance quiet_sent {K} : FrameSentFree (@Quiet K).
Proof. by intros w k. Qed.

(** The frame of "nothing visible happened": no table, no cache key, no event. *)
Definition Silent {K} (w w' : World K) : Prop :=
  w_db w' = w_db w /\ w_cache w' = w_cache w /\ w_published w' = w_published w
  /\ w_sent w' = w_sent w.
#[export] Instance silent_frame {K} : FrameRel (@Silent K).
Proof.
  split; unfold Silent; simpl; try done.
  - intros w1 w2 w3 (?&?&?&?) (?&?&?&?). repeat split; congruence.
  - intros w w1 (?&?&?&?). done.
Qed.
