(* ===== verification/Reference.v ===== *)
(** * Reference instances

    Concrete instances of the interfaces, used to evaluate the definitions: the
    hyphenated hexadecimal text of a [Uuid], and text and binary formats built
    from the countability of the encoded types; and sample environments and
    worlds. *)
From Stdlib Require Import String.
From S2P Require Export Effects.

(** ** Hyphenated uuids *)

Definition hex_digit (d : N) : Z := if (d <? 10)%N then 48 + Z.of_N d else 87 + Z.of_N d.
Definition hex_value (c : Z) : N := Z.to_N (if c <? 58 then c - 48 else c - 87).

Fixpoint to_hex (n : nat) (x : N) : rstr :=
  match n with
  | O => []
  | S n' => to_hex n' (x / 16)%N ++ [hex_digit (x mod 16)%N]
  end.
Definition of_hex (s : rstr) : N := fold_left (fun acc c => (16 * acc + hex_value c)%N) s 0%N.

Definition hyphenate (s : rstr) : rstr :=
  take 8 s ++ [45] ++ take 4 (drop 8 s) ++ [45] ++ take 4 (drop 12 s) ++ [45]
  ++ take 4 (drop 16 s) ++ [45] ++ drop 20 s.
Definition unhyphenate (s : rstr) : rstr := List.filter (fun c => negb (c =? 45)) s.

Definition hyphenated (u : Uuid) : rstr := hyphenate (to_hex 32 (uuid_val u)).
Definition parse_hyphenated (s : rstr) : option Uuid :=
  if (length s =? 36)%nat && forallb (fun c => is_ascii_digit c || in_range 97 102 c || (c =? 45)) s
  then mk_uuid (of_hex (unhyphenate s)) else None.

Section HexFacts.
Lemma hex_value_digit d : (d < 16)%N -> hex_value (hex_digit d) = d.
Proof.
  intros H. unfold hex_value, hex_digit.
  destruct (d <? 10)%N eqn:E; destruct (_ <? 58) eqn:E2; lia.
Qed.

Lemma hex_digit_class d :
  (d < 16)%N -> is_ascii_digit (hex_digit d) || in_range 97 102 (hex_digit d) = true.
Proof.
  intros H. unfold is_ascii_digit, hex_digit, in_range. destruct (d <? 10)%N eqn:E; lia.
Qed.

Lemma of_hex_snoc s c : of_hex (s ++ [c]) = (16 * of_hex s + hex_value c)%N.
Proof. unfold of_hex. by rewrite fold_left_app. Qed.

Lemma of_to_hex n x : of_hex (to_hex n x) = (x mod 16 ^ N.of_nat n)%N.
Proof.
  revert x. induction n as [|n IH]; intros x.
  - simpl. by rewrite N.mod_1_r.
  - cbn [to_hex]. rewrite of_hex_snoc, IH.
    rewrite hex_value_digit by (apply N.mod_lt; lia).
    rewrite Nat2N.inj_succ, N.pow_succ_r by lia.
    rewrite N.Div0.mod_mul_r. lia.
Qed.

Lemma length_to_hex n x : length (to_hex n x) = n.
Proof. revert x. induction n as [|n IH]; intros x; simpl; [done|]. rewrite length_app, IH. simpl. lia. Qed.

Lemma to_hex_class n x :
  Forall (fun c => is_ascii_digit c || in_range 97 102 c = true) (to_hex n x).
Proof.
  revert x. induction n as [|n IH]; intros x; simpl; [constructor|].
  apply Forall_app. split; [apply IH|]. constructor; [|constructor].
  apply hex_digit_class. apply N.mod_lt. lia.
Qed.

Lemma unhyphenate_plain s :
  Forall (fun c => is_ascii_digit c || in_range 97 102 c = true) s -> unhyphenate s = s.
Proof.
  induction 1 as [|c s Hc Hs IH]; simpl; [done|].
  replace (negb (c =? 45)) with true; [by rewrite IH|].
  unfold is_ascii_digit, in_range in Hc. lia.
Qed.

Lemma unhyphenate_hyphenate s :
  Forall (fun c => is_ascii_digit c || in_range 97 102 c = true) s ->
  unhyphenate (hyphenate s) = s.
Proof.
  intros H. rewrite <- (unhyphenate_plain s H) at 2.
  unfold hyphenate, unhyphenate. rewrite !List.filter_app. simpl.
  rewrite <- (take_drop 8 s) at 6. rewrite <- (take_drop 4 (drop 8 s)) at 2.
  rewrite drop_drop. simpl. rewrite <- (take_drop 4 (drop 12 s)) at 2.
  rewrite drop_drop. simpl. rewrite <- (take_drop 4 (drop 16 s)) at 2.
  rewrite drop_drop. simpl. by rewrite !List.filter_app.
Qed.

Lemma in_hyphenated u c :
  In c (hyphenated u) -> In c (to_hex 32 (uuid_val u)) \/ c = 45.
Proof.
  unfold hyphenated, hyphenate. intros Hin. rewrite !in_app_iff in Hin.
  destruct Hin as [Hin|[[<-|[]]|[Hin|[[<-|[]]|[Hin|[[<-|[]]|[Hin|[[<-|[]]|Hin]]]]]]]]; auto;
    left; eauto using in_take, in_drop.
Qed.

Lemma hyphenated_class u :
  Forall (fun c => is_ascii_digit c || in_range 97 102 c || (c =? 45) = true) (hyphenated u).
Proof.
  apply List.Forall_forall. intros c [Hin| ->]%in_hyphenated; [|done].
  apply (Forall_In _ _ _ (to_hex_class 32 (uuid_val u))) in Hin. by rewrite Hin.
Qed.

Lemma parse_hyphenated_hyphenated u : parse_hyphenated (hyphenated u) = Some u.
Proof.
  unfold parse_hyphenated, hyphenated. pose proof (to_hex_class 32 (uuid_val u)) as Hc.
  pose proof (length_to_hex 32 (uuid_val u)) as Hl.
  rewrite unhyphenate_hyphenate by done. rewrite of_to_hex.
  replace (length (hyphenate _) =? 36)%nat with true.
  2:{ symmetry. apply Nat.eqb_eq. unfold hyphenate.
      rewrite !length_app, !length_take, !length_drop, Hl. simpl. lia. }
  replace (forallb _ (hyphenate _)) with true.
  2:{ symmetry. apply forallb_forall. intros c Hin.
      exact (Forall_In _ _ _ (hyphenated_class u) Hin). }
  simpl. rewrite N.mod_small; [apply mk_uuid_val|].
  clear. destruct u as [v H]. simpl. apply Is_true_eq_true in H. by apply N.ltb_lt.
Qed.
End HexFacts.

#[local] Instance hyphenated_text : UuidText := {|
  uuid_to_string := hyphenated;
  uuid_parse := parse_hyphenated;
  uuid_parse_to_string := parse_hyphenated_hyphenated;
  uuid_text_class := hyphenated_class
|}.

(** ** JSON and the binary record *)

(** JSON as a labelled tree. *)
Fixpoint json_tree (j : json) : gen_tree (bool + Z + rstr) :=
  match j with
  | JNull => GenNode 0 []
  | JBool b => GenLeaf (inl (inl b))
  | JNum z => GenLeaf (inl (inr z))
  | JStr s => GenLeaf (inr s)
  | JArr l => GenNode 1 (map json_tree l)
  | JObj l => GenNode 2 (map (fun '(k, v) => GenNode 3 [GenLeaf (inr k); json_tree v]) l)
  end.
Fixpoint tree_json (t : gen_tree (bool + Z + rstr)) : json :=
  match t with
  | GenLeaf (inl (inl b)) => JBool b
  | GenLeaf (inl (inr z)) => JNum z
  | GenLeaf (inr s) => JStr s
  | GenNode 1 l => JArr (map tree_json l)
  | GenNode 2 l =>
      JObj (map (fun t => match t with
                          | GenNode _ [GenLeaf (inr k); v] => (k, tree_json v)
                          | _ => ([], JNull)
                          end) l)
  | GenNode _ _ => JNull
  end.

Fixpoint tree_json_tree (j : json) : tree_json (json_tree j) = j.
Proof.
  destruct j as [|b|z|s|l|l]; simpl; try reflexivity.
  - f_equal. induction l as [|j l IH]; simpl; [reflexivity|]. f_equal; [apply tree_json_tree|exact IH].
  - f_equal. induction l as [|[k j] l IH]; simpl; [reflexivity|].
    f_equal; [|exact IH]. f_equal. apply tree_json_tree.
Qed.

Lemma json_eq_dec_sig (a b : json) : {a = b} + {a <> b}.
Proof.
  destruct (decide (json_tree a = json_tree b)) as [H|H].
  - left. by rewrite <- (tree_json_tree a), H, tree_json_tree.
  - right. by intros ->.
Defined.
#[export] Instance json_eq_dec : EqDecision json := json_eq_dec_sig.
#[export] Instance json_countable : Countable json :=
  inj_countable' json_tree tree_json tree_json_tree.

(** A text that holds the code of the value. *)
Definition encode_text {A} `{Countable A} (a : A) : rstr := [Zpos (encode a)].
Definition decode_text {A} `{Countable A} (s : rstr) : option A :=
  match s with [Zpos p] => decode p | _ => None end.
Lemma decode_encode_text {A} `{Countable A} (a : A) : decode_text (encode_text a) = Some a.
Proof. apply decode_encode. Qed.

#[local] Instance coded_json : JsonText := {|
  json_to_string := encode_text;
  json_from_str := decode_text;
  json_from_to := decode_encode_text
|}.

Definition stored_tuple (m : StoredMessage) :=
  (stored_id m, stored_channel m, stored_username m, stored_text m, stored_created_at m,
   stored_edited m, stored_deleted m,
   (stored_root_message_id m, stored_reply_count m, stored_metadata_json m, stored_mentions m,
    stored_client_id m, stored_file_ids m, stored_owner_session m)).
Definition stored_bytes (m : StoredMessage) : rstr := encode_text (stored_tuple m).
Definition stored_of_bytes (s : rstr) : option StoredMessage :=
  (fun '(a, b, c, d, e, f, g, (h, i, j, k, l, m, n)) => mkStoredMessage a b c d e f g h i j k l m n)
  <$> decode_text s.

#[local] Program Instance coded_bitcode : Bitcode := {|
  bitcode_encode := stored_bytes;
  bitcode_decode := stored_of_bytes
|}.
Next Obligation.
  intros []. unfold stored_of_bytes, stored_bytes. by rewrite decode_encode_text.
Qed.

(** ** Hashes *)

(** A padded prefix in place of the digest and the password itself in place of
    its hash: enough to evaluate the definitions. *)
Definition sample_digest (bytes : list Z) : list Z := firstn 32 (bytes ++ repeat 0 32).
Lemma sample_digest_length bytes : length (sample_digest bytes) = 32%nat.
Proof. unfold sample_digest. rewrite length_firstn, length_app, repeat_length. lia. Qed.

#[local] Program Instance sample_crypto : Crypto := {|
  sha256 := sample_digest;
  sha256_length := sample_digest_length;
  argon2_hash := fun _ password => Some password;
  argon2_verify := fun password h => password ≟ h
|}.
Next Obligation. intros salt p h [= <-]. by apply bool_decide_eq_true_2. Qed.

(** ** Sample worlds *)

Definition uuid_of (n : N) : Uuid :=
  match mk_uuid (n mod 2 ^ 128) with Some u => u | None => uuid_nil end.

(** A clock that advances by a millisecond per step, fresh identifiers from
    1000, and no failure. *)
Definition sample_env (start : Z) : Env :=
  mkEnv (fun n => start + Z.of_nat n) (fun n => uuid_of (1000 + N.of_nat n))
    (fun n => repeat (Z.of_nat n) 32) (fun _ => NoFault) (fun n => n).
(** The same with one failing step. *)
Definition faulty_env (start : Z) (at_step : nat) (f : Fault) : Env :=
  mkEnv (env_clock (sample_env start)) (env_uuid (sample_env start)) (env_random (sample_env start))
    (fun n => if (n =? at_step)%nat then f else NoFault) (env_torn (sample_env start)).

Lemma sample_env_healthy start : healthy (sample_env start).
Proof. intros n. reflexivity. Qed.

Definition sample_world (d : Db) : World Keyspace := mkWorld 0 d ∅ (mkPool 4 0 false) [] [] ∅.

Definition sample_user (n : N) (name : string) : UserRow :=
  mkUserRow (uuid_of n) (rs name ++ rs "@example.com") (rs name) (rs "hash") None 1 0 0 None [] [] None.
Definition sample_channel (n : N) (name : string) (kind : ChannelKind) (owner : option Uuid) : ChannelRow :=
  mkChannelRow (uuid_of n) (rs name) kind owner None 0 None None [] 90 false.
Definition sample_auth (n : N) (name : string) (perms : list string) : AuthUser :=
  mkAuthUser (uuid_of n) (rs name ++ rs "@example.com") (rs name) [rs "user"] (map rs perms).

(** Two users, the public [main] and a private channel owned by the first. *)
Definition sample_db : Db :=
  set_users (fun _ => [sample_user 1 "alice"; sample_user 2 "bob"; sample_user 3 "carol"])
    (set_channels (fun _ => [sample_channel 10 "main" Public None;
                             sample_channel 11 "team" Private (Some (uuid_of 1))])
       (set_channel_members (fun _ => [mkMemberRow (uuid_of 11) (uuid_of 1) Owner (Some (uuid_of 1)) 0])
          empty_db)).
