(* ===== verification/Access.v ===== *)
(** * Permissions, bans and channel access

    The guards of [api/channels.rs] and [auth.rs] that every handler runs, the
    audit and outbox writers of [persistence.rs], and the member and
    conversation listings. *)
From Stdlib Require Import String.
From S2P Require Export Validation Effects.
From S2P Require Import Reference.
Open Scope m_scope.

(** ** Statements *)

(** [b.user_id=$u AND b.revoked_at IS NULL AND (b.expires_at IS NULL OR
    b.expires_at > $now)] *)
Definition ban_in_force (now : Z) (user : Uuid) (b : BanRow) : bool :=
  (ban_user_id b ≟ user) && is_none (ban_revoked_at b)
  && match ban_expires_at b with None => true | Some t => now <? t end.
(** [... AND (b.channel_id IS NULL OR b.channel_id=c.id)] *)
Definition ban_covers (channel : Uuid) (b : BanRow) : bool :=
  match ban_channel_id b with None => true | Some c => c ≟ channel end.

Definition channel_banned (d : Db) (now : Z) (user channel : Uuid) : bool :=
  exists_row (fun b => ban_in_force now user b && ban_covers channel b) (user_bans d).
Definition globally_banned (d : Db) (now : Z) (user : Uuid) : bool :=
  exists_row (fun b => ban_in_force now user b && is_none (ban_channel_id b)) (user_bans d).

Definition member_row (channel user : Uuid) (m : MemberRow) : bool :=
  (cm_channel_id m ≟ channel) && (cm_user_id m ≟ user).
Definition is_member (d : Db) (channel user : Uuid) : bool :=
  exists_row (member_row channel user) (channel_members d).

Definition active_channel (name : rstr) (c : ChannelRow) : bool :=
  (c_name c ≟ name) && is_none (c_deleted_at c).
Definition visible_to (d : Db) (now : Z) (user : Uuid) (c : ChannelRow) : bool :=
  ((c_kind c ≟ Public) || is_member d (c_id c) user)
  && negb (channel_banned d now user (c_id c)).

(** The [EXISTS] of [ensure_channel_access]. *)
Definition sql_channel_access (d : Db) (name : rstr) (user : Uuid) (now : Z) : bool :=
  exists_row (fun c => active_channel name c && visible_to d now user c) (channels d).

Definition find_channel (d : Db) (name : rstr) : option ChannelRow :=
  first_row (active_channel name) (channels d).

Definition has_permission (perms : list rstr) (p : rstr) : bool :=
  existsb (fun v => v ≟ p) perms.
Definition chat_moderate : rstr := rs "chat:moderate".

Definition fk_user (d : Db) (u : Uuid) : bool := exists_row (fun r => u_id r ≟ u) (users d).
Definition fk_user_opt (d : Db) (u : option Uuid) : bool :=
  match u with None => true | Some u => fk_user d u end.

(** An INSERT of one row: the foreign keys hold ([fk]) and the key is new. *)
Definition insert_row {R Key} `{EqDecision Key} (key : R -> Key) (fk : bool)
    (get : Db -> list R) (set : (list R -> list R) -> Db -> Db) (r : R) (d : Db) :
    Result SqlxError (unit * Db) :=
  if fk && negb (exists_row (fun r' => key r' ≟ key r) (get d)) then
    Ok (tt, set (fun t => t ++ [r]) d)
  else Err SqlxDatabase.

(** An INSERT changes its own table only. *)
Lemma insert_row_keeps {A} (f : Db -> A) {R Key} `{EqDecision Key} (key : R -> Key) fk get set r d x d' :
  (forall g d, f (set g d) = f d) -> insert_row key fk get set r d = Ok (x, d') -> f d' = f d.
Proof. unfold insert_row. intros Hf. destruct (_ && _); [|done]. intros [= _ <-]. apply Hf. Qed.

Lemma insert_row_ok {R Key} `{EqDecision Key} (key : R -> Key) fk get set r d x d' :
  insert_row key fk get set r d = Ok (x, d') ->
  fk = true /\ exists_row (fun r' => key r' ≟ key r) (get d) = false /\ d' = set (fun t => t ++ [r]) d.
Proof.
  unfold insert_row. destruct (fk && _) eqn:E; [|done]. intros [= _ <-]. apply andb_true_iff in E as [? ?%negb_true_iff]. done.
Qed.

(** ** Guards *)

Section Access.
Context {K : Type}.
Notation M := (M K).

Definition require_permission (user : AuthUser) (permission : rstr) : M AppError unit :=
  if has_permission (permissions user) permission then ret tt
  else throw (forbidden "permission denied").

Definition ensure_channel_access (name : rstr) (user : Uuid) : M AppError unit :=
  now <- now_millis ;;
  allowed <- query (fun d => sql_channel_access d name user (as_i64 now)) ;;
  if allowed : bool then ret tt else throw (forbidden "conversation access denied").

Definition ensure_not_globally_banned (user : Uuid) : M AppError unit :=
  now <- now_millis ;;
  banned <- query (fun d => globally_banned d (as_i64 now) user) ;;
  if banned : bool then throw (forbidden "conversation access denied") else ret tt.

Definition sql_can_post (d : Db) (name : rstr) (user : Uuid) : bool :=
  exists_row (fun m =>
    (cm_user_id m ≟ user) && ((cm_role m ≟ Owner) || (cm_role m ≟ Moderator))
    && exists_row (fun c => (c_id c ≟ cm_channel_id m) && (c_name c ≟ name)) (channels d))
    (channel_members d).

Definition ensure_channel_posting_access (name : rstr) (user : Uuid) (perms : list rstr) :
    M AppError unit :=
  row <- query (fun d => find_channel d name) ;;
  match row with
  | None => throw (from_err NotFound)
  | Some row =>
      let is_moderator := has_permission perms chat_moderate in
      if is_some (c_archived_at row) && negb is_moderator then
        throw (forbidden "archived channels are read-only")
      else if negb (c_posting_restricted row) || is_moderator then ret tt
      else
        can_post <- query (fun d => sql_can_post d name user) ;;
        if can_post : bool then ret tt
        else throw (forbidden "posting is restricted in this channel")
  end.

Definition owned_private (name : rstr) (user : Uuid) (c : ChannelRow) : bool :=
  (c_name c ≟ name) && (c_kind c ≟ Private) && (c_owner_user_id c ≟ Some user)
  && is_none (c_deleted_at c).

Definition owned_private_channel (name : rstr) (user : Uuid) : M AppError Uuid :=
  row <- query (fun d => first_row (owned_private name user) (channels d)) ;;
  ok_or (c_id <$> row) (forbidden "only the private channel owner can manage members").

Definition channel_moderator_manager (name : rstr) (user : AuthUser) : M AppError Uuid :=
  if has_permission (permissions user) chat_moderate then
    row <- query (fun d => find_channel d name) ;;
    ok_or (c_id <$> row) (from_err NotFound)
  else owned_private_channel name (user_id user).

(** ** Listings *)

Definition role_rank (r : MemberRole) : Z :=
  match r with Owner => 2 | Moderator => 1 | Member => 0 end.
(** [ORDER BY cm.membership_role DESC, u.username] *)
Definition member_le (a b : ChannelMember) : bool :=
  (role_rank (membership_role b) <? role_rank (membership_role a))
  || ((role_rank (membership_role b) =? role_rank (membership_role a))
      && str_leb (member_username a) (member_username b)).

Definition sql_channel_members (d : Db) (name : rstr) : list ChannelMember :=
  order_by member_le
    (concat (map (fun m =>
      if exists_row (fun c => (c_id c ≟ cm_channel_id m) && active_channel name c) (channels d)
      then map (fun u => mkChannelMember (u_id u) (u_username u) (cm_role m))
               (where_ (fun u => u_id u ≟ cm_user_id m) (users d))
      else []) (channel_members d))).

Definition channel_members_of (name : rstr) : M AppError (list ChannelMember) :=
  query (fun d => sql_channel_members d name).

(** [ORDER BY (c.name = 'main') DESC, c.name] *)
Definition channel_name_le (a b : ChannelRow) : bool :=
  if c_name a ≟ MAIN_CHANNEL then true
  else if c_name b ≟ MAIN_CHANNEL then false
  else str_leb (c_name a) (c_name b).

Definition listed_channel (d : Db) (now : Z) (user : Uuid) (c : ChannelRow) : bool :=
  is_none (c_deleted_at c) && is_none (c_archived_at c) && (c_kind c ≟ Public)
  && negb (channel_banned d now user (c_id c)).

(** [ChatRepository::list_channels] *)
Definition list_channels (user : Uuid) : M RepositoryError (list rstr) :=
  now <- now_millis ;;
  query (fun d => map c_name (order_by channel_name_le
                    (where_ (listed_channel d (as_i64 now) user) (channels d)))).
End Access.

(** ** persistence.rs *)

Record AuditEvent := mkAuditEvent {
  ev_actor : option Uuid; ev_action : rstr; ev_target_type : rstr;
  ev_target_id : Uuid; ev_metadata : json; ev_created_at : Z
}.

Definition sql_record_audit (id : Uuid) (e : AuditEvent) (d : Db) : Result SqlxError (unit * Db) :=
  insert_row au_id (fk_user_opt d (ev_actor e)) audit_events set_audit_events
    (mkAuditRow id (ev_actor e) (ev_action e) (ev_target_type e) (ev_target_id e)
       (ev_metadata e) (ev_created_at e)) d.

Definition sql_queue_outbox (id : Uuid) (topic : rstr) (payload : json) (created_at : Z) (d : Db) :
    Result SqlxError (unit * Db) :=
  insert_row ob_id true outbox_events set_outbox_events
    (mkOutboxRow id topic payload created_at None 0 None) d.

Section Persistence.
Context {K : Type} {T : UuidText}.
Notation M := (M K).

Definition record_audit {E} `{From SqlxError E} (event : AuditEvent) : M E unit :=
  id <- now_v7 ;;
  execute (sql_record_audit id event).

(** [pool.acquire] is a request of its own. *)
Definition record_audit_pool {E} `{From SqlxError E} (event : AuditEvent) : M E unit :=
  query (fun _ => tt) ;;
  record_audit event.

Definition auth_invalidate : rstr := rs "auth.invalidate".

Definition queue_auth_invalidation {E} `{From SqlxError E} (user : Uuid) (created_at : Z) :
    M E unit :=
  id <- now_v7 ;;
  execute (sql_queue_outbox id auth_invalidate
             (JObj [(rs "user_id", json_uuid user)]) created_at).
End Persistence.

(** ** System messages *)

Definition system_metadata : json := JObj [(rs "kind", JStr (rs "system"))].

(** The [INSERT ... SELECT ... FROM channels] of [create_system_message];
    channel names are unique, so it selects at most one channel. *)
Definition sql_insert_system_message (id : Uuid) (text : rstr) (created_at : Z) (channel : rstr)
    (d : Db) : Result SqlxError (Z * Db) :=
  match find_channel d channel with
  | None => Ok (0, d)
  | Some c =>
      match insert_row m_id true messages set_messages
              (mkMessageRow id (c_id c) (rs "system") text created_at false uuid_nil None None None
                 system_metadata [] None None None) d with
      | Ok (_, d') => Ok (1, d')
      | Err e => Err e
      end
  end.

Section SystemMessages.
Context {K : Type}.
Notation M := (M K).

Definition create_system_message (channel text : rstr) : M AppError (option ChatMessage) :=
  id <- now_v7 ;;
  created_at <- now_millis ;;
  affected <- execute (sql_insert_system_message id text (as_i64 created_at) channel) ;;
  if affected =? 0 then ret None
  else ret (Some (mkChatMessage id channel (rs "system") text created_at false false None 0
                    system_metadata [] None [])).

Definition publish_system_message (channel text : rstr) : M AppError unit :=
  m <- create_system_message channel text ;;
  match m with
  | Some m => attempt (F := AppError) (broadcast channel (SvMessage m)) ;; ret tt
  | None => ret tt
  end.
End SystemMessages.

(** ** Specifications *)

(** A ban in force: not revoked and not past its expiry. *)
Definition BanActive (now : Z) (user : Uuid) (b : BanRow) : Prop :=
  ban_user_id b = user /\ ban_revoked_at b = None
  /\ (forall t, ban_expires_at b = Some t -> now < t).
(** What a user may read: the live channel of that name, public or theirs by
    membership, when no ban in force is global or names it. *)
Definition CanSee (d : Db) (now : Z) (user : Uuid) (c : ChannelRow) : Prop :=
  In c (channels d) /\ c_deleted_at c = None
  /\ (c_kind c = Public
      \/ exists m, In m (channel_members d) /\ cm_channel_id m = c_id c /\ cm_user_id m = user)
  /\ (forall b, In b (user_bans d) -> BanActive now user b ->
        exists other, ban_channel_id b = Some other /\ other <> c_id c).

Section AccessFacts.
Lemma ban_in_force_spec now user b : ban_in_force now user b = true <-> BanActive now user b.
Proof.
  unfold ban_in_force, BanActive. rewrite !andb_true_iff, bool_decide_eq_true, is_none_true.
  destruct (ban_expires_at b) as [t|].
  - split; [intros [[? ?] ?]; repeat split; try done; intros ? [= <-]; lia|].
    intros (? & ? & H). specialize (H t eq_refl). repeat split; [done|done|lia].
  - naive_solver.
Qed.

Lemma channel_banned_false d now user c :
  channel_banned d now user c = false <->
  (forall b, In b (user_bans d) -> BanActive now user b ->
     exists other, ban_channel_id b = Some other /\ other <> c).
Proof.
  unfold channel_banned. rewrite exists_row_false. apply forall_proper. intros b.
  split; intros H Hin.
  - intros Hb%ban_in_force_spec. specialize (H Hin). rewrite Hb in H. simpl in H.
    unfold ban_covers in H. destruct (ban_channel_id b) as [o|]; [|done]. bool_simpl. eauto.
  - destruct (ban_in_force now user b) eqn:E; [|done]. apply ban_in_force_spec in E.
    destruct (H Hin E) as (o & Ho & Hne). unfold ban_covers. rewrite Ho. simpl.
    by rewrite bool_decide_eq_false_2.
Qed.

Lemma is_member_true d c u :
  is_member d c u = true <->
  exists m, In m (channel_members d) /\ cm_channel_id m = c /\ cm_user_id m = u.
Proof.
  unfold is_member, member_row. rewrite exists_row_true. apply exist_proper. intros m.
  rewrite andb_true_iff, !bool_decide_eq_true. done.
Qed.

Lemma visible_to_spec d now user c :
  In c (channels d) -> c_deleted_at c = None ->
  visible_to d now user c = true <-> CanSee d now user c.
Proof.
  intros Hin Hd. unfold visible_to, CanSee.
  rewrite andb_true_iff, orb_true_iff, negb_true_iff, bool_decide_eq_true,
    is_member_true, channel_banned_false. tauto.
Qed.

Lemma sql_channel_access_spec d name user now :
  sql_channel_access d name user now = true <->
  exists c, c_name c = name /\ CanSee d now user c.
Proof.
  unfold sql_channel_access. rewrite exists_row_true. apply exist_proper. intros c.
  unfold active_channel. rewrite !andb_true_iff, bool_decide_eq_true, is_none_true.
  split.
  - intros (Hin & (Hn & Hd) & Hv). split; [done|]. by apply visible_to_spec.
  - intros (Hn & Hs). pose proof Hs as (Hin & Hd & _).
    repeat split; try done. by apply visible_to_spec.
Qed.

Lemma find_channel_some d name c :
  find_channel d name = Some c -> In c (channels d) /\ c_name c = name /\ c_deleted_at c = None.
Proof.
  intros (Hin & Ha)%first_row_some. unfold active_channel in Ha. bool_simpl. done.
Qed.
End AccessFacts.

Section AccessRuns.
Context {K : Type}.
Implicit Types (w : World K).

Lemma run_ensure_channel_access name user env w :
  healthy env ->
  ensure_channel_access name user env w
  = (if sql_channel_access (w_db w) name user (as_i64 (env_clock env (w_step w)))
     then Ok tt else Err (forbidden "conversation access denied"), tick (tick w)).
Proof.
  intros Hh. unfold ensure_channel_access. erewrite run_bind_ok by done.
  erewrite run_bind_ok by (by apply run_query). simpl. by destruct (sql_channel_access _ _ _ _).
Qed.

Lemma silent_ensure_channel_access name user :
  Frame (@Silent K) (ensure_channel_access name user).
Proof. unfold ensure_channel_access. frame_auto. Qed.
Lemma silent_ensure_not_globally_banned user :
  Frame (@Silent K) (ensure_not_globally_banned user).
Proof. unfold ensure_not_globally_banned. frame_auto. Qed.
Lemma silent_require_permission user p : Frame (@Silent K) (require_permission user p).
Proof. unfold require_permission. frame_auto. Qed.
Lemma silent_posting_access name user perms :
  Frame (@Silent K) (ensure_channel_posting_access name user perms).
Proof. unfold ensure_channel_posting_access. frame_auto. Qed.

(** A granted access leaves the tables, and grants by the policy. *)
Lemma channel_access_ok name user env w x w' :
  ensure_channel_access name user env w = (Ok x, w') ->
  w_db w' = w_db w /\ exists now c, c_name c = name /\ CanSee (w_db w) now user c.
Proof.
  intros H. pose proof (silent_ensure_channel_access name user env w) as [Hs _]. rewrite H in Hs.
  split; [done|]. unfold ensure_channel_access in H.
  apply bind_ok_inv in H as (now & w1 & [= <- <-] & H).
  apply bind_ok_inv in H as (allowed & w2 & Hq & H).
  unfold query in Hq. destruct (env_fault _ _); [|done..]. injection Hq as <- <-. simpl in H.
  destruct (sql_channel_access _ _ _ _) eqn:E; [|done].
  apply sql_channel_access_spec in E as (c & ? & ?). eauto.
Qed.

(** The guards are silent in every frame. *)
Context (R : World K -> World K -> Prop) `{FR : !FrameRel R}.
Lemma frame_require_permission user p : Frame R (require_permission user p).
Proof. unfold require_permission. frame_auto. Qed.
Lemma frame_ensure_channel_access name user : Frame R (ensure_channel_access name user).
Proof. unfold ensure_channel_access. frame_auto. Qed.
Lemma frame_ensure_not_globally_banned user : Frame R (ensure_not_globally_banned user).
Proof. unfold ensure_not_globally_banned. frame_auto. Qed.
Lemma frame_posting_access name user perms :
  Frame R (ensure_channel_posting_access name user perms).
Proof. unfold ensure_channel_posting_access. frame_auto. Qed.
Lemma frame_owned_private_channel name user : Frame R (owned_private_channel name user).
Proof. unfold owned_private_channel. frame_auto. Qed.
Lemma frame_channel_moderator_manager name user :
  Frame R (channel_moderator_manager name user).
Proof. unfold channel_moderator_manager, owned_private_channel. frame_auto. Qed.
Lemma frame_channel_members_of name : Frame R (channel_members_of name).
Proof. unfold channel_members_of. frame_auto. Qed.
End AccessRuns.

#[export] Hint Resolve frame_require_permission frame_ensure_channel_access
  frame_ensure_not_globally_banned frame_posting_access frame_owned_private_channel
  frame_channel_moderator_manager frame_channel_members_of : frame.

(** C11. [ensure_channel_access] grants a channel exactly to the users the policy
    names (a live channel of that name, public or with a membership row, and no
    ban in force that is global or names it), refuses everyone else with 403,
    and changes nothing. *)
Theorem ensure_channel_access_correct {K} (env : Env) (w : World K) name user
    (Hh : healthy env) :
  let now := as_i64 (env_clock env (w_step w)) in
  let '(r, w') := ensure_channel_access name user env w in
  Silent w w'
  /\ (r = Ok tt <-> exists c, c_name c = name /\ CanSee (w_db w) now user c)
  /\ (r <> Ok tt -> r = Err (forbidden "conversation access denied")).
Proof.
  simpl. pose proof (silent_ensure_channel_access name user env w) as Hs.
  rewrite run_ensure_channel_access in * by done. simpl in *.
  split; [done|]. rewrite <- sql_channel_access_spec.
  destruct (sql_channel_access _ _ _ _); split; done.
Qed.

(** Whatever the channel list shows can be opened: every name
    [list_channels] returns passes the access check at the same time. *)
Theorem listed_channels_accessible {K} (env : Env) (w w' : World K) user names name
    (Hr : list_channels user env w = (Ok names, w')) (Hin : In name names) :
  sql_channel_access (w_db w) name user (as_i64 (env_clock env (w_step w))) = true.
Proof.
  unfold list_channels in Hr. apply bind_ok_inv in Hr as (now & w1 & [= <- <-] & Hr).
  unfold query in Hr. destruct (env_fault _ _); [|done..]. injection Hr as <- <-. simpl in Hin.
  apply in_map_iff in Hin as (c & Hname & (Hc & Hl)%in_order_by%in_where).
  unfold sql_channel_access. apply exists_row_true. exists c. split; [done|].
  unfold listed_channel in Hl. unfold active_channel, visible_to. bool_simpl.
  rewrite !bool_decide_eq_true_2 by done. simpl.
  apply andb_true_iff. split; [by apply is_none_true|]. by apply negb_true_iff.
Qed.

(** ** Witnesses *)

Lemma ensure_channel_access_correct_witness :
  exists c, c_name c = rs "team" /\ CanSee sample_db 5 (uuid_of 1) c.
Proof.
  pose proof (ensure_channel_access_correct (sample_env 5) (sample_world sample_db)
    (rs "team") (uuid_of 1) (sample_env_healthy 5)) as H.
  destruct (ensure_channel_access _ _ _ _) as [r w'] eqn:E. destruct H as (_ & H & _).
  apply H. vm_compute in E. by injection E as <- _.
Defined.

Lemma listed_channels_accessible_witness :
  sql_channel_access sample_db (rs "main") (uuid_of 2) 7 = true.
Proof.
  eapply (listed_channels_accessible (sample_env 7) (sample_world sample_db) _ (uuid_of 2)
    [rs "main"] (rs "main")).
  - vm_compute. reflexivity.
  - by left.
Defined.
