(* ===== verification/Auth.v ===== *)
(** * Sessions, rate limits and passwords

    [auth.rs]: the Valkey-backed sessions and counters, the CSRF check, and the
    password verifier whose concurrent requests for one key share one run. *)
From Stdlib Require Import String.
From S2P Require Export Access.
From S2P Require Import Reference.
Open Scope m_scope.

Definition SESSION_TTL_SECONDS : Z := 60 * 60 * 24 * 14.
Definition CSRF_HEADER : rstr := rs "x-csrf-token".

Definition hex_lower (d : Z) : Z := if d <? 10 then 48 + d else 87 + d.
(** [hex::encode] *)
Definition hex_encode (bytes : list Z) : rstr :=
  concat (map (fun b => [hex_lower (b / 16); hex_lower (b mod 16)]) bytes).

(** The state of the cache as the server sees it. *)
Definition cache_of {K} {V : Valkey K} (w : World K) : Keyspace := vk_view (w_cache w).

Section Auth.
Context {K : Type} {V : Valkey K} {T : UuidText} {J : JsonText} {C : Crypto}.
Notation M := (M K).

(** ** Passwords *)

Definition hash_password_unchecked (password : rstr) : M AppError rstr :=
  salt <- now_v7 ;;
  ok_or (argon2_hash (uuid_as_bytes salt) password) (bad_request "could not hash password").

Definition password_hash (password : rstr) : M AppError rstr :=
  lift (password_policy password) ;;
  hash_password_unchecked password.

Definition verify_password (password encoded : rstr) : bool := argon2_verify password encoded.

Definition verification_key (user : Uuid) (password encoded : rstr) : list Z :=
  sha256 (uuid_as_bytes user ++ as_bytes encoded ++ as_bytes password).

(** What a caller of the verifier sees: the verdict, or that no permit came in
    time, or that the worker died ([Flights] below). *)
Definition verify_password_coalesced (user : Uuid) (password encoded : rstr) : M AppError bool :=
  fun env w =>
    (match env_fault env (w_step w) with
     | NoFault => Ok (verify_password password encoded)
     | FaultBefore => Err (too_many_requests "authentication service is busy")
     | FaultAfter => Err (service_unavailable "authentication service unavailable")
     end, tick w).

(** ** Rate limits *)

Definition session_key (id : Uuid) : rstr := rs "vussa:session:" ++ uuid_to_string id.
Definition user_sessions_key (user : Uuid) : rstr :=
  rs "vussa:user_sessions:" ++ uuid_to_string user.
Definition message_rate_key (user : Uuid) : rstr :=
  rs "chat:rate:message:" ++ uuid_to_string user.

Definition enforce_rate_limit (key : rstr) (limit window_seconds : Z) : M AppError unit :=
  connection ;;
  count <- command (Incr key) ;;
  (if count =? 1 then
     command (Expire key (as_i64 window_seconds)) ;; ret tt
   else
     ttl <- command (Ttl key) ;;
     if ttl =? -1 then command (Expire key (as_i64 window_seconds)) ;; ret tt
     else ret tt) ;;
  if limit <? count then throw (too_many_requests "rate limit exceeded") else ret tt.

(** ** Sessions *)

Definition create_session (user : AuthUser) : M AppError (Uuid * rstr) :=
  id <- now_v7 ;;
  csrf_bytes <- fill_bytes ;;
  let csrf := hex_encode csrf_bytes in
  let user_json := json_to_string (user_to_json user) in
  connection ;;
  pipe_atomic
    [act (Hset (session_key id) [(rs "csrf", csrf); (rs "user", user_json)]);
     act (Expire (session_key id) SESSION_TTL_SECONDS);
     act (Sadd (user_sessions_key (user_id user)) (uuid_to_string id))] ;;
  ret (id, csrf).

Definition load_session (headers : HeaderMap) : M AppError Session :=
  raw <- ok_or (cookie_value headers (rs "vussa_session"))
               (unauthorized "authentication required") ;;
  id <- ok_or (uuid_parse raw) (unauthorized "authentication required") ;;
  connection ;;
  values <- command (Hmget (session_key id) [rs "csrf"; rs "user"]) ;;
  csrf <- ok_or (nth 0 values None) (unauthorized "session expired") ;;
  text <- ok_or (nth 1 values None) (unauthorized "session expired") ;;
  user <- ok_or (json_from_str text ≫= user_from_json) (unauthorized "session expired") ;;
  command (Expire (session_key id) (as_i64 SESSION_TTL_SECONDS)) ;;
  ret (mkSession id csrf user).

Definition require_csrf (headers : HeaderMap) (session : Session) : M AppError unit :=
  header_str <- ok_or (header_str headers CSRF_HEADER) (bad_request "invalid csrf token") ;;
  if constant_time_compare (as_bytes header_str) (as_bytes (csrf session)) then ret tt
  else throw (bad_request "invalid csrf token").

(** [load_session] and [require_csrf], with which a mutating handler starts. *)
Definition csrf_session (headers : HeaderMap) : M AppError Session :=
  session <- load_session headers ;;
  require_csrf headers session ;;
  ret session.

(** [load_session], [require_csrf] and [require_permission], with which the
    mutating handlers start, and the first and last with which the others do. *)
Definition privileged (headers : HeaderMap) (permission : string) : M AppError AuthUser :=
  session <- load_session headers ;;
  require_csrf headers session ;;
  require_permission (session_user session) (rs permission) ;;
  ret (session_user session).
Definition privileged_read (headers : HeaderMap) (permission : string) : M AppError unit :=
  session <- load_session headers ;;
  require_permission (session_user session) (rs permission).

(** [COOKIE_SECURE] is the flag; the [Max-Age] is [SESSION_TTL_SECONDS]. *)
Definition auth_cookie (secure_flag : bool) (id : Uuid) : rstr :=
  let secure := if secure_flag then rs "; Secure" else [] in
  rs "vussa_session=" ++ uuid_to_string id ++ rs "; Path=/; HttpOnly" ++ secure
  ++ rs "; SameSite=Lax; Max-Age=1209600".
End Auth.

(** ** Facts *)

Section CacheRuns.
Context {K : Type} {V : Valkey K}.
Implicit Types (w : World K).

Definition reply {A} (r : Result RedisError A) : Result AppError A :=
  match r with Ok a => Ok a | Err e => Err (from_err e) end.

(** A command answers and changes the server's state as documented. *)
Lemma run_command_view {A : Type} (c : VCmd A) env w :
  healthy env ->
  exists k,
    command c env w
    = (reply (keyspace_exec (env_clock env (w_step w)) c (cache_of w)).1, with_cache k (tick w))
    /\ vk_view k = (keyspace_exec (env_clock env (w_step w)) c (cache_of w)).2.
Proof.
  intros Hh. rewrite run_command by done. unfold cache_of.
  pose proof (vk_exec_fst (env_clock env (w_step w)) c (w_cache w)) as H1.
  pose proof (vk_exec_snd (env_clock env (w_step w)) c (w_cache w)) as H2.
  destruct (vk_exec _ _ _) as [r k]. simpl in *. subst r. eauto.
Qed.

Lemma run_pipe_view cs env w :
  healthy env ->
  exists k, pipe_atomic cs env w = (Ok tt, with_cache k (tick w))
    /\ vk_view k = keyspace_actions (env_clock env (w_step w)) cs (cache_of w).
Proof. intros Hh. rewrite run_pipe_atomic by done. eexists. split; [done|]. apply exec_actions_view. Qed.
End CacheRuns.

Ltac run_cmd :=
  match goal with
  | Hh : healthy ?env |- context[bind (command ?c) _ ?env ?w] =>
      let k := fresh "k" in let H := fresh "Hrun" in let Hv := fresh "Hview" in
      destruct (run_command_view c env w Hh) as (k & H & Hv);
      rewrite run_bind, H; clear H; simpl in Hv; simpl
  end.

Section AuthFacts.
Context {K : Type} {V : Valkey K} {T : UuidText} {J : JsonText} {C : Crypto}.
Implicit Types (w : World K).

Lemma session_key_inj a b : session_key a = session_key b -> a = b.
Proof. unfold session_key. intros H%app_inv_head. by apply uuid_to_string_inj. Qed.

Lemma session_key_user_sessions a b : session_key a <> user_sessions_key b.
Proof. unfold session_key, user_sessions_key. done. Qed.

(** A state of a counter: its value and expiry, or nothing. *)
Definition counter_at (now : Z) (ks : Keyspace) (key : rstr) (n : Z) (e : option Z) : Prop :=
  live now ks key = if n =? 0 then None else Some (mkVEntry (VInt n) e).

Lemma counter_at_later now now' ks key n t :
  now <= now' -> now' < t -> counter_at now ks key n (Some t) ->
  n <> 0 -> counter_at now' ks key n (Some t).
Proof.
  unfold counter_at. intros Hle Hlt H Hn. destruct (n =? 0) eqn:E; [lia|].
  apply live_some in H as [H _]. apply live_some. split; [done|]. unfold expired. simpl. lia.
Qed.

Lemma exec_incr now ks key n e :
  0 <= n -> counter_at now ks key n e ->
  keyspace_exec now (Incr key) ks
  = (Ok (n + 1), <[key := mkVEntry (VInt (n + 1)) (if n =? 0 then None else e)]> ks).
Proof.
  unfold counter_at. simpl. intros Hn ->. destruct (n =? 0) eqn:E; simpl; [|done].
  by replace n with 0 by lia.
Qed.

Lemma exec_expire now ks key v e seconds :
  live now ks key = Some (mkVEntry v e) ->
  keyspace_exec now (Expire key seconds) ks
  = (Ok true, <[key := mkVEntry v (Some (now + 1000 * seconds))]> ks).
Proof. simpl. by intros ->. Qed.

Lemma exec_ttl now ks key v t :
  live now ks key = Some (mkVEntry v (Some t)) ->
  keyspace_exec now (Ttl key) ks = (Ok ((t - now + 500) / 1000), ks).
Proof. simpl. by intros ->. Qed.

Lemma ttl_not_minus_one t now : now < t -> ((t - now + 500) / 1000 =? -1) = false.
Proof. intros H. pose proof (Z.div_pos (t - now + 500) 1000). lia. Qed.

(** One call on a counter at [n]: it goes up by one, has an expiry afterwards,
    and the call is refused exactly when the new count is past the limit. *)
Lemma run_rate_limit key limit window env w n e :
  healthy env -> pool_ok (w_pool w) -> 0 <= n -> 0 <= window <= i64_max ->
  counter_at (env_clock env (w_step w)) (cache_of w) key n (Some e) ->
  (n <> 0 -> env_clock env (S (w_step w)) < e) ->
  exists w', enforce_rate_limit key limit window env w
    = (if limit <? n + 1 then Err (too_many_requests "rate limit exceeded") else Ok tt, w')
    /\ w_step w' = S (S (w_step w)) /\ pool_ok (w_pool w')
    /\ cache_of w' !! key
       = Some (mkVEntry (VInt (n + 1))
           (Some (if n =? 0 then env_clock env (S (w_step w)) + 1000 * window else e))).
Proof.
  intros Hh Hp Hn Hw Hc Hlater. unfold enforce_rate_limit.
  rewrite run_bind, run_connection by done.
  set (w1 := with_pool _ w).
  assert (pool_ok (w_pool w1)) as Hp1 by exact Hp.
  destruct (run_command_view (Incr key) env w1 Hh) as (k & Hrun & Hv).
  change (cache_of w1) with (cache_of w) in *. change (w_step w1) with (w_step w) in *.
  rewrite (exec_incr _ _ _ _ _ Hn Hc) in Hrun, Hv. simpl in Hrun, Hv.
  rewrite run_bind, Hrun. clear Hrun.
  set (w2 := with_cache k (tick w1)).
  assert (cache_of w2 = <[key := mkVEntry (VInt (n + 1)) (if n =? 0 then None else Some e)]> (cache_of w))
    as Hc2 by exact Hv.
  rewrite run_bind. destruct (n =? 0) eqn:En.
  - replace (n + 1 =? 1) with true by lia.
    destruct (run_command_view (Expire key (as_i64 window)) env w2 Hh) as (k2 & Hrun & Hv2).
    rewrite (exec_expire _ _ _ (VInt (n + 1)) None) in Hrun, Hv2
      by (rewrite Hc2; apply live_insert_eq).
    rewrite run_bind, Hrun. simpl. exists (with_cache k2 (tick w2)).
    split; [by destruct (limit <? n + 1)|]. split; [done|]. split; [exact Hp1|].
    unfold cache_of at 1. simpl. rewrite Hv2. simpl. rewrite lookup_insert_eq.
    by rewrite as_i64_id by done.
  - replace (n + 1 =? 1) with false by lia.
    destruct (run_command_view (Ttl key) env w2 Hh) as (k2 & Hrun & Hv2).
    assert (live (env_clock env (w_step w2)) (cache_of w2) key = Some (mkVEntry (VInt (n + 1)) (Some e)))
      as Hl.
    { rewrite Hc2, live_insert_eq. simpl.
      assert (env_clock env (S (w_step w)) < e) by (apply Hlater; lia).
      destruct (e <=? _) eqn:E; [lia|done]. }
    rewrite (exec_ttl _ _ _ _ _ Hl) in Hrun, Hv2. rewrite run_bind, Hrun. simpl.
    rewrite ttl_not_minus_one by (apply live_some in Hl as [_ Hl]; unfold expired in Hl; simpl in *; lia).
    exists (with_cache k2 (tick w2)).
    split; [by destruct (limit <? n + 1)|]. split; [done|]. split; [exact Hp1|].
    unfold cache_of at 1. simpl. rewrite Hv2, Hc2. simpl. by rewrite lookup_insert_eq.
Qed.

(** Successive calls, and what each returned. *)
Fixpoint repeat_calls {A} (n : nat) (m : M K AppError A) : M K AppError (list (Result AppError A)) :=
  match n with
  | O => ret []
  | S n' =>
      r <- attempt m ;;
      rest <- repeat_calls n' m ;;
      ret (r :: rest)
  end.

Lemma repeat_rate_limit key limit window env t0 calls n w e :
  healthy env -> 0 <= window <= i64_max -> 0 <= n ->
  (forall s, t0 <= env_clock env s < t0 + 1000 * window) ->
  pool_ok (w_pool w) -> (n <> 0 -> t0 + 1000 * window <= e) ->
  counter_at (env_clock env (w_step w)) (cache_of w) key n (Some e) ->
  exists w', repeat_calls calls (enforce_rate_limit key limit window) env w
             = (Ok (map (fun i => if i <=? limit then Ok tt
                                  else Err (mkAppError 429 "rate limit exceeded"))
                      (seqZ (n + 1) (Z.of_nat calls))), w').
Proof.
  intros Hh Hw. revert n w e. induction calls as [|calls IH]; intros n w e Hn Hclock Hp He Hc.
  { simpl. eauto. }
  destruct (run_rate_limit key limit window env w n e Hh Hp Hn Hw Hc)
    as (w1 & Hrun & Hstep & Hp1 & Hc1).
  { intros Hne. specialize (He Hne). specialize (Hclock (S (w_step w))). lia. }
  rewrite Nat2Z.inj_succ. rewrite seqZ_cons by lia. cbn [repeat_calls map].
  rewrite run_bind. unfold attempt at 1. rewrite Hrun.
  specialize (IH (n + 1) w1 (if n =? 0 then env_clock env (S (w_step w)) + 1000 * window else e)).
  destruct IH as (w' & IH); try done; try lia.
  - intros _. destruct (n =? 0) eqn:En; [|apply He; lia].
    specialize (Hclock (S (w_step w))). lia.
  - unfold counter_at. replace (n + 1 =? 0) with false by lia. apply live_some.
    split; [done|]. unfold expired. simpl. specialize (Hclock (w_step w1)) as Hc'.
    destruct (n =? 0) eqn:En.
    + specialize (Hclock (S (w_step w))). lia.
    + assert (t0 + 1000 * window <= e) by (apply He; lia). lia.
  - exists w'. rewrite run_bind. fold (repeat_calls calls (enforce_rate_limit key limit window)).
    rewrite IH. unfold ret. do 2 f_equal. f_equal.
    + by rewrite (Z.leb_antisym limit (n + 1)); destruct (limit <? n + 1).
    + replace (Z.pred (Z.succ (Z.of_nat calls))) with (Z.of_nat calls) by lia.
      by replace (Z.succ (n + 1)) with (n + 1 + 1) by lia.
Qed.
End AuthFacts.

(** C40. Within one window the counter lets exactly the first [limit] calls
    through: whatever the number of calls on a fresh key, the i-th is accepted
    when i <= limit and otherwise refused with status 429 and the message of the
    limiter. *)
Theorem rate_limit_window {K} {V : Valkey K} (env : Env) (w : World K) key limit window t0 calls
    (Hh : healthy env) (Hp : pool_ok (w_pool w)) (Hw : 0 <= window <= i64_max)
    (Hclock : forall s, t0 <= env_clock env s < t0 + 1000 * window)
    (Hfresh : live (env_clock env (w_step w)) (cache_of w) key = None) :
  exists w', repeat_calls calls (enforce_rate_limit key limit window) env w
             = (Ok (map (fun i => if i <=? limit then Ok tt
                                  else Err (mkAppError 429 "rate limit exceeded"))
                      (seqZ 1 (Z.of_nat calls))), w').
Proof.
  apply (repeat_rate_limit key limit window env t0 calls 0 w 0); try done.
Qed.

Section SessionFacts.
Context {K : Type} {V : Valkey K} {T : UuidText} {J : JsonText} {C : Crypto}.
Implicit Types (w : World K).

(** The cookie a browser returns for a session. *)
Definition session_cookie (id : Uuid) : HeaderMap :=
  [(rs "cookie", rs "vussa_session=" ++ uuid_to_string id)].

Lemma session_cookie_value id :
  cookie_value (session_cookie id) (rs "vussa_session") = Some (uuid_to_string id).
Proof.
  assert (Forall (fun c => is_ascii_digit c || in_range 97 102 c || (c =? 45)
                           || in_range 97 122 c || (c =? 61) || (c =? 95) = true)
            (rs "vussa_session=" ++ uuid_to_string id)) as Hc.
  { apply Forall_app. split; [by repeat constructor|].
    eapply Forall_impl; [apply uuid_text_class|]. simpl. intros c Hc. by rewrite Hc. }
  unfold cookie_value, session_cookie, header_str, first_row. cbn [List.find fst].
  rewrite bool_decide_eq_true_2 by done.
  assert (forallb visible_ascii (rs "vussa_session=" ++ uuid_to_string id) = true) as ->.
  { apply forallb_forall. intros c Hin. apply (Forall_In _ _ _ Hc) in Hin. simpl in Hin.
    unfold visible_ascii, is_ascii_digit, in_range in *. lia. }
  rewrite split_on_none.
  2:{ eapply Forall_impl; [exact Hc|]. simpl. unfold is_ascii_digit, in_range. intros c H. lia. }
  cbn [find_map]. unfold trim. rewrite trim_matches_none.
  2:{ eapply Forall_impl; [exact Hc|]. simpl. unfold is_whitespace, is_ascii_digit, in_range.
      intros c H. lia. }
  change (rs "vussa_session=" ++ uuid_to_string id)
    with (rs "vussa_session" ++ 61 :: uuid_to_string id).
  rewrite split_once_app by (by repeat constructor). by rewrite bool_decide_eq_true_2.
Qed.

(** The entry of a live session. *)
Definition session_entry (s : Session) (e : VEntry) : Prop :=
  exists h, ve_value e = VHash h /\ h !! rs "csrf" = Some (csrf s)
    /\ exists text, h !! rs "user" = Some text
         /\ (json_from_str text ≫= user_from_json) = Some (session_user s).

Lemma run_load_session s e env w :
  healthy env -> pool_ok (w_pool w) ->
  live (env_clock env (w_step w)) (cache_of w) (session_key (session_id s)) = Some e ->
  session_entry s e ->
  exists w', load_session (session_cookie (session_id s)) env w = (Ok s, w')
    /\ w_step w' = S (S (w_step w)).
Proof.
  intros Hh Hp Hl (h & Hv & Hcsrf & text & Hu & Hj). unfold load_session.
  rewrite session_cookie_value. cbn [ok_or]. rewrite run_bind. unfold ret at 1.
  rewrite uuid_parse_to_string. cbn [ok_or]. rewrite run_bind. unfold ret at 1.
  rewrite run_bind, run_connection by done.
  set (w1 := with_pool _ w).
  destruct (run_command_view (Hmget (session_key (session_id s)) [rs "csrf"; rs "user"]) env w1 Hh)
    as (k & Hrun & _).
  change (cache_of w1) with (cache_of w) in Hrun. change (w_step w1) with (w_step w) in Hrun.
  simpl in Hrun. rewrite Hl in Hrun. unfold hash_view in Hrun. rewrite Hv in Hrun.
  simpl in Hrun. rewrite Hcsrf, Hu in Hrun.
  rewrite run_bind, Hrun. cbn [nth ok_or]. rewrite !run_bind. unfold ret at 1.
  rewrite run_bind. unfold ret at 1. rewrite Hj. cbn [ok_or]. rewrite run_bind. unfold ret at 1.
  set (w2 := with_cache _ _).
  destruct (run_command_view (Expire (session_key (session_id s)) (as_i64 SESSION_TTL_SECONDS))
              env w2 Hh) as (k2 & Hrun2 & _).
  rewrite run_bind, Hrun2. simpl.
  replace (mkSession (session_id s) (csrf s) (session_user s)) with s by (by destruct s).
  exists (with_cache k2 (tick w2)). split; [|done].
  by destruct (live _ (cache_of w2) _).
Qed.

(** What is loaded was stored. *)
Lemma load_session_inv headers env w s w' :
  load_session headers env w = (Ok s, w') ->
  exists raw e, cookie_value headers (rs "vussa_session") = Some raw
    /\ uuid_parse raw = Some (session_id s)
    /\ live (env_clock env (w_step w)) (cache_of w) (session_key (session_id s)) = Some e
    /\ session_entry s e.
Proof.
  unfold load_session. intros H.
  destruct (cookie_value headers _) as [raw|] eqn:Hc; [|done].
  apply bind_ok_inv in H as (? & w1 & [= <- <-] & H).
  destruct (uuid_parse raw) as [id|] eqn:Hid; [|done].
  apply bind_ok_inv in H as (? & w1 & [= <- <-] & H).
  apply bind_ok_inv in H as (? & w1 & Hconn & H).
  assert (w_step w1 = w_step w /\ cache_of w1 = cache_of w) as [Hs1 Hc1].
  { unfold connection in Hconn. destruct (pool_poisoned _); [done|].
    destruct (_ =? 0); [done|]. by injection Hconn as <- <-. }
  apply bind_ok_inv in H as (values & w2 & Hcmd & H).
  apply bind_ok_inv in H as (tok & w3 & Hn0 & H).
  apply bind_ok_inv in H as (text & w4 & Hn1 & H).
  apply bind_ok_inv in H as (user & w5 & Hj & H).
  apply bind_ok_inv in H as (? & w6 & _ & H). injection H as <- <-.
  unfold command in Hcmd. rewrite Hs1 in Hcmd. destruct (env_fault _ _); [|done..].
  pose proof (vk_exec_fst (env_clock env (w_step w)) (Hmget (session_key id) [rs "csrf"; rs "user"])
                (w_cache w1)) as Hf.
  fold (cache_of w1) in Hf. rewrite Hc1 in Hf. destruct (vk_exec _ _ _) as [r k].
  simpl in Hf. subst r.
  destruct (hash_view _) as [h|] eqn:Hh; [|done]. simpl in Hcmd. injection Hcmd as <- <-.
  simpl in Hn0, Hn1.
  destruct (h !! rs "csrf") as [c|] eqn:Ecsrf; [|done].
  destruct (h !! rs "user") as [t|] eqn:Euser; [|done].
  injection Hn0 as <- <-. injection Hn1 as <- <-.
  destruct (json_from_str t ≫= user_from_json) as [u|] eqn:Eu; [|done].
  injection Hj as <- <-.
  destruct (live (env_clock env (w_step w)) (cache_of w) (session_key id)) as [e|] eqn:El.
  2:{ simpl in Hh. injection Hh as <-. by rewrite lookup_empty in Ecsrf. }
  exists raw, e. repeat split; try done. exists h. simpl in Hh.
  destruct (ve_value e); try done. injection Hh as ->. eauto 6.
Qed.

(** The block [create_session] runs. *)
Definition session_actions (user : AuthUser) (id : Uuid) (tok : rstr) : list VAction :=
  [act (Hset (session_key id) [(rs "csrf", tok); (rs "user", json_to_string (user_to_json user))]);
   act (Expire (session_key id) SESSION_TTL_SECONDS);
   act (Sadd (user_sessions_key (user_id user)) (uuid_to_string id))].

(** Under a new identifier it stores the session, and it touches no other one. *)
Lemma session_actions_stored now user id tok ks :
  live now ks (session_key id) = None ->
  exists e, keyspace_actions now (session_actions user id tok) ks !! session_key id = Some e
    /\ ve_expire e = Some (now + 1000 * SESSION_TTL_SECONDS)
    /\ session_entry (mkSession id tok user) e.
Proof.
  intros Hl. unfold keyspace_actions, session_actions. cbn [fold_left].
  set (ks1 := (keyspace_exec now (Hset _ _) _).2).
  set (ks2 := (keyspace_exec now (Expire _ _) ks1).2).
  set (h := <[rs "user" := json_to_string (user_to_json user)]> (<[rs "csrf" := tok]> (∅ : gmap rstr rstr))).
  assert (ks1 = <[session_key id := mkVEntry (VHash h) None]> ks) as H1.
  { unfold ks1. simpl. rewrite Hl. simpl. unfold put.
    rewrite bool_decide_eq_false_2; [done|]. apply insert_non_empty. }
  assert (ks2 !! session_key id
          = Some (mkVEntry (VHash h) (Some (now + 1000 * SESSION_TTL_SECONDS)))) as H2.
  { unfold ks2. rewrite H1. simpl. rewrite live_insert_eq. simpl. apply lookup_insert_eq. }
  rewrite keyspace_exec_other, H2.
  2:{ intros [E|[]]. by apply (session_key_user_sessions id (user_id user)). }
  eexists. split; [reflexivity|]. split; [reflexivity|]. exists h. split; [done|]. simpl. unfold h. split.
  - rewrite lookup_insert_ne by done. apply lookup_insert_eq.
  - eexists. split; [apply lookup_insert_eq|]. rewrite json_from_to. simpl. apply user_from_to_json.
Qed.

Lemma session_actions_other now user id tok ks other :
  other <> id ->
  keyspace_actions now (session_actions user id tok) ks !! session_key other = ks !! session_key other.
Proof.
  intros Hne. apply keyspace_actions_other. unfold session_actions.
  assert (session_key id <> session_key other) by (by intros E%session_key_inj).
  pose proof (session_key_user_sessions other (user_id user)).
  repeat constructor; simpl; intuition congruence.
Qed.

Lemma run_create_session user env w :
  healthy env -> pool_ok (w_pool w) ->
  let now := env_clock env (S (S (w_step w))) in
  let id := env_uuid env (w_step w) in
  let tok := hex_encode (env_random env (S (w_step w))) in
  live now (cache_of w) (session_key id) = None ->
  exists w' e, create_session user env w = (Ok (id, tok), w')
    /\ cache_of w' !! session_key id = Some e /\ ve_expire e = Some (now + 1000 * SESSION_TTL_SECONDS)
    /\ session_entry (mkSession id tok user) e.
Proof.
  intros Hh Hp now id tok Hl. unfold create_session.
  rewrite run_bind. unfold now_v7 at 1. fold id.
  rewrite run_bind. unfold fill_bytes at 1. change (w_step (tick w)) with (S (w_step w)). fold tok.
  rewrite run_bind, run_connection by done. rewrite run_bind. fold (session_actions user id tok).
  set (w1 := with_pool _ _).
  destruct (run_pipe_view (session_actions user id tok) env w1 Hh) as (k & Hrun & Hv).
  destruct (session_actions_stored now user id tok (cache_of w) Hl) as (e & He).
  rewrite Hrun. unfold ret. eexists. exists e. split; [reflexivity|].
  unfold cache_of. cbn [w_cache with_cache]. rewrite Hv. exact He.
Qed.

(** A session that was handed out was stored: its block ran, at the last step
    taken, whatever failed before. *)
Lemma create_session_inv user env w id tok w' :
  create_session user env w = (Ok (id, tok), w') ->
  cache_of w' = keyspace_actions (env_clock env (Nat.pred (w_step w'))) (session_actions user id tok)
                  (cache_of w).
Proof.
  unfold create_session. intros H.
  apply bind_ok_inv in H as (i & w1 & H1 & H). injection H1 as <- <-.
  apply bind_ok_inv in H as (b & w2 & H2 & H). injection H2 as <- <-.
  apply bind_ok_inv in H as (n & w3 & H3 & H).
  assert (cache_of w3 = cache_of w) as Hc.
  { unfold connection in H3. by repeat case_match; simplify_eq. }
  apply bind_ok_inv in H as ([] & w4 & H4 & H). injection H as <- <- <-.
  unfold pipe_atomic in H4. destruct (env_fault _ _); [|done..]. injection H4 as <-.
  rewrite <- Hc. exact (exec_actions_view (env_clock env (w_step w3)) (session_actions user _ _) (w_cache w3)).
Qed.
End SessionFacts.

(** ** The frame of the sessions: no stored session changes *)

Definition SameSessions {K} {V : Valkey K} {T : UuidText} (w w' : World K) : Prop :=
  forall id, cache_of w' !! session_key id = cache_of w !! session_key id.
#[export] Instance same_sessions_frame {K} {V : Valkey K} {T : UuidText} : FrameRel (K := K) SameSessions.
Proof.
  split; unfold SameSessions; try done. intros w1 w2 w3 H1 H2 id. by rewrite H2.
Qed.

Section SessionFrame.
Context {K : Type} {V : Valkey K} {T : UuidText} {C : Crypto}.
Notation R := (SameSessions (K := K)).

Lemma sessions_command {A} (c : VCmd A) :
  (forall id, ~ In (session_key id) (written_keys c)) -> Frame R (command c).
Proof.
  intros Hc env w id. unfold command.
  destruct (env_fault _ _); [|done|].
  - pose proof (vk_exec_snd (env_clock env (w_step w)) c (w_cache w)) as Hs.
    destruct (vk_exec _ _ _) as [r k]. simpl in *. unfold cache_of. simpl. rewrite Hs.
    by apply keyspace_exec_other.
  - unfold cache_of. simpl. rewrite vk_exec_snd. by apply keyspace_exec_other.
Qed.

Lemma sessions_enforce_rate_limit key limit window :
  (forall id, session_key id <> key) -> Frame R (enforce_rate_limit key limit window).
Proof.
  intros Hk. unfold enforce_rate_limit. apply frame_bind; [exact _|apply frame_connection; exact _|]. intros _.
  apply frame_bind; [exact _|apply sessions_command; intros id [E|[]]; by apply (Hk id)|]. intros n.
  apply frame_bind; [exact _| |intros _; frame_auto].
  assert (Frame R (command (Expire key (as_i64 window)) ;; ret tt)) as He.
  { apply frame_bind; [exact _|apply sessions_command; intros id [E|[]]; by apply (Hk id)|intros _; frame_auto]. }
  destruct (n =? 1); [exact He|].
  apply frame_bind; [exact _|apply sessions_command; by intros id []|]. intros t.
  destruct (t =? -1); [exact He|]. frame_auto.
Qed.

Lemma sessions_verify user password encoded : Frame R (verify_password_coalesced user password encoded).
Proof. intros env w id. done. Qed.
End SessionFrame.

(** C39. A session outlives its request: what [create_session] stores under a new
    identifier is what [load_session] returns for the cookie of that identifier,
    for as long as its time to live has not run out. *)
Theorem session_round_trip {K} {V : Valkey K} {T : UuidText} {J : JsonText}
    (env env' : Env) (w w1 w2 : World K) user id tok
    (Hh : healthy env) (Hh' : healthy env') (Hp : pool_ok (w_pool w)) (Hp' : pool_ok (w_pool w2))
    (Hfresh : cache_of w !! session_key (env_uuid env (w_step w)) = None)
    (Hc : create_session user env w = (Ok (id, tok), w1))
    (Hw2 : cache_of w2 = cache_of w1)
    (Hclock : env_clock env' (w_step w2)
              < env_clock env (S (S (w_step w))) + 1000 * SESSION_TTL_SECONDS) :
  exists w3, load_session (session_cookie id) env' w2 = (Ok (mkSession id tok user), w3).
Proof.
  destruct (run_create_session user env w Hh Hp) as (w1' & e & Hrun & Hl & He & Hs).
  { unfold live. by rewrite Hfresh. }
  rewrite Hrun in Hc. injection Hc as <- <- <-.
  set (tok := hex_encode _) in *.
  destruct (run_load_session (mkSession (env_uuid env (w_step w)) tok user) e env' w2 Hh' Hp')
    as (w3 & H3 & _); [|exact Hs|by exists w3].
  simpl. apply live_some. rewrite Hw2, Hl. split; [done|]. unfold expired. rewrite He. lia.
Qed.

(** Nobody is authenticated without a stored session: when [load_session]
    succeeds, whatever requests failed on the way, the cookie names an
    identifier whose entry was live and holds that token and that user. *)
Theorem load_session_sound {K} {V : Valkey K} {T : UuidText} {J : JsonText}
    (env : Env) (w w' : World K) headers s
    (Hr : load_session headers env w = (Ok s, w')) :
  exists raw e, cookie_value headers (rs "vussa_session") = Some raw
    /\ uuid_parse raw = Some (session_id s)
    /\ live (env_clock env (w_step w)) (cache_of w) (session_key (session_id s)) = Some e
    /\ session_entry s e.
Proof. by eapply load_session_inv. Qed.

(** ** The verifier's single flight

    [verify_password_coalesced] under the lock of [password_verification_flights]:
    a call finds the flight of its key or starts one; the spawned task publishes
    an outcome and removes the flight; the callers wait on the published
    outcome. A flight is its key, the password and hash it was started with, and
    its callers; a verdict is a caller with what it received, and nothing else:
    a caller never sees the key of the flight it waited on. *)
Inductive VerificationOutcome := Verified (value : bool) | Overloaded | Unavailable.

Record Flight := mkFlight {
  fl_key : list Z; fl_password : rstr; fl_encoded : rstr; fl_callers : list nat }.
Record Call := mkCall {
  call_id : nat; call_user : Uuid; call_password : rstr; call_encoded : rstr }.
Record Verifier := mkVerifier {
  vf_flights : list Flight;
  vf_verdicts : list (nat * VerificationOutcome);
  vf_calls : list Call }.

Section Flights.
Context {C : Crypto}.

Definition call_key (c : Call) : list Z :=
  verification_key (call_user c) (call_password c) (call_encoded c).
Definition flight_of (key : list Z) (f : Flight) : bool := fl_key f ≟ key.
Definition join_flight (caller : nat) (f : Flight) : Flight :=
  mkFlight (fl_key f) (fl_password f) (fl_encoded f) (caller :: fl_callers f).

(** The critical section of a call. *)
Definition verify_enter (c : Call) (s : Verifier) : Verifier :=
  let key := call_key c in
  mkVerifier
    (if exists_row (flight_of key) (vf_flights s) then
       update_where (flight_of key) (join_flight (call_id c)) (vf_flights s)
     else vf_flights s ++ [mkFlight key (call_password c) (call_encoded c) [call_id c]])
    (vf_verdicts s) (c :: vf_calls s).

(** The spawned task: the permit ([None] when none came in time), the blocking
    verification ([false] when it panicked), the broadcast, the removal. *)
Definition flight_outcome (permit : option bool) (f : Flight) : VerificationOutcome :=
  match permit with
  | Some true => Verified (verify_password (fl_password f) (fl_encoded f))
  | Some false => Unavailable
  | None => Overloaded
  end.
Definition verify_land (permit : option bool) (f : Flight) (s : Verifier) : Verifier :=
  mkVerifier (delete_where (flight_of (fl_key f)) (vf_flights s))
    (map (fun c => (c, flight_outcome permit f)) (fl_callers f) ++ vf_verdicts s)
    (vf_calls s).

(** A call of [verify_password_coalesced] is a new one; flights land in any order. *)
Definition new_call (c : Call) (s : Verifier) : Prop :=
  forall c', In c' (vf_calls s) -> call_id c' <> call_id c.

Inductive verify_step : Verifier -> Verifier -> Prop :=
| step_enter c s : new_call c s -> verify_step s (verify_enter c s)
| step_land permit f s : In f (vf_flights s) -> verify_step s (verify_land permit f s).

Definition no_flights : Verifier := mkVerifier [] [] [].

(** A flight was started by a call of its key, and its callers are calls of
    its key; a verdict comes from such a flight; a call waits on a flight of its
    key until it has a verdict. *)
Definition started (s : Verifier) (key : list Z) (password encoded : rstr) : Prop :=
  exists c, In c (vf_calls s) /\ call_key c = key
    /\ call_password c = password /\ call_encoded c = encoded.
Definition asked (s : Verifier) (caller : nat) (key : list Z) : Prop :=
  exists c, In c (vf_calls s) /\ call_key c = key /\ call_id c = caller.
Definition in_flight (s : Verifier) (c : Call) : Prop :=
  exists f, In f (vf_flights s) /\ fl_key f = call_key c /\ In (call_id c) (fl_callers f).
Definition has_verdict (s : Verifier) (c : Call) : Prop :=
  exists o, In (call_id c, o) (vf_verdicts s).

Record verifier_ok (s : Verifier) : Prop := {
  vok_unique : unique_on fl_key (vf_flights s);
  vok_calls : unique_on call_id (vf_calls s);
  vok_started f : In f (vf_flights s) -> started s (fl_key f) (fl_password f) (fl_encoded f);
  vok_asked f c : In f (vf_flights s) -> In c (fl_callers f) -> asked s c (fl_key f);
  vok_verdict c o : In (c, o) (vf_verdicts s) ->
    exists key, asked s c key /\ forall b, o = Verified b ->
      exists p e, started s key p e /\ b = verify_password p e;
  vok_served c : In c (vf_calls s) -> in_flight s c \/ has_verdict s c
}.

Lemma started_mono c s fl vd key p e :
  started s key p e -> started (mkVerifier fl vd (c :: vf_calls s)) key p e.
Proof. intros (c0 & Hin & H). exists c0. split; [by right|done]. Qed.
Lemma asked_mono c s fl vd caller key :
  asked s caller key -> asked (mkVerifier fl vd (c :: vf_calls s)) caller key.
Proof. intros (c0 & Hin & H). exists c0. split; [by right|done]. Qed.

Lemma flight_of_true key f : flight_of key f = true <-> fl_key f = key.
Proof. unfold flight_of. apply bool_decide_eq_true. Qed.

Lemma verify_enter_flight c s f :
  In f (vf_flights (verify_enter c s)) ->
  (In f (vf_flights s))
  \/ (exists f0, In f0 (vf_flights s) /\ fl_key f0 = call_key c /\ f = join_flight (call_id c) f0)
  \/ f = mkFlight (call_key c) (call_password c) (call_encoded c) [call_id c].
Proof.
  unfold verify_enter. simpl. destruct (exists_row _ _).
  - intros (f0 & Hin & ->)%in_update_where. destruct (flight_of _ f0) eqn:E; [|auto].
    apply flight_of_true in E. right. left. eauto.
  - intros [H|[H|[]]]%in_app_iff; auto.
Qed.

(** Who waits goes on waiting when a call comes in, and so does the new call. *)
Lemma verify_enter_waiting c s c' :
  in_flight s c' -> in_flight (verify_enter c s) c'.
Proof.
  intros (f & Hin & Hk & Hc). unfold in_flight, verify_enter. simpl. destruct (exists_row _ _).
  - exists (if flight_of (call_key c) f then join_flight (call_id c) f else f).
    split; [apply in_update_where; eauto|]. destruct (flight_of _ f); [|done].
    split; [done|by right].
  - exists f. by rewrite in_app_iff; auto.
Qed.
Lemma verify_enter_waits c s : in_flight (verify_enter c s) c.
Proof.
  unfold in_flight, verify_enter. simpl. destruct (exists_row _ _) eqn:E.
  - apply exists_row_true in E as (f & Hin & Hf). exists (join_flight (call_id c) f).
    split; [apply in_update_where; exists f; by rewrite Hf|].
    apply flight_of_true in Hf. split; [done|by left].
  - eexists. split; [apply in_app_iff; right; by left|]. split; [done|by left].
Qed.

Lemma verify_enter_ok c s : new_call c s -> verifier_ok s -> verifier_ok (verify_enter c s).
Proof.
  intros Hnew [Hu Hi Hs Ha Hv Hw].
  assert (started (verify_enter c s) (call_key c) (call_password c) (call_encoded c)) as Hst
    by (exists c; split; [by left|done]).
  assert (asked (verify_enter c s) (call_id c) (call_key c)) as Hask
    by (exists c; split; [by left|done]).
  split.
  - unfold verify_enter. simpl. destruct (exists_row _ _) eqn:E; [by apply unique_on_update|].
    apply unique_on_snoc; [done|]. rewrite exists_row_false in E.
    intros f Hin Hk. specialize (E f Hin). apply flight_of_true in Hk. simpl in Hk. congruence.
  - constructor; [|done]. intros (c' & He & Hin)%in_map_iff. by apply (Hnew c').
  - intros f [Hin|[(f0 & Hin & _ & ->)| ->]]%verify_enter_flight; [by apply started_mono, Hs| |done].
    apply started_mono, (Hs f0 Hin).
  - intros f caller Hf Hc. apply verify_enter_flight in Hf as [Hin|[(f0 & Hin & Hk & ->)| ->]].
    + by apply asked_mono, Ha.
    + destruct Hc as [<-|Hc]; simpl; [by rewrite Hk|]. by apply asked_mono, Ha.
    + by destruct Hc as [<-|[]].
  - intros caller o Hin. destruct (Hv caller o Hin) as (key & H1 & H2). exists key.
    split; [by apply asked_mono|]. intros b Hb. destruct (H2 b Hb) as (p & e & ? & ?).
    exists p, e. split; [by apply started_mono|done].
  - intros c' [<-|Hin]; [left; apply verify_enter_waits|].
    destruct (Hw c' Hin); [left; by apply verify_enter_waiting|by right].
Qed.

Lemma verify_land_ok permit f s :
  In f (vf_flights s) -> verifier_ok s -> verifier_ok (verify_land permit f s).
Proof.
  intros Hf [Hu Hi Hs Ha Hv Hw]. split; simpl; [by apply unique_on_filter|done|..].
  - intros f' [Hin _]%in_delete_where. by apply Hs.
  - intros f' c [Hin _]%in_delete_where. by apply Ha.
  - intros c o [Hin|Hin]%in_app_iff; [|by apply Hv].
    apply in_map_iff in Hin as (c' & [= <- <-] & Hc). exists (fl_key f). split; [by apply Ha|].
    intros b. unfold flight_outcome. destruct permit as [[|]|]; [|done..]. intros [= <-].
    exists (fl_password f), (fl_encoded f). split; [by apply Hs|done].
  - intros c Hin. unfold in_flight, has_verdict. simpl.
    destruct (Hw c Hin) as [(f' & Hf' & Hk & Hc)|(o & Ho)].
    2:{ right. exists o. apply in_app_iff. by right. }
    destruct (decide (fl_key f' = fl_key f)) as [He|Hne].
    + right. rewrite (unique_on_eq _ _ _ _ Hu Hf' Hf He) in Hc.
      exists (flight_outcome permit f). apply in_app_iff. left. apply in_map_iff. eauto.
    + left. exists f'. rewrite in_delete_where. repeat split; try done.
      by apply bool_decide_eq_false.
Qed.

Lemma verifier_reachable_ok s : rtc verify_step no_flights s -> verifier_ok s.
Proof.
  intros Hr. refine (rtc_ind_r verifier_ok no_flights _ _ s Hr).
  - split; simpl; [constructor|constructor|done..].
  - intros s1 s2 _ [c s' Hnew|permit f s' Hin] IH; [by apply verify_enter_ok|by apply verify_land_ok].
Qed.
End Flights.

(** What a call feeds to the digest. *)
Definition call_input (c : Call) : list Z :=
  uuid_as_bytes (call_user c) ++ as_bytes (call_encoded c) ++ as_bytes (call_password c).

(** The user is sixteen bytes, so hashes of one length make the key readable. *)
Lemma call_input_inj a b :
  Forall scalar (call_password a) -> Forall scalar (call_encoded a) ->
  Forall scalar (call_password b) -> Forall scalar (call_encoded b) ->
  len (call_encoded a) = len (call_encoded b) -> call_input a = call_input b ->
  call_password a = call_password b /\ call_encoded a = call_encoded b.
Proof.
  intros Hpa Hea Hpb Heb Hl E. apply app_inj_1 in E as [_ E]; [|done].
  apply app_inj_1 in E as [E1 E2]; [by split; apply as_bytes_inj|].
  apply Nat2Z.inj. by rewrite !length_as_bytes.
Qed.

(** C22. Sharing a verification is invisible to the callers: at most one flight
    per key is in the air, every call that has no answer yet waits on a flight of
    its own key, and whatever a call is told about a password is the verdict of
    the password and hash it called with itself, as long as the digest has no
    collision among the inputs hashed and the stored hashes have one length (they
    are made with one set of parameters; the key concatenates hash and password
    unseparated). A verdict carries the caller only, so a call that joined the
    flight of another key would be told about another password. *)
Theorem verification_flights_correct {C : Crypto} s
    (Hr : rtc verify_step no_flights s)
    (Htext : forall c, In c (vf_calls s) ->
       Forall scalar (call_password c) /\ Forall scalar (call_encoded c))
    (Hlength : forall a b, In a (vf_calls s) -> In b (vf_calls s) ->
       len (call_encoded a) = len (call_encoded b))
    (Hdigest : forall a b, In a (vf_calls s) -> In b (vf_calls s) ->
       sha256 (call_input a) = sha256 (call_input b) -> call_input a = call_input b) :
  unique_on fl_key (vf_flights s)
  /\ (forall c, In c (vf_calls s) ->
        (exists f, In f (vf_flights s) /\ fl_key f = call_key c /\ In (call_id c) (fl_callers f))
        \/ exists o, In (call_id c, o) (vf_verdicts s))
  /\ forall c b, In c (vf_calls s) -> In (call_id c, Verified b) (vf_verdicts s) ->
       b = verify_password (call_password c) (call_encoded c).
Proof.
  destruct (verifier_reachable_ok s Hr) as [Hu Hi Hs Ha Hv Hw]. split; [done|]. split; [exact Hw|].
  intros c b Hc Hin. destruct (Hv _ _ Hin) as (key & (c1 & Hin1 & Hk1 & Hid) & H).
  assert (c1 = c) as -> by (by apply (unique_on_eq call_id (vf_calls s))).
  destruct (H b eq_refl) as (p & e & (c0 & Hin0 & Hk & <- & <-) & ->).
  destruct (Htext c0 Hin0), (Htext c Hc).
  destruct (call_input_inj c0 c) as [-> ->]; auto. apply Hdigest; [done..|].
  change (call_key c0 = call_key c). congruence.
Qed.

(** ** Frames *)

Section AuthFrames.
Context {K : Type} {V : Valkey K} {T : UuidText} {J : JsonText} {C : Crypto}.
Context (R : World K -> World K -> Prop) `{FR : !FrameRel R} `{FC : !FrameCacheFree R}.

Lemma frame_enforce_rate_limit key limit window : Frame R (enforce_rate_limit key limit window).
Proof. unfold enforce_rate_limit. frame_auto. Qed.
Lemma frame_create_session user : Frame R (create_session user).
Proof. unfold create_session. frame_auto. Qed.
Lemma frame_load_session headers : Frame R (load_session headers).
Proof. unfold load_session. frame_auto. Qed.
Lemma frame_require_csrf headers s : Frame R (require_csrf headers s).
Proof. unfold require_csrf. frame_auto. Qed.
Lemma frame_csrf_session headers : Frame R (csrf_session headers).
Proof.
  unfold csrf_session.
  apply frame_bind; [exact _|apply frame_load_session|]. intros s.
  apply frame_bind; [exact _|apply frame_require_csrf|]. intros _. frame_auto.
Qed.
Lemma frame_privileged headers p : Frame R (privileged headers p).
Proof.
  unfold privileged. apply frame_bind; [exact _|apply frame_load_session|]. intros s.
  apply frame_bind; [exact _|apply frame_require_csrf|]. intros _.
  frame_auto.
Qed.
Lemma frame_privileged_read headers p : Frame R (privileged_read headers p).
Proof.
  unfold privileged_read. apply frame_bind; [exact _|apply frame_load_session|]. intros s.
  frame_auto.
Qed.
Lemma frame_password_hash p : Frame R (password_hash p).
Proof. unfold password_hash, hash_password_unchecked. frame_auto. Qed.
Lemma frame_verify_password_coalesced u p e : Frame R (verify_password_coalesced u p e).
Proof. intros env w. apply frame_tick. Qed.
End AuthFrames.

#[export] Hint Resolve frame_enforce_rate_limit frame_create_session frame_load_session
  frame_require_csrf frame_csrf_session frame_privileged frame_privileged_read frame_password_hash frame_verify_password_coalesced : frame.

(** ** Witnesses *)

(** A clock that stands still. *)
Definition still_env (now : Z) : Env :=
  mkEnv (fun _ => now) (env_uuid (sample_env 0)) (env_random (sample_env 0)) (fun _ => NoFault)
    (fun n => n).

Lemma rate_limit_window_witness :
  exists w', repeat_calls 4 (enforce_rate_limit (V := keyspace_valkey) (rs "k") 2 10)
               (still_env 7) (sample_world sample_db)
             = (Ok [Ok tt; Ok tt; Err (mkAppError 429 "rate limit exceeded");
                    Err (mkAppError 429 "rate limit exceeded")], w').
Proof.
  apply (rate_limit_window (V := keyspace_valkey) (still_env 7) (sample_world sample_db) (rs "k") 2 10 7 4).
  - intros n. reflexivity.
  - split; reflexivity.
  - unfold i64_max. lia.
  - intros n. simpl. lia.
  - reflexivity.
Defined.

Definition sample_create : M Keyspace AppError (Uuid * rstr) :=
  create_session (V := keyspace_valkey) (T := hyphenated_text) (J := coded_json)
    (sample_auth 1 "alice" ["chat:write"]).
Definition sample_load : M Keyspace AppError Session :=
  load_session (V := keyspace_valkey) (T := hyphenated_text) (J := coded_json)
    (session_cookie (T := hyphenated_text) (uuid_of 1000)).
Definition sample_session : Session :=
  mkSession (uuid_of 1000) (hex_encode (repeat 1 32)) (sample_auth 1 "alice" ["chat:write"]).
(** The world after the session was created. *)
Definition logged_in : World Keyspace := (sample_create (sample_env 5) (sample_world sample_db)).2.

Lemma session_round_trip_witness :
  exists w3, sample_load (sample_env 900) logged_in = (Ok sample_session, w3).
Proof.
  apply (session_round_trip (V := keyspace_valkey) (T := hyphenated_text) (J := coded_json)
            (sample_env 5) (sample_env 900) (sample_world sample_db) logged_in logged_in).
  - apply sample_env_healthy.
  - apply sample_env_healthy.
  - split; reflexivity.
  - split; vm_compute; reflexivity.
  - reflexivity.
  - apply run_split. vm_compute. reflexivity.
  - reflexivity.
  - vm_compute. reflexivity.
Defined.

Lemma load_session_sound_witness :
  exists raw e, cookie_value (session_cookie (T := hyphenated_text) (uuid_of 1000)) (rs "vussa_session") = Some raw
    /\ uuid_parse (UuidText := hyphenated_text) raw = Some (uuid_of 1000)
    /\ live (env_clock (sample_env 900) (w_step logged_in)) (cache_of (V := keyspace_valkey) logged_in)
         (session_key (T := hyphenated_text) (uuid_of 1000)) = Some e
    /\ session_entry (T := hyphenated_text) (J := coded_json) sample_session e.
Proof.
  apply (load_session_sound (V := keyspace_valkey) (T := hyphenated_text) (J := coded_json)
           (sample_env 900) logged_in (sample_load (sample_env 900) logged_in).2
           (session_cookie (T := hyphenated_text) (uuid_of 1000)) sample_session).
  apply run_split. vm_compute. reflexivity.
Defined.

(** Two calls for one key share a flight and both get its verdict; a call with
    another password does not. *)
Definition shared_call (n : nat) (password : rstr) : Call :=
  mkCall n (uuid_of 1) password (rs "secret").
Definition shared_run : Verifier :=
  let s := verify_enter (C := sample_crypto) (shared_call 3 (rs "wrong!"))
             (verify_enter (C := sample_crypto) (shared_call 2 (rs "secret"))
                (verify_enter (C := sample_crypto) (shared_call 1 (rs "secret")) no_flights)) in
  fold_left (fun s f => verify_land (C := sample_crypto) (Some true) f s) (vf_flights s) s.

Lemma verification_flights_correct_witness :
  vf_verdicts shared_run = [(3%nat, Verified false); (2%nat, Verified true); (1%nat, Verified true)]
  /\ true = verify_password (C := sample_crypto) (rs "secret") (rs "secret").
Proof.
  split; [vm_compute; reflexivity|].
  refine (proj2 (proj2 (verification_flights_correct (C := sample_crypto) shared_run _ _ _ _))
            (shared_call 2 (rs "secret")) true _ _).
  - eapply rtc_l; [apply (step_enter (shared_call 1 (rs "secret")))|].
    { intros c []. }
    eapply rtc_l; [apply (step_enter (shared_call 2 (rs "secret")))|].
    { intros c [<-|[]]. discriminate. }
    eapply rtc_l; [apply (step_enter (shared_call 3 (rs "wrong!")))|].
    { intros c [<-|[<-|[]]]; discriminate. }
    eapply rtc_l; [apply step_land; vm_compute; left; reflexivity|].
    eapply rtc_l; [apply step_land; vm_compute; left; reflexivity|]. apply rtc_refl.
  - intros a Ha. vm_compute in Ha.
    destruct Ha as [<-|[<-|[<-|[]]]]; split; repeat constructor; discriminate.
  - intros a b Ha Hb. vm_compute in Ha, Hb.
    destruct Ha as [<-|[<-|[<-|[]]]], Hb as [<-|[<-|[<-|[]]]]; reflexivity.
  - intros a b Ha Hb. vm_compute in Ha, Hb.
    destruct Ha as [<-|[<-|[<-|[]]]], Hb as [<-|[<-|[<-|[]]]]; vm_compute; congruence.
  - right. left. reflexivity.
  - vm_compute. right. left. reflexivity.
Defined.
