(* ===== verification/Logic.v ===== *)
(** * A program logic for the database effects

    [wp m Q F d] says that [m], run on the database [d] with any other state and
    any failures, ends in [Q a] when it returns [a] and in [F] when it stops with
    an error. The rules follow the constructors of the monad; [wp_auto] applies
    them, and closes the steps that do not touch the database. *)
From S2P Require Export Access.
Open Scope m_scope.

Definition wp {K E A} (m : M K E A) (Q : A -> Db -> Prop) (F : Db -> Prop) (d : Db) : Prop :=
  forall env w, w_db w = d ->
    match m env w with
    | (Ok a, w') => Q a (w_db w')
    | (Err _, w') => F (w_db w')
    end.

(** Steps that leave the database alone. *)
Notation DbSilent m := (Frame (DbRel (@eq Db)) m).

Section Wp.
Context {K : Type}.

Lemma wp_mono {E A} (m : M K E A) (Q Q' : A -> Db -> Prop) (F F' : Db -> Prop) d :
  wp m Q F d -> (forall a d, Q a d -> Q' a d) -> (forall d, F d -> F' d) -> wp m Q' F' d.
Proof.
  intros H HQ HF env w Hw. specialize (H env w Hw).
  destruct (m env w) as [[a|e] w']; auto.
Qed.

Lemma wp_ret {E A} (a : A) Q F d : Q a d -> wp (K := K) (E := E) (ret a) Q F d.
Proof. by intros H env w <-. Qed.
Lemma wp_throw {E A} (e : E) (Q : A -> Db -> Prop) (F : Db -> Prop) d :
  F d -> wp (K := K) (throw e) Q F d.
Proof. by intros H env w <-. Qed.
Lemma wp_bind {E A B} (m : M K E A) (f : A -> M K E B) Q F d :
  wp m (fun a => wp (f a) Q F) F d -> wp (bind m f) Q F d.
Proof.
  intros H env w Hw. specialize (H env w Hw). unfold bind.
  destruct (m env w) as [[a|e] w']; [|done]. by apply H.
Qed.
Lemma wp_bind_assoc {E A B C} (m : M K E A) (f : A -> M K E B) (g : B -> M K E C) Q F d :
  wp (bind (bind m f) g) Q F d -> wp (bind m (fun a => bind (f a) g)) Q F d.
Proof.
  intros H env w Hw. specialize (H env w Hw). unfold bind in *.
  by destruct (m env w) as [[a|e] w'].
Qed.
Lemma wp_lift {E G A} `{From E G} (r : Result E A) (Q : A -> Db -> Prop) (F : Db -> Prop) d :
  F d -> (forall a, r = Ok a -> Q a d) -> wp (K := K) (E := G) (lift r) Q F d.
Proof. destruct r; intros HF HQ; [apply wp_ret; auto|by apply wp_throw]. Qed.
Lemma wp_ok_or {E A} (o : option A) (e : E) (Q : A -> Db -> Prop) (F : Db -> Prop) d :
  F d -> (forall a, o = Some a -> Q a d) -> wp (K := K) (ok_or o e) Q F d.
Proof. destruct o; intros HF HQ; [apply wp_ret; auto|by apply wp_throw]. Qed.
Lemma wp_conv {E G A} `{From E G} (m : M K E A) Q F d : wp m Q F d -> wp (E := G) (conv m) Q F d.
Proof.
  intros Hm env w Hw. specialize (Hm env w Hw). unfold conv. by destruct (m env w) as [[]].
Qed.
Lemma wp_attempt {E G A} (m : M K E A) (Q : Result E A -> Db -> Prop) F d :
  wp m (fun a => Q (Ok a)) (fun d => forall e, Q (Err e) d) d -> wp (E := G) (attempt m) Q F d.
Proof.
  intros Hm env w Hw. specialize (Hm env w Hw). unfold attempt.
  destruct (m env w) as [[a|e] w']; [done|apply Hm].
Qed.
Lemma wp_query {E A} `{From SqlxError E} (f : Db -> A) (Q : A -> Db -> Prop) (F : Db -> Prop) d :
  F d -> Q (f d) d -> wp (K := K) (E := E) (query f) Q F d.
Proof. intros HF HQ env w Hw. unfold query. destruct (env_fault _ _); simpl; by rewrite Hw. Qed.
Lemma wp_execute {E A} `{From SqlxError E} (f : Db -> Result SqlxError (A * Db)) Q (F : Db -> Prop) d :
  F d -> (forall a d', f d = Ok (a, d') -> Q a d' /\ F d') ->
  wp (K := K) (E := E) (execute f) Q F d.
Proof.
  intros HF HQ env w Hw. unfold execute. rewrite Hw.
  destruct (env_fault _ _); simpl; [|by rewrite Hw|];
    destruct (f d) as [[a d']|e]; simpl; try (by rewrite Hw);
    destruct (HQ a d' eq_refl); done.
Qed.
(** The statements of a transaction may pass through any state. *)
Lemma wp_transaction {E A} `{From SqlxError E} (body : M K E A) Q (F : Db -> Prop) d :
  F d -> wp body (fun a d' => Q a d' /\ F d') (fun _ => True) d -> wp (transaction body) Q F d.
Proof.
  intros HF Hb env w Hw. unfold transaction. specialize (Hb env (tick w) Hw).
  destruct (env_fault _ _); simpl; [|by rewrite Hw..].
  destruct (body env (tick w)) as [[a|e] w1]; simpl; [|by rewrite Hw].
  destruct (env_fault _ _); simpl; [tauto|by rewrite Hw|tauto].
Qed.
Lemma wp_silent {E A} (m : M K E A) (Q : A -> Db -> Prop) (F : Db -> Prop) d :
  DbSilent m -> F d -> (forall a, Q a d) -> wp m Q F d.
Proof.
  intros Hm HF HQ env w Hw. specialize (Hm env w). unfold DbRel in Hm.
  destruct (m env w) as [[a|e] w']; simpl in *; rewrite <- Hm, Hw; auto.
Qed.
(** A step known by its frame. *)
Lemma wp_frame {E A} (P : Db -> Db -> Prop) (m : M K E A) (Q : A -> Db -> Prop) (F : Db -> Prop) d :
  Frame (DbRel P) m -> (forall d', P d d' -> F d') -> (forall a d', P d d' -> Q a d') -> wp m Q F d.
Proof.
  intros Hm HF HQ env w Hw. specialize (Hm env w). unfold DbRel in Hm. rewrite Hw in Hm.
  destruct (m env w) as [[a|e] w']; simpl in *; auto.
Qed.
Lemma wp_for_each {E A} (l : list A) (f : A -> M K E unit) (I : Db -> Prop) (F : Db -> Prop) d :
  (forall d, I d -> F d) -> (forall a d, In a l -> I d -> wp (f a) (fun _ => I) F d) ->
  I d -> wp (for_each l f) (fun _ => I) F d.
Proof.
  intros HF. revert d. induction l as [|a l IH]; intros d Hf Hd; simpl; [by apply wp_ret|].
  apply wp_bind. eapply wp_mono; [apply Hf; [by left|done]| |done].
  intros ? d' Hd'. apply IH; [|done]. intros a' d2 Hin. apply Hf. by right.
Qed.

(** An invariant kept from every state that has it is a frame. *)
Lemma wp_keeps {E A} (m : M K E A) (I : Db -> Prop) :
  (forall d, I d -> wp m (fun _ => I) I d) <-> Frame (DbRel (keeps I)) m.
Proof.
  split.
  - intros H env w Hd. specialize (H (w_db w) Hd env w eq_refl).
    by destruct (m env w) as [[]].
  - intros H d Hd env w Hw. specialize (H env w). unfold DbRel, keeps in H. rewrite Hw in H.
    destruct (m env w) as [[]]; auto.
Qed.
End Wp.

Ltac wp_silent_step := apply wp_silent; [solve [frame_auto]|try done|intros ?].
Ltac wp_step :=
  match goal with
  | |- wp (bind _ _) _ _ _ => apply wp_bind
  | |- wp (ret _) _ _ _ => apply wp_ret
  | |- wp (throw _) _ _ _ => apply wp_throw
  | |- wp (query _) _ _ _ => apply wp_query; [try done|]
  | |- wp (ok_or _ _) _ _ _ => apply wp_ok_or; [try done|intros ? ?]
  | |- wp (lift _) _ _ _ => apply wp_lift; [try done|intros ? ?]
  | |- wp (execute _) _ _ _ => apply wp_execute; [try done|intros ? ? ?]
  | |- wp (transaction _) _ _ _ => apply wp_transaction; [try done|]
  | |- wp (if ?b then _ else _) _ _ _ => destruct b eqn:?
  | |- wp (match ?x with _ => _ end) _ _ _ => destruct x eqn:?
  | |- wp _ _ _ _ => wp_silent_step
  end.
Ltac wp_auto := repeat (wp_step; cbv zeta beta).

(** ** Runs

    The same on whole worlds and a given environment, for the properties that
    need the object store or an assumption on the failures. *)
Definition run_wp {K E A} (m : M K E A) (Q : A -> World K -> Prop) (F : World K -> Prop)
    (env : Env) (w : World K) : Prop :=
  match m env w with
  | (Ok a, w') => Q a w'
  | (Err _, w') => F w'
  end.

Section RunWp.
Context {K : Type}.
Implicit Types (w : World K).

Lemma run_wp_bind {E A B} (m : M K E A) (f : A -> M K E B) Q F env w :
  run_wp m (fun a => run_wp (f a) Q F env) F env w -> run_wp (bind m f) Q F env w.
Proof. unfold run_wp, bind. by destruct (m env w) as [[a|e] w']. Qed.
Lemma run_wp_ret {E A} (a : A) (Q : A -> World K -> Prop) F env w :
  Q a w -> run_wp (E := E) (ret a) Q F env w.
Proof. done. Qed.
Lemma run_wp_throw {E A} (e : E) (Q : A -> World K -> Prop) (F : World K -> Prop) env w :
  F w -> run_wp (throw e) Q F env w.
Proof. done. Qed.
Lemma run_wp_lift {E G A} `{From E G} (r : Result E A) (Q : A -> World K -> Prop) (F : World K -> Prop) env w :
  F w -> (forall a, r = Ok a -> Q a w) -> run_wp (E := G) (lift r) Q F env w.
Proof. destruct r; intros HF HQ; [by apply HQ|done]. Qed.
Lemma run_wp_ok_or {E A} (o : option A) (e : E) (Q : A -> World K -> Prop) (F : World K -> Prop) env w :
  F w -> (forall a, o = Some a -> Q a w) -> run_wp (ok_or o e) Q F env w.
Proof. destruct o; intros HF HQ; [by apply HQ|done]. Qed.
(** A step known by its frame, with what its result says. *)
Lemma run_wp_frame {E A} (R : World K -> World K -> Prop) (m : M K E A)
    (Q : A -> World K -> Prop) (F : World K -> Prop) env w :
  Frame R m -> (forall w', R w w' -> F w') ->
  (forall a w', m env w = (Ok a, w') -> R w w' -> Q a w') -> run_wp m Q F env w.
Proof.
  intros Hm HF HQ. specialize (Hm env w). unfold run_wp.
  destruct (m env w) as [[a|e] w'] eqn:E'; simpl in Hm; auto.
Qed.
Lemma run_wp_mono {E A} (m : M K E A) (Q Q' : A -> World K -> Prop) (F F' : World K -> Prop) env w :
  run_wp m Q F env w -> (forall a w, Q a w -> Q' a w) -> (forall w, F w -> F' w) -> run_wp m Q' F' env w.
Proof. unfold run_wp. destruct (m env w) as [[a|e] w']; auto. Qed.
End RunWp.
