(* ===== verification/Services.v ===== *)
(** * Conversations

    [services.rs] and [api/members.rs]: creating channels and direct
    conversations, membership, moderators, ownership and deletion. *)
From Stdlib Require Import String.
From S2P Require Export Auth Logic.
From S2P Require Import Reference.
Open Scope m_scope.

(** ** Statements on channels and members *)

Definition channel_key_taken (d : Db) (key : option rstr) (id : Uuid) : bool :=
  is_some key
  && exists_row (fun c => (c_kind c ≟ Direct) && is_none (c_deleted_at c)
                          && (c_direct_key c ≟ key) && negb (c_id c ≟ id)) (channels d).

(** [INSERT ... ON CONFLICT (name) DO UPDATE SET deleted_at = NULL WHERE
    channels.deleted_at IS NOT NULL RETURNING id]; reviving a direct channel can
    meet the partial unique index on [direct_key]. *)
Definition sql_upsert_channel (id : Uuid) (name : rstr) (now : Z) (d : Db) :
    Result SqlxError (option Uuid * Db) :=
  match first_row (fun c => c_name c ≟ name) (channels d) with
  | None =>
      match insert_row c_id true channels set_channels
              (mkChannelRow id name Public None None now None None [] 90 false) d with
      | Ok (_, d') => Ok (Some id, d')
      | Err e => Err e
      end
  | Some c =>
      match c_deleted_at c with
      | None => Ok (None, d)
      | Some _ =>
          if (c_kind c ≟ Direct) && channel_key_taken d (c_direct_key c) (c_id c) then Err SqlxDatabase
          else Ok (Some (c_id c),
                   set_channels (update_where (fun c => c_name c ≟ name) (set_c_deleted_at None)) d)
      end
  end.

(** [INSERT INTO channels ... 'private' ... ON CONFLICT (name) DO NOTHING] *)
Definition sql_insert_private (id : Uuid) (name : rstr) (owner : Uuid) (now : Z) (d : Db) :
    Result SqlxError (Z * Db) :=
  if exists_row (fun c => c_name c ≟ name) (channels d) then Ok (0, d)
  else match insert_row c_id (fk_user d owner) channels set_channels
               (mkChannelRow id name Private (Some owner) None now None None [] 90 false) d with
       | Ok (_, d') => Ok (1, d')
       | Err e => Err e
       end.

Definition direct_live (key : rstr) (c : ChannelRow) : bool :=
  (c_direct_key c ≟ Some key) && (c_kind c ≟ Direct) && is_none (c_deleted_at c).

(** [INSERT INTO channels ... 'direct' ... ON CONFLICT (direct_key) WHERE
    kind='direct' AND deleted_at IS NULL DO NOTHING RETURNING id,name] *)
Definition sql_insert_direct (id : Uuid) (name key : rstr) (now : Z) (d : Db) :
    Result SqlxError (option (Uuid * rstr) * Db) :=
  if exists_row (direct_live key) (channels d) then Ok (None, d)
  else match insert_row c_id (negb (exists_row (fun c => c_name c ≟ name) (channels d)))
               channels set_channels
               (mkChannelRow id name Direct None (Some key) now None None [] 90 false) d with
       | Ok (_, d') => Ok (Some (id, name), d')
       | Err e => Err e
       end.

Definition fk_channel (d : Db) (c : Uuid) : bool := exists_row (fun r => c_id r ≟ c) (channels d).
Definition member_key (m : MemberRow) : Uuid * Uuid := (cm_channel_id m, cm_user_id m).

Definition sql_insert_member (m : MemberRow) (d : Db) : Result SqlxError (unit * Db) :=
  insert_row member_key
    (fk_channel d (cm_channel_id m) && fk_user d (cm_user_id m) && fk_user_opt d (cm_invited_by m))
    channel_members set_channel_members m d.

(** [... ON CONFLICT DO NOTHING] *)
Definition sql_insert_member_ignore (m : MemberRow) (d : Db) : Result SqlxError (Z * Db) :=
  if is_member d (cm_channel_id m) (cm_user_id m) then Ok (0, d)
  else match sql_insert_member m d with Ok (_, d') => Ok (1, d') | Err e => Err e end.

(** [DELETE FROM channel_members ... AND membership_role <> 'owner'] *)
Definition removable_member (channel user : Uuid) (m : MemberRow) : bool :=
  member_row channel user m && negb (cm_role m ≟ Owner).
Definition sql_delete_member (channel user : Uuid) (d : Db) : Result SqlxError (Z * Db) :=
  Ok (count_rows (removable_member channel user) (channel_members d),
      set_channel_members (delete_where (removable_member channel user)) d).

(** [DELETE FROM channel_members WHERE channel_id=$1 AND user_id=$2] *)
Definition sql_leave (channel user : Uuid) (d : Db) : Result SqlxError (unit * Db) :=
  Ok (tt, set_channel_members (delete_where (member_row channel user)) d).

(** [UPDATE channel_members SET membership_role=to WHERE ... AND
    membership_role=from] *)
Definition sql_change_role (channel user : Uuid) (from to : MemberRole) (d : Db) :
    Result SqlxError (Z * Db) :=
  let p := fun m => member_row channel user m && (cm_role m ≟ from) in
  Ok (count_rows p (channel_members d), set_channel_members (update_where p (set_cm_role to)) d).
Definition sql_set_role (channel user : Uuid) (to : MemberRole) (d : Db) :
    Result SqlxError (unit * Db) :=
  Ok (tt, set_channel_members (update_where (member_row channel user) (set_cm_role to)) d).
Definition sql_set_owner (channel owner : Uuid) (d : Db) : Result SqlxError (unit * Db) :=
  if fk_user d owner then
    Ok (tt, set_channels (update_where (fun c => c_id c ≟ channel) (set_c_owner_user_id (Some owner))) d)
  else Err SqlxDatabase.

(** [UPDATE channels SET deleted_at=$1 WHERE name=$2 AND deleted_at IS NULL
    RETURNING id] *)
Definition sql_delete_channel (now : Z) (name : rstr) (d : Db) : Result SqlxError (option Uuid * Db) :=
  Ok (c_id <$> find_channel d name,
      set_channels (update_where (active_channel name) (set_c_deleted_at (Some now))) d).

Definition active_user (user : Uuid) (u : UserRow) : bool :=
  (u_id u ≟ user) && is_none (u_disabled_at u) && is_none (u_deleted_at u).
Definition sql_active_username (user : Uuid) (d : Db) : option rstr :=
  u_username <$> first_row (active_user user) (users d).
Definition sql_username (user : Uuid) (d : Db) : option rstr :=
  u_username <$> first_row (fun u => u_id u ≟ user) (users d).

Definition audit (actor : Uuid) (action : string) (target_type : string) (target : Uuid)
    (metadata : json) (now : Z) : AuditEvent :=
  mkAuditEvent (Some actor) (rs action) (rs target_type) target metadata now.

Definition chat_write : rstr := rs "chat:write".

(** ** services.rs *)

Section Services.
Context {K : Type} {V : Valkey K} {T : UuidText} {U : Unicode}.
Notation M := (M K).

Definition user_metadata (user : Uuid) : json := JObj [(rs "user_id", json_uuid user)].

Definition create_public_channel (actor : AuthUser) (raw_name : rstr) : M AppError rstr :=
  require_permission actor chat_write ;;
  ensure_not_globally_banned (user_id actor) ;;
  name <- lift (normalize_channel_name raw_name) ;;
  now <- now_millis ;;
  transaction (
    id <- now_v7 ;;
    row <- execute (sql_upsert_channel id name (as_i64 now)) ;;
    channel_id <- ok_or row (bad_request "channel already exists") ;;
    record_audit (audit (user_id actor) "channel.created" "channel" channel_id json_empty (as_i64 now))) ;;
  publish_system_message name (username actor ++ rs " created this channel") ;;
  broadcast_control (SvChannelCreated name) ;;
  ret name.

Definition create_private_conversation (actor : AuthUser) (raw_name : rstr) : M AppError (Uuid * rstr) :=
  require_permission actor chat_write ;;
  ensure_not_globally_banned (user_id actor) ;;
  name <- lift (normalize_channel_name raw_name) ;;
  id <- now_v7 ;;
  now <- now_millis ;;
  transaction (
    affected <- execute (sql_insert_private id name (user_id actor) (as_i64 now)) ;;
    if affected =? 0 then throw (bad_request "channel already exists")
    else
      execute (sql_insert_member
        (mkMemberRow id (user_id actor) Owner (Some (user_id actor)) (as_i64 now))) ;;
      record_audit (audit (user_id actor) "channel.private_created" "channel" id json_empty (as_i64 now))) ;;
  publish_system_message name (username actor ++ rs " created this private channel") ;;
  ret (id, name).

Definition direct_key_of (a b : Uuid) : rstr := uuid_to_string a ++ rs ":" ++ uuid_to_string b.
Definition ordered_pair (a b : Uuid) : Uuid * Uuid := if uuid_ltb a b then (a, b) else (b, a).

Definition sql_find_direct (key : rstr) (d : Db) : option (Uuid * rstr) :=
  (fun c => (c_id c, c_name c)) <$> first_row (direct_live key) (channels d).

Definition open_direct (actor : AuthUser) (target_user : Uuid) : M AppError (Uuid * rstr) :=
  require_permission actor chat_write ;;
  ensure_not_globally_banned (user_id actor) ;;
  if target_user ≟ user_id actor then throw (bad_request "you cannot message yourself") else
  target_exists <- query (fun d => exists_row (active_user target_user) (users d)) ;;
  if negb target_exists then throw (from_err NotFound) else
  let '(first, second) := ordered_pair (user_id actor) target_user in
  let direct_key := direct_key_of first second in
  now <- now_millis ;;
  proposed_id <- now_v7 ;;
  let proposed_name := rs "dm_" ++ uuid_to_string proposed_id in
  transaction (
    inserted <- execute (sql_insert_direct proposed_id proposed_name direct_key (as_i64 now)) ;;
    row <- match inserted with
           | Some (id, name) => ret (id, name, true)
           | None =>
               found <- query (sql_find_direct direct_key) ;;
               r <- ok_or found (from_err SqlxRowNotFound) ;;
               ret (r.1, r.2, false)
           end ;;
    let '(channel_id, name, created) := row in
    for_each [first; second] (fun member =>
      execute (sql_insert_member_ignore
        (mkMemberRow channel_id member Member (Some (user_id actor)) (as_i64 now))) ;; ret tt) ;;
    (if created : bool then
       record_audit (audit (user_id actor) "channel.direct_created" "channel" channel_id
                       (user_metadata target_user) (as_i64 now))
     else ret tt) ;;
    ret (channel_id, name)).

Definition broadcast_members (channel : rstr) : M AppError unit :=
  members <- attempt (F := AppError) (channel_members_of channel) ;;
  match members with
  | Ok members => attempt (F := AppError) (broadcast channel (SvMembers channel members)) ;; ret tt
  | Err _ => ret tt
  end.

Definition invite_member (actor : AuthUser) (channel : rstr) (user : Uuid) : M AppError bool :=
  require_permission actor chat_write ;;
  channel_id <- owned_private_channel channel (user_id actor) ;;
  now <- now_millis ;;
  invited <- transaction (
    found <- query (sql_active_username user) ;;
    target <- ok_or found (from_err NotFound) ;;
    affected <- execute (sql_insert_member_ignore
      (mkMemberRow channel_id user Member (Some (user_id actor)) (as_i64 now))) ;;
    if affected =? 0 then ret None
    else
      record_audit (audit (user_id actor) "channel.member_added" "channel" channel_id
                      (user_metadata user) (as_i64 now)) ;;
      ret (Some target)) ;;
  match invited with
  | None => ret false
  | Some target =>
      publish_system_message channel (username actor ++ rs " invited " ++ target) ;;
      broadcast_members channel ;;
      ret true
  end.

Definition remove_member (actor : AuthUser) (channel : rstr) (user : Uuid) : M AppError unit :=
  require_permission actor chat_write ;;
  channel_id <- owned_private_channel channel (user_id actor) ;;
  now <- now_millis ;;
  target <- transaction (
    affected <- execute (sql_delete_member channel_id user) ;;
    if affected =? 0 then throw (from_err NotFound)
    else
      found <- query (sql_username user) ;;
      let target := default (rs "a member") found in
      record_audit (audit (user_id actor) "channel.member_removed" "channel" channel_id
                      (user_metadata user) (as_i64 now)) ;;
      ret target) ;;
  publish_system_message channel (username actor ++ rs " removed " ++ target) ;;
  broadcast_members channel.

Definition delete_channel_service (actor : AuthUser) (raw_name : rstr) : M AppError rstr :=
  require_permission actor chat_moderate ;;
  name <- lift (normalize_channel_name raw_name) ;;
  if name ≟ MAIN_CHANNEL then throw (bad_request "the main channel cannot be removed") else
  now <- now_millis ;;
  transaction (
    row <- execute (sql_delete_channel (as_i64 now) name) ;;
    id <- ok_or row (from_err NotFound) ;;
    record_audit (audit (user_id actor) "channel.deleted" "channel" id json_empty (as_i64 now))) ;;
  broadcast_control (SvChannelDeleted name) ;;
  ret name.
End Services.
