(* ===== verification/Members.v ===== *)
(** * Members

    [api/members.rs]: the member list, invitations and removals over HTTP,
    leaving, moderators and the transfer of ownership. *)
From Stdlib Require Import String.
From S2P Require Export Services.
Open Scope m_scope.

Section Members.
Context {K : Type} {V : Valkey K} {T : UuidText} {J : JsonText} {U : Unicode}.
Notation M := (M K).

Definition list_channel_members (headers : HeaderMap) (name : rstr) : M AppError (list ChannelMember) :=
  session <- load_session headers ;;
  ensure_channel_access name (user_id (session_user session)) ;;
  channel_members_of name.

Definition invite_channel_member (headers : HeaderMap) (name : rstr) (user : Uuid) : M AppError unit :=
  session <- load_session headers ;;
  require_csrf headers session ;;
  invite_member (session_user session) name user ;;
  ret tt.

Definition remove_channel_member (headers : HeaderMap) (name : rstr) (user : Uuid) : M AppError unit :=
  session <- load_session headers ;;
  require_csrf headers session ;;
  remove_member (session_user session) name user.

(** The join of the channel with the caller's membership. *)
Definition sql_membership (user : Uuid) (name : rstr) (d : Db) : option (ChannelRow * MemberRole) :=
  head (concat (map (fun c =>
          map (fun m => (c, cm_role m)) (where_ (member_row (c_id c) user) (channel_members d)))
        (where_ (active_channel name) (channels d)))).

Definition leave_allowed (user : Uuid) (row : ChannelRow * MemberRole) : Result AppError unit :=
  if c_kind row.1 ≟ Public then Err (bad_request "public channels do not require leaving")
  else if (c_owner_user_id row.1 ≟ Some user) || (row.2 ≟ Owner) then
    Err (bad_request "the channel owner must transfer ownership or delete the channel")
  else Ok tt.

(** [broadcast] of the member list, whose query is not optional. *)
Definition announce_members (name : rstr) : M AppError unit :=
  members <- channel_members_of name ;;
  attempt (F := AppError) (broadcast name (SvMembers name members)) ;;
  ret tt.

Definition leave_channel (headers : HeaderMap) (name : rstr) : M AppError unit :=
  session <- load_session headers ;;
  require_csrf headers session ;;
  let user := session_user session in
  require_permission user chat_write ;;
  found <- query (sql_membership (user_id user) name) ;;
  row <- ok_or found (from_err NotFound) ;;
  lift (leave_allowed (user_id user) row) ;;
  execute (sql_leave (c_id row.1) (user_id user)) ;;
  publish_system_message name (username user ++ rs " left the conversation") ;;
  announce_members name ;;
  created_at <- now_millis ;;
  record_audit_pool (audit (user_id user) "channel.member_left" "channel" (c_id row.1)
                       (user_metadata (user_id user)) (as_i64 created_at)).

(** [promote_channel_moderator] and [demote_channel_moderator]. *)
Definition change_moderator (from to : MemberRole) (action : string) (headers : HeaderMap)
    (name : rstr) (user : Uuid) : M AppError unit :=
  session <- load_session headers ;;
  require_csrf headers session ;;
  channel_id <- channel_moderator_manager name (session_user session) ;;
  affected <- execute (sql_change_role channel_id user from to) ;;
  if affected =? 0 then throw (from_err NotFound) else
  created_at <- now_millis ;;
  record_audit_pool (audit (user_id (session_user session)) action "channel" channel_id
                       (user_metadata user) (as_i64 created_at)).

Definition promote_channel_moderator : HeaderMap -> rstr -> Uuid -> M AppError unit :=
  change_moderator Member Moderator "channel.moderator_promoted".
Definition demote_channel_moderator : HeaderMap -> rstr -> Uuid -> M AppError unit :=
  change_moderator Moderator Member "channel.moderator_demoted".

(** The checks of a transfer, made before its transaction begins. *)
Definition transfer_checks (session : Session) (name : rstr) (target : Uuid) : M AppError Uuid :=
  let user := session_user session in
  require_permission user chat_write ;;
  found <- query (fun d => find_channel d name) ;;
  row <- ok_or found (from_err NotFound) ;;
  if negb (c_owner_user_id row ≟ Some (user_id user)) then
    throw (forbidden "only the channel owner can transfer ownership")
  else if target ≟ user_id user then
    throw (bad_request "cannot transfer ownership to yourself")
  else
    member <- query (fun d => is_member d (c_id row) target) ;;
    if negb member then throw (bad_request "target user is not a member of the channel")
    else ret (c_id row).

Definition transfer_transaction (channel old new : Uuid) : M AppError unit :=
  transaction (
    execute (sql_set_owner channel new) ;;
    execute (sql_set_role channel old Moderator) ;;
    execute (sql_set_role channel new Owner)).

Definition transfer_channel_ownership (headers : HeaderMap) (name : rstr) (target : Uuid) :
    M AppError unit :=
  session <- load_session headers ;;
  require_csrf headers session ;;
  channel_id <- transfer_checks session name target ;;
  let user := session_user session in
  transfer_transaction channel_id (user_id user) target ;;
  announce_members name ;;
  created_at <- now_millis ;;
  record_audit_pool (audit (user_id user) "channel.ownership_transferred" "channel" channel_id
    (JObj [(rs "old_owner", json_uuid (user_id user)); (rs "new_owner", json_uuid target)])
    (as_i64 created_at)).
End Members.
