(* ===== verification/Ownership.v ===== *)
(** * Who owns a channel

    The invariant behind the membership operations: the [owner_user_id] of a
    channel and the [owner] row of its members say the same, and a private
    channel has an owner. Every operation of [Services] and [Members] keeps it,
    whatever requests fail on the way. *)
From Stdlib Require Import String.
From S2P Require Export Members.
From S2P Require Import Reference.
Open Scope m_scope.

Record owner_ok (d : Db) : Prop := {
  own_channels : unique_on c_id (channels d);
  own_members : unique_on member_key (channel_members d);
  own_fk m : In m (channel_members d) -> exists c, In c (channels d) /\ c_id c = cm_channel_id m;
  own_role c m : In c (channels d) -> In m (channel_members d) -> cm_channel_id m = c_id c ->
    (cm_role m = Owner <-> c_owner_user_id c = Some (cm_user_id m));
  own_present c o : In c (channels d) -> c_owner_user_id c = Some o -> is_member d (c_id c) o = true;
  own_private c : In c (channels d) -> c_kind c = Private -> c_owner_user_id c <> None
}.

(** ** Changes that cannot matter *)

Definition same_membership (d d' : Db) : Prop :=
  channels d' = channels d /\ channel_members d' = channel_members d.
#[export] Instance same_membership_preorder : PreOrder same_membership.
Proof. split; unfold same_membership; [done|]. intros x y z [-> ->] [-> ->]. done. Qed.

Lemma owner_ok_same d d' : same_membership d d' -> owner_ok d -> owner_ok d'.
Proof.
  intros [Hc Hm] [H1 H2 H3 H4 H5 H6]. unfold is_member in H5.
  split; unfold is_member; rewrite ?Hc, ?Hm; done.
Qed.

(** An update of channels that keeps the identity, the kind and the owner. *)
Definition keeps_owner (f : ChannelRow -> ChannelRow) : Prop :=
  forall c, c_id (f c) = c_id c /\ c_owner_user_id (f c) = c_owner_user_id c /\ c_kind (f c) = c_kind c.

Lemma owner_ok_update_channels p f d :
  keeps_owner f -> owner_ok d -> owner_ok (set_channels (update_where p f) d).
Proof.
  intros Hf [H1 H2 H3 H4 H5 H6].
  assert (forall c, In c (update_where p f (channels d)) ->
    exists c0, In c0 (channels d) /\ c_id c0 = c_id c /\ c_owner_user_id c0 = c_owner_user_id c
               /\ c_kind c0 = c_kind c) as Hc.
  { intros c (c0 & Hin & ->)%in_update_where. exists c0.
    destruct (Hf c0) as (? & ? & ?). destruct (p c0); done. }
  split; simpl.
  - apply unique_on_update; [|done]. intros c _. apply Hf.
  - done.
  - intros m Hm. destruct (H3 m Hm) as (c & Hin & E). exists (if p c then f c else c). split.
    + apply in_update_where. eauto.
    + destruct (Hf c) as (? & _). destruct (p c); congruence.
  - intros c m (c0 & Hin & E & Eo & _)%Hc Hm Em. rewrite <- Eo. apply H4; [done|done|congruence].
  - intros c o (c0 & Hin & E & Eo & _)%Hc Ho. rewrite <- E. apply H5; [done|congruence].
  - intros c (c0 & Hin & E & Eo & Ek)%Hc Hk. rewrite <- Eo. apply H6; [done|congruence].
Qed.

Lemma keeps_owner_deleted v : keeps_owner (set_c_deleted_at v).
Proof. by intros []. Qed.

(** A new channel without an owner. *)
Lemma owner_ok_new_channel c d :
  c_owner_user_id c = None -> c_kind c <> Private ->
  exists_row (fun c' => c_id c' ≟ c_id c) (channels d) = false ->
  owner_ok d -> owner_ok (set_channels (fun t => t ++ [c]) d).
Proof.
  intros Ho Hk Hnew [H1 H2 H3 H4 H5 H6].
  assert (forall c', In c' (channels d) -> c_id c' <> c_id c) as Hne.
  { intros c' Hin. rewrite exists_row_false in Hnew. specialize (Hnew c' Hin). by bool_simpl. }
  split; simpl.
  - by apply unique_on_snoc.
  - done.
  - intros m Hm. destruct (H3 m Hm) as (c' & Hin & E). exists c'. rewrite in_app_iff. auto.
  - intros c' m [Hin|[<-|[]]]%in_app_iff Hm E; [by apply H4|].
    destruct (H3 m Hm) as (c' & Hin & E'). destruct (Hne c' Hin). congruence.
  - intros c' o [Hin|[<-|[]]]%in_app_iff Hc'; [by apply H5|congruence].
  - intros c' [Hin|[<-|[]]]%in_app_iff Hc'; [by apply H6|done].
Qed.

(** A new row for a plain member. *)
Lemma owner_ok_new_member m d :
  cm_role m = Member -> fk_channel d (cm_channel_id m) = true ->
  is_member d (cm_channel_id m) (cm_user_id m) = false ->
  owner_ok d -> owner_ok (set_channel_members (fun t => t ++ [m]) d).
Proof.
  intros Hr Hfk Hnew [H1 H2 H3 H4 H5 H6]. split; simpl.
  - done.
  - apply unique_on_snoc; [done|]. intros m' Hin E. unfold member_key in E. injection E as E1 E2.
    assert (is_member d (cm_channel_id m) (cm_user_id m) = true); [|congruence].
    apply is_member_true. eauto.
  - intros m' [Hin|[<-|[]]]%in_app_iff; [by apply H3|].
    apply exists_row_true in Hfk as (c & Hin & E). bool_simpl. eauto.
  - intros c m' Hc [Hin|[<-|[]]]%in_app_iff E; [by apply H4|].
    split; [congruence|]. intros Ho. rewrite E in Hnew.
    rewrite (H5 c _ Hc Ho) in Hnew. done.
  - intros c o Hc Ho. unfold is_member. simpl. apply exists_row_true.
    apply (H5 c o Hc), exists_row_true in Ho as (m' & Hin & E).
    exists m'. rewrite in_app_iff. auto.
  - done.
Qed.

(** Rows of plain members and moderators may be deleted and may change role. *)
Lemma owner_ok_delete_members p d :
  (forall m, In m (channel_members d) -> p m = true -> cm_role m <> Owner) ->
  owner_ok d -> owner_ok (set_channel_members (delete_where p) d).
Proof.
  intros Hp [H1 H2 H3 H4 H5 H6]. split; simpl.
  - done.
  - by apply unique_on_filter.
  - intros m [Hin _]%in_delete_where. by apply H3.
  - intros c m Hc [Hin _]%in_delete_where. by apply H4.
  - intros c o Hc Ho. unfold is_member. simpl. apply exists_row_true.
    pose proof (H5 c o Hc Ho) as (m & Hin & E)%exists_row_true. exists m. split; [|done].
    apply in_delete_where. split; [done|]. destruct (p m) eqn:Ep; [|done].
    destruct (Hp m Hin Ep). unfold member_row in E. bool_simpl. apply (H4 c m); congruence.
  - done.
Qed.

Lemma owner_ok_update_members p r d :
  (forall m, In m (channel_members d) -> p m = true -> cm_role m <> Owner) -> r <> Owner ->
  owner_ok d -> owner_ok (set_channel_members (update_where p (set_cm_role r)) d).
Proof.
  intros Hp Hr [H1 H2 H3 H4 H5 H6].
  assert (forall m, In m (update_where p (set_cm_role r) (channel_members d)) ->
    exists m0, In m0 (channel_members d) /\ cm_channel_id m = cm_channel_id m0
      /\ cm_user_id m = cm_user_id m0 /\ (cm_role m = Owner <-> cm_role m0 = Owner)) as Hm.
  { intros m (m0 & Hin & ->)%in_update_where. exists m0. split; [done|].
    destruct (p m0) eqn:E; [|done]. repeat split; try done. intros Ho. by destruct (Hp m0). }
  split; simpl.
  - done.
  - by apply unique_on_update.
  - intros m (m0 & Hin & E & _)%Hm. rewrite E. by apply H3.
  - intros c m Hc (m0 & Hin & E & Eu & Er)%Hm Em. rewrite Er, Eu. apply H4; [done|done|congruence].
  - intros c o Hc Ho. unfold is_member. simpl. apply exists_row_true.
    pose proof (H5 c o Hc Ho) as (m & Hin & E)%exists_row_true.
    exists (if p m then set_cm_role r m else m). split; [apply in_update_where; eauto|].
    by destruct (p m).
  - done.
Qed.

(** ** The statements *)

Lemma upsert_channel_owner id name now d x d' :
  sql_upsert_channel id name now d = Ok (x, d') -> owner_ok d -> owner_ok d'.
Proof.
  unfold sql_upsert_channel. destruct (first_row _ _) as [c|].
  - destruct (c_deleted_at c); [|by intros [= _ <-]].
    destruct (_ && _); [done|]. intros [= _ <-]. apply owner_ok_update_channels, keeps_owner_deleted.
  - destruct (insert_row _ _ _ _ _ _) as [[[] d1]|] eqn:E; [|done]. intros [= _ <-].
    apply insert_row_ok in E as (_ & Hnew & ->). by apply owner_ok_new_channel.
Qed.

Lemma insert_direct_owner id name key now d x d' :
  sql_insert_direct id name key now d = Ok (x, d') -> owner_ok d -> owner_ok d'.
Proof.
  unfold sql_insert_direct. destruct (exists_row (direct_live _) _); [by intros [= _ <-]|].
  destruct (insert_row _ _ _ _ _ _) as [[[] d1]|] eqn:E; [|done]. intros [= _ <-].
  apply insert_row_ok in E as (_ & Hnew & ->). by apply owner_ok_new_channel.
Qed.

Lemma insert_member_ignore_owner m d x d' :
  cm_role m = Member -> sql_insert_member_ignore m d = Ok (x, d') -> owner_ok d -> owner_ok d'.
Proof.
  intros Hr. unfold sql_insert_member_ignore. destruct (is_member _ _ _) eqn:Em; [by intros [= _ <-]|].
  destruct (sql_insert_member m d) as [[[] d1]|] eqn:E; [|done]. intros [= _ <-].
  apply insert_row_ok in E as (Hfk & _ & ->). bool_simpl. by apply owner_ok_new_member.
Qed.

Lemma delete_member_owner channel user d x d' :
  sql_delete_member channel user d = Ok (x, d') -> owner_ok d -> owner_ok d'.
Proof.
  intros [= _ <-]. apply owner_ok_delete_members. unfold removable_member.
  intros m _ Hp. by bool_simpl.
Qed.

Lemma delete_channel_owner now name d x d' :
  sql_delete_channel now name d = Ok (x, d') -> owner_ok d -> owner_ok d'.
Proof. intros [= _ <-]. apply owner_ok_update_channels, keeps_owner_deleted. Qed.

Lemma change_role_owner channel user from to d x d' :
  from <> Owner -> to <> Owner ->
  sql_change_role channel user from to d = Ok (x, d') -> owner_ok d -> owner_ok d'.
Proof.
  intros Hf Ht [= _ <-]. apply owner_ok_update_members; [|done]. intros m _ Hp. by bool_simpl; subst.
Qed.

(** Creating a private channel is two statements; between them it has no
    member row for its owner. *)
Lemma insert_private_owner id name owner now1 now2 d d1 d2 x :
  sql_insert_private id name owner now1 d = Ok (1, d1) ->
  sql_insert_member (mkMemberRow id owner Owner (Some owner) now2) d1 = Ok (x, d2) ->
  owner_ok d -> owner_ok d2.
Proof.
  unfold sql_insert_private. destruct (exists_row (fun c => c_name c ≟ name) _); [done|].
  destruct (insert_row _ _ _ _ _ _) as [[[] d0]|] eqn:E; [|done]. intros [= <-].
  apply insert_row_ok in E as (_ & Hnew & ->). intros (_ & Hm & ->)%insert_row_ok Hok.
  set (c := mkChannelRow _ _ _ _ _ _ _ _ _ _ _) in *.
  assert (forall c', In c' (channels d) -> c_id c' <> id) as Hne.
  { intros c' Hin. rewrite exists_row_false in Hnew. specialize (Hnew c' Hin). by bool_simpl. }
  assert (forall m, In m (channel_members d) -> cm_channel_id m <> id) as Hnm.
  { intros m Hin E. destruct (own_fk d Hok m Hin) as (c' & Hc' & E'). by apply (Hne c' Hc'); congruence. }
  destruct Hok as [H1 H2 H3 H4 H5 H6]. split; simpl.
  - by apply unique_on_snoc.
  - apply unique_on_snoc; [done|]. intros m Hin [= E _]. by apply (Hnm m).
  - intros m [Hin|[<-|[]]]%in_app_iff.
    + destruct (H3 m Hin) as (c' & Hc' & E). exists c'. rewrite in_app_iff. auto.
    + exists c. rewrite in_app_iff. simpl. auto.
  - intros c' m [Hc|[<-|[]]]%in_app_iff [Hin|[<-|[]]]%in_app_iff E; simpl in *.
    + by apply H4.
    + by destruct (Hne c' Hc).
    + by destruct (Hnm m Hin).
    + done.
  - intros c' o [Hc|[<-|[]]]%in_app_iff Ho; apply exists_row_true; simpl in *.
    + apply (H5 c' o Hc), exists_row_true in Ho as (m & Hin & E). exists m. rewrite in_app_iff. auto.
    + injection Ho as <-. exists (mkMemberRow id owner Owner (Some owner) now2).
      rewrite in_app_iff. simpl. split; [auto|]. unfold member_row. simpl.
      by rewrite !bool_decide_eq_true_2.
  - intros c' [Hc|[<-|[]]]%in_app_iff; [by apply H6|done].
Qed.

(** Leaving, after the checks on the caller's own row. *)
Lemma membership_some user name d c r :
  sql_membership user name d = Some (c, r) ->
  In c (channels d) /\ active_channel name c = true
  /\ exists m, In m (channel_members d) /\ member_row (c_id c) user m = true /\ cm_role m = r.
Proof.
  unfold sql_membership. intros H%head_Some_elem_of%list_elem_of_In.
  apply in_concat in H as (l & Hl & Hin). apply in_map_iff in Hl as (c' & <- & [Hc Ha]%in_where).
  apply in_map_iff in Hin as (m & [= <- <-] & [Hm Hr]%in_where). eauto 8.
Qed.

Lemma leave_owner user name d row u x d' :
  sql_membership user name d = Some row -> leave_allowed user row = Ok u ->
  sql_leave (c_id row.1) user d = Ok (x, d') -> owner_ok d -> owner_ok d'.
Proof.
  destruct row as [c r]. intros (Hc & _ & _)%membership_some Hl [= _ <-] Hok.
  unfold leave_allowed in Hl. cbn [fst snd] in *. destruct (c_kind c ≟ Public); [done|].
  destruct ((c_owner_user_id c ≟ Some user) || _) eqn:E; [done|]. bool_simpl.
  apply owner_ok_delete_members; [|done]. unfold member_row. simpl. intros m Hm Hp Ho. bool_simpl.
  apply (own_role d Hok c m) in Ho; [|done..]. congruence.
Qed.

(** The transfer: the new owner is a member, the old one owned the channel. *)
Lemma transfer_owner name c old new d d1 d2 d3 x1 x2 x3 :
  find_channel d name = Some c -> c_owner_user_id c = Some old -> new <> old ->
  is_member d (c_id c) new = true ->
  sql_set_owner (c_id c) new d = Ok (x1, d1) ->
  sql_set_role (c_id c) old Moderator d1 = Ok (x2, d2) ->
  sql_set_role (c_id c) new Owner d2 = Ok (x3, d3) ->
  owner_ok d -> owner_ok d3.
Proof.
  intros (Hc & _ & _)%find_channel_some Ho Hne Hmem H1 [= _ <-] [= _ <-].
  unfold sql_set_owner in H1. destruct (fk_user d new); [|done]. injection H1 as _ <-.
  intros [U1 U2 H3 H4 H5 H6].
  set (fm := fun m => let m' := if member_row (c_id c) old m then set_cm_role Moderator m else m in
                      if member_row (c_id c) new m' then set_cm_role Owner m' else m').
  set (fc := fun c' => if c_id c' ≟ c_id c then set_c_owner_user_id (Some new) c' else c').
  assert (forall m, member_key (fm m) = member_key m) as Hkey.
  { intros m. unfold fm. destruct (member_row _ old m); by destruct (member_row _ new _). }
  assert (forall c', c_id (fc c') = c_id c' /\ c_kind (fc c') = c_kind c') as Hfc
    by (intros c'; unfold fc; by destruct (c_id c' ≟ c_id c)).
  assert (forall m, In m (channel_members d) -> forall c', In c' (channels d) ->
            cm_channel_id m = c_id c' ->
            (cm_role (fm m) = Owner <-> c_owner_user_id (fc c') = Some (cm_user_id m))) as Hrole.
  { intros m Hm c' Hc' E. specialize (H4 c' m Hc' Hm E). unfold fm, fc, member_row.
    destruct (c_id c' ≟ c_id c) eqn:Ec; bool_simpl.
    - assert (c' = c) as -> by (by apply (unique_on_eq c_id (channels d))).
      destruct (cm_user_id m ≟ old) eqn:Eo; bool_simpl.
      + rewrite !(bool_decide_eq_true_2 (cm_channel_id m = c_id c)) by done. simpl.
        rewrite bool_decide_eq_false_2 by congruence. simpl. split; congruence.
      + rewrite andb_false_r. rewrite (bool_decide_eq_true_2 (cm_channel_id m = c_id c)) by done. simpl.
        destruct (cm_user_id m ≟ new) eqn:En; bool_simpl; simpl; [split; congruence|].
        rewrite H4, Ho. split; congruence.
    - rewrite (bool_decide_eq_false_2 (cm_channel_id m = c_id c)) by congruence. simpl.
      rewrite (bool_decide_eq_false_2 (cm_channel_id m = c_id c)) by congruence. done. }
  assert (channel_members (set_channel_members (update_where (member_row (c_id c) new) (set_cm_role Owner))
            (set_channel_members (update_where (member_row (c_id c) old) (set_cm_role Moderator))
               (set_channels (update_where (fun c0 => c_id c0 ≟ c_id c) (set_c_owner_user_id (Some new))) d)))
          = map fm (channel_members d)) as Em.
  { simpl. unfold update_where. rewrite map_map. done. }
  set (d3 := set_channel_members _ _) in *.
  assert (channels d3 = map fc (channels d)) as Ech by done.
  clearbody d3. split; rewrite ?Em, ?Ech.
  - unfold unique_on. rewrite map_map. erewrite map_ext; [exact U1|]. intros c'. apply Hfc.
  - unfold unique_on. rewrite map_map. erewrite map_ext; [exact U2|]. done.
  - intros m (m0 & <- & Hm)%in_map_iff. destruct (H3 m0 Hm) as (c' & Hc' & E).
    exists (fc c'). split; [by apply in_map|]. specialize (Hkey m0). destruct (Hfc c').
    unfold member_key in Hkey. congruence.
  - intros c1 m (c' & <- & Hc')%in_map_iff (m0 & <- & Hm)%in_map_iff E.
    specialize (Hkey m0). destruct (Hfc c') as [Hid _]. unfold member_key in Hkey.
    injection Hkey as Hk1 Hk2. rewrite Hk2. apply Hrole; congruence.
  - intros c1 o (c' & <- & Hc')%in_map_iff E. destruct (Hfc c') as [Hid _]. rewrite Hid.
    assert (is_member d (c_id c') o = true) as (m & Hm & Er)%is_member_true.
    { unfold fc in E. destruct (c_id c' ≟ c_id c) eqn:Ec; bool_simpl; [|by apply H5].
      simpl in E. injection E as <-. by rewrite Ec. }
    apply is_member_true. rewrite Em. exists (fm m). split; [by apply in_map|].
    specialize (Hkey m). unfold member_key in Hkey. injection Hkey as -> ->. done.
  - intros c1 (c' & <- & Hc')%in_map_iff. destruct (Hfc c') as [_ ->]. intros Hk.
    unfold fc. destruct (c_id c' ≟ c_id c); [done|by apply H6].
Qed.

(** ** The operations *)

(** Statements on the other tables. *)
Lemma insert_row_same {R Key} `{EqDecision Key} (key : R -> Key) fk get set r d x d' :
  (forall f d, same_membership d (set f d)) ->
  insert_row key fk get set r d = Ok (x, d') -> same_membership d d'.
Proof. intros Hs (_ & _ & ->)%insert_row_ok. apply Hs. Qed.

Section SameMembership.
Context {K : Type} {V : Valkey K} {T : UuidText} {J : JsonText} {U : Unicode}.
Notation Same := (DbRel (K := K) same_membership).

Lemma same_record_audit {E} `{From SqlxError E} e : Frame Same (record_audit (E := E) e).
Proof.
  unfold record_audit. frame_auto. apply frame_execute; [exact _|].
  intros w ? d'. by apply insert_row_same.
Qed.
Lemma same_record_audit_pool {E} `{From SqlxError E} e : Frame Same (record_audit_pool (E := E) e).
Proof. unfold record_audit_pool. frame_auto. apply same_record_audit. Qed.
Lemma same_create_system_message channel text : Frame Same (create_system_message channel text).
Proof.
  unfold create_system_message. frame_auto. apply frame_execute; [exact _|].
  intros w ? d'. unfold sql_insert_system_message.
  destruct (find_channel _ _); [|by intros [= _ <-]].
  destruct (insert_row _ _ _ _ _ _) as [[[] d1]|] eqn:E; [|done]. intros [= _ <-].
  by eapply (insert_row_same _ _ _ set_messages).
Qed.
Lemma same_publish_system_message channel text : Frame Same (publish_system_message channel text).
Proof.
  unfold publish_system_message.
  apply frame_bind; [exact _|apply same_create_system_message|]. intros m. frame_auto.
Qed.
Lemma same_broadcast_members channel : Frame Same (broadcast_members channel).
Proof. unfold broadcast_members. frame_auto. Qed.
Lemma same_announce_members channel : Frame Same (announce_members channel).
Proof. unfold announce_members. frame_auto. Qed.
End SameMembership.

#[export] Hint Resolve same_record_audit same_record_audit_pool same_publish_system_message
  same_broadcast_members same_announce_members : frame.

Section Operations.
Context {K : Type} {V : Valkey K} {T : UuidText} {J : JsonText} {U : Unicode}.

Inductive Operation :=
| CreatePublic (actor : AuthUser) (name : rstr)
| CreatePrivate (actor : AuthUser) (name : rstr)
| OpenDirectWith (actor : AuthUser) (target : Uuid)
| Invite (actor : AuthUser) (channel : rstr) (user : Uuid)
| Remove (actor : AuthUser) (channel : rstr) (user : Uuid)
| DeleteNamed (actor : AuthUser) (name : rstr)
| Leave (headers : HeaderMap) (name : rstr)
| Promote (headers : HeaderMap) (name : rstr) (user : Uuid)
| Demote (headers : HeaderMap) (name : rstr) (user : Uuid)
| Transfer (headers : HeaderMap) (name : rstr) (user : Uuid).

Definition run_operation (op : Operation) : M K AppError unit :=
  match op with
  | CreatePublic actor name => create_public_channel actor name ;; ret tt
  | CreatePrivate actor name => create_private_conversation actor name ;; ret tt
  | OpenDirectWith actor target => open_direct actor target ;; ret tt
  | Invite actor channel user => invite_member actor channel user ;; ret tt
  | Remove actor channel user => remove_member actor channel user
  | DeleteNamed actor name => delete_channel_service actor name ;; ret tt
  | Leave headers name => leave_channel headers name
  | Promote headers name user => promote_channel_moderator headers name user
  | Demote headers name user => demote_channel_moderator headers name user
  | Transfer headers name user => transfer_channel_ownership headers name user
  end.

Notation kept m := (forall d, owner_ok d -> wp (K := K) m (fun _ => owner_ok) owner_ok d).

(** Steps on other tables keep the invariant; a statement on channels or members
    keeps it by its lemma in the database [own]; the rest is sequencing. *)
Ltac kept_frame :=
  match goal with
  | Hd : owner_ok ?d |- wp _ _ _ ?d =>
      eapply wp_frame with (P := same_membership);
      [solve [frame_auto]
      |let H := fresh in intros ? H; first [exact I|exact (owner_ok_same _ _ H Hd)]
      |let H := fresh in let Hd' := fresh "Hd" in
       intros ? ? H; pose proof (owner_ok_same _ _ H Hd) as Hd']
  end.
Ltac kept_execute :=
  match goal with
  | Hd : owner_ok ?d |- wp (execute _) _ _ ?d =>
      apply wp_execute; [try done|];
      let d' := fresh "d" in let E := fresh "E" in intros ? d' E;
      assert (owner_ok d') by eauto with own
  end.
Ltac kept_step :=
  first
    [ done
    | match goal with |- _ /\ _ => split end
    | kept_execute
    | match goal with
      | |- wp (bind _ _) _ _ _ => apply wp_bind
      | |- wp (ret _) _ _ _ => apply wp_ret
      | |- wp (throw _) _ _ _ => apply wp_throw
      | |- wp (query _) _ _ _ => apply wp_query; [try done|]
      | |- wp (ok_or _ _) _ _ _ => apply wp_ok_or; [try done|intros ? ?]
      | |- wp (lift _) _ _ _ => apply wp_lift; [try done|intros ? ?]
      | |- wp (transaction _) _ _ _ => apply wp_transaction; [try done|]
      | |- wp (if ?b then _ else _) _ _ _ => destruct b eqn:?
      | |- wp (match ?x with _ => _ end) _ _ _ => destruct x eqn:?
      end
    | wp_silent_step
    | kept_frame ].
Ltac kept_auto := repeat (kept_step; cbv zeta beta).

#[local] Hint Resolve upsert_channel_owner insert_direct_owner delete_member_owner
  delete_channel_owner : own.
#[local] Hint Extern 2 (owner_ok _) =>
  eapply insert_member_ignore_owner; [|eassumption|eassumption]; reflexivity : own.

Lemma kept_create_public actor name : kept (create_public_channel actor name).
Proof. intros d Hd. unfold create_public_channel. kept_auto. Qed.

Lemma kept_invite actor channel user : kept (invite_member actor channel user).
Proof. intros d Hd. unfold invite_member. kept_auto. Qed.

Lemma kept_remove actor channel user : kept (remove_member actor channel user).
Proof. intros d Hd. unfold remove_member. kept_auto. Qed.

Lemma kept_delete actor name : kept (delete_channel_service actor name).
Proof. intros d Hd. unfold delete_channel_service. kept_auto. Qed.

Lemma kept_change_moderator from to action headers name user :
  from <> Owner -> to <> Owner -> kept (change_moderator from to action headers name user).
Proof.
  intros Hf Ht d Hd. unfold change_moderator.
  assert (forall c u d x d', sql_change_role c u from to d = Ok (x, d') -> owner_ok d -> owner_ok d')
    by eauto using change_role_owner.
  kept_auto.
Qed.

Lemma kept_leave headers name : kept (leave_channel headers name).
Proof. intros d Hd. unfold leave_channel. pose proof leave_owner. kept_auto. Qed.

Lemma kept_create_private actor name : kept (create_private_conversation actor name).
Proof.
  intros d Hd. unfold create_private_conversation. kept_auto.
  apply wp_execute; [done|]. intros affected d1 E1. split; [|done].
  destruct (affected =? 0) eqn:Ez; [by apply wp_throw|].
  assert (affected = 1) as ->.
  { unfold sql_insert_private in E1. destruct (exists_row _ _); [injection E1; lia|].
    destruct (insert_row _ _ _ _ _ _) as [[]|]; [|done]. by injection E1. }
  apply wp_bind, wp_execute; [done|]. intros x d2 E2. split; [|done].
  pose proof (insert_private_owner _ _ _ _ _ _ _ _ _ E1 E2 Hd) as Hd2. kept_auto.
Qed.

Lemma kept_transfer headers name user : kept (transfer_channel_ownership headers name user).
Proof.
  intros d Hd. unfold transfer_channel_ownership, transfer_checks. kept_auto. bool_simpl.
  unfold transfer_transaction. apply wp_transaction; [done|].
  apply wp_bind, wp_execute; [done|]. intros x1 d1 E1. split; [|done].
  apply wp_bind, wp_execute; [done|]. intros x2 d2 E2. split; [|done].
  apply wp_execute; [done|]. intros x3 d3 E3. split; [|done].
  assert (owner_ok d3) by (by eapply transfer_owner). kept_auto.
Qed.

Lemma kept_for_each {E A} (l : list A) (f : A -> M K E unit) (Q : unit -> Db -> Prop) d :
  (forall a d, owner_ok d -> wp (f a) (fun _ => owner_ok) (fun _ => True) d) ->
  owner_ok d -> (forall d', owner_ok d' -> Q tt d') -> wp (for_each l f) Q (fun _ => True) d.
Proof.
  intros Hf Hd HQ.
  apply (wp_mono _ (fun _ => owner_ok) _ (fun _ => True)); [|intros [] d'; apply HQ|done].
  apply (wp_for_each l f owner_ok); auto.
Qed.

Lemma kept_open_direct actor user : kept (open_direct actor user).
Proof.
  intros d Hd. unfold open_direct. kept_auto.
  all: apply kept_for_each; [|done|]; intros; kept_auto.
Qed.

Lemma kept_ignore {E A} (m : M K E A) : kept m -> kept (m ;; ret tt).
Proof.
  intros Hm d Hd. apply wp_bind. eapply wp_mono; [by apply Hm| |done].
  intros a d' H. by apply wp_ret.
Qed.

Lemma kept_operation op : kept (run_operation op).
Proof.
  destruct op; cbn [run_operation];
    first [apply kept_ignore|idtac]; auto using kept_create_public, kept_create_private,
      kept_open_direct, kept_invite, kept_delete, kept_remove, kept_leave, kept_transfer.
  - by apply kept_change_moderator.
  - by apply kept_change_moderator.
Qed.

(** Operations one after the other, each whatever the outcome of the last. *)
Fixpoint run_operations (ops : list Operation) : M K AppError unit :=
  match ops with
  | [] => ret tt
  | op :: ops' => attempt (F := AppError) (run_operation op) ;; run_operations ops'
  end.
End Operations.

(** C4. Ownership stays consistent: after any sequence of channel and membership
    operations, with any of their requests lost before or after they act, the
    owner recorded on each channel and its owner row still agree, every private
    channel still has an owner, and keys are still unique. *)
Theorem ownership_invariant {K} {V : Valkey K} {T : UuidText} {J : JsonText} {U : Unicode}
    ops (env : Env) (w : World K)
    (Hw : owner_ok (w_db w)) :
  owner_ok (w_db (run_operations ops env w).2).
Proof.
  revert w Hw. induction ops as [|op ops IH]; intros w Hw; [done|]. cbn [run_operations].
  rewrite run_bind. unfold attempt at 1. pose proof (kept_operation op (w_db w) Hw env w eq_refl) as H.
  destruct (run_operation op env w) as [[[]|e] w']; by apply IH.
Qed.

(** ** Witness *)

Lemma sample_db_owner_ok : owner_ok sample_db.
Proof.
  split; simpl.
  - apply NoDup_ListNoDup, (bool_decide_unpack _). vm_compute. exact I.
  - apply NoDup_ListNoDup, (bool_decide_unpack _). vm_compute. exact I.
  - intros m [<-|[]]. exists (sample_channel 11 "team" Private (Some (uuid_of 1))). split; [|done]. auto.
  - intros c m [<-|[<-|[]]] [<-|[]] E; split; done.
  - intros c o [<-|[<-|[]]] [= <-]. reflexivity.
  - intros c [<-|[<-|[]]]; done.
Qed.

Definition sample_operations : list Operation :=
  [CreatePrivate (sample_auth 2 "bob" ["chat:write"]) (rs "Lab");
   Invite (sample_auth 2 "bob" ["chat:write"]) (rs "lab") (uuid_of 3);
   Remove (sample_auth 1 "alice" ["chat:write"]) (rs "team") (uuid_of 1);
   OpenDirectWith (sample_auth 1 "alice" ["chat:write"]) (uuid_of 3)].

Lemma ownership_invariant_witness :
  let w := (run_operations (V := keyspace_valkey) (T := hyphenated_text) (J := coded_json)
              (U := ascii_unicode) sample_operations (sample_env 50) (sample_world sample_db)).2 in
  length (channels (w_db w)) = 4%nat /\ length (channel_members (w_db w)) = 5%nat
  /\ owner_ok (w_db w).
Proof.
  split; [vm_compute; reflexivity|]. split; [vm_compute; reflexivity|].
  exact (ownership_invariant (V := keyspace_valkey) (T := hyphenated_text) (J := coded_json)
           (U := ascii_unicode) sample_operations (sample_env 50) (sample_world sample_db)
           sample_db_owner_ok).
Defined.

(** ** A race

    The checks of a transfer run before its transaction. Bob, a member of
    alice's channel, leaves after the checks of a transfer to him have passed. *)
Definition team_of_two : Db :=
  set_channel_members (fun t => t ++ [mkMemberRow (uuid_of 11) (uuid_of 2) Member (Some (uuid_of 1)) 1])
    sample_db.

Definition bob_headers : HeaderMap :=
  session_cookie (T := hyphenated_text) (uuid_of 1000) ++ [(CSRF_HEADER, hex_encode (repeat 1 32))].
Definition alice_session : Session :=
  mkSession (uuid_of 999) (rs "tok") (sample_auth 1 "alice" ["chat:write"]).

Definition transfer_then_leave : M Keyspace AppError unit :=
  create_session (V := keyspace_valkey) (T := hyphenated_text) (J := coded_json)
    (sample_auth 2 "bob" ["chat:write"]) ;;
  channel <- transfer_checks alice_session (rs "team") (uuid_of 2) ;;
  leave_channel (V := keyspace_valkey) (T := hyphenated_text) (J := coded_json) bob_headers (rs "team") ;;
  transfer_transaction channel (uuid_of 1) (uuid_of 2).

Lemma team_of_two_owner_ok : owner_ok team_of_two.
Proof.
  apply (owner_ok_new_member _ sample_db); [reflexivity..|apply sample_db_owner_ok].
Qed.

(** The checks of a transfer are not part of its transaction: when the new
    owner leaves in between, both requests succeed and the channel is owned by
    someone who is not a member. *)
Theorem transfer_race_breaks_ownership :
  owner_ok team_of_two
  /\ let '(r, w) := transfer_then_leave (sample_env 50) (sample_world team_of_two) in
     r = Ok tt /\ ~ owner_ok (w_db w)
     /\ c_owner_user_id <$> find_channel (w_db w) (rs "team") = Some (Some (uuid_of 2))
     /\ is_member (w_db w) (uuid_of 11) (uuid_of 2) = false.
Proof.
  split; [apply team_of_two_owner_ok|].
  rewrite (run_split transfer_then_leave (sample_env 50) (sample_world team_of_two) (Ok tt))
    by (vm_compute; reflexivity).
  set (d := w_db _).
  assert (find_channel d (rs "team")
          = Some (sample_channel 11 "team" Private (Some (uuid_of 2)))) as Hf by (vm_compute; reflexivity).
  assert (is_member d (uuid_of 11) (uuid_of 2) = false) as Hm by (vm_compute; reflexivity).
  rewrite Hf, Hm. repeat split. intros Hok. clearbody d.
  apply find_channel_some in Hf as (Hc & _ & _).
  pose proof (own_present d Hok _ (uuid_of 2) Hc eq_refl) as H. simpl in H. congruence.
Qed.
