(* ===== verification/Conversations.v ===== *)
(** * What the conversation services promise

    A direct conversation is one per pair whichever side opens it; a new private
    channel is visible to its creator alone; the main channel cannot be deleted. *)
From Stdlib Require Import String.
From S2P Require Export Ownership.
From S2P Require Import Reference.
Open Scope m_scope.

(** The runs of a handler from the logic. *)
Lemma wp_run {K E A} (m : M K E A) Q F env (w : World K) :
  wp m Q F (w_db w) ->
  match m env w with (Ok a, w') => Q a (w_db w') | (Err _, w') => F (w_db w') end.
Proof. intros H. by apply H. Qed.

(** What the other tables do not change. *)
Ltac same_step :=
  eapply wp_frame with (P := same_membership);
  [solve [frame_auto]|try done|let H := fresh in let H1 := fresh "Hc" in let H2 := fresh "Hm" in
   intros ? ? H; destruct H as [H1 H2]].

Section Direct.
Context {K : Type} {V : Valkey K} {T : UuidText} {U : Unicode}.

Lemma ordered_pair_comm a b : a <> b -> ordered_pair a b = ordered_pair b a.
Proof.
  unfold ordered_pair, uuid_ltb. intros Hne.
  destruct (uuid_val a <? uuid_val b)%N eqn:E1, (uuid_val b <? uuid_val a)%N eqn:E2; try done; [lia|].
  exfalso. apply Hne. apply uuid_leb_antisym; unfold uuid_leb; lia.
Qed.

Definition direct_key_between (a b : Uuid) : rstr :=
  direct_key_of (ordered_pair a b).1 (ordered_pair a b).2.

Lemma ordered_pair_members a b c : In c [(ordered_pair a b).1; (ordered_pair a b).2] <-> c = a \/ c = b.
Proof. unfold ordered_pair. destruct (uuid_ltb a b); simpl; intuition congruence. Qed.

Lemma first_row_snoc {R} (p : R -> bool) t r :
  exists_row p t = false -> p r = true -> first_row p (t ++ [r]) = Some r.
Proof.
  unfold first_row, exists_row. induction t as [|x t IH]; simpl; [by intros _ ->|].
  intros [-> H]%orb_false_iff Hr. auto.
Qed.

(** The insert, or else the select, finds the one live conversation. *)
Lemma insert_direct_finds id name key now d x d' :
  sql_insert_direct id name key now d = Ok (x, d') ->
  match x with
  | Some r => sql_find_direct key d' = Some r /\ sql_find_direct key d = None
  | None => d' = d /\ sql_find_direct key d <> None
  end.
Proof.
  unfold sql_insert_direct, sql_find_direct. destruct (exists_row (direct_live key) _) eqn:E.
  - intros [= <- <-]. split; [done|]. destruct (first_row _ _) eqn:Ef; [done|].
    apply first_row_none in Ef. congruence.
  - destruct (insert_row _ _ _ _ _ _) as [[[] d1]|] eqn:Ei; [|done]. intros [= <- <-].
    apply insert_row_ok in Ei as (_ & _ & ->). simpl.
    rewrite first_row_snoc; [|done|unfold direct_live; simpl; by rewrite bool_decide_eq_true_2].
    split; [done|]. apply first_row_none in E. by rewrite E.
Qed.

Lemma insert_member_ignore_member m d x d' :
  sql_insert_member_ignore m d = Ok (x, d') ->
  channels d' = channels d /\ is_member d' (cm_channel_id m) (cm_user_id m) = true
  /\ (forall c u, is_member d c u = true -> is_member d' c u = true).
Proof.
  unfold sql_insert_member_ignore. destruct (is_member _ _ _) eqn:Em; [by intros [= _ <-]|].
  destruct (sql_insert_member m d) as [[[] d1]|] eqn:E; [|done]. intros [= _ <-].
  apply insert_row_ok in E as (_ & _ & ->). split; [done|]. split.
  - apply is_member_true. exists m. split; [|done]. simpl. apply in_app_iff. simpl. auto.
  - intros c u (m' & Hin & H)%is_member_true. apply is_member_true. exists m'. split; [|done].
    simpl. apply in_app_iff. auto.
Qed.

(** Both parties become members of the channel the body settles on. *)
Lemma wp_direct_members (l : list Uuid) channel actor now key r d :
  sql_find_direct key d = Some r ->
  wp (K := K) (E := AppError) (for_each l (fun member =>
        execute (sql_insert_member_ignore (mkMemberRow channel member Member (Some actor) now)) ;; ret tt))
    (fun _ d' => sql_find_direct key d' = Some r
                 /\ forall u, In u l -> is_member d' channel u = true) (fun _ => True) d.
Proof.
  intros Hf.
  assert (forall l' d, sql_find_direct key d = Some r ->
    wp (K := K) (E := AppError) (for_each l' (fun member =>
          execute (sql_insert_member_ignore (mkMemberRow channel member Member (Some actor) now)) ;; ret tt))
      (fun _ d' => sql_find_direct key d' = Some r
         /\ (forall u, is_member d channel u = true -> is_member d' channel u = true)
         /\ forall u, In u l' -> is_member d' channel u = true) (fun _ => True) d) as H.
  { intros l'. induction l' as [|u l' IH]; intros d0 Hf0; simpl; [by apply wp_ret|].
    apply wp_bind, wp_bind, wp_execute; [done|]. intros x d1 E. split; [|done]. apply wp_ret.
    apply insert_member_ignore_member in E as (Hc & Hm & Hk).
    eapply wp_mono; [apply IH; unfold sql_find_direct; by rewrite Hc| |done].
    intros [] d2 (Hf2 & Hk2 & Hm2). split; [done|]. split; [auto|].
    intros u' [<-|Hin]; [|auto]. by apply Hk2. }
  eapply wp_mono; [by apply H| |done]. intros [] d' (? & _ & ?). done.
Qed.

Lemma wp_open_direct actor target d :
  wp (K := K) (open_direct actor target)
    (fun r d' => sql_find_direct (direct_key_between (user_id actor) target) d' = Some r
       /\ is_member d' r.1 (user_id actor) = true /\ is_member d' r.1 target = true
       /\ target <> user_id actor
       /\ (forall r0, sql_find_direct (direct_key_between (user_id actor) target) d = Some r0 -> r = r0))
    (fun _ => True) d.
Proof.
  unfold open_direct. do 2 (wp_step; wp_silent_step).
  wp_step; [by apply wp_throw|]. wp_step. wp_step. wp_step; [by apply wp_throw|].
  unfold direct_key_between. destruct (ordered_pair (user_id actor) target) as [first second] eqn:Eo.
  cbn [fst snd]. do 2 (wp_step; wp_silent_step). wp_step.
  set (key := direct_key_of first second).
  assert (forall u, In u [first; second] <-> u = user_id actor \/ u = target) as Hin.
  { intros u. pose proof (ordered_pair_members (user_id actor) target u) as H. by rewrite Eo in H. }
  apply wp_bind, wp_execute; [done|]. intros ins d1 E1. split; [|done].
  apply insert_direct_finds in E1. bool_simpl.
  assert (forall r (b : bool), sql_find_direct key d1 = Some r ->
    (forall r0, sql_find_direct key d = Some r0 -> r = r0) ->
    wp (K := K) (for_each [first; second] (fun member =>
          execute (sql_insert_member_ignore
            (mkMemberRow r.1 member Member (Some (user_id actor)) (as_i64 a1))) ;; ret tt) ;;
        (if b then record_audit (audit (user_id actor) "channel.direct_created" "channel" r.1
                      (user_metadata target) (as_i64 a1)) else ret tt) ;; ret (r.1, r.2))
      (fun r d' => (sql_find_direct key d' = Some r
         /\ is_member d' r.1 (user_id actor) = true /\ is_member d' r.1 target = true
         /\ target <> user_id actor
         /\ (forall r0, sql_find_direct key d = Some r0 -> r = r0)) /\ True) (fun _ => True) d1) as Hrest.
  { intros r b Hf Hsame. apply wp_bind. eapply wp_mono; [by apply wp_direct_members| |done].
    intros [] d2 [Hf2 Hm2]. wp_step. same_step. apply wp_ret. split; [|done].
    unfold sql_find_direct, is_member in *. rewrite Hc, Hm. destruct r. repeat split; try done.
    - apply Hm2, Hin. auto.
    - apply Hm2, Hin. auto. }
  wp_step. destruct ins as [[id name]|].
  - apply wp_ret. destruct E1 as [Hf Hn]. apply (Hrest (id, name) true Hf). congruence.
  - destruct E1 as [-> Hn]. wp_step. apply wp_query; [done|].
    wp_step. wp_step. apply wp_ret. apply (Hrest _ false); [done|congruence].
Qed.
End Direct.

(** A pair has one direct conversation: after one side opened it, the other
    side opening it gets the same channel back, and both are members of it,
    whatever requests were lost before either call succeeded. *)
Theorem direct_conversation_unique {K} {T : UuidText}
    (env env' : Env) (w w1 w2 w3 : World K) a b r r'
    (H1 : open_direct a (user_id b) env w = (Ok r, w1))
    (Hdb : w_db w2 = w_db w1)
    (H2 : open_direct b (user_id a) env' w2 = (Ok r', w3)) :
  r' = r /\ is_member (w_db w1) r.1 (user_id a) = true /\ is_member (w_db w1) r.1 (user_id b) = true.
Proof.
  pose proof (wp_run _ _ _ env w (wp_open_direct a (user_id b) (w_db w))) as P1.
  pose proof (wp_run _ _ _ env' w2 (wp_open_direct b (user_id a) (w_db w2))) as P2.
  rewrite H1 in P1. rewrite H2 in P2. destruct P1 as (Hf & Ha & Hb & Hne & _).
  split; [|done]. apply P2. rewrite Hdb. rewrite <- Hf. unfold direct_key_between.
  by rewrite (ordered_pair_comm (user_id b)).
Qed.

(** ** The main channel *)

Section MainChannel.
Context {K : Type} {V : Valkey K} {U : Unicode}.

Lemma wp_delete_channel actor name d :
  wp (K := K) (delete_channel_service actor name)
    (fun _ d' => find_channel d' MAIN_CHANNEL = find_channel d MAIN_CHANNEL)
    (fun d' => find_channel d' MAIN_CHANNEL = find_channel d MAIN_CHANNEL) d.
Proof.
  unfold delete_channel_service. wp_step. wp_silent_step. wp_step. wp_step. wp_step.
  { by apply wp_throw. }
  bool_simpl. wp_step. wp_silent_step. wp_step. wp_step.
  apply wp_bind, wp_execute; [done|]. intros row d1 [= <- <-]. split; [|done].
  set (d1 := set_channels _ d).
  assert (find_channel d1 MAIN_CHANNEL = find_channel d MAIN_CHANNEL) as Hd1.
  { unfold find_channel, d1. simpl. apply first_row_update_miss. unfold active_channel. simpl.
    intros c Hc. bool_simpl. rewrite andb_false_r. split; [|done].
    rewrite bool_decide_eq_false_2; [done|congruence]. }
  clearbody d1. wp_step. wp_step. same_step.
  assert (find_channel d' MAIN_CHANNEL = find_channel d MAIN_CHANNEL) as Hd'
    by (rewrite <- Hd1; unfold find_channel; by rewrite Hc).
  split; [|done]. wp_step. wp_silent_step. by apply wp_ret.
Qed.
End MainChannel.

(** The main channel survives: whatever name, spelling or letter case a
    moderator asks to delete, and whatever fails, the live [main] channel is the
    same before and after [delete_channel_service]. *)
Theorem main_channel_not_deleted {K} {U : Unicode} (env : Env) (w : World K) actor name :
  find_channel (w_db (delete_channel_service actor name env w).2) MAIN_CHANNEL
  = find_channel (w_db w) MAIN_CHANNEL.
Proof.
  pose proof (wp_run _ _ _ env w (wp_delete_channel actor name (w_db w))) as H.
  by destruct (delete_channel_service actor name env w) as [[]].
Qed.

(** ** A new private channel *)

Section PrivateChannel.
Context {K : Type} {V : Valkey K} {U : Unicode}.

Definition sees_alone (actor : Uuid) (r : Uuid * rstr) (d : Db) : Prop :=
  forall u now, sql_channel_access d r.2 u now = true
                <-> u = actor /\ channel_banned d now u r.1 = false.

(** Access looks at the channels, the members and the bans. *)
Definition same_access (d d' : Db) : Prop :=
  channels d' = channels d /\ channel_members d' = channel_members d /\ user_bans d' = user_bans d.
#[export] Instance same_access_preorder : PreOrder same_access.
Proof. split; unfold same_access; [done|]. intros x y z (-> & -> & ->) (-> & -> & ->). done. Qed.

Lemma sees_alone_same actor r d d' : same_access d d' -> sees_alone actor r d -> sees_alone actor r d'.
Proof.
  intros (Hc & Hm & Hb) H u now. specialize (H u now).
  unfold sql_channel_access, visible_to, channel_banned, is_member in *. by rewrite Hc, Hm, Hb.
Qed.

Lemma access_record_audit {E} `{From SqlxError E} e :
  Frame (DbRel (K := K) same_access) (record_audit (E := E) e).
Proof.
  unfold record_audit. frame_auto. apply frame_execute; [exact _|].
  intros w ? d' (_ & _ & ->)%insert_row_ok. done.
Qed.
Lemma access_publish_system_message channel text :
  Frame (DbRel (K := K) same_access) (publish_system_message channel text).
Proof.
  unfold publish_system_message, create_system_message. frame_auto. apply frame_execute; [exact _|].
  intros w ? d'. unfold sql_insert_system_message.
  destruct (find_channel _ _); [|by intros [= _ <-]].
  destruct (insert_row _ _ _ _ _ _) as [[[] d1]|] eqn:E; [|done]. intros [= _ <-].
  by apply insert_row_ok in E as (_ & _ & ->).
Qed.

Lemma new_private_sees_alone id name owner inviter now1 now2 d d1 d2 x :
  owner_ok d -> sql_insert_private id name owner now1 d = Ok (1, d1) ->
  sql_insert_member (mkMemberRow id owner Owner inviter now2) d1 = Ok (x, d2) ->
  sees_alone owner (id, name) d2.
Proof.
  unfold sql_insert_private. intros Hok. destruct (exists_row (fun c => c_name c ≟ name) _) eqn:En; [done|].
  destruct (insert_row _ _ _ _ _ _) as [[[] d0]|] eqn:E; [|done]. intros [= <-].
  apply insert_row_ok in E as (_ & Hnew & ->). intros (_ & Hm & ->)%insert_row_ok u now.
  rewrite exists_row_false in En. rewrite exists_row_false in Hnew. simpl.
  unfold sql_channel_access. rewrite exists_row_true. simpl. split.
  - intros (c & [Hin|[<-|[]]]%in_app_iff & Hc).
    + specialize (En c Hin). unfold active_channel in Hc. bool_simpl. done.
    + bool_simpl. unfold visible_to in *. simpl in *. bool_simpl. split; [|done].
      match goal with H : is_member _ _ _ = true |- _ =>
        apply is_member_true in H as (m & [Hin|[<-|[]]]%in_app_iff & E1 & E2) end; [|done].
      destruct (own_fk d Hok m Hin) as (c & Hc & Ec). specialize (Hnew c Hc). simpl in Hnew.
      bool_simpl. congruence.
  - intros [-> Hb]. eexists. split; [apply in_app_iff; right; by left|].
    unfold active_channel, visible_to. simpl. rewrite bool_decide_eq_true_2 by done. simpl.
    apply andb_true_iff. split; [|by apply negb_true_iff].
    apply is_member_true. eexists. split; [simpl; apply in_app_iff; right; by left|done].
Qed.

Lemma wp_create_private actor raw d :
  owner_ok d ->
  wp (K := K) (create_private_conversation actor raw)
    (fun r d' => sees_alone (user_id actor) r d') (fun _ => True) d.
Proof.
  intros Hok. unfold create_private_conversation.
  do 2 (wp_step; wp_silent_step). do 2 wp_step. do 2 (wp_step; wp_silent_step). wp_step. wp_step.
  apply wp_bind, wp_execute; [done|]. intros affected d1 E1. split; [|done].
  destruct (affected =? 0) eqn:Ez; [by apply wp_throw|].
  assert (affected = 1) as ->.
  { unfold sql_insert_private in E1. destruct (exists_row _ _); [injection E1; lia|].
    destruct (insert_row _ _ _ _ _ _) as [[]|]; [|done]. by injection E1. }
  apply wp_bind, wp_execute; [done|]. intros x d2 E2. split; [|done].
  pose proof (new_private_sees_alone _ _ _ _ _ _ _ _ _ _ Hok E1 E2) as H2.
  eapply wp_frame; [apply access_record_audit|done|]. intros [] d3 H3. split; [|done].
  apply wp_bind. eapply wp_frame; [apply access_publish_system_message|done|]. intros [] d4 H4.
  apply wp_ret. by do 2 (eapply sees_alone_same; [eassumption|]).
Qed.
End PrivateChannel.

(** A new private channel is private: once [create_private_conversation]
    succeeds, its creator passes the access check of the new name unless banned,
    and nobody else does. *)
Theorem private_channel_isolated {K} {U : Unicode} (env : Env) (w w' : World K)
    actor raw id name
    (Hok : owner_ok (w_db w))
    (Hr : create_private_conversation actor raw env w = (Ok (id, name), w')) :
  forall u now, sql_channel_access (w_db w') name u now = true
                <-> u = user_id actor /\ channel_banned (w_db w') now u id = false.
Proof.
  pose proof (wp_run _ _ _ env w (wp_create_private actor raw (w_db w) Hok)) as H.
  rewrite Hr in H. exact H.
Qed.

(** ** Witnesses *)

Definition alice : AuthUser := sample_auth 1 "alice" ["chat:write"].
Definition bob : AuthUser := sample_auth 2 "bob" ["chat:write"].
Notation dm_alice_bob :=
  (open_direct (K := Keyspace) (T := hyphenated_text) alice (user_id bob)) (only parsing).
Notation dm_bob_alice :=
  (open_direct (K := Keyspace) (T := hyphenated_text) bob (user_id alice)) (only parsing).
Notation dm_world := (dm_alice_bob (sample_env 5) (sample_world sample_db)).2 (only parsing).
Notation dm_world' := (dm_bob_alice (sample_env 90) dm_world).2 (only parsing).
Definition dm_result : Uuid * rstr := (uuid_of 1004, rs "dm_" ++ hyphenated (uuid_of 1004)).

Lemma dm_first : dm_alice_bob (sample_env 5) (sample_world sample_db) = (Ok dm_result, dm_world).
Proof. apply (run_split dm_alice_bob). vm_compute. reflexivity. Qed.
Lemma dm_second : dm_bob_alice (sample_env 90) dm_world = (Ok dm_result, dm_world').
Proof. apply (run_split dm_bob_alice). vm_compute. reflexivity. Qed.

Lemma direct_conversation_unique_witness :
  dm_result = dm_result /\ is_member (w_db dm_world) dm_result.1 (user_id alice) = true
  /\ is_member (w_db dm_world) dm_result.1 (user_id bob) = true.
Proof.
  exact (direct_conversation_unique (T := hyphenated_text)
    (sample_env 5) (sample_env 90) (sample_world sample_db) dm_world dm_world dm_world'
    alice bob dm_result dm_result dm_first eq_refl dm_second).
Defined.

Notation make_lab :=
  (create_private_conversation (K := Keyspace) (U := ascii_unicode) bob (rs "Lab")) (only parsing).
Notation lab_world := (make_lab (sample_env 5) (sample_world sample_db)).2 (only parsing).

Lemma make_lab_ok :
  make_lab (sample_env 5) (sample_world sample_db) = (Ok (uuid_of 1002, rs "lab"), lab_world).
Proof. apply (run_split make_lab). vm_compute. reflexivity. Qed.

Lemma private_channel_isolated_witness :
  sql_channel_access (w_db lab_world) (rs "lab") (uuid_of 2) 10 = true
  /\ sql_channel_access (w_db lab_world) (rs "lab") (uuid_of 1) 10 = false.
Proof.
  pose proof (private_channel_isolated (U := ascii_unicode) (sample_env 5) (sample_world sample_db)
           lab_world bob (rs "Lab") (uuid_of 1002) (rs "lab") sample_db_owner_ok make_lab_ok) as H.
  split.
  - apply H. split; [reflexivity | vm_compute; reflexivity].
  - apply not_true_is_false. intros E. apply H in E as [E _]. discriminate E.
Defined.
