(* ===== verification/Repository.v ===== *)
(** * The message repository

    [repository/postgres.rs]: the durable messages and files. The statements are
    functions on the tables; the methods compose them as the code does. *)
From Stdlib Require Import String.
From S2P Require Export Services.
From S2P Require Import Reference.
Open Scope m_scope.

(** ** Statements *)

(** [SELECT COUNT( * ) FROM messages replies WHERE replies.root_message_id=m.id] *)
Definition reply_count_of (d : Db) (id : Uuid) : Z :=
  count_rows (fun r => m_root_message_id r ≟ Some id) (messages d).
(** [ARRAY(SELECT mf.file_id FROM message_files mf WHERE mf.message_id=m.id)] *)
Definition file_ids_of (d : Db) (id : Uuid) : list Uuid :=
  map mf_file_id (where_ (fun f => mf_message_id f ≟ id) (message_files d)).

(** The columns of the message SELECTs, with the text of a deleted message
    blanked. *)
Definition select_message (d : Db) (c : ChannelRow) (m : MessageRow) : MessageSelect :=
  mkMessageSelect (m_id m) (c_name c) (m_username m)
    (if is_none (m_deleted_at m) then m_text m else []) (m_created_at m) (m_edited m)
    (is_some (m_deleted_at m)) (m_root_message_id m) (reply_count_of d (m_id m)) (m_metadata m)
    (m_mentions m) (m_client_id m) (file_ids_of d (m_id m)).

(** [messages m JOIN channels c ON c.id=m.channel_id] *)
Definition messages_with_channel (d : Db) : list (MessageRow * ChannelRow) :=
  concat (map (fun m => map (fun c => (m, c)) (where_ (fun c => c_id c ≟ m_channel_id m) (channels d)))
    (messages d)).

Definition client_key_taken (d : Db) (session : Uuid) (client : option rstr) : bool :=
  is_some client
  && exists_row (fun m => (m_owner_session m ≟ session) && (m_client_id m ≟ client)) (messages d).

Definition parent_in_channel (d : Db) (c : ChannelRow) (root : option Uuid) : bool :=
  match root with
  | None => true
  | Some r => exists_row (fun p => (m_id p ≟ r) && (m_channel_id p ≟ c_id c)) (messages d)
  end.

Definition message_row (m : ChatMessage) (channel session user : Uuid) : MessageRow :=
  mkMessageRow (msg_id m) channel (msg_username m) (msg_text m) (as_i64 (msg_created_at m))
    (msg_edited m) session (Some user) (msg_root_message_id m) (msg_client_id m) (msg_metadata m)
    (msg_mentions m) None None None.

(** [INSERT INTO messages ... SELECT ... FROM channels WHERE name=$8 AND
    deleted_at IS NULL AND ($9 IS NULL OR EXISTS (...))] *)
Definition sql_insert_message (m : ChatMessage) (session user : Uuid) (d : Db) :
    Result SqlxError (Z * Db) :=
  match first_row (fun c => active_channel (msg_channel m) c
                            && parent_in_channel d c (msg_root_message_id m)) (channels d) with
  | None => Ok (0, d)
  | Some c =>
      match insert_row m_id (fk_user d user && negb (client_key_taken d session (msg_client_id m)))
              messages set_messages (message_row m (c_id c) session user) d with
      | Ok (_, d') => Ok (1, d')
      | Err e => Err e
      end
  end.

Definition message_file_key (f : MessageFileRow) : Uuid * Uuid := (mf_message_id f, mf_file_id f).
Definition sql_link_file (message file : Uuid) (d : Db) : Result SqlxError (unit * Db) :=
  let r := mkMessageFileRow message file in
  if exists_row (fun f => message_file_key f ≟ message_file_key r) (message_files d) then Ok (tt, d)
  else insert_row message_file_key
         (exists_row (fun m => m_id m ≟ message) (messages d)
          && exists_row (fun f => f_id f ≟ file) (files d)) message_files set_message_files r d.

Definition sql_find_by_client (session : Uuid) (client : rstr) (d : Db) : option MessageSelect :=
  (fun '(m, c) => select_message d c m) <$>
    first_row (fun '(m, c) => is_none (c_deleted_at c) && (m_owner_session m ≟ session)
                              && (m_client_id m ≟ Some client)) (messages_with_channel d).

(** [ORDER BY m.created_at DESC, m.id DESC] *)
Definition newest_first (a b : MessageRow * ChannelRow) : bool :=
  (m_created_at b.1 <? m_created_at a.1)
  || ((m_created_at a.1 =? m_created_at b.1) && uuid_leb (m_id b.1) (m_id a.1)).

(** [(m.created_at, m.id) < ($3, $4)] when the cursor is given. *)
Definition before_cursor (before : option (Z * Uuid)) (m : MessageRow) : bool :=
  match before with
  | None => true
  | Some (at_, id) =>
      (m_created_at m <? at_) || ((m_created_at m =? at_) && uuid_ltb (m_id m) id)
  end.

Definition in_page (channel : rstr) (since : Z) (before : option (Z * Uuid))
    (mc : MessageRow * ChannelRow) : bool :=
  active_channel channel mc.2 && (since <=? m_created_at mc.1)
  && is_none (m_root_message_id mc.1) && before_cursor before mc.1.

Definition sql_load_messages (channel : rstr) (since : Z) (before : option (Z * Uuid)) (limit : Z)
    (d : Db) : list MessageSelect :=
  map (fun '(m, c) => select_message d c m)
    (limit_rows limit (order_by newest_first
       (where_ (in_page channel since before) (messages_with_channel d)))).

Definition sql_find_message (channel : rstr) (id : Uuid) (d : Db) : option (MessageRow * ChannelRow) :=
  first_row (fun '(m, c) => (m_id m ≟ id) && active_channel channel c) (messages_with_channel d).

Definition sql_edit_message (text : rstr) (id : Uuid) (d : Db) : Result SqlxError (unit * Db) :=
  Ok (tt, set_messages (update_where (fun m => m_id m ≟ id)
                          (fun m => set_m_edited true (set_m_text text m))) d).

(** [deleted_at=COALESCE(deleted_at,$1), edited=FALSE] *)
Definition tombstone (now : Z) (m : MessageRow) : MessageRow :=
  set_m_edited false
    (set_m_deleted_at (match m_deleted_at m with Some t => Some t | None => Some now end) m).
Definition sql_delete_message (now : Z) (id : Uuid) (d : Db) : Result SqlxError (unit * Db) :=
  Ok (tt, set_messages (update_where (fun m => m_id m ≟ id) (tombstone now)) d).

(** ** Cascades *)

(** [ON DELETE CASCADE] of [root_message_id]: the replies of what is deleted,
    again and again. *)
Definition replies_to (t : list MessageRow) (dead : gset Uuid) : gset Uuid :=
  list_to_set (map m_id (where_ (fun m => match m_root_message_id m with
                                          | Some r => bool_decide (r ∈ dead)
                                          | None => false end) t)).
Fixpoint cascade (fuel : nat) (t : list MessageRow) (dead : gset Uuid) : gset Uuid :=
  match fuel with
  | O => dead
  | S fuel' => cascade fuel' t (dead ∪ replies_to t dead)
  end.

Definition option_in (dead : gset Uuid) (o : option Uuid) : bool :=
  match o with Some u => bool_decide (u ∈ dead) | None => false end.

(** The rows the foreign keys of [messages] take along. *)
Definition delete_messages (dead : gset Uuid) (d : Db) : Db :=
  let gone := fun u => bool_decide (u ∈ dead) in
  let ns := map n_id (where_ (fun n => option_in dead (n_message_id n)) (notifications d)) in
  set_messages (delete_where (fun m => gone (m_id m)))
    (set_message_files (delete_where (fun f => gone (mf_message_id f)))
      (set_message_reactions (delete_where (fun r => gone (re_message_id r)))
        (set_saved_messages (delete_where (fun s => gone (sv_message_id s)))
          (set_message_reports (delete_where (fun r => gone (rep_message_id r)))
            (set_message_edit_history (delete_where (fun h => gone (eh_message_id h)))
              (set_notifications (delete_where (fun n => option_in dead (n_message_id n)))
                (set_notification_deliveries
                   (delete_where (fun v => existsb (fun i => i ≟ d_notification_id v) ns)) d))))))).

(** [m.created_at < $1 - (GREATEST(c.retention_days,1) * 86400000)] *)
Definition expired_message (now : Z) (mc : MessageRow * ChannelRow) : bool :=
  m_created_at mc.1 <? now - Z.max (c_retention_days mc.2) 1 * 86400000.

Definition expired_ids (now : Z) (d : Db) : gset Uuid :=
  list_to_set (map (fun mc => m_id mc.1) (where_ (expired_message now) (messages_with_channel d))).

Definition sql_prune (now : Z) (d : Db) : Result SqlxError (Z * Db) :=
  Ok (Z.of_nat (length (where_ (expired_message now) (messages_with_channel d))),
      delete_messages (cascade (length (messages d)) (messages d) (expired_ids now d)) d).

(** ** Files *)

Definition orphan (d : Db) (older_than : Z) (f : FileRow) : bool :=
  (is_some (f_deleted_at f) || (f_created_at f <? older_than))
  && negb (exists_row (fun mf => mf_file_id mf ≟ f_id f) (message_files d)).
Definition claim_file (now : Z) (f : FileRow) : FileRow :=
  set_f_deleted_at (match f_deleted_at f with Some t => Some t | None => Some now end) f.

Definition sql_claim_orphans (now older_than : Z) (d : Db) : Result SqlxError (list (Uuid * rstr) * Db) :=
  Ok (map (fun f => (f_id f, f_storage_key f)) (where_ (orphan d older_than) (files d)),
      set_files (update_where (orphan d older_than) (claim_file now)) d).

(** [DELETE FROM files WHERE id=$1 AND deleted_at IS NOT NULL], with the links
    its foreign key takes along. *)
Definition sql_delete_file (id : Uuid) (d : Db) : Result SqlxError (unit * Db) :=
  let p := fun f => (f_id f ≟ id) && is_some (f_deleted_at f) in
  if exists_row p (files d) then
    Ok (tt, set_message_files (delete_where (fun mf => mf_file_id mf ≟ id)) (set_files (delete_where p) d))
  else Ok (tt, d).

(** ** ChatRepository *)

Section Repository.
Context {K : Type}.
Notation M := (M K RepositoryError).

Definition create_channel (name : rstr) : M bool :=
  id <- now_v7 ;;
  now <- now_millis ;;
  row <- execute (sql_upsert_channel id name (as_i64 now)) ;;
  ret (is_some row).

Definition ensure_main_channel : M unit := create_channel MAIN_CHANNEL ;; ret tt.

Definition save_message (m : ChatMessage) (session user : Uuid) : M unit :=
  transaction (
    affected <- execute (sql_insert_message m session user) ;;
    if affected =? 0 then throw NotFound
    else for_each (msg_file_ids m) (fun file => execute (sql_link_file (msg_id m) file))).

Definition find_message_by_client_id (channel : rstr) (session : Uuid) (client : rstr) :
    M (option ChatMessage) :=
  row <- query (sql_find_by_client session client) ;;
  match row with
  | None => ret None
  | Some row => m <- lift (try_from_row row) ;; ret (Some m)
  end.

Definition NINETY_DAYS : Z := 90 * 24 * 60 * 60 * 1000.

Definition load_messages (channel : rstr) (before : option (Z * Uuid)) (limit : Z) : M (list ChatMessage) :=
  now <- now_millis ;;
  rows <- query (sql_load_messages channel (as_i64 now - NINETY_DAYS) before limit) ;;
  page <- lift (collect_results (map try_from_row rows)) ;;
  ret (reverse page).

Definition edit_message (channel : rstr) (id session : Uuid) (text : rstr) : M ChatMessage :=
  transaction (
    found <- query (fun d => (fun '(m, c) => (m, c, reply_count_of d (m_id m), file_ids_of d (m_id m)))
                             <$> sql_find_message channel id d) ;;
    row <- ok_or found NotFound ;;
    let '(m, c, replies, attached) := row in
    if negb (m_owner_session m ≟ session) then throw Forbidden
    else
      execute (sql_edit_message text id) ;;
      ret (mkChatMessage id (c_name c) (m_username m) text (as_u64 (m_created_at m)) true false
             (m_root_message_id m) (as_u32 replies) (m_metadata m) (m_mentions m) (m_client_id m)
             attached)).

Definition delete_message (channel : rstr) (id session : Uuid) (can_moderate : bool) : M ChatMessage :=
  transaction (
    found <- query (fun d => (fun '(m, c) => (m, c, reply_count_of d (m_id m), file_ids_of d (m_id m)))
                             <$> sql_find_message channel id d) ;;
    row <- ok_or found NotFound ;;
    let '(m, c, replies, attached) := row in
    if negb can_moderate && negb (m_owner_session m ≟ session) then throw Forbidden
    else
      now <- now_millis ;;
      execute (sql_delete_message (as_i64 now) id) ;;
      ret (mkChatMessage id (c_name c) (m_username m) [] (as_u64 (m_created_at m)) false true
             (m_root_message_id m) (as_u32 replies) (m_metadata m) (m_mentions m) (m_client_id m)
             attached)).

Definition prune_expired : M Z :=
  now <- now_millis ;;
  execute (sql_prune (as_i64 now)).

Definition claim_orphan_files (older_than : Z) : M (list (Uuid * rstr)) :=
  now <- now_millis ;;
  execute (sql_claim_orphans (as_i64 now) older_than).

Definition delete_file_metadata (id : Uuid) : M unit := execute (sql_delete_file id).
End Repository.

(** ** The page of a channel *)

(** The messages a page may show: of the live channel of that name, not a reply,
    young enough and before the cursor. *)
Definition Listed (d : Db) (channel : rstr) (since : Z) (before : option (Z * Uuid))
    (m : MessageRow) : Prop :=
  In m (messages d)
  /\ (exists c, In c (channels d) /\ c_id c = m_channel_id m /\ c_name c = channel /\ c_deleted_at c = None)
  /\ since <= m_created_at m /\ m_root_message_id m = None
  /\ (forall at_ id, before = Some (at_, id) ->
        m_created_at m < at_ \/ (m_created_at m = at_ /\ uuid_ltb (m_id m) id = true)).

Definition not_newer (t1 : Z) (i1 : Uuid) (t2 : Z) (i2 : Uuid) : Prop :=
  t1 < t2 \/ (t1 = t2 /\ uuid_leb i1 i2 = true).

Section PageFacts.

Lemma newest_first_total a b : newest_first a b = true \/ newest_first b a = true.
Proof. unfold newest_first, uuid_leb. lia. Qed.
Lemma newest_first_trans a b c :
  newest_first a b = true -> newest_first b c = true -> newest_first a c = true.
Proof. unfold newest_first, uuid_leb. lia. Qed.

Lemma in_messages_with_channel d m c :
  In (m, c) (messages_with_channel d) <-> In m (messages d) /\ In c (channels d) /\ c_id c = m_channel_id m.
Proof.
  unfold messages_with_channel. rewrite in_concat. split.
  - intros (l & (m' & <- & Hm)%in_map_iff & (c' & [= -> ->] & [Hc E]%in_where)%in_map_iff).
    by bool_simpl.
  - intros (Hm & Hc & E). eexists. split; [apply in_map_iff; eauto|].
    apply in_map_iff. exists c. split; [done|]. apply in_where. split; [done|].
    by apply bool_decide_eq_true_2.
Qed.

Lemma unique_where_le_one {R Key} (key : R -> Key) `{EqDecision Key} (k : Key) (t : list R) :
  unique_on key t -> (length (where_ (fun r => key r ≟ k) t) <= 1)%nat.
Proof.
  unfold unique_on. induction t as [|r t IH]; simpl; [lia|]. inversion 1 as [|? ? Hn Hu]; subst.
  destruct (key r ≟ k) eqn:E; simpl; [|by apply IH]. bool_simpl.
  assert (where_ (fun r => key r ≟ k) t = []) as Hw.
  { apply where_nil_exists, exists_row_false. intros r' Hin. apply bool_decide_eq_false_2.
    intros E'. apply Hn. rewrite E, <- E'. by apply in_map. }
  change (S (length (where_ (fun r => key r ≟ k) t)) <= 1)%nat. rewrite Hw. simpl. lia.
Qed.

Lemma messages_with_channel_nodup d :
  unique_on m_id (messages d) -> unique_on c_id (channels d) ->
  List.NoDup (map (fun mc => m_id mc.1) (messages_with_channel d)).
Proof.
  intros Hm Hc. unfold messages_with_channel. unfold unique_on in Hm.
  induction (messages d) as [|m t IH]; simpl; [constructor|]. inversion Hm as [|? ? Hn Hu]; subst.
  pose proof (unique_where_le_one c_id (m_channel_id m) (channels d) Hc) as Hl.
  destruct (where_ _ (channels d)) as [|c [|c' l]]; simpl in *; [by apply IH| |lia].
  constructor; [|by apply IH]. intros ((m', c') & E & Hin)%in_map_iff. simpl in E. apply Hn.
  apply in_concat in Hin as (l & (m0 & <- & Hm0)%in_map_iff & (c0 & [= -> ->] & _)%in_map_iff).
  rewrite <- E. by apply in_map.
Qed.

Lemma in_page_listed d channel since before m c :
  In (m, c) (where_ (in_page channel since before) (messages_with_channel d)) ->
  Listed d channel since before m.
Proof.
  intros [(Hm & Hc & E)%in_messages_with_channel Hp]%in_where.
  unfold in_page, active_channel in Hp. simpl in Hp. bool_simpl.
  split; [done|]. split; [eauto 6|]. split; [lia|]. split; [done|].
  intros at_ id ->. unfold before_cursor in *. lia.
Qed.

Lemma listed_in_page d channel since before m :
  Listed d channel since before m ->
  exists c, In (m, c) (where_ (in_page channel since before) (messages_with_channel d)).
Proof.
  intros (Hm & (c & Hc & E & Hn & Hd) & Ht & Hr & Hb). exists c. apply in_where.
  split; [by apply in_messages_with_channel|]. unfold in_page, active_channel, before_cursor. simpl.
  rewrite Hn, Hd, Hr, bool_decide_eq_true_2 by done. simpl.
  destruct before as [[at_ id]|]; [|lia]. specialize (Hb at_ id eq_refl). lia.
Qed.
(** What a reader is shown of a row: every column as it is stored, except that
    a deleted message is marked and its text withheld; with the number of its
    replies and the files linked to it. *)
Definition shows d (mc : MessageRow * ChannelRow) (x : ChatMessage) : Prop :=
  let m := mc.1 in
  msg_id x = m_id m /\ msg_created_at x = m_created_at m
  /\ (m_deleted_at m = None -> msg_deleted x = false /\ msg_text x = m_text m)
  /\ (m_deleted_at m <> None -> msg_deleted x = true /\ msg_text x = [])
  /\ msg_channel x = c_name mc.2 /\ msg_username x = m_username m /\ msg_edited x = m_edited m
  /\ msg_root_message_id x = m_root_message_id m /\ msg_metadata x = m_metadata m
  /\ msg_mentions x = m_mentions m /\ msg_client_id x = m_client_id m
  /\ msg_reply_count x
     = Z.of_nat (length (List.filter (fun r => m_root_message_id r ≟ Some (m_id m)) (messages d)))
  /\ forall f, In f (msg_file_ids x) <->
       exists l, In l (message_files d) /\ mf_message_id l = m_id m /\ mf_file_id l = f.

Lemma in_file_ids_of d id f :
  In f (file_ids_of d id) <-> exists l, In l (message_files d) /\ mf_message_id l = id /\ mf_file_id l = f.
Proof.
  unfold file_ids_of. rewrite in_map_iff. split.
  - intros (l & <- & [Hin Hl]%in_where). bool_simpl. eauto.
  - intros (l & Hin & <- & <-). exists l. split; [done|]. apply in_where. split; [done|].
    by apply bool_decide_eq_true_2.
Qed.

Lemma select_shows d c m x : try_from_row (select_message d c m) = Ok x -> shows d (m, c) x.
Proof.
  intros H. unfold try_from_row in H.
  destruct (checked_unsigned u64_max _) as [at_|] eqn:E1; [|done].
  destruct (checked_unsigned u32_max _) as [n|] eqn:E2; [|done].
  apply checked_unsigned_ok in E1 as [-> _], E2 as [-> _].
  injection H as <-. unfold shows. cbn. repeat (split; [done|]).
  split; [by intros ->|]. split; [by destruct (m_deleted_at m)|]. repeat (split; [done|]).
  intros f. apply in_file_ids_of.
Qed.

Lemma rows_show d rows out :
  map (fun mc => try_from_row (select_message d mc.2 mc.1)) rows = map Ok out -> Forall2 (shows d) rows out.
Proof.
  revert out. induction rows as [|[m c] rows IH]; intros [|x out] H; simpl in H; try done.
  injection H as H1 H2. constructor; [by eapply select_shows|by apply IH].
Qed.

(** The page before it is turned around. *)
Lemma newest_rows_spec d channel since before limit out :
  unique_on m_id (messages d) -> unique_on c_id (channels d) -> 0 <= limit ->
  map try_from_row (sql_load_messages channel since before limit d) = map Ok out ->
  StronglySorted (fun x y => not_newer (msg_created_at y) (msg_id y) (msg_created_at x) (msg_id x)) out
  /\ List.NoDup (map msg_id out) /\ Z.of_nat (length out) <= limit
  /\ (forall x, In x out -> exists m, Listed d channel since before m /\ exists c, c_name c = channel /\ shows d (m, c) x)
  /\ (forall m, Listed d channel since before m ->
        (exists x, In x out /\ msg_id x = m_id m)
        \/ (Z.of_nat (length out) = limit
            /\ forall x, In x out -> not_newer (m_created_at m) (m_id m) (msg_created_at x) (msg_id x))).
Proof.
  intros Hm Hc Hlimit E. unfold sql_load_messages in E. rewrite map_map in E.
  set (sel := where_ (in_page channel since before) (messages_with_channel d)) in *.
  set (all := order_by newest_first sel) in *.
  assert (Forall2 (shows d) (limit_rows limit all) out) as H2.
  { apply (rows_show d). rewrite <- E. apply map_ext. by intros []. }
  assert (StronglySorted (rel_of newest_first) all) as Hs
    by (apply order_by_sorted; [apply newest_first_total|apply newest_first_trans]).
  assert (List.NoDup (map (fun mc => m_id mc.1) all)) as Hn.
  { apply (Permutation_NoDup (l := map (fun mc => m_id mc.1) sel)).
    - apply Permutation_map. symmetry. apply order_by_permutation.
    - apply (unique_on_filter (fun mc : MessageRow * ChannelRow => m_id mc.1)).
      exact (messages_with_channel_nodup d Hm Hc). }
  unfold limit_rows in H2. split; [|split; [|split; [|split]]].
  - eapply (StronglySorted_Forall2 (shows d)); [exact H2| |by apply StronglySorted_take].
    intros [a ca] [b cb] x y (-> & -> & _) (-> & -> & _). unfold rel_of, newest_first, not_newer. simpl.
    lia.
  - replace (map msg_id out) with (map (fun mc => m_id mc.1) (take (Z.to_nat limit) all));
      [by apply NoDup_map_sublist|].
    clear -H2. induction H2 as [|mc x l out (E & _) H IH]; simpl; [done|]. by rewrite E, IH.
  - apply Forall2_length in H2. rewrite <- H2, length_take. lia.
  - intros x Hx. destruct (in_Forall2_r _ _ _ _ H2 Hx) as ([m c] & Hin & Hsh).
    apply in_take in Hin. unfold all in Hin. rewrite in_order_by in Hin. exists m.
    split; [by apply (in_page_listed d channel since before m c)|]. exists c. split; [|done].
    apply in_where in Hin as [_ Hp]. unfold in_page, active_channel in Hp. cbn [fst snd] in Hp. by bool_simpl.
  - intros m (c & Hin)%listed_in_page. apply (in_order_by newest_first) in Hin.
    destruct (sorted_take_spec _ (Z.to_nat limit) _ _ Hs Hin) as [Hin'|[Hlen Hold]].
    + destruct (in_Forall2_l _ _ _ _ H2 Hin') as (x & Hx & (Eid & _)). eauto.
    + right. pose proof (Forall2_length _ _ _ H2) as Hl. split; [fold all in Hlen; lia|].
      intros x Hx. destruct (in_Forall2_r _ _ _ _ H2 Hx) as ([m' c'] & Hin' & (-> & -> & _)).
      specialize (Hold _ Hin'). unfold rel_of, newest_first in Hold. unfold not_newer. simpl in *. lia.
Qed.
End PageFacts.

(** C21. [load_messages] returns the page it should: in chronological order and
    without duplicates, at most [limit] messages, each a listed message shown with
    its stored columns, but marked and without its text when its row says it was
    deleted ([shows]); and any listed message that is missing is no newer than
    the whole page, which is then full. *)
Theorem load_messages_page {K} (env : Env) (w w' : World K) channel before limit page
    (Hm : unique_on m_id (messages (w_db w))) (Hc : unique_on c_id (channels (w_db w)))
    (Hlimit : 0 <= limit)
    (Hr : load_messages channel before limit env w = (Ok page, w')) :
  let since := as_i64 (env_clock env (w_step w)) - NINETY_DAYS in
  w_db w' = w_db w
  /\ StronglySorted (fun x y => not_newer (msg_created_at x) (msg_id x) (msg_created_at y) (msg_id y)) page
  /\ List.NoDup (map msg_id page) /\ Z.of_nat (length page) <= limit
  /\ (forall x, In x page -> exists m, Listed (w_db w) channel since before m
        /\ exists c, c_name c = channel /\ shows (w_db w) (m, c) x)
  /\ (forall m, Listed (w_db w) channel since before m ->
        (exists x, In x page /\ msg_id x = m_id m)
        \/ (Z.of_nat (length page) = limit
            /\ forall x, In x page ->
                 not_newer (m_created_at m) (m_id m) (msg_created_at x) (msg_id x))).
Proof.
  cbv zeta. unfold load_messages in Hr.
  apply bind_ok_inv in Hr as (now & w1 & [= <- <-] & Hr).
  apply bind_ok_inv in Hr as (rows & w2 & Hq & Hr).
  unfold query in Hq. destruct (env_fault _ _); [|done..]. injection Hq as <- <-.
  cbn [w_db tick] in Hr.
  apply bind_ok_inv in Hr as (out & w3 & Hl & Hr). injection Hr as <- <-.
  destruct (collect_results _) as [out'|] eqn:Ec; [|done]. injection Hl as <- <-.
  apply collect_results_ok in Ec.
  destruct (newest_rows_spec _ _ _ _ _ _ Hm Hc Hlimit Ec) as (Hs & Hn & Hlen & Hin & Hall).
  split; [done|]. split; [by apply StronglySorted_reverse in Hs|].
  split; [by apply NoDup_map_reverse|]. rewrite length_reverse. split; [done|]. split.
  - intros x Hx. rewrite in_reverse in Hx. by apply Hin.
  - intros m Hl. destruct (Hall m Hl) as [(x & Hx & E)|[E H]].
    + left. exists x. by rewrite in_reverse.
    + right. split; [done|]. intros x. rewrite in_reverse. apply H.
Qed.

(** ** Editing and deleting *)

(** What the author of a message, or for a deletion a moderator, may change. *)
Definition authorised (d : Db) (channel : rstr) (id session : Uuid) (moderator : bool) : Prop :=
  exists m c, In m (messages d) /\ m_id m = id /\ In c (channels d) /\ c_id c = m_channel_id m
    /\ c_name c = channel /\ c_deleted_at c = None /\ (moderator = true \/ m_owner_session m = session).

Section EditFacts.
Context {K : Type}.

Lemma sql_find_message_some channel id d m c :
  sql_find_message channel id d = Some (m, c) ->
  In m (messages d) /\ m_id m = id /\ In c (channels d) /\ c_id c = m_channel_id m
  /\ c_name c = channel /\ c_deleted_at c = None.
Proof.
  intros [Hin Hp]%first_row_some. apply in_messages_with_channel in Hin as (? & ? & ?).
  unfold active_channel in Hp. bool_simpl. done.
Qed.

(** The state of an edit or a deletion: nothing, or the statement, authorised. *)
Definition changed (d : Db) (channel : rstr) (id session : Uuid) (moderator : bool)
    (f : MessageRow -> MessageRow) (d' : Db) : Prop :=
  authorised d channel id session moderator
  /\ d' = set_messages (update_where (fun m => m_id m ≟ id) f) d.

Lemma wp_edit channel id session text d :
  let f := fun m => set_m_edited true (set_m_text text m) in
  wp (K := K) (edit_message channel id session text)
    (fun r d' => changed d channel id session false f d'
       /\ msg_id r = id /\ msg_text r = text /\ msg_edited r = true /\ msg_deleted r = false)
    (fun d' => d' = d \/ changed d channel id session false f d') d.
Proof.
  cbv zeta. unfold edit_message. wp_step; [by left|]. wp_step. apply wp_query; [done|]. wp_step. wp_step.
  destruct a as [[[m c] replies] attached].
  destruct (sql_find_message channel id d) as [[m' c']|] eqn:Ef; [|done].
  injection H as -> -> _ _. apply sql_find_message_some in Ef as (Hm & Hid & Hc & Ec & Hn & Hd).
  wp_step; [by apply wp_throw|]. bool_simpl. wp_step. apply wp_execute; [done|]. intros [] d1 [= <-].
  split; [|done]. apply wp_ret.
  assert (authorised d channel id session false) as Ha
    by (exists m, c; repeat split; try done; by right).
  split; [|by right]. repeat split; done.
Qed.

Lemma wp_delete channel id session can_moderate d :
  wp (K := K) (delete_message channel id session can_moderate)
    (fun r d' => (exists now, changed d channel id session can_moderate (tombstone now) d')
       /\ msg_id r = id /\ msg_text r = [] /\ msg_deleted r = true)
    (fun d' => d' = d \/ exists now, changed d channel id session can_moderate (tombstone now) d') d.
Proof.
  unfold delete_message. wp_step; [by left|]. wp_step. apply wp_query; [done|]. wp_step. wp_step.
  destruct a as [[[m c] replies] attached].
  destruct (sql_find_message channel id d) as [[m' c']|] eqn:Ef; [|done].
  injection H as -> -> _ _. apply sql_find_message_some in Ef as (Hm & Hid & Hc & Ec & Hn & Hd).
  wp_step; [by apply wp_throw|]. wp_step. wp_silent_step. wp_step. apply wp_execute; [done|].
  intros [] d1 [= <-]. split; [|done]. apply wp_ret.
  assert (authorised d channel id session can_moderate) as Ha.
  { exists m, c. repeat split; try done.
    destruct can_moderate; [by left|]. right. simpl in *. by bool_simpl. }
  match goal with |- context[update_where _ (tombstone ?t)] =>
    assert (exists now, changed d channel id session can_moderate (tombstone now)
              (set_messages (update_where (fun m => m_id m ≟ id) (tombstone t)) d)) as Hch
      by (exists t; split; [done|reflexivity]) end.
  split; [|by right]. repeat split; done.
Qed.
End EditFacts.

(** Only the session that wrote a message edits it: whatever fails, the
    database changes only when the message is in the live channel named and was
    written by that session, only in that message's text and edited flag, and
    never on an error the server reports itself. *)
Theorem edit_message_authorised {K} (env : Env) (w : World K) channel id session text :
  let '(r, w') := edit_message channel id session text env w in
  let f := fun m => set_m_edited true (set_m_text text m) in
  (w_db w' = w_db w \/ changed (w_db w) channel id session false f (w_db w'))
  /\ (is_ok r = true -> changed (w_db w) channel id session false f (w_db w'))
  /\ (no_lost_ack env -> is_ok r = false -> w_db w' = w_db w).
Proof.
  pose proof (wp_edit channel id session text (w_db w) env w eq_refl) as H.
  destruct (edit_message channel id session text env w) as [[x|e] w'] eqn:E.
  - destruct H as (H & _). split; [by right|]. by split.
  - split; [exact H|]. split; [done|]. intros Hn _.
    exact (transaction_err_clean _ _ _ _ _ Hn E).
Qed.

(** A deletion is authorised and leaves a tombstone: the database changes
    only for a message of the live channel named that the session wrote or the
    caller may moderate; the row stays, its first deletion time wins, and the
    answer carries no text. *)
Theorem delete_message_authorised {K} (env : Env) (w : World K) channel id session can_moderate :
  let '(r, w') := delete_message channel id session can_moderate env w in
  (w_db w' = w_db w
   \/ exists now, changed (w_db w) channel id session can_moderate (tombstone now) (w_db w'))
  /\ (forall x, r = Ok x -> msg_id x = id /\ msg_text x = [] /\ msg_deleted x = true
        /\ exists now, changed (w_db w) channel id session can_moderate (tombstone now) (w_db w'))
  /\ (no_lost_ack env -> is_ok r = false -> w_db w' = w_db w).
Proof.
  pose proof (wp_delete channel id session can_moderate (w_db w) env w eq_refl) as H.
  destruct (delete_message channel id session can_moderate env w) as [[x|e] w'] eqn:E.
  - destruct H as (H & H1 & H2 & H3). split; [by right|]. split; [by intros ? [= <-]|done].
  - split; [exact H|]. split; [done|]. intros Hn _.
    exact (transaction_err_clean _ _ _ _ _ Hn E).
Qed.

(** ** An edit after a deletion *)

Definition deleted_row : MessageRow :=
  mkMessageRow (uuid_of 50) (uuid_of 10) (rs "alice") (rs "old") 3 false (uuid_of 900)
    (Some (uuid_of 1)) None None json_empty [] (Some 4) None None.
Definition deleted_db : Db := set_messages (fun _ => [deleted_row]) sample_db.

(** Editing a deleted message is not refused: the answer, which the handler
    caches and broadcasts, is a live message with the new text, while the row
    keeps its deletion time and history keeps showing it as deleted. *)
Theorem edit_revives_deleted_message :
  let '(r, w') := edit_message (K := Keyspace) (rs "main") (uuid_of 50) (uuid_of 900) (rs "new")
                    (sample_env 9) (sample_world deleted_db) in
  (exists x, r = Ok x /\ msg_deleted x = false /\ msg_text x = rs "new")
  /\ map m_deleted_at (messages (w_db w')) = [Some 4]
  /\ exists y, (load_messages (rs "main") None 50 (sample_env 9) w').1 = Ok [y]
               /\ msg_id y = uuid_of 50 /\ msg_deleted y = true /\ msg_text y = [].
Proof.
  destruct (edit_message _ _ _ _ _ _) as [r w'] eqn:E. vm_compute in E. injection E as <- <-.
  split; [eexists; split; [reflexivity|split; reflexivity]|]. split; [vm_compute; reflexivity|].
  eexists. split; [vm_compute; reflexivity|]. repeat split.
Qed.

(** ** Pruning *)

(** What retention removes: the expired messages and, over the foreign key of
    [root_message_id], the replies of what is removed. *)
Inductive Doomed (d : Db) (now : Z) : MessageRow -> Prop :=
| doomed_expired m c :
    In m (messages d) -> In c (channels d) -> c_id c = m_channel_id m ->
    m_created_at m < now - Z.max (c_retention_days c) 1 * 86400000 -> Doomed d now m
| doomed_reply m p :
    In m (messages d) -> Doomed d now p -> m_root_message_id m = Some (m_id p) -> Doomed d now m.

Section CascadeFacts.

Lemma in_replies_to t dead u :
  u ∈ replies_to t dead <-> exists m r, In m t /\ m_id m = u /\ m_root_message_id m = Some r /\ r ∈ dead.
Proof.
  unfold replies_to. rewrite elem_of_list_to_set, list_elem_of_In, in_map_iff. split.
  - intros (m & <- & [Hin Hp]%in_where). destruct (m_root_message_id m) as [r|] eqn:E; [|done].
    bool_simpl. eauto 8.
  - intros (m & r & Hin & <- & E & Hr). exists m. split; [done|]. apply in_where. rewrite E.
    by rewrite bool_decide_eq_true_2.
Qed.

Definition closed (t : list MessageRow) (dead : gset Uuid) : Prop := replies_to t dead ⊆ dead.

Lemma cascade_closed_id fuel t dead : closed t dead -> cascade fuel t dead = dead.
Proof.
  unfold closed. induction fuel as [|fuel IH]; intros Hc; simpl; [done|].
  assert (dead ∪ replies_to t dead = dead) as -> by set_solver. by apply IH.
Qed.

(** The rows still alive bound the rounds that can add something. *)
Definition ids (t : list MessageRow) : gset Uuid := list_to_set (map m_id t).

Lemma replies_to_ids t dead : replies_to t dead ⊆ ids t.
Proof.
  intros u (m & r & Hin & <- & _)%in_replies_to. unfold ids.
  apply elem_of_list_to_set, list_elem_of_In. by apply in_map.
Qed.

Lemma cascade_closed fuel t dead :
  (size (ids t ∖ dead) <= fuel)%nat -> closed t (cascade fuel t dead).
Proof.
  revert dead. induction fuel as [|fuel IH]; intros dead Hs; simpl.
  - assert (ids t ∖ dead = ∅) as He by (apply leibniz_equiv, size_empty_inv; lia).
    pose proof (replies_to_ids t dead). unfold closed. set_solver.
  - destruct (decide (replies_to t dead ⊆ dead)) as [Hc|Hn].
    + assert (dead ∪ replies_to t dead = dead) as -> by set_solver.
      by rewrite cascade_closed_id.
    + apply IH. enough (size (ids t ∖ (dead ∪ replies_to t dead)) < size (ids t ∖ dead))%nat by lia.
      apply subset_size. pose proof (replies_to_ids t dead). split; [set_solver|].
      intros Hsub. apply Hn. intros u Hu. destruct (decide (u ∈ dead)); [done|]. set_solver.
Qed.

Lemma size_ids t : (size (ids t) <= length t)%nat.
Proof.
  induction t as [|m t IH]; [vm_compute; lia|].
  assert (ids (m :: t) = {[m_id m]} ∪ ids t) as -> by reflexivity.
  rewrite size_union_alt, size_singleton. simpl.
  assert (ids t ∖ {[m_id m]} ⊆ ids t) as Hs%subseteq_size by set_solver. lia.
Qed.

Lemma cascade_superset fuel t dead : dead ⊆ cascade fuel t dead.
Proof.
  revert dead. induction fuel as [|fuel IH]; intros dead; simpl; [done|].
  specialize (IH (dead ∪ replies_to t dead)). set_solver.
Qed.

Lemma cascade_ind (P : Uuid -> Prop) fuel t dead :
  (forall u, u ∈ dead -> P u) ->
  (forall m r, In m t -> m_root_message_id m = Some r -> P r -> P (m_id m)) ->
  forall u, u ∈ cascade fuel t dead -> P u.
Proof.
  intros Hb Hs. revert dead Hb. induction fuel as [|fuel IH]; intros dead Hb u; simpl; [by apply Hb|].
  apply IH. intros v [Hv|(m & r & Hin & <- & E & Hr)%in_replies_to]%elem_of_union; [by apply Hb|].
  eapply Hs; eauto.
Qed.

Lemma in_expired_ids now d u :
  u ∈ expired_ids now d <-> exists m c, In m (messages d) /\ In c (channels d) /\ c_id c = m_channel_id m
    /\ m_id m = u /\ m_created_at m < now - Z.max (c_retention_days c) 1 * 86400000.
Proof.
  unfold expired_ids. rewrite elem_of_list_to_set, list_elem_of_In, in_map_iff. split.
  - intros ([m c] & <- & [(Hm & Hc & E)%in_messages_with_channel He]%in_where).
    unfold expired_message in He. simpl in *. exists m, c. repeat split; try done. lia.
  - intros (m & c & Hm & Hc & E & <- & Ht). exists (m, c). split; [done|]. apply in_where.
    split; [by apply in_messages_with_channel|]. unfold expired_message. simpl. lia.
Qed.

Lemma in_cascade_doomed d now m :
  unique_on m_id (messages d) -> In m (messages d) ->
  m_id m ∈ cascade (length (messages d)) (messages d) (expired_ids now d) <-> Doomed d now m.
Proof.
  intros Hu Hm. set (dead := cascade _ _ _).
  assert (closed (messages d) dead) as Hclosed.
  { apply cascade_closed. pose proof (size_ids (messages d)).
    assert (ids (messages d) ∖ expired_ids now d ⊆ ids (messages d)) as Hs%subseteq_size by set_solver.
    lia. }
  split.
  - intros Hin.
    destruct (cascade_ind (fun u => exists m, In m (messages d) /\ m_id m = u /\ Doomed d now m)
      (length (messages d)) (messages d) (expired_ids now d)) with (u := m_id m)
      as (m' & Hm' & E & Hd); try done.
    + intros u (m1 & c & H1 & Hc & E & <- & Ht)%in_expired_ids. exists m1.
      repeat split; try done. by eapply doomed_expired.
    + intros m1 r H1 Er (p & Hp & <- & Hd). exists m1. repeat split; try done. by eapply doomed_reply.
    + by assert (m = m') as -> by (by apply (unique_on_eq m_id (messages d))).
  - intros Hd. induction Hd as [m c H1 Hc E Ht|m p H1 Hp IH Er].
    + apply cascade_superset, in_expired_ids. eauto 8.
    + apply Hclosed, in_replies_to. exists m, (m_id p). repeat split; try done.
      apply IH. by inversion Hp.
Qed.
End CascadeFacts.

(** C10. Retention deletes exactly the doomed: after [prune_expired], a message
    is left if and only if it is neither older than its channel's retention nor,
    over any number of steps, a reply to a message that is; nothing that is left
    has changed, and no attachment link of a deleted message is left. *)
Theorem prune_expired_exact {K} (env : Env) (w w' : World K) n
    (Hu : unique_on m_id (messages (w_db w)))
    (Hr : prune_expired env w = (Ok n, w')) :
  let now := as_i64 (env_clock env (w_step w)) in
  (forall m, In m (messages (w_db w')) <-> In m (messages (w_db w)) /\ ~ Doomed (w_db w) now m)
  /\ (forall f m, In f (message_files (w_db w')) -> In m (messages (w_db w)) ->
        mf_message_id f = m_id m -> ~ Doomed (w_db w) now m)
  /\ n = Z.of_nat (length (where_ (expired_message now) (messages_with_channel (w_db w)))).
Proof.
  cbv zeta. unfold prune_expired in Hr. apply bind_ok_inv in Hr as (now & w1 & [= <- <-] & Hr).
  unfold execute in Hr. destruct (env_fault _ _); [| done|]; [|by destruct (sql_prune _ _) as [[]|]].
  simpl in Hr. injection Hr as <- <-. set (d := w_db w) in *.
  set (now := as_i64 _). pose proof (in_cascade_doomed d now) as Hc.
  unfold delete_messages. simpl. split; [|split; [|done]].
  - intros m. rewrite in_delete_where. split.
    + intros [Hin Hn]. bool_simpl. split; [done|]. by rewrite <- Hc.
    + intros [Hin Hn]. split; [done|]. apply bool_decide_eq_false_2. by rewrite Hc.
  - intros f m [Hin Hn]%in_delete_where Hm E. bool_simpl. rewrite E in *. by rewrite <- Hc.
Qed.

(** The collector takes only what nothing uses: [claim_orphan_files]
    reports, with their keys, exactly the files that no message links and that
    are old enough or already claimed; it marks those, changes no other file,
    and a file it did not mark survives [delete_file_metadata]. *)
Theorem claim_orphan_files_exact {K} (env : Env) (w w' : World K) older_than claimed
    (Hr : claim_orphan_files older_than env w = (Ok claimed, w')) :
  (forall id key, In (id, key) claimed <-> exists f, In f (files (w_db w)) /\ f_id f = id
      /\ f_storage_key f = key /\ (f_deleted_at f <> None \/ f_created_at f < older_than)
      /\ forall mf, In mf (message_files (w_db w)) -> mf_file_id mf <> f_id f)
  /\ Forall2 (fun f f' => f_id f' = f_id f /\ f_storage_key f' = f_storage_key f
        /\ (f' = f \/ (orphan (w_db w) older_than f = true /\ f_deleted_at f' <> None)))
       (files (w_db w)) (files (w_db w'))
  /\ (forall env' (w2 : World K) id f, In f (files (w_db w2)) -> f_deleted_at f = None ->
        In f (files (w_db (delete_file_metadata id env' w2).2))).
Proof.
  unfold claim_orphan_files in Hr. apply bind_ok_inv in Hr as (now & w1 & [= <- <-] & Hr).
  unfold execute in Hr. destruct (env_fault _ _); [| done|]; [|by destruct (sql_claim_orphans _ _ _) as [[]|]].
  simpl in Hr. injection Hr as <- <-. set (d := w_db w) in *. simpl. split; [|split].
  - intros id key. rewrite in_map_iff. unfold orphan. split.
    + intros (f & [= <- <-] & [Hin Hp]%in_where). bool_simpl. exists f. repeat split; try done.
      * apply orb_true_iff in H as [H|H]; [left|right; lia]. unfold is_some in H.
        by destruct (f_deleted_at f).
      * intros mf Hmf E. rewrite exists_row_false in H0. specialize (H0 mf Hmf). by bool_simpl.
    + intros (f & Hin & <- & <- & Ho & Hn). exists f. split; [done|]. apply in_where. split; [done|].
      apply andb_true_iff. split.
      * apply orb_true_iff. destruct Ho as [Ho|Ho]; [left|right; lia].
        by destruct (f_deleted_at f).
      * apply negb_true_iff, exists_row_false. intros mf Hmf. apply bool_decide_eq_false_2. by apply Hn.
  - unfold update_where. set (p := orphan d older_than). generalize (files d).
    induction l as [|f l IH]; simpl; [constructor|]. constructor; [|done].
    destruct (p f) eqn:E; [|by auto]. split; [done|]. split; [done|]. right. split; [done|].
    unfold claim_file. simpl. by destruct (f_deleted_at f).
  - intros env' w2 id f Hin Hd. unfold delete_file_metadata, execute.
    assert (forall x d', sql_delete_file id (w_db w2) = Ok (x, d') -> In f (files d')) as Hk.
    { intros x d'. unfold sql_delete_file. destruct (exists_row _ _); intros [= _ <-]; [|done].
      simpl. apply in_delete_where. split; [done|]. by rewrite Hd, andb_false_r. }
    destruct (env_fault _ _); simpl; [|done|];
      destruct (sql_delete_file id (w_db w2)) as [[x d']|]; simpl; try done; by eapply Hk.
Qed.

(** ** Witnesses *)

Definition sample_message (n : N) (at_ : Z) (root : option Uuid) : MessageRow :=
  mkMessageRow (uuid_of n) (uuid_of 10) (rs "alice") (rs "hello") at_ false (uuid_of 900)
    (Some (uuid_of 1)) root None json_empty [] None None None.
Definition sample_file (n : N) (at_ : Z) : FileRow :=
  mkFileRow (uuid_of n) (uuid_of 1) (rs "key") (rs "a.txt") (rs "text/plain") 3 (rs "sum") at_ None.
(** A day is 86400000 milliseconds; the retention of [main] is 90 days. *)
Definition chat_db : Db :=
  set_messages (fun _ => [sample_message 50 1000 None; sample_message 51 8000000000 (Some (uuid_of 50));
                          sample_message 52 8000000001 None; sample_message 53 8000000001 None])
    (set_files (fun _ => [sample_file 70 5; sample_file 71 6])
      (set_message_files (fun _ => [mkMessageFileRow (uuid_of 52) (uuid_of 71)]) sample_db)).
Notation chat_world := (sample_world chat_db).

Lemma chat_db_messages : unique_on m_id (messages chat_db).
Proof. apply NoDup_ListNoDup, (bool_decide_unpack _). vm_compute. exact I. Qed.
Lemma chat_db_channels : unique_on c_id (channels chat_db).
Proof. apply NoDup_ListNoDup, (bool_decide_unpack _). vm_compute. exact I. Qed.

Lemma load_messages_page_witness :
  exists page w', load_messages (rs "main") None 2 (sample_env 8000000002) chat_world = (Ok page, w')
    /\ map msg_id page = [uuid_of 52; uuid_of 53] /\ List.NoDup (map msg_id page)
    /\ forall x, In x page -> exists m, In m (messages chat_db) /\ exists c, shows chat_db (m, c) x.
Proof.
  destruct (load_messages (rs "main") None 2 (sample_env 8000000002) chat_world) as [r w'] eqn:E.
  assert (exists page, r = Ok page /\ map msg_id page = [uuid_of 52; uuid_of 53]) as (page & -> & Hp).
  { vm_compute in E. injection E as <- _. eexists. split; reflexivity. }
  exists page, w'. split; [reflexivity|]. split; [exact Hp|].
  destruct (load_messages_page (sample_env 8000000002) chat_world w' (rs "main") None 2
    page chat_db_messages chat_db_channels ltac:(lia) E) as (_ & _ & Hn & _ & Hin & _).
  split; [exact Hn|]. intros x Hx. destruct (Hin x Hx) as (m & [Hm _] & c & _ & Hs).
  exists m. split; [exact Hm|]. exists c. exact Hs.
Defined.

Lemma prune_expired_exact_witness :
  exists w', prune_expired (sample_env 8000000002) chat_world = (Ok 1, w')
    /\ map m_id (messages (w_db w')) = [uuid_of 52; uuid_of 53]
    /\ forall m, In m (messages (w_db w')) <-> In m (messages chat_db)
         /\ ~ Doomed chat_db (as_i64 (env_clock (sample_env 8000000002) 0)) m.
Proof.
  destruct (prune_expired (sample_env 8000000002) chat_world) as [r w'] eqn:E.
  assert (r = Ok 1 /\ map m_id (messages (w_db w')) = [uuid_of 52; uuid_of 53]) as [-> Hm].
  { vm_compute in E. injection E as <- <-. split; reflexivity. }
  exists w'. split; [reflexivity|]. split; [exact Hm|].
  exact (proj1 (prune_expired_exact (sample_env 8000000002) chat_world w' 1 chat_db_messages E)).
Defined.

Lemma claim_orphan_files_exact_witness :
  exists w', claim_orphan_files 100 (sample_env 200) chat_world = (Ok [(uuid_of 70, rs "key")], w')
    /\ exists f, In f (files chat_db) /\ f_id f = uuid_of 70 /\ f_storage_key f = rs "key"
         /\ (f_deleted_at f <> None \/ f_created_at f < 100)
         /\ forall mf, In mf (message_files chat_db) -> mf_file_id mf <> f_id f.
Proof.
  destruct (claim_orphan_files 100 (sample_env 200) chat_world) as [r w'] eqn:E.
  assert (r = Ok [(uuid_of 70, rs "key")]) as ->.
  { vm_compute in E. injection E as <- _. reflexivity. }
  exists w'. split; [reflexivity|].
  apply (proj1 (claim_orphan_files_exact (sample_env 200) chat_world w' 100
                  [(uuid_of 70, rs "key")] E) (uuid_of 70) (rs "key")).
  left. reflexivity.
Defined.
