(* ===== verification/History.v ===== *)
(** * History

    [websocket/history.rs]: threads, reactions, and the hot history of a channel
    kept in Valkey as a hash of binary records and a sorted set of their order. *)
From Stdlib Require Import String.
From S2P Require Export Repository.
From S2P Require Import Reference.
Open Scope m_scope.

Definition HISTORY_PAGE_SIZE : nat := 50.
Definition HOT_HISTORY_LIMIT : nat := 300.

Definition in_thread (channel : rstr) (root : Uuid) (before : option (Z * Uuid))
    (mc : MessageRow * ChannelRow) : bool :=
  active_channel channel mc.2 && (m_root_message_id mc.1 ≟ Some root) && before_cursor before mc.1.

Definition sql_load_thread (channel : rstr) (root : Uuid) (before : option (Z * Uuid)) (limit : Z)
    (d : Db) : list MessageSelect :=
  map (fun '(m, c) => select_message d c m)
    (limit_rows limit (order_by newest_first
       (where_ (in_thread channel root before) (messages_with_channel d)))).

(** [SELECT user_id ... ORDER BY user_id] *)
Definition sql_reaction_users (message : Uuid) (emoji : rstr) (d : Db) : list Uuid :=
  order_by uuid_leb
    (map re_user_id (where_ (fun r => (re_message_id r ≟ message) && (re_emoji r ≟ emoji))
                       (message_reactions d))).

(** [sort_by_key(|message| (message.created_at, message.id))] *)
Definition older_le (a b : ChatMessage) : bool :=
  (msg_created_at a <? msg_created_at b)
  || ((msg_created_at a =? msg_created_at b) && uuid_leb (msg_id a) (msg_id b)).

Definition before_history_cursor (m : ChatMessage) (created_at : Z) (id : Uuid) : bool :=
  (as_i64 (msg_created_at m) <? created_at)
  || ((as_i64 (msg_created_at m) =? created_at) && uuid_ltb (msg_id m) id).

Section History.
Context {K : Type} {V : Valkey K} {T : UuidText} {J : JsonText} {B : Bitcode}.
Notation M := (M K AppError).

Definition load_thread (channel : rstr) (root : Uuid) (before : option (Z * Uuid)) (limit : Z) :
    M (list ChatMessage) :=
  rows <- query (sql_load_thread channel root ((fun v => (as_i64 v.1, v.2)) <$> before) limit) ;;
  page <- lift (collect_results (map try_from_row rows)) ;;
  ret (reverse page).

Definition broadcast_reaction (channel : rstr) (message : Uuid) (emoji : rstr) : M unit :=
  users <- query (sql_reaction_users message emoji) ;;
  broadcast channel (SvReactionUpdated channel (mkReactionSummary message emoji users)).

Definition history_key (channel : rstr) : rstr := rs "chat:history:" ++ channel ++ rs ":messages".
Definition history_order_key (channel : rstr) : rstr := rs "chat:history:" ++ channel ++ rs ":order".

(** [payloads.into_iter().flatten().filter_map(decode).map(into_message)] *)
Definition decode_payload (p : option rstr) : option ChatMessage :=
  match p with Some bytes => into_message <$> bitcode_decode bytes | None => None end.
Definition decode_payloads (ps : list (option rstr)) : list ChatMessage := omap decode_payload ps.

Definition load_hot_history (channel : rstr) : M (list ChatMessage) :=
  connection ;;
  ids <- command (Zrange (history_order_key channel) (- Z.of_nat HOT_HISTORY_LIMIT) (-1)) ;;
  if is_empty ids then ret [] else
  payloads <- command (Hmget (history_key channel) ids) ;;
  ret (decode_payloads payloads).

Definition newest {A} (n : nat) (l : list A) : list A :=
  if (n <? length l)%nat then split_off (length l - n) l else l.

Definition load_hot_history_before (channel : rstr) (before : option (Z * Uuid)) : M (list ChatMessage) :=
  match before with
  | None => load_hot_history channel
  | Some (created_at, id) =>
      connection ;;
      ids <- command (Zrevrangebyscore (history_order_key channel) created_at
                        (Z.of_nat HOT_HISTORY_LIMIT)) ;;
      if is_empty ids then ret [] else
      payloads <- command (Hmget (history_key channel) ids) ;;
      let messages := List.filter (fun m => before_history_cursor m created_at id)
                        (decode_payloads payloads) in
      ret (newest HISTORY_PAGE_SIZE (order_by older_le messages))
  end.

(** The two commands that put one message into the hot history. *)
Definition record_message (channel : rstr) (m : ChatMessage) (session : Uuid) : list VAction :=
  [act (Hset (history_key channel)
          [(uuid_to_string (msg_id m), bitcode_encode (from_message m session))]);
   act (Zadd (history_order_key channel) (msg_created_at m) (uuid_to_string (msg_id m)))].

Definition hydrate_hot_history (channel : rstr) (messages : list ChatMessage) : M unit :=
  if is_empty messages then ret tt else
  connection ;;
  pipe_atomic (concat (map (fun m => record_message channel m uuid_nil) messages)).

(** A pipeline without [MULTI]: a prefix of it runs when the connection fails. *)
Definition pipe (cs : list VAction) : M unit := for_each cs (fun c => pipe_atomic [c]).

Definition store_message (m : ChatMessage) (session : Uuid) : M unit :=
  connection ;;
  pipe_atomic (record_message (msg_channel m) m session) ;;
  old_ids <- command (Zrange (history_order_key (msg_channel m)) 0
                        (- (Z.of_nat HOT_HISTORY_LIMIT + 1))) ;;
  if is_empty old_ids then ret tt
  else pipe [act (Zrem (history_order_key (msg_channel m)) old_ids);
             act (Hdel (history_key (msg_channel m)) old_ids)].

Definition update_hot_message (m : ChatMessage) : M unit := store_message m uuid_nil.

(** ** Pages *)

Definition send_history_page (channel : rstr) (before : option (Z * Uuid)) : M unit :=
  let cache_before := (fun v => (as_i64 v.1, v.2)) <$> before in
  let cache_limit := if is_none before then HOT_HISTORY_LIMIT else HISTORY_PAGE_SIZE in
  cached <- load_hot_history_before channel cache_before ;;
  page <-
    (if (length cached <? cache_limit)%nat then
       database_messages <-
         conv (load_messages channel ((fun v => (as_i64 v.1, v.2)) <$> before)
                 (Z.of_nat cache_limit + 1)) ;;
       (if is_none before then
          hydrate_hot_history channel
            (drop (length database_messages - HOT_HISTORY_LIMIT) database_messages)
        else ret tt) ;;
       ret (database_messages, DatabaseSource, (cache_limit <? length database_messages)%nat)
     else ret (cached, Cache, (cache_limit <=? length cached)%nat)) ;;
  let '(messages, source, has_more) := page in
  let sorted := order_by older_le messages in
  let shown :=
    if is_none before then newest HISTORY_PAGE_SIZE sorted
    else if (HISTORY_PAGE_SIZE <? length sorted)%nat then truncate HISTORY_PAGE_SIZE sorted
    else sorted in
  send_event (if is_some before then SvHistoryPage channel shown source has_more
              else SvHistory channel shown source has_more).

Definition send_joined_with_history (channel : rstr) : M unit :=
  send_event (SvJoined channel) ;;
  send_history_page channel None.
End History.
