(* ===== verification/HotHistory.v ===== *)
(** * The hot history as a bounded list

    The specification of the cache of [History]: a channel's hot history is a
    list of messages in the order of the sorted set, and the commands of
    [load_hot_history] and [store_message] read it and insert into it, keeping
    the newest [HOT_HISTORY_LIMIT]. *)
From Stdlib Require Import String.
From S2P Require Export History Collections.
From S2P Require Import Reference.
Open Scope m_scope.

(** ** The abstract history *)

Section Hot.
Context {T : UuidText} {J : JsonText} {B : Bitcode}.

Definition member_of (m : ChatMessage) : rstr := uuid_to_string (msg_id m).
Definition scored (m : ChatMessage) : rstr * Z := (member_of m, msg_created_at m).
Definition hot_le (a b : ChatMessage) : bool := zset_le (scored a) (scored b).

(** The channel's hot history is [l]. *)
Definition Hot (ks : Keyspace) (channel : rstr) (l : list ChatMessage) : Prop :=
  exists z h, zset_at ks (history_order_key channel) z /\ hash_at ks (history_key channel) h
    /\ zset_sorted z = map scored l
    /\ (forall m, In m l -> exists bytes, h !! member_of m = Some bytes /\ decode_payload (Some bytes) = Some m)
    /\ (forall k, is_Some (h !! k) -> In k (map member_of l)).

(** A message takes the place of the one with its identifier. *)
Definition hot_insert (m : ChatMessage) (l : list ChatMessage) : list ChatMessage :=
  order_by hot_le (m :: List.filter (fun x => negb (msg_id x ≟ msg_id m)) l).
Definition keep_newest (l : list ChatMessage) : list ChatMessage :=
  drop (length l - HOT_HISTORY_LIMIT) l.

Lemma hot_empty channel : Hot ∅ channel [].
Proof.
  exists ∅, ∅. unfold zset_at, hash_at. rewrite !bool_decide_eq_true_2 by done.
  split; [apply lookup_empty|]. split; [apply lookup_empty|]. split; [reflexivity|]. split; [done|].
  intros k [x Hx]. by rewrite lookup_empty in Hx.
Qed.

Lemma history_keys_ne channel : history_key channel <> history_order_key channel.
Proof.
  unfold history_key, history_order_key. intros H%app_inv_head%app_inv_head. done.
Qed.

Lemma member_of_inj a b : member_of a = member_of b <-> msg_id a = msg_id b.
Proof. unfold member_of. split; [apply uuid_to_string_inj|intros E; by rewrite E]. Qed.

Lemma hot_members_nodup z l : zset_sorted z = map scored l -> List.NoDup (map member_of l).
Proof.
  intros E. pose proof (zset_sorted_nodup z) as H. rewrite E, map_map in H. exact H.
Qed.

Lemma in_hot_insert m l x :
  In x (hot_insert m l) <-> x = m \/ (In x l /\ msg_id x <> msg_id m).
Proof.
  unfold hot_insert. rewrite in_order_by. simpl. rewrite filter_In, negb_true_iff, bool_decide_eq_false.
  intuition congruence.
Qed.

Lemma hot_insert_nodup m l : List.NoDup (map member_of l) -> List.NoDup (map member_of (hot_insert m l)).
Proof.
  intros H. unfold hot_insert.
  apply (Permutation_NoDup (l := map member_of (m :: List.filter (fun x => negb (msg_id x ≟ msg_id m)) l))).
  - apply Permutation_map. symmetry. apply order_by_permutation.
  - simpl. constructor; [|by apply (unique_on_filter member_of)].
    rewrite in_map_iff. intros (x & E & [_ Hp]%filter_In). bool_simpl. by apply member_of_inj in E.
Qed.

Lemma hot_insert_sorted m l z :
  zset_sorted z = map scored l ->
  zset_sorted (<[member_of m := msg_created_at m]> z) = map scored (hot_insert m l).
Proof.
  intros E. pose proof (hot_members_nodup z l E) as Hn. apply zset_sorted_unique.
  - apply (NoDup_map_inv fst). rewrite map_map. by apply hot_insert_nodup.
  - assert (StronglySorted (rel_of hot_le) (hot_insert m l)) as Hs.
    { apply order_by_sorted; unfold hot_le; [intros; apply zset_le_total|intros; by eapply zset_le_trans]. }
    clear -Hs. induction Hs as [|x l' Hs IH Hf]; simpl; constructor; [done|].
    apply List.Forall_forall. intros y (x' & <- & Hin)%in_map_iff.
    exact (Forall_In _ _ _ Hf Hin).
  - intros k s. rewrite in_map_iff. split.
    + intros (x & [= <- <-] & [->|[Hin Hne]]%in_hot_insert); [apply lookup_insert_eq|].
      rewrite lookup_insert_ne by (intros E'; apply Hne; symmetry; by apply member_of_inj).
      apply in_zset_sorted. rewrite E. change (member_of x, msg_created_at x) with (scored x). by apply in_map.
    + destruct (decide (k = member_of m)) as [->|Hne].
      * rewrite lookup_insert_eq. intros [= <-]. exists m. split; [done|]. apply in_hot_insert. by left.
      * rewrite lookup_insert_ne by congruence. intros Hl%in_zset_sorted. rewrite E in Hl.
        apply in_map_iff in Hl as (x & [= <- <-] & Hin). exists x. split; [done|].
        apply in_hot_insert. right. split; [done|]. intros E'. apply Hne. by apply member_of_inj.
Qed.

Lemma decode_encode_message m s : decode_payload (Some (bitcode_encode (from_message m s))) = Some m.
Proof. unfold decode_payload. rewrite bitcode_decode_encode. simpl. by rewrite into_from_message. Qed.

(** Recording a message inserts it. *)
Lemma record_message_hot now ks channel m s l :
  Hot ks channel l ->
  Hot (keyspace_actions now (record_message channel m s) ks) channel (hot_insert m l).
Proof.
  intros (z & h & Hz & Hh & Hs & Hd & Hk). unfold keyspace_actions, record_message. cbn [fold_left].
  set (bytes := bitcode_encode (from_message m s)).
  destruct (exec_hset1 now ks (history_key channel) h (member_of m) bytes Hh) as [Hh1 Hne1].
  fold (member_of m). set (ks1 := (keyspace_exec now (Hset _ _) ks).2) in *.
  assert (zset_at ks1 (history_order_key channel) z) as Hz1
    by (unfold zset_at; rewrite Hne1; [exact Hz|apply history_keys_ne]).
  destruct (exec_zadd now ks1 (history_order_key channel) z (msg_created_at m) (member_of m) Hz1)
    as [Hz2 Hne2].
  set (ks2 := (keyspace_exec now (Zadd _ _ _) ks1).2) in *.
  exists (<[member_of m := msg_created_at m]> z), (<[member_of m := bytes]> h).
  split; [done|]. split.
  { unfold hash_at. rewrite Hne2; [exact Hh1|]. intros E. symmetry in E. by apply history_keys_ne in E. }
  split; [by apply hot_insert_sorted|]. split.
  - intros x [->|[Hin Hne]]%in_hot_insert.
    + exists bytes. rewrite lookup_insert_eq. split; [done|]. apply decode_encode_message.
    + rewrite lookup_insert_ne by (intros E'; apply Hne; symmetry; by apply member_of_inj). by apply Hd.
  - intros k Hsome. apply in_map_iff. destruct (decide (k = member_of m)) as [->|Hne].
    + exists m. rewrite in_hot_insert. auto.
    + rewrite lookup_insert_ne in Hsome by congruence. apply Hk, in_map_iff in Hsome as (x & <- & Hin).
      exists x. split; [done|]. apply in_hot_insert. right. split; [done|]. by rewrite <- member_of_inj.
Qed.

(** Dropping the oldest: the first [n] of the order, and their records. *)
Lemma drop_hot now now' ks channel l n :
  Hot ks channel l ->
  let old := map member_of (take n l) in
  Hot (keyspace_exec now' (Hdel (history_key channel) old)
         (keyspace_exec now (Zrem (history_order_key channel) old) ks).2).2 channel (drop n l).
Proof.
  intros (z & h & Hz & Hh & Hs & Hd & Hk) old. pose proof (hot_members_nodup z l Hs) as Hn.
  destruct (exec_zrem now ks (history_order_key channel) z old Hz) as [Hz1 Hne1].
  set (ks1 := (keyspace_exec now (Zrem _ _) ks).2) in *.
  assert (hash_at ks1 (history_key channel) h) as Hh1.
  { unfold hash_at. rewrite Hne1; [exact Hh|]. intros E. symmetry in E. by apply history_keys_ne in E. }
  destruct (exec_hdel now' ks1 (history_key channel) h old Hh1) as [Hh2 Hne2].
  eexists _, _. split; [unfold zset_at; rewrite Hne2; [exact Hz1|apply history_keys_ne]|].
  split; [exact Hh2|].
  assert (forall x, In x (drop n l) -> member_of x ∉ old) as Hout.
  { intros x Hx Hin. unfold old in Hin. rewrite <- (take_drop n l), map_app in Hn.
    apply NoDup_ListNoDup, NoDup_app in Hn as (_ & Hdis & _). apply (Hdis (member_of x) Hin).
    apply list_elem_of_In. by apply in_map. }
  assert (forall x, In x l -> member_of x ∉ old -> In x (drop n l)) as Hkeep.
  { intros x Hx Hnin. rewrite <- (take_drop n l) in Hx. apply in_app_iff in Hx as [Hx|Hx]; [|done].
    destruct Hnin. apply list_elem_of_In. by apply in_map. }
  split; [|split].
  - apply zset_sorted_unique.
    + apply (NoDup_map_inv fst). rewrite map_map. rewrite <- (take_drop n l), map_app in Hn.
      apply NoDup_ListNoDup, NoDup_app in Hn as (_ & _ & Hn). by apply NoDup_ListNoDup.
    + rewrite <- (skipn_map scored). change (skipn n) with (@drop (rstr * Z) n).
      apply StronglySorted_drop. rewrite <- Hs. apply zset_sorted_sorted.
    + intros k s. rewrite lookup_fold_delete, in_map_iff. split.
      * intros (x & [= <- <-] & Hx). rewrite bool_decide_eq_false_2 by (by apply Hout).
        apply in_zset_sorted. rewrite Hs. change (member_of x, msg_created_at x) with (scored x).
        apply in_map. by eapply in_drop.
      * destruct (bool_decide (k ∈ old)) eqn:E; [done|]. bool_simpl. intros Hl%in_zset_sorted.
        rewrite Hs in Hl. apply in_map_iff in Hl as (x & [= <- <-] & Hx). exists x. auto.
  - intros x Hx. rewrite lookup_fold_delete, bool_decide_eq_false_2 by (by apply Hout).
    apply Hd. by eapply in_drop.
  - intros k. rewrite lookup_fold_delete. destruct (bool_decide (k ∈ old)) eqn:E; [by intros []|].
    bool_simpl. intros Hsome%Hk. apply in_map_iff in Hsome as (x & <- & Hx). apply in_map. auto.
Qed.
End Hot.

(** ** Refinement *)

Section Refinement.
Context {K : Type} {V : Valkey K} {T : UuidText} {J : JsonText} {B : Bitcode}.
Implicit Types (w : World K).

Lemma index_slice_oldest {A} (l : list A) :
  index_slice l 0 (- (Z.of_nat HOT_HISTORY_LIMIT + 1)) = take (length l - HOT_HISTORY_LIMIT) l.
Proof.
  unfold index_slice. change (Z.of_nat HOT_HISTORY_LIMIT) with 300.
  change (HOT_HISTORY_LIMIT) with 300%nat. simpl.
  destruct (_ <? 0) eqn:E.
  - by replace (length l - 300)%nat with 0%nat by lia.
  - f_equal; lia.
Qed.

Lemma index_slice_newest {A} (l : list A) :
  index_slice l (- Z.of_nat HOT_HISTORY_LIMIT) (-1) = drop (length l - HOT_HISTORY_LIMIT) l.
Proof.
  unfold index_slice. change (Z.of_nat HOT_HISTORY_LIMIT) with 300.
  change (HOT_HISTORY_LIMIT) with 300%nat. simpl.
  destruct (_ <? _) eqn:E.
  - destruct l; simpl in *; [done|lia].
  - replace (Z.to_nat (Z.max 0 (Z.of_nat (length l) + - (300)))) with (length l - 300)%nat by lia.
    apply take_ge. rewrite length_drop. lia.
Qed.

(** What the sorted set answers on a channel whose hot history is [l]. *)
Lemma zrange_hot now ks channel l a b :
  Hot ks channel l ->
  keyspace_exec now (Zrange (history_order_key channel) a b) ks
  = (Ok (map member_of (index_slice l a b)), ks).
Proof.
  intros (z & h & Hz & _ & Hs & _). destruct (zset_at_view now _ _ _ Hz) as [Hv _].
  cbn [keyspace_exec]. rewrite Hv. cbn [run_view]. rewrite Hs. do 2 f_equal.
  assert (index_slice (map scored l) a b = map scored (index_slice l a b)) as ->.
  { unfold index_slice. rewrite length_map. destruct (_ <? _); [done|].
    change (map scored) with (fmap (M := list) scored). by rewrite fmap_take, fmap_drop. }
  by rewrite map_map.
Qed.

Lemma hmget_hot now ks channel l part :
  Hot ks channel l -> incl part l ->
  exists payloads,
    keyspace_exec now (Hmget (history_key channel) (map member_of part)) ks = (Ok payloads, ks)
    /\ decode_payloads payloads = part.
Proof.
  intros (z & h & _ & Hh & _ & Hd & _) Hincl. destruct (hash_at_view now _ _ _ Hh) as [Hv _].
  simpl. rewrite Hv. simpl. eexists. split; [done|].
  induction part as [|m part IH]; [done|]. apply incl_cons_inv in Hincl as [Hin Hincl].
  destruct (Hd m Hin) as (bytes & E & Hm). unfold decode_payloads in *. cbn [map omap list_omap].
  rewrite E, Hm. f_equal. by apply IH.
Qed.

Lemma length_keep_newest l : (length (keep_newest l) <= HOT_HISTORY_LIMIT)%nat.
Proof. unfold keep_newest. rewrite length_drop. lia. Qed.

Lemma keep_newest_id l : (length l <= HOT_HISTORY_LIMIT)%nat -> keep_newest l = l.
Proof. unfold keep_newest. intros H. by replace (length l - _)%nat with 0%nat by lia. Qed.

Lemma vk_exec_eq {A} now (c : VCmd A) (k : K) r ks :
  keyspace_exec now c (vk_view k) = (r, ks) -> exists k', vk_exec now c k = (r, k') /\ vk_view k' = ks.
Proof.
  intros H. pose proof (vk_law A now c k) as L. destruct (vk_exec now c k) as [r' k'].
  rewrite H in L. simplify_eq. eauto.
Qed.

(** One stored message: the abstract insertion, then the abstract trimming. *)
Lemma store_message_step env w m session l :
  healthy env -> pool_ok (w_pool w) -> Hot (vk_view (w_cache w)) (msg_channel m) l ->
  exists w', store_message m session env w = (Ok tt, w') /\ pool_ok (w_pool w')
    /\ Hot (vk_view (w_cache w')) (msg_channel m) (keep_newest (hot_insert m l)).
Proof.
  intros Hh Hp Hl. unfold store_message.
  rewrite (run_bind_ok _ _ _ _ _ _ (run_connection env w Hp)).
  set (w1 := with_pool _ w). assert (pool_ok (w_pool w1)) as Hp1 by exact Hp.
  rewrite (run_bind_ok _ _ _ _ _ _ (run_pipe_atomic _ env w1 Hh)).
  set (w2 := with_cache _ (tick w1)). assert (pool_ok (w_pool w2)) as Hp2 by exact Hp.
  assert (Hot (vk_view (w_cache w2)) (msg_channel m) (hot_insert m l)) as H2.
  { unfold w2. cbn [w_cache with_cache]. rewrite exec_actions_view. by apply record_message_hot. }
  destruct (vk_exec_eq (env_clock env (w_step w2)) _ _ _ _
              (zrange_hot _ _ _ _ 0 (- (Z.of_nat HOT_HISTORY_LIMIT + 1)) H2)) as (k3 & E3 & V3).
  rewrite index_slice_oldest in E3.
  unfold bind at 1. rewrite run_command, E3 by done. set (w3 := with_cache k3 (tick w2)).
  unfold keep_newest. set (n := (length (hot_insert m l) - HOT_HISTORY_LIMIT)%nat) in *.
  rewrite <- V3 in H2.
  destruct (is_empty (map member_of (take n (hot_insert m l)))) eqn:Hempty.
  - exists w3. split; [done|]. split; [done|].
    assert (n = 0%nat) as ->; [|exact H2].
    destruct (decide (n = 0%nat)); [done|].
    assert (length (take n (hot_insert m l)) = 0%nat) as Hlen
      by (destruct (take n (hot_insert m l)); [done|discriminate]).
    rewrite length_take in Hlen. lia.
  - unfold pipe. cbn [for_each].
    rewrite (run_bind_ok _ _ _ _ _ _ (run_pipe_atomic _ env w3 Hh)).
    rewrite (run_bind_ok _ _ _ _ _ _ (run_pipe_atomic _ env _ Hh)).
    eexists. split; [done|]. split; [done|]. simpl. rewrite !vk_exec_snd.
    exact (drop_hot _ _ _ _ _ n H2).
Qed.
End Refinement.

Section Stored.
Context {K : Type} {V : Valkey K} {T : UuidText} {J : JsonText} {B : Bitcode}.
Implicit Types (w : World K).

(** Reading a channel: the newest messages of its list, oldest first. *)
Lemma load_hot_history_step env w channel l :
  healthy env -> pool_ok (w_pool w) -> Hot (vk_view (w_cache w)) channel l ->
  exists w', load_hot_history channel env w = (Ok (keep_newest l), w') /\ pool_ok (w_pool w')
    /\ vk_view (w_cache w') = vk_view (w_cache w).
Proof.
  intros Hh Hp Hl. unfold load_hot_history.
  rewrite (run_bind_ok _ _ _ _ _ _ (run_connection env w Hp)).
  set (w1 := with_pool _ w). assert (pool_ok (w_pool w1)) as Hp1 by exact Hp.
  destruct (vk_exec_eq (env_clock env (w_step w1)) _ (w_cache w1) _ _
              (zrange_hot _ _ _ _ (- Z.of_nat HOT_HISTORY_LIMIT) (-1) Hl)) as (k2 & E2 & V2).
  rewrite index_slice_newest in E2. fold (keep_newest l) in E2.
  unfold bind at 1. rewrite run_command, E2 by done. set (w2 := with_cache k2 (tick w1)).
  destruct (is_empty (map member_of (keep_newest l))) eqn:He.
  - destruct (keep_newest l); [|discriminate]. exists w2. done.
  - destruct (hmget_hot (env_clock env (w_step w2)) (vk_view (w_cache w)) channel l (keep_newest l) Hl)
      as (payloads & E3 & Hd); [intros x Hx; by eapply in_drop|].
    rewrite <- V2 in E3.
    destruct (vk_exec_eq (env_clock env (w_step w2)) _ (w_cache w2) _ _ E3) as (k3 & E4 & V3).
    unfold bind. rewrite run_command, E4 by done. exists (with_cache k3 (tick w2)).
    rewrite Hd. split; [done|]. split; [done|]. simpl. congruence.
Qed.

Definition store_spec (l : list ChatMessage) (m : ChatMessage) : list ChatMessage :=
  keep_newest (hot_insert m l).

Lemma store_all env w ms session channel l :
  healthy env -> pool_ok (w_pool w) -> Hot (vk_view (w_cache w)) channel l ->
  (forall m, In m ms -> msg_channel m = channel) ->
  exists w', for_each ms (fun m => store_message m session) env w = (Ok tt, w')
    /\ pool_ok (w_pool w') /\ Hot (vk_view (w_cache w')) channel (fold_left store_spec ms l).
Proof.
  intros Hh. revert w l. induction ms as [|m ms IH]; intros w l Hp Hl Hc; cbn [for_each fold_left].
  - exists w. done.
  - pose proof (Hc m (or_introl eq_refl)) as Hm. rewrite <- Hm in Hl.
    destruct (store_message_step env w m session l Hh Hp Hl) as (w1 & E & Hp1 & H1).
    rewrite (run_bind_ok _ _ _ _ _ _ E). rewrite Hm in H1.
    destruct (IH w1 (store_spec l m) Hp1 H1) as (w2 & E2 & Hp2 & H2); [intros; apply Hc; by right|].
    exists w2. done.
Qed.

Lemma store_spec_bound ms l :
  (length l <= HOT_HISTORY_LIMIT)%nat -> (length (fold_left store_spec ms l) <= HOT_HISTORY_LIMIT)%nat.
Proof.
  revert l. induction ms as [|m ms IH]; intros l Hl; simpl; [done|]. apply IH, length_keep_newest.
Qed.

(** C5. The hot cache is a sorted window: after any sequence of [store_message]
    calls of a channel, [load_hot_history] returns what the abstract window
    returns, each message in the place of the one with its identifier, ordered
    by time and identifier, and the oldest dropped beyond [HOT_HISTORY_LIMIT];
    the sorted set and the hash of payloads still agree and stay within the
    limit. *)
Theorem hot_history_refines env w ms session channel l :
  healthy env -> pool_ok (w_pool w) -> Hot (vk_view (w_cache w)) channel l ->
  (length l <= HOT_HISTORY_LIMIT)%nat ->
  (forall m, In m ms -> msg_channel m = channel) ->
  let spec := fold_left store_spec ms l in
  exists w', (for_each ms (fun m => store_message m session) ;; load_hot_history channel) env w
             = (Ok spec, w')
    /\ Hot (vk_view (w_cache w')) channel spec /\ (length spec <= HOT_HISTORY_LIMIT)%nat.
Proof.
  intros Hh Hp Hl Hlen Hc spec.
  destruct (store_all env w ms session channel l Hh Hp Hl Hc) as (w1 & E & Hp1 & H1).
  rewrite (run_bind_ok _ _ _ _ _ _ E).
  assert (length spec <= HOT_HISTORY_LIMIT)%nat as Hs by by apply store_spec_bound.
  destruct (load_hot_history_step env w1 channel spec Hh Hp1 H1) as (w2 & E2 & _ & V2).
  rewrite keep_newest_id in E2 by done. exists w2. rewrite V2. done.
Qed.
End Stored.

(** ** Witnesses *)

#[local] Existing Instance hyphenated_text.
#[local] Existing Instance coded_json.
#[local] Existing Instance coded_bitcode.
#[local] Existing Instance keyspace_valkey.

Definition sample_chat (n : N) (at_ : Z) (text : string) : ChatMessage :=
  mkChatMessage (uuid_of n) (rs "main") (rs "alice") (rs text) at_ false false None 0 json_empty [] None [].

Lemma hot_history_refines_witness :
  exists w', (for_each [sample_chat 1 20 "b"; sample_chat 2 10 "a"; sample_chat 1 20 "edited"]
                (fun m => store_message m uuid_nil) ;; load_hot_history (rs "main"))
               (sample_env 5) (sample_world sample_db)
             = (Ok [sample_chat 2 10 "a"; sample_chat 1 20 "edited"], w').
Proof.
  destruct (hot_history_refines (sample_env 5) (sample_world sample_db)
    [sample_chat 1 20 "b"; sample_chat 2 10 "a"; sample_chat 1 20 "edited"] uuid_nil (rs "main") []
    (sample_env_healthy 5) (conj eq_refl eq_refl)) as (w' & E & _).
  - exact (hot_empty (rs "main")).
  - apply Nat.le_0_l.
  - intros m [<-|[<-|[<-|[]]]]; reflexivity.
  - exists w'. exact E.
Defined.

(** ** Older pages *)

Definition long_db : Db :=
  set_messages (fun _ => map (fun n => sample_message (100 + Z.to_N n) n None) (seqZ 1 51)) sample_db.

Lemma in_long_db m :
  In m (messages long_db) <-> exists n, m = sample_message (100 + Z.to_N n) n None /\ 1 <= n < 52.
Proof.
  change (messages long_db) with (map (fun n => sample_message (100 + Z.to_N n) n None) (seqZ 1 51)).
  rewrite in_map_iff. setoid_rewrite <- list_elem_of_In. setoid_rewrite elem_of_seqZ.
  split; intros (n & E & H); exists n; split; (done || lia).
Qed.

(** Scrolling back can skip messages: asked for the page before a cursor
    the cache does not cover, [send_history_page] reads one message more than a
    page from the database, orders by time and cuts off the end, so the message
    just before the cursor, the newest of those asked for, is stored but
    missing from the page. *)
Theorem history_page_skips_adjacent :
  exists page, w_sent (send_history_page (rs "main") (Some (60, uuid_of 999))
                         (sample_env 70) (sample_world long_db)).2
               = [SvHistoryPage (rs "main") page DatabaseSource true]
  /\ length page = 50%nat
  /\ exists m, In m (messages long_db) /\ m_created_at m < 60
       /\ (forall x, In x (messages long_db) -> m_created_at x <= m_created_at m)
       /\ ~ In (m_id m) (map msg_id page).
Proof.
  eexists. split; [vm_compute; reflexivity|]. split; [reflexivity|].
  exists (sample_message 151 51 None). split; [|split; [done|split]].
  - apply in_long_db. exists 51. split; [reflexivity|lia].
  - intros x (n & -> & Hn)%in_long_db. simpl. lia.
  - rewrite <- list_elem_of_In. apply (bool_decide_unpack _). vm_compute. exact I.
Qed.
