(* ===== verification/Presence.v ===== *)
(** * Presence

    [websocket/presence.rs]: a set of user identifiers per channel and a leased
    record per user, kept in Valkey. *)
From Stdlib Require Import String.
From S2P Require Export Effects Collections.
From S2P Require Import Reference.
Open Scope m_scope.

Definition PRESENCE_TTL_SECONDS : Z := 45.

Definition username_le (a b : Participant) : bool := str_leb (part_username a) (part_username b).

Section Presence.
Context {K : Type} {V : Valkey K} {T : UuidText} {J : JsonText}.
Notation M := (M K AppError).

Definition presence_set_key (channel : rstr) : rstr := rs "chat:presence:" ++ channel ++ rs ":users".
Definition presence_key_of (channel id : rstr) : rstr := rs "chat:presence:" ++ channel ++ rs ":" ++ id.
Definition presence_key (channel : rstr) (user : Uuid) : rstr :=
  presence_key_of channel (uuid_to_string user).

Definition refresh_presence (channel : rstr) (participant : Participant) : M unit :=
  connection ;;
  let payload := json_to_string (participant_to_json participant) in
  pipe_atomic [act (Sadd (presence_set_key channel) (uuid_to_string (part_user_id participant)));
               act (Setex (presence_key channel (part_user_id participant)) PRESENCE_TTL_SECONDS payload)].

Definition remove_presence (channel : rstr) (user : Uuid) : M unit :=
  connection ;;
  pipe_atomic [act (Srem (presence_set_key channel) [uuid_to_string user]);
               act (Del [presence_key channel user])].

(** [value.and_then(|value| serde_json::from_str(&value).ok())] *)
Definition decode_participant (value : option rstr) : option Participant :=
  payload ← value; json_from_str payload ≫= participant_from_json.

Definition listed (entries : list (rstr * option rstr)) : list Participant :=
  omap (fun e => decode_participant e.2) entries.
Definition stale_ids (entries : list (rstr * option rstr)) : list rstr :=
  map fst (List.filter (fun e => is_none (decode_participant e.2)) entries).

Definition list_presence (channel : rstr) : M (list Participant) :=
  connection ;;
  ids <- command (Smembers (presence_set_key channel)) ;;
  if is_empty ids then ret [] else
  values <- command (Mget (map (presence_key_of channel) ids)) ;;
  let entries := combine ids values in
  (if is_empty (stale_ids entries) then ret tt
   else command (Srem (presence_set_key channel) (stale_ids entries)) ;; ret tt) ;;
  ret (order_by username_le (listed entries)).

Definition sync_presence (channel : rstr) : M unit :=
  participants <- list_presence channel ;;
  send_event (SvPresenceSync channel participants).
End Presence.

(** ** The set and the leases *)

Section Facts.
Context {K : Type} {V : Valkey K} {T : UuidText} {J : JsonText}.
Implicit Types (ks : Keyspace) (s : gset rstr).

(** The record of [id], read at [now]. *)
Definition lease (now : Z) (ks : Keyspace) (channel id : rstr) : option Participant :=
  decode_participant (str_view (live now ks (presence_key_of channel id))).

(** No record's key is the set's. *)
Lemma presence_keys_ne channel u : presence_set_key channel <> presence_key channel u.
Proof.
  unfold presence_set_key, presence_key, presence_key_of. intros H.
  apply app_inv_head, app_inv_head in H. change (rs ":users") with (rs ":" ++ rs "users") in H.
  apply app_inv_head in H. pose proof (uuid_text_class u) as Hc. rewrite <- H in Hc.
  apply (Forall_inv (P := fun c => _ = true)) in Hc. discriminate.
Qed.

(** What one listing does, the answer of each command at its own time. *)
Definition set_after (now : Z) (ks : Keyspace) (channel : rstr) (s : gset rstr) : gset rstr :=
  filter (fun id => is_Some (lease now ks channel id)) s.

Lemma in_listed now ks channel ids p :
  In p (listed (combine ids (map (fun k => str_view (live now ks k)) (map (presence_key_of channel) ids))))
  <-> exists id, In id ids /\ lease now ks channel id = Some p.
Proof.
  induction ids as [|id ids IH]; simpl; [by split; [|intros (?&[]&_)]|].
  unfold listed in *. cbn [omap list_omap snd]. fold (lease now ks channel id).
  destruct (lease now ks channel id) as [q|] eqn:E; simpl; rewrite IH; naive_solver.
Qed.
Lemma in_stale now ks channel ids id :
  In id (stale_ids (combine ids (map (fun k => str_view (live now ks k)) (map (presence_key_of channel) ids))))
  <-> In id ids /\ lease now ks channel id = None.
Proof.
  unfold stale_ids. rewrite map_map. induction ids as [|i ids IH]; simpl; [tauto|].
  fold (lease now ks channel i). destruct (lease now ks channel i) as [q|] eqn:E; simpl; rewrite IH; naive_solver.
Qed.

Lemma set_after_empty now ks channel : set_after now ks channel ∅ = ∅.
Proof. apply set_eq. intros id. unfold set_after. rewrite elem_of_filter. set_solver. Qed.

Lemma set_after_difference now ks channel s l :
  (forall id, In id l <-> id ∈ s /\ lease now ks channel id = None) ->
  s ∖ list_to_set l = set_after now ks channel s.
Proof.
  intros Hl. apply set_eq. intros id. unfold set_after.
  rewrite elem_of_difference, elem_of_list_to_set, elem_of_filter, list_elem_of_In, Hl.
  destruct (lease now ks channel id); naive_solver.
Qed.
End Facts.

Section Listing.
Context {K : Type} {V : Valkey K} {T : UuidText} {J : JsonText}.
Implicit Types (w : World K) (s : gset rstr).

Lemma run_view_command {A} (c : VCmd A) env w r ks :
  healthy env -> keyspace_exec (env_clock env (w_step w)) c (vk_view (w_cache w)) = (Ok r, ks) ->
  exists k, command c env w = (Ok r, with_cache k (tick w)) /\ vk_view k = ks.
Proof.
  intros Hh E. rewrite run_command by done. pose proof (vk_law _ (env_clock env (w_step w)) c (w_cache w)) as L.
  destruct (vk_exec _ c _) as [r' k]. rewrite E in L. injection L as -> <-. eauto.
Qed.

Lemma username_le_total a b : username_le a b = true \/ username_le b a = true.
Proof. apply str_leb_total. Qed.
Lemma username_le_trans a b c : username_le a b = true -> username_le b c = true -> username_le a c = true.
Proof. apply str_leb_trans. Qed.

Lemma list_presence_step env w channel s :
  healthy env -> pool_ok (w_pool w) -> set_at (vk_view (w_cache w)) (presence_set_key channel) s ->
  let t := env_clock env (S (w_step w)) in
  exists ps w', list_presence channel env w = (Ok ps, w') /\ pool_ok (w_pool w')
    /\ StronglySorted (rel_of username_le) ps
    /\ (forall p, In p ps <-> exists id, id ∈ s /\ lease t (vk_view (w_cache w)) channel id = Some p)
    /\ set_at (vk_view (w_cache w')) (presence_set_key channel)
         (set_after t (vk_view (w_cache w)) channel s).
Proof.
  intros Hh Hp Hs t. unfold list_presence.
  rewrite (run_bind_ok _ _ _ _ _ _ (run_connection env w Hp)). set (w1 := with_pool _ w).
  destruct (set_at_view (env_clock env (w_step w1)) _ _ _ Hs) as [Hv _].
  destruct (run_view_command (Smembers (presence_set_key channel)) env w1 (elements s)
              (vk_view (w_cache w)) Hh) as (k2 & E2 & V2).
  { cbn [keyspace_exec]. change (w_cache w1) with (w_cache w). by rewrite Hv. }
  rewrite (run_bind_ok _ _ _ _ _ _ E2). set (w2 := with_cache k2 (tick w1)).
  destruct (is_empty (elements s)) eqn:He.
  - assert (s = ∅) as ->.
    { apply leibniz_equiv, elements_empty_inv. revert He. by destruct (elements s). }
    exists [], w2. split; [done|]. split; [done|]. split; [constructor|].
    split; [intros p; split; [done|intros (id & Hid & _); by apply not_elem_of_empty in Hid]|].
    change (w_cache w2) with k2. rewrite V2. by rewrite set_after_empty.
  - set (keys := map (presence_key_of channel) (elements s)).
    destruct (run_view_command (Mget keys) env w2
                (map (fun k => str_view (live t (vk_view k2) k)) keys) (vk_view k2) Hh)
      as (k3 & E3 & V3); [done|]. rewrite V2 in E3, V3. set (ks := vk_view (w_cache w)) in *.
    rewrite (run_bind_ok _ _ _ _ _ _ E3). set (w3 := with_cache k3 (tick w2)).
    set (entries := combine _ _).
    assert (forall id, In id (stale_ids entries) <-> id ∈ s /\ lease t ks channel id = None) as Hstale.
    { intros id. unfold entries, keys. rewrite in_stale, <- list_elem_of_In, elem_of_elements. tauto. }
    assert (forall p, In p (order_by username_le (listed entries))
              <-> exists id, id ∈ s /\ lease t ks channel id = Some p) as Hlist.
    { intros p. unfold entries, keys. rewrite in_order_by, in_listed.
      split; intros (id & H & E); exists id; (split; [|done]);
        [by apply list_elem_of_In, elem_of_elements in H|by apply list_elem_of_In, elem_of_elements]. }
    assert (StronglySorted (rel_of username_le) (order_by username_le (listed entries))) as Hsorted
      by (apply order_by_sorted; [apply username_le_total|apply username_le_trans]).
    destruct (is_empty (stale_ids entries)) eqn:Hst.
    + exists (order_by username_le (listed entries)), w3. split; [done|]. split; [done|].
      split; [done|]. split; [done|]. change (w_cache w3) with k3. rewrite V3.
      rewrite <- (set_after_difference t ks channel s (stale_ids entries) Hstale).
      revert Hst. destruct (stale_ids entries); [|done]. simpl. by rewrite difference_empty_L.
    + assert (set_at (vk_view (w_cache w3)) (presence_set_key channel) s) as H3
        by (change (w_cache w3) with k3; by rewrite V3).
      destruct (set_at_view (env_clock env (w_step w3)) _ _ _ H3) as [Hv3 _].
      destruct (exec_srem (env_clock env (w_step w3)) _ _ _ (stale_ids entries) H3) as [H4 _].
      destruct (keyspace_exec (env_clock env (w_step w3))
                  (Srem (presence_set_key channel) (stale_ids entries)) (vk_view (w_cache w3)))
        as [r ks4] eqn:E4. assert (exists n, r = Ok n) as (n & ->).
      { cbn [keyspace_exec] in E4. rewrite Hv3 in E4. simpl in E4. injection E4 as <- _. eauto. }
      destruct (run_view_command _ env w3 n ks4 Hh E4) as (k4 & E5 & V4).
      exists (order_by username_le (listed entries)), (with_cache k4 (tick w3)).
      split; [unfold bind; by rewrite E5|]. split; [done|]. split; [done|]. split; [done|].
      simpl. rewrite V4. by rewrite (set_after_difference t ks channel s _ Hstale) in H4.
Qed.
End Listing.

Section Leases.
Context {K : Type} {V : Valkey K} {T : UuidText} {J : JsonText}.
Implicit Types (w : World K) (s : gset rstr).

Lemma presence_key_of_inj channel a b : presence_key_of channel a = presence_key_of channel b -> a = b.
Proof. unfold presence_key_of. intros H. by apply app_inv_head, app_inv_head, app_inv_head in H. Qed.

(** A record depends on its own key only. *)
Lemma lease_same_key now ks ks' channel id :
  ks !! presence_key_of channel id = ks' !! presence_key_of channel id ->
  lease now ks channel id = lease now ks' channel id.
Proof. unfold lease, live. by intros ->. Qed.

(** The members of a presence set are identifiers. *)
Definition uuid_texts (s : gset rstr) : Prop := forall id, id ∈ s -> exists u, id = uuid_to_string u.

(** Presence is a lease: after [refresh_presence], [list_presence] shows
    the participant as written until [PRESENCE_TTL_SECONDS] have passed, every
    other member of the channel's set whose record is alive, nobody else, and
    in the order of their names. *)
Theorem presence_leased env w channel p s :
  healthy env -> pool_ok (w_pool w) -> set_at (vk_view (w_cache w)) (presence_set_key channel) s ->
  uuid_texts s ->
  let written := env_clock env (w_step w) in
  let read := env_clock env (S (S (w_step w))) in
  exists ps w', (refresh_presence channel p ;; list_presence channel) env w = (Ok ps, w')
    /\ StronglySorted (rel_of username_le) ps
    /\ forall q, In q ps <->
         (q = p /\ read < written + 1000 * PRESENCE_TTL_SECONDS)
         \/ exists id, id ∈ s /\ id <> uuid_to_string (part_user_id p)
              /\ lease read (vk_view (w_cache w)) channel id = Some q.
Proof.
  intros Hh Hp Hs Hids written read. set (me := uuid_to_string (part_user_id p)).
  set (payload := json_to_string (participant_to_json p)).
  set (k1 := exec_actions written
    [act (Sadd (presence_set_key channel) me); act (Setex (presence_key channel (part_user_id p))
       PRESENCE_TTL_SECONDS payload)] (w_cache w)).
  set (w1 := with_cache k1 (tick (with_pool (next_pool (w_pool w)) w))).
  assert (refresh_presence channel p env w = (Ok tt, w1)) as E1.
  { unfold refresh_presence. rewrite (run_bind_ok _ _ _ _ _ _ (run_connection env w Hp)).
    by rewrite run_pipe_atomic. }
  rewrite (run_bind_ok _ _ _ _ _ _ E1).
  pose proof (exec_sadd written _ _ _ me Hs) as [Hs1 Hne].
  assert (vk_view (w_cache w1) = <[presence_key_of channel me := mkVEntry (VStr payload)
            (Some (written + 1000 * PRESENCE_TTL_SECONDS))]>
            (keyspace_exec written (Sadd (presence_set_key channel) me) (vk_view (w_cache w))).2) as Hview.
  { change (w_cache w1) with k1. unfold k1. rewrite exec_actions_view. reflexivity. }
  assert (set_at (vk_view (w_cache w1)) (presence_set_key channel) ({[me]} ∪ s)) as Hs2.
  { unfold set_at. rewrite Hview, lookup_insert_ne; [exact Hs1|].
    intros E. symmetry in E. by apply presence_keys_ne in E. }
  destruct (list_presence_step env w1 channel _ Hh Hp Hs2) as (ps & w' & E & _ & Hsort & Hin & _).
  exists ps, w'. split; [done|]. split; [done|]. change (env_clock env (S (w_step w1))) with read in Hin.
  assert (lease read (vk_view (w_cache w1)) channel me
          = if written + 1000 * PRESENCE_TTL_SECONDS <=? read then None else Some p) as Hme.
  { unfold lease. rewrite Hview, live_insert_eq. destruct (_ <=? read); [done|]. simpl.
    unfold payload. rewrite json_from_to. simpl. apply participant_from_to_json. }
  assert (forall id, id ∈ s -> id <> me ->
            lease read (vk_view (w_cache w1)) channel id = lease read (vk_view (w_cache w)) channel id) as Hother.
  { intros id Hid Hme'. apply lease_same_key. rewrite Hview, lookup_insert_ne.
    - apply Hne. destruct (Hids id Hid) as (u & ->). apply presence_keys_ne.
    - intros E'%presence_key_of_inj. by apply Hme'. }
  intros q. rewrite Hin. split.
  - intros (id & [->%elem_of_singleton|Hid]%elem_of_union & Hq).
    + rewrite Hme in Hq. destruct (_ <=? read) eqn:El; [done|]. left. split; [congruence|lia].
    + destruct (decide (id = me)) as [->|Hne'].
      * rewrite Hme in Hq. destruct (_ <=? read) eqn:El; [done|]. left. split; [congruence|lia].
      * right. exists id. by rewrite <- Hother.
  - intros [[-> Hlt]|(id & Hid & Hne' & Hq)].
    + exists me. split; [set_solver|]. rewrite Hme. by replace (_ <=? read) with false by lia.
    + exists id. split; [set_solver|]. by rewrite Hother.
Qed.

(** After [remove_presence], [list_presence] no longer shows the user and
    shows exactly the other members of the set whose record is alive. *)
Theorem presence_removed env w channel user s :
  healthy env -> pool_ok (w_pool w) -> set_at (vk_view (w_cache w)) (presence_set_key channel) s ->
  uuid_texts s ->
  let read := env_clock env (S (S (w_step w))) in
  exists ps w', (remove_presence channel user ;; list_presence channel) env w = (Ok ps, w')
    /\ forall q, In q ps <-> exists id, id ∈ s /\ id <> uuid_to_string user
              /\ lease read (vk_view (w_cache w)) channel id = Some q.
Proof.
  intros Hh Hp Hs Hids read. set (me := uuid_to_string user).
  set (k1 := exec_actions (env_clock env (w_step w))
    [act (Srem (presence_set_key channel) [me]); act (Del [presence_key channel user])] (w_cache w)).
  set (w1 := with_cache k1 (tick (with_pool (next_pool (w_pool w)) w))).
  assert (remove_presence channel user env w = (Ok tt, w1)) as E1.
  { unfold remove_presence. rewrite (run_bind_ok _ _ _ _ _ _ (run_connection env w Hp)).
    by rewrite run_pipe_atomic. }
  rewrite (run_bind_ok _ _ _ _ _ _ E1).
  pose proof (exec_srem (env_clock env (w_step w)) _ _ _ [me] Hs) as [Hs1 Hne].
  assert (vk_view (w_cache w1) = delete (presence_key_of channel me)
            (keyspace_exec (env_clock env (w_step w)) (Srem (presence_set_key channel) [me])
               (vk_view (w_cache w))).2) as Hview.
  { change (w_cache w1) with k1. unfold k1. rewrite exec_actions_view. reflexivity. }
  assert (set_at (vk_view (w_cache w1)) (presence_set_key channel) (s ∖ list_to_set [me])) as Hs2.
  { unfold set_at. rewrite Hview, lookup_delete_ne; [exact Hs1|].
    intros E. symmetry in E. by apply presence_keys_ne in E. }
  destruct (list_presence_step env w1 channel _ Hh Hp Hs2) as (ps & w' & E & _ & _ & Hin & _).
  exists ps, w'. split; [done|]. change (env_clock env (S (w_step w1))) with read in Hin.
  assert (forall id, id ∈ s -> id <> me ->
            lease read (vk_view (w_cache w1)) channel id = lease read (vk_view (w_cache w)) channel id) as Hother.
  { intros id Hid Hme'. apply lease_same_key. rewrite Hview, lookup_delete_ne.
    - apply Hne. destruct (Hids id Hid) as (u & ->). apply presence_keys_ne.
    - intros E'%presence_key_of_inj. by apply Hme'. }
  intros q. rewrite Hin. split; intros (id & Hid & Hq); exists id.
  - apply elem_of_difference in Hid as [Hid Hn]. rewrite Hother in Hq by set_solver. set_solver.
  - destruct Hq as [Hn Hq]. rewrite Hother by done. split; [set_solver|done].
Qed.
End Leases.

(** ** Witnesses *)

#[local] Existing Instance hyphenated_text.
#[local] Existing Instance coded_json.
#[local] Existing Instance keyspace_valkey.

Definition sample_participant (n : N) (name : string) : Participant :=
  mkParticipant (uuid_of n) (rs name) (rs name) [] [rs "user"] true.

Lemma presence_leased_witness :
  exists ps w', (refresh_presence (rs "main") (sample_participant 1 "alice") ;; list_presence (rs "main"))
                  (sample_env 5) (sample_world sample_db) = (Ok ps, w')
    /\ In (sample_participant 1 "alice") ps.
Proof.
  destruct (presence_leased (sample_env 5) (sample_world sample_db) (rs "main")
              (sample_participant 1 "alice") ∅ (sample_env_healthy 5) (conj eq_refl eq_refl))
    as (ps & w' & E & _ & Hin).
  - exact (set_at_empty _).
  - intros id Hid. by apply not_elem_of_empty in Hid.
  - exists ps, w'. split; [exact E|]. apply Hin. left. split; [reflexivity|]. reflexivity.
Defined.

Definition two_present : World Keyspace :=
  with_cache (keyspace_actions 5
    [act (Sadd (presence_set_key (rs "main")) (uuid_to_string (uuid_of 1)));
     act (Sadd (presence_set_key (rs "main")) (uuid_to_string (uuid_of 2)))] ∅) (sample_world sample_db).

Lemma presence_removed_witness :
  exists ps w', (remove_presence (rs "main") (uuid_of 1) ;; list_presence (rs "main"))
                  (sample_env 5) two_present = (Ok ps, w').
Proof.
  destruct (presence_removed (sample_env 5) two_present (rs "main") (uuid_of 1)
              ({[uuid_to_string (uuid_of 2)]} ∪ ({[uuid_to_string (uuid_of 1)]} ∪ ∅))
              (sample_env_healthy 5) (conj eq_refl eq_refl)) as (ps & w' & E & _).
  - destruct (exec_sadd 5 ∅ (presence_set_key (rs "main")) ∅ (uuid_to_string (uuid_of 1))
      (set_at_empty _)) as [H1 _].
    destruct (exec_sadd 5 _ _ _ (uuid_to_string (uuid_of 2)) H1) as [H2 _]. exact H2.
  - intros id [->%elem_of_singleton|[->%elem_of_singleton|[]%not_elem_of_empty]%elem_of_union]%elem_of_union;
      eexists; reflexivity.
  - exists ps, w'. exact E.
Defined.
