(* ===== verification/Rooms.v ===== *)
(** * Rooms

    [websocket/rooms.rs]: the task that shares one Pub/Sub connection between
    the sockets of this process. The manager's registry is a state with one
    function per command; the sockets of [handle_socket] that use it are a step
    relation, since their commands interleave. *)
From Stdlib Require Import String.
From S2P Require Export Members.
From S2P Require Import Reference.
Open Scope Z_scope.

(** ** The manager *)

(** [clients] counts sockets of the process, far below [usize::MAX]. A sender is
    the identity of a [tokio::sync::broadcast] channel. *)
Record RoomEntry := mkRoomEntry { entry_sender : nat; clients : Z }.

Record Manager := mkManager {
  rooms : gmap rstr RoomEntry;
  sink : gset rstr;        (** the keys the Pub/Sub connection is subscribed to *)
  next_sender : nat
}.

Definition control_key : rstr := rs "_control".
Definition manager_start : Manager := mkManager ∅ {[control_key]} 0.

(** [ManagerCommand::Subscribe]; [subscribed] is Valkey's answer to [SUBSCRIBE],
    asked for only when the room has no entry. The reply is the receiver. *)
Definition manager_subscribe (channel : rstr) (subscribed : bool) (m : Manager) : option nat * Manager :=
  match rooms m !! channel with
  | Some entry =>
      (Some (entry_sender entry),
       mkManager (<[channel := mkRoomEntry (entry_sender entry) (clients entry + 1)]> (rooms m))
         (sink m) (next_sender m))
  | None =>
      let sender := next_sender m in
      if subscribed then
        (Some sender,
         mkManager (<[channel := mkRoomEntry sender 1]> (rooms m)) ({[room_key channel]} ∪ sink m) (S sender))
      else (None, mkManager (rooms m) (sink m) (S sender))
  end.

(** [ManagerCommand::Release]; the result of [UNSUBSCRIBE] is ignored. *)
Definition manager_release (channel : rstr) (unsubscribed : bool) (m : Manager) : Manager :=
  match rooms m !! channel with
  | Some entry =>
      let left := Z.max 0 (clients entry - 1) in
      if left =? 0 then
        mkManager (delete channel (rooms m))
          (if unsubscribed then sink m ∖ {[room_key channel]} else sink m) (next_sender m)
      else
        mkManager (<[channel := mkRoomEntry (entry_sender entry) left]> (rooms m)) (sink m) (next_sender m)
  | None => m
  end.

Inductive Destination := ToRoom (sender : nat) | ToControl | Dropped.

Definition to_room (m : Manager) (channel : rstr) : Destination :=
  match rooms m !! channel with Some entry => ToRoom (entry_sender entry) | None => Dropped end.

(** Where a Pub/Sub payload is sent on. *)
Definition route (m : Manager) (event : ServerEvent) : Destination :=
  match event with
  | SvMessage message | SvMessageUpdated message => to_room m (msg_channel message)
  | SvReactionUpdated channel _ => to_room m channel
  | SvChannelCreated _ | SvChannelDeleted _ => ToControl
  | SvParticipants channel _ | SvParticipantJoined channel _ | SvParticipantLeft channel _
  | SvPresenceSync channel _ | SvTyping channel _ _ _ => to_room m channel
  | _ => Dropped
  end.

(** One attempt to reconnect: the control channel, then every room, stopping at
    the first refusal. *)
Fixpoint restore (channels : list rstr) (accepted : rstr -> bool) (candidate : gset rstr) :
    option (gset rstr) :=
  match channels with
  | [] => Some candidate
  | channel :: rest =>
      if accepted (room_key channel) then restore rest accepted ({[room_key channel]} ∪ candidate)
      else None
  end.
Definition reconnect (accepted : rstr -> bool) (m : Manager) : option Manager :=
  if accepted control_key then
    candidate ← restore (map_to_list (rooms m)).*1 accepted {[control_key]};
    Some (mkManager (rooms m) candidate (next_sender m))
  else None.

(** Milliseconds. *)
Definition next_room_retry_delay (current : Z) : Z := Z.min (current * 2) 10000.

(** The delay before the [n]-th attempt of a reconnection. *)
Definition retry_delay (n : nat) : Z := Nat.iter n next_room_retry_delay 250.

(** ** The sockets *)

(** A socket of [handle_socket] between two commands to the manager: in its
    room with a receiver, past the release of the room it leaves, or past the
    loop, with or without a receiver, before the last release. *)
Inductive Socket :=
| InRoom (channel : rstr) (receiver : nat)
| Switching (channel : rstr)
| Closing (channel : rstr) (receiver : option nat).

Record System := mkSystem { manager : Manager; sockets : gmap nat Socket }.

Inductive Label :=
| Connect | ConnectRefused | SwitchRoom | Subscribed | SubscribeFailed | LoopEnds | Released | Reconnected.

Inductive step : System -> Label -> System -> Prop :=
| step_connect m ss s ok receiver m' :
    ss !! s = None -> manager_subscribe MAIN_CHANNEL ok m = (Some receiver, m') ->
    step (mkSystem m ss) Connect (mkSystem m' (<[s := InRoom MAIN_CHANNEL receiver]> ss))
| step_refused m ss ok m' :
    manager_subscribe MAIN_CHANNEL ok m = (None, m') ->
    step (mkSystem m ss) ConnectRefused (mkSystem m' ss)
| step_switch m ss s channel receiver channel' ok :
    ss !! s = Some (InRoom channel receiver) ->
    step (mkSystem m ss) SwitchRoom
      (mkSystem (manager_release channel ok m) (<[s := Switching channel']> ss))
| step_subscribed m ss s channel ok receiver m' :
    ss !! s = Some (Switching channel) -> manager_subscribe channel ok m = (Some receiver, m') ->
    step (mkSystem m ss) Subscribed (mkSystem m' (<[s := InRoom channel receiver]> ss))
| step_failed m ss s channel ok m' :
    ss !! s = Some (Switching channel) -> manager_subscribe channel ok m = (None, m') ->
    step (mkSystem m ss) SubscribeFailed (mkSystem m' (<[s := Closing channel None]> ss))
| step_ends m ss s channel receiver :
    ss !! s = Some (InRoom channel receiver) ->
    step (mkSystem m ss) LoopEnds (mkSystem m (<[s := Closing channel (Some receiver)]> ss))
| step_released m ss s channel receiver ok :
    ss !! s = Some (Closing channel receiver) ->
    step (mkSystem m ss) Released (mkSystem (manager_release channel ok m) (delete s ss))
| step_reconnected m ss accepted m' :
    reconnect accepted m = Some m' ->
    step (mkSystem m ss) Reconnected (mkSystem m' ss).

Inductive reachable (allowed : Label -> Prop) : System -> Prop :=
| reach_start : reachable allowed (mkSystem manager_start ∅)
| reach_step s l s' : reachable allowed s -> allowed l -> step s l s' -> reachable allowed s'.

(** ** The registry is exact *)

Definition holds (st : Socket) : option (rstr * nat) :=
  match st with
  | InRoom channel receiver | Closing channel (Some receiver) => Some (channel, receiver)
  | _ => None
  end.
Definition in_room (channel : rstr) (st : Socket) : bool :=
  match holds st with Some (channel', _) => channel' ≟ channel | None => false end.
Definition holders (channel : rstr) (ss : gmap nat Socket) : nat := count_entries (in_room channel) ss.

Section Counting.
Implicit Types (ss : gmap nat Socket).

Lemma holders_insert ch ss s st :
  ss !! s = None -> holders ch (<[s := st]> ss) = ((if in_room ch st then 1 else 0) + holders ch ss)%nat.
Proof. apply count_entries_insert. Qed.
Lemma holders_split ch ss s st :
  ss !! s = Some st -> holders ch ss = ((if in_room ch st then 1 else 0) + holders ch (delete s ss))%nat.
Proof. apply count_entries_split. Qed.
(** A socket that changes state moves the counts by what it stops and starts to hold. *)
Lemma holders_replace ch ss s old st :
  ss !! s = Some old ->
  ((if in_room ch old then 1 else 0) + holders ch (<[s := st]> ss)
   = (if in_room ch st then 1 else 0) + holders ch ss)%nat.
Proof. apply count_entries_replace. Qed.
Lemma holders_positive ch ss s st : ss !! s = Some st -> in_room ch st = true -> (0 < holders ch ss)%nat.
Proof. intros Hs E. rewrite (holders_split ch ss s st Hs), E. lia. Qed.
Lemma in_room_holds ch st r : holds st = Some (ch, r) -> in_room ch st = true.
Proof. unfold in_room. intros ->. by apply bool_decide_eq_true_2. Qed.
Lemma in_room_true ch st : in_room ch st = true -> exists r, holds st = Some (ch, r).
Proof. unfold in_room. destruct (holds st) as [[c r]|]; [|done]. intros H. bool_simpl. subst. eauto. Qed.
End Counting.

(** What the registry says of one room, with [n] sockets that hold it. *)
Definition room_exact (m : Manager) (ss : gmap nat Socket) (ch : rstr) : Prop :=
  match rooms m !! ch with
  | Some e => clients e = Z.of_nat (holders ch ss) /\ 0 < clients e /\ room_key ch ∈ sink m
      /\ forall s st r, ss !! s = Some st -> holds st = Some (ch, r) -> r = entry_sender e
  | None => holders ch ss = 0%nat
  end.
Definition Exact (sys : System) : Prop :=
  control_key ∈ sink (manager sys)
  /\ (forall ch, room_exact (manager sys) (sockets sys) ch)
  /\ forall s ch, sockets sys !! s <> Some (Closing ch None).

Section Exactness.
Lemma room_key_inj a b : room_key a = room_key b -> a = b.
Proof. apply app_inv_head. Qed.
Lemma room_key_control a : room_key a <> control_key.
Proof. done. Qed.

(** A socket that holds nothing before and [st] after, by a subscription. *)
Lemma subscribe_exact m ss s ch ok r m' :
  Exact (mkSystem m ss) ->
  (ss !! s = None \/ exists old, ss !! s = Some old /\ holds old = None) ->
  manager_subscribe ch ok m = (Some r, m') ->
  Exact (mkSystem m' (<[s := InRoom ch r]> ss)).
Proof.
  intros (Hc & He & Hn) Hs Hsub.
  assert (forall c, holders c (<[s := InRoom ch r]> ss)
                    = ((if ch ≟ c then 1 else 0) + holders c ss)%nat) as Hcount.
  { intros c. destruct Hs as [Hs|(old & Hs & Ho)]; [by rewrite holders_insert|].
    pose proof (holders_replace c ss s old (InRoom ch r) Hs) as H. unfold in_room in H.
    rewrite Ho in H. exact H. }
  assert (forall c s' st r', <[s := InRoom ch r]> ss !! s' = Some st -> holds st = Some (c, r') ->
            (c = ch /\ r' = r) \/ ss !! s' = Some st) as Hold.
  { intros c s' st r' [[<- <-]|[_ H]]%lookup_insert_Some Hh; [|by right]. simpl in Hh. left. by simplify_eq. }
  unfold manager_subscribe in Hsub. pose proof (He ch) as Hch. unfold room_exact in Hch.
  simpl in Hch. destruct (rooms m !! ch) as [e|] eqn:Ech.
  - injection Hsub as <- <-. split; [exact Hc|]. split.
    + intros c. unfold room_exact. simpl. rewrite Hcount.
      destruct (decide (ch = c)) as [<-|Hne].
      * rewrite lookup_insert_eq, bool_decide_eq_true_2 by done. simpl.
        destruct Hch as (Hcl & Hp & Hk & Hr). split; [lia|]. split; [lia|]. split; [done|].
        intros s' st r' Hl Hh. destruct (Hold _ _ _ _ Hl Hh) as [[_ ->]|H]; [done|by eapply Hr].
      * rewrite lookup_insert_ne, bool_decide_eq_false_2 by done.
        specialize (He c). unfold room_exact in He. simpl in He.
        destruct (rooms m !! c) as [e'|]; [|done].
        destruct He as (Hcl & Hp & Hk & Hr). repeat split; try done.
        intros s' st r' Hl Hh. destruct (Hold _ _ _ _ Hl Hh) as [[-> _]|H]; [done|by eapply Hr].
    + simpl. intros s' c [[_ ?]|[_ H]]%lookup_insert_Some; [done|by apply (Hn s' c)].
  - destruct ok; [|done]. injection Hsub as <- <-. split; [simpl; set_solver|]. split.
    + intros c. unfold room_exact. simpl. rewrite Hcount.
      destruct (decide (ch = c)) as [<-|Hne].
      * rewrite lookup_insert_eq, bool_decide_eq_true_2 by done. simpl. rewrite Hch.
        split; [done|]. split; [done|]. split; [set_solver|].
        intros s' st r' Hl Hh. destruct (Hold _ _ _ _ Hl Hh) as [[_ ->]|H]; [done|].
        pose proof (holders_positive _ _ _ _ H (in_room_holds _ _ _ Hh)). lia.
      * rewrite lookup_insert_ne, bool_decide_eq_false_2 by done.
        specialize (He c). unfold room_exact in He. simpl in He.
        destruct (rooms m !! c) as [e'|]; [|done].
        destruct He as (Hcl & Hp & Hk & Hr). repeat split; try done; [set_solver|].
        intros s' st r' Hl Hh. destruct (Hold _ _ _ _ Hl Hh) as [[-> _]|H]; [done|by eapply Hr].
    + simpl. intros s' c [[_ ?]|[_ H]]%lookup_insert_Some; [done|by apply (Hn s' c)].
Qed.

(** A release by a socket that holds the room and afterwards is not in [ss']. *)
Lemma release_exact m ss ss' s ch r ok old :
  Exact (mkSystem m ss) -> ss !! s = Some old -> holds old = Some (ch, r) ->
  (forall c, ((if ch ≟ c then 1 else 0) + holders c ss' = holders c ss)%nat) ->
  (forall s' st c r', ss' !! s' = Some st -> holds st = Some (c, r') -> ss !! s' = Some st) ->
  (forall s' c, ss' !! s' <> Some (Closing c None)) ->
  Exact (mkSystem (manager_release ch ok m) ss').
Proof.
  intros (Hc & He & _) Hs Ho Hcount Hold Hn. unfold manager_release.
  pose proof (holders_positive _ _ _ _ Hs (in_room_holds _ _ _ Ho)) as Hpos.
  pose proof (He ch) as Hch. pose proof (Hcount ch) as Hcch. rewrite bool_decide_eq_true_2 in Hcch by done.
  unfold room_exact in Hch. simpl in *.
  destruct (rooms m !! ch) as [e|] eqn:Ech; [|lia]. destruct Hch as (Hcl & Hp & Hk & Hr).
  assert (forall c, ch <> c -> forall m', rooms m' !! c = rooms m !! c ->
            (room_key c ∈ sink m -> room_key c ∈ sink m') -> room_exact m' ss' c) as Hother.
  { intros c Hne m' Hm Hk'. specialize (He c). unfold room_exact in *. rewrite Hm. simpl in He.
    specialize (Hcount c). rewrite bool_decide_eq_false_2 in Hcount by done.
    destruct (rooms m !! c) as [e'|]; [|lia]. destruct He as (?&?&?&Hr').
    split; [lia|]. split; [done|]. split; [auto|]. intros s' st r' Hl Hh.
    eapply Hr'; [by eapply Hold|done]. }
  destruct (Z.max 0 (clients e - 1) =? 0) eqn:Ez.
  - split; [|split; [|exact Hn]]; simpl.
    + destruct ok; [|done]. pose proof (room_key_control ch). set_solver.
    + intros c. destruct (decide (ch = c)) as [<-|Hne].
      * unfold room_exact. simpl. rewrite lookup_delete_eq. lia.
      * apply Hother; [done|simpl; by rewrite lookup_delete_ne|]. simpl.
        destruct ok; [|done]. intros Hin. apply elem_of_difference. split; [done|].
        rewrite elem_of_singleton. intros H%room_key_inj. congruence.
  - split; [exact Hc|]. split; [|exact Hn]. intros c. destruct (decide (ch = c)) as [<-|Hne].
    + unfold room_exact. simpl. rewrite lookup_insert_eq. simpl. split; [lia|]. split; [lia|].
      split; [done|]. intros s' st r' Hl Hh. eapply Hr; [by eapply Hold|done].
    + apply Hother; [done|simpl; by rewrite lookup_insert_ne|done].
Qed.
End Exactness.

Section Reachable.
Lemma restore_some chs accepted cand out :
  restore chs accepted cand = Some out ->
  cand ⊆ out /\ forall ch, In ch chs -> room_key ch ∈ out.
Proof.
  revert cand. induction chs as [|c chs IH]; intros cand; simpl; [by intros [= <-]|].
  destruct (accepted (room_key c)); [|done]. intros [Hsub Hin]%IH. split; [set_solver|].
  intros ch [<-|H]; [set_solver|by apply Hin].
Qed.

Lemma reconnect_exact m ss accepted m' :
  Exact (mkSystem m ss) -> reconnect accepted m = Some m' -> Exact (mkSystem m' ss).
Proof.
  intros (Hc & He & Hn). unfold reconnect. destruct (accepted control_key); [|done].
  destruct (restore _ _ _) as [cand|] eqn:E; [|done]. intros [= <-].
  apply restore_some in E as [Hsub Hin]. split; [simpl; set_solver|]. split; [|exact Hn].
  intros ch. specialize (He ch). unfold room_exact in *. simpl in *.
  destruct (rooms m !! ch) as [e|] eqn:Ech; [|done]. destruct He as (?&?&_&?).
  repeat split; try done. apply Hin, list_elem_of_In, list_elem_of_fmap. exists (ch, e).
  split; [done|]. by apply elem_of_map_to_list.
Qed.

(** A step of one socket that leaves the manager and what it holds. *)
Lemma idle_exact m ss s old st :
  Exact (mkSystem m ss) -> ss !! s = Some old -> holds st = holds old -> (forall c, st <> Closing c None) ->
  Exact (mkSystem m (<[s := st]> ss)).
Proof.
  intros (Hc & He & Hn) Hs Hh Hst. split; [exact Hc|]. split; simpl in *.
  - intros ch. specialize (He ch). unfold room_exact in *. simpl in *.
    assert (holders ch (<[s := st]> ss) = holders ch ss) as ->.
    { pose proof (holders_replace ch ss s old st Hs) as H. unfold in_room in H. rewrite Hh in H. lia. }
    destruct (rooms m !! ch) as [e|]; [|done]. destruct He as (?&?&?&Hr). repeat split; try done.
    intros s' st' r [[<- <-]|[_ Hl]]%lookup_insert_Some Hh'; [|by eapply Hr].
    rewrite Hh in Hh'. by eapply Hr.
  - intros s' c [[_ H]|[_ H]]%lookup_insert_Some; [by eapply Hst|by eapply Hn].
Qed.

(** Giving up the room: the socket moves to a state that holds nothing, or goes. *)
Lemma leave_counts ss s old ch r st :
  ss !! s = Some old -> holds old = Some (ch, r) -> holds st = None ->
  forall c, ((if ch ≟ c then 1 else 0) + holders c (<[s := st]> ss) = holders c ss)%nat.
Proof.
  intros Hs Ho Hst c. pose proof (holders_replace c ss s old st Hs) as H. unfold in_room in H.
  rewrite Ho, Hst in H. lia.
Qed.

Lemma step_exact sys l sys' : Exact sys -> step sys l sys' -> l <> SubscribeFailed -> Exact sys'.
Proof.
  intros He Hstep Hl. destruct Hstep as
    [m ss s ok r m' Hs Hsub|m ss ok m' Hsub|m ss s ch r ch' ok Hs|m ss s ch ok r m' Hs Hsub|
     m ss s ch ok m' Hs Hsub|m ss s ch r Hs|m ss s ch r ok Hs|m ss accepted m' Hr].
  - eapply subscribe_exact; [done|by left|done].
  - unfold manager_subscribe in Hsub. destruct (rooms m !! MAIN_CHANNEL), ok; simplify_eq. exact He.
  - eapply release_exact; [done|done|done|by eapply leave_counts| |].
    + intros s' st c r' [[<- <-]|[_ H]]%lookup_insert_Some Hh; done.
    + destruct He as (_ & _ & Hn). intros s' c [[_ ?]|[_ H]]%lookup_insert_Some; [done|by eapply Hn].
  - eapply subscribe_exact; [done|right; eexists; split; [done|done]|done].
  - done.
  - by eapply idle_exact.
  - destruct r as [r|]; [|by destruct (proj2 (proj2 He) s ch)].
    eapply release_exact; [done|done|done| | |].
    + intros c. rewrite (holders_split c ss s _ Hs). unfold in_room. simpl. done.
    + intros s' st c r' [_ H]%lookup_delete_Some _. done.
    + destruct He as (_ & _ & Hn). intros s' c [_ H]%lookup_delete_Some. by eapply Hn.
  - by eapply reconnect_exact.
Qed.

Lemma reachable_exact sys : reachable (fun l => l <> SubscribeFailed) sys -> Exact sys.
Proof.
  induction 1 as [|sys l sys' _ IH Hl Hstep]; [|by eapply step_exact].
  split; [simpl; set_solver|]. split; [|by intros s ch H].
  intros ch. unfold room_exact. simpl. unfold holders, count_entries. by rewrite map_filter_empty.
Qed.
End Reachable.

(** The room a broadcast event is meant for. *)
Definition event_channel (event : ServerEvent) : option rstr :=
  match event with
  | SvMessage m | SvMessageUpdated m => Some (msg_channel m)
  | SvReactionUpdated channel _ | SvTyping channel _ _ _ | SvParticipantJoined channel _
  | SvParticipantLeft channel _ | SvMembers channel _ => Some channel
  | _ => None
  end.
Definition is_members (event : ServerEvent) : bool :=
  match event with SvMembers _ _ => true | _ => false end.

Lemma route_room m event ch e :
  event_channel event = Some ch -> is_members event = false -> rooms m !! ch = Some e ->
  route m event = ToRoom (entry_sender e).
Proof. intros H Hm He. destruct event; simplify_eq/=; unfold to_room; by rewrite He. Qed.

(** C6. The room registry counts the sockets: in every state reachable while no
    room subscription fails, a room has an entry exactly when some socket is in
    it, the entry's count is the number of those sockets and positive, the
    Valkey subscription is held, and every event of the channel other than a
    member list reaches the very broadcast room each of its sockets listens to.
    *)
Theorem room_registry_exact sys ch :
  reachable (fun l => l <> SubscribeFailed) sys ->
  match rooms (manager sys) !! ch with
  | None => holders ch (sockets sys) = 0%nat
  | Some e =>
      clients e = Z.of_nat (holders ch (sockets sys)) /\ 0 < clients e
      /\ room_key ch ∈ sink (manager sys)
      /\ forall s r, sockets sys !! s = Some (InRoom ch r) ->
         forall event, event_channel event = Some ch -> is_members event = false ->
           route (manager sys) event = ToRoom r
  end.
Proof.
  intros (_ & He & _)%reachable_exact. specialize (He ch). unfold room_exact in He.
  destruct (rooms (manager sys) !! ch) as [e|] eqn:E; [|done].
  destruct He as (?&?&?&Hr). repeat split; try done. intros s r Hs event Hev Hm.
  rewrite (Hr s _ r Hs eq_refl). by eapply route_room.
Qed.

(** A failed channel switch releases a room the socket never entered: when
    the subscription to the new room fails, the closing socket releases the new
    channel, and with another socket already in that room the registry drops
    the room; that socket then receives nothing more. *)
Theorem failed_switch_closes_room :
  exists sys s ch r, reachable (fun _ => True) sys /\ sockets sys !! s = Some (InRoom ch r)
    /\ rooms (manager sys) !! ch = None /\ room_key ch ∉ sink (manager sys)
    /\ forall m, msg_channel m = ch -> route (manager sys) (SvMessage m) = Dropped.
Proof.
  set (x := rs "x").
  set (join c ok m := (manager_subscribe c ok m).2).
  set (m2 := join MAIN_CHANNEL true (join MAIN_CHANNEL true manager_start)).
  set (m4 := join x false (manager_release MAIN_CHANNEL true m2)).
  set (m6 := join x true (manager_release MAIN_CHANNEL true m4)).
  assert (reachable (fun _ => True)
    (mkSystem (manager_release x true m6)
       (delete 0%nat (<[1%nat := InRoom x 2]> (<[1%nat := Switching x]>
         (<[0%nat := Closing x None]> (<[0%nat := Switching x]>
           (<[1%nat := InRoom MAIN_CHANNEL 0]> (<[0%nat := InRoom MAIN_CHANNEL 0]> ∅))))))))) as Hr.
  { eapply reach_step; [|exact I|by eapply step_released].
    eapply reach_step; [|exact I|by eapply (step_subscribed (manager_release MAIN_CHANNEL true m4) _ 1 x true)].
    eapply reach_step; [|exact I|by eapply (step_switch _ _ 1 MAIN_CHANNEL)].
    eapply reach_step; [|exact I|by eapply (step_failed (manager_release MAIN_CHANNEL true m2) _ 0 x false)].
    eapply reach_step; [|exact I|by eapply (step_switch _ _ 0 MAIN_CHANNEL)].
    eapply reach_step; [|exact I|by eapply (step_connect (join MAIN_CHANNEL true manager_start) _ 1 true)].
    eapply reach_step; [|exact I|by eapply (step_connect manager_start _ 0 true)].
    apply reach_start. }
  eexists _, 1%nat, x, 2%nat. split; [exact Hr|]. split; [reflexivity|]. split; [reflexivity|].
  split; [|intros m E; unfold route, to_room; rewrite E; reflexivity].
  apply (bool_decide_unpack _). vm_compute. exact I.
Qed.

Section RetryDelay.
Lemma retry_delay_closed n : retry_delay n = Z.min (250 * 2 ^ Z.of_nat n) 10000.
Proof.
  induction n as [|n IH]; [done|]. change (retry_delay (S n)) with (next_room_retry_delay (retry_delay n)).
  rewrite IH. unfold next_room_retry_delay. rewrite Nat2Z.inj_succ, Z.pow_succ_r by lia. lia.
Qed.
End RetryDelay.

(** The reconnection delay doubles from a quarter of a second up to ten
    seconds, where it stays. *)
Theorem retry_delay_bounded n :
  250 <= retry_delay n <= 10000 /\ retry_delay n <= retry_delay (S n) <= 2 * retry_delay n
  /\ ((6 <= n)%nat -> retry_delay n = 10000).
Proof.
  rewrite !retry_delay_closed, Nat2Z.inj_succ, Z.pow_succ_r by lia.
  assert (1 <= 2 ^ Z.of_nat n) by (apply Z.pow_le_mono_r with (b := 0); lia).
  split; [lia|]. split; [lia|]. intros Hn.
  assert (2 ^ 6 <= 2 ^ Z.of_nat n) by (apply Z.pow_le_mono_r; lia). lia.
Qed.

(** The member list published after a membership change reaches no room:
    [route] drops [Members] events. *)
Theorem members_update_not_delivered {K} (name : rstr) env (w : World K) :
  healthy env -> pool_ok (w_pool w) -> (name ≟ control_key) = false ->
  exists members w', announce_members name env w = (Ok tt, w')
    /\ w_published w' = w_published w ++ [(room_key name, SvMembers name members)]
    /\ forall m, route m (SvMembers name members) = Dropped.
Proof.
  intros Hh Hp Hn. unfold announce_members, channel_members_of.
  rewrite run_bind, run_query by done. eexists. unfold attempt, broadcast, bind.
  rewrite run_connection by done. unfold control_key in Hn. rewrite Hn.
  rewrite run_publish by done. eexists. split; [reflexivity|]. done.
Qed.

(** ** Witnesses *)

Lemma room_registry_exact_witness :
  route (manager_subscribe MAIN_CHANNEL true manager_start).2
    (SvTyping MAIN_CHANNEL (uuid_of 1) (rs "alice") true) = ToRoom 0.
Proof.
  assert (reachable (fun l => l <> SubscribeFailed)
            (mkSystem (manager_subscribe MAIN_CHANNEL true manager_start).2
               (<[7%nat := InRoom MAIN_CHANNEL 0]> ∅))) as Hr.
  { eapply reach_step; [apply reach_start| |by eapply (step_connect manager_start ∅ 7 true)].
    discriminate. }
  destruct (room_registry_exact _ MAIN_CHANNEL Hr) as (_ & _ & _ & Hroute).
  exact (Hroute 7%nat 0%nat eq_refl (SvTyping MAIN_CHANNEL (uuid_of 1) (rs "alice") true) eq_refl eq_refl).
Defined.

Lemma members_update_not_delivered_witness :
  exists members w', announce_members (rs "team") (sample_env 5) (sample_world sample_db) = (Ok tt, w')
    /\ w_published w' = [(room_key (rs "team"), SvMembers (rs "team") members)].
Proof.
  destruct (members_update_not_delivered (rs "team") (sample_env 5) (sample_world sample_db)
              (fun _ => eq_refl) (conj eq_refl eq_refl) eq_refl) as (ms & w' & E & H & _).
  exists ms, w'. split; [exact E|exact H].
Defined.
