(* ===== verification/Fanout.v ===== *)
(** * Delivery to the sockets of a room

    [websocket/rooms.rs] and the select loop of [handle_socket]: what arrives
    over Pub/Sub is sent on to a [tokio::sync::broadcast] channel per room, or to
    the control channel, and every socket reads its receivers at its own pace.
    The registry is the one of [Rooms]; the broadcast channel is an interface. *)
From Stdlib Require Import String.
From S2P Require Export Rooms.
From S2P Require Import Reference.
Open Scope Z_scope.

(** ** [tokio::sync::broadcast] *)

(** What [recv] yields: a message, or the number of messages that were
    overwritten before this receiver read them. *)
Variant Item := Frame (text : rstr) | Gap (n : nat).

(** [channel] rounds its capacity up. A receiver sees the messages sent since it
    was created; one that falls behind by more than the capacity loses the
    oldest, is told how many, and goes on with the oldest retained. [recv] is
    [None] when it waits, or when no sender is left. *)
Class Broadcast (B : Type) := {
  channel : nat -> B;
  subscribe : B -> nat * B;
  send : rstr -> B -> B;
  recv : nat -> B -> option (Item * B);
  capacity_of : B -> nat;
  receivers : B -> nat -> Prop;
  unread : B -> nat -> list rstr;
  skipped : B -> nat -> nat;
  channel_capacity n : (n <= capacity_of (channel n))%nat;
  capacity_kept b :
    (forall m, capacity_of (send m b) = capacity_of b) /\ capacity_of (subscribe b).2 = capacity_of b
    /\ forall id i b', recv id b = Some (i, b') -> capacity_of b' = capacity_of b;
  subscribe_new b id b' :
    subscribe b = (id, b') -> ~ receivers b id /\ receivers b' id /\ unread b' id = [] /\ skipped b' id = 0%nat;
  subscribe_old b id b' other :
    subscribe b = (id, b') -> receivers b other ->
    receivers b' other /\ unread b' other = unread b other /\ skipped b' other = skipped b other;
  send_received m b id :
    receivers b id ->
    receivers (send m b) id
    /\ exists lost, unread b id ++ [m] = lost ++ unread (send m b) id
       /\ skipped (send m b) id = (skipped b id + length lost)%nat
       /\ (skipped (send m b) id <> 0 -> capacity_of b <= length (unread (send m b) id))%nat;
  recv_next b id :
    receivers b id ->
    match recv id b with
    | Some (Frame m, b') => skipped b id = 0%nat /\ unread b id = m :: unread b' id /\ skipped b' id = 0%nat
    | Some (Gap n, b') => skipped b id = n /\ n <> 0%nat /\ unread b' id = unread b id /\ skipped b' id = 0%nat
    | None => skipped b id = 0%nat /\ unread b id = []
    end;
  recv_others b id i b' other :
    recv id b = Some (i, b') -> receivers b other ->
    receivers b' other /\ (other <> id -> unread b' other = unread b other /\ skipped b' other = skipped b other)
}.

(** A concrete one: everything sent, and the place of each receiver. *)
Record Ring := mkRing { ring_capacity : nat; ring_log : list rstr; ring_cursors : list nat }.
Definition ring_oldest (q : Ring) : nat := (length (ring_log q) - ring_capacity q)%nat.
Definition ring_cursor (q : Ring) (id : nat) : nat := default 0%nat (ring_cursors q !! id).
Definition ring_recv (id : nat) (q : Ring) : option (Item * Ring) :=
  let c := ring_cursor q id in
  let move c' := mkRing (ring_capacity q) (ring_log q) (<[id := c']> (ring_cursors q)) in
  if (c <? ring_oldest q)%nat then Some (Gap (ring_oldest q - c), move (ring_oldest q))
  else match ring_log q !! c with Some m => Some (Frame m, move (S c)) | None => None end.
Definition ring_receivers (q : Ring) (id : nat) : Prop :=
  exists c, ring_cursors q !! id = Some c /\ (c <= length (ring_log q))%nat.

#[local] Program Instance ring_broadcast : Broadcast Ring := {|
  channel n := mkRing n [] [];
  subscribe q := (length (ring_cursors q), mkRing (ring_capacity q) (ring_log q) (ring_cursors q ++ [length (ring_log q)]));
  send m q := mkRing (ring_capacity q) (ring_log q ++ [m]) (ring_cursors q);
  recv := ring_recv;
  capacity_of := ring_capacity;
  receivers := ring_receivers;
  unread q id := drop (Nat.max (ring_cursor q id) (ring_oldest q)) (ring_log q);
  skipped q id := (ring_oldest q - ring_cursor q id)%nat
|}.
Next Obligation. done. Qed.
Next Obligation.
  intros q. split; [done|]. split; [done|]. intros id i b'. unfold ring_recv.
  destruct (_ <? _)%nat; [by intros [= <- <-]|]. destruct (_ !! _); by intros [= <- <-].
Qed.
Next Obligation.
  simpl. intros q id b' [= <- <-]. unfold ring_receivers, ring_cursor, ring_oldest. simpl.
  rewrite list_lookup_middle by done. simpl. split.
  - intros (c & Hc & _). apply lookup_lt_Some in Hc. lia.
  - split; [by exists (length (ring_log q))|]. split; [apply drop_ge|]; lia.
Qed.
Next Obligation.
  simpl. intros q id b' other [= <- <-] (c & Hc & Hl). unfold ring_receivers, ring_cursor, ring_oldest. simpl.
  rewrite lookup_app_l by (by eapply lookup_lt_Some). split; [by exists c|done].
Qed.
Next Obligation.
  simpl. intros m q id (c & Hc & Hl). unfold ring_receivers, ring_cursor, ring_oldest. simpl. rewrite Hc, length_app. simpl.
  split; [exists c; split; [done|lia]|]. set (n := length (ring_log q)) in *. set (k := ring_capacity q).
  set (u := drop (Nat.max c (n - k)) (ring_log q) ++ [m]).
  exists (take (Nat.max c (n + 1 - k) - Nat.max c (n - k)) u).
  assert (drop (Nat.max c (n + 1 - k)) (ring_log q ++ [m]) = drop (Nat.max c (n + 1 - k) - Nat.max c (n - k)) u) as ->.
  { unfold u. rewrite <- drop_app_le by lia. rewrite drop_drop. f_equal. lia. }
  rewrite take_drop, length_take, length_drop. unfold u. rewrite length_app, length_drop. simpl.
  fold n. split; [done|]. split; lia.
Qed.
Next Obligation.
  simpl. intros q id (c & Hc & Hl). unfold ring_recv, ring_cursor, ring_oldest. rewrite Hc. simpl.
  set (n := length (ring_log q)) in *. set (k := ring_capacity q).
  destruct (Nat.ltb_spec c (n - k)) as [Hlt|Hge].
  - simpl. rewrite list_lookup_insert_eq by (by eapply lookup_lt_Some). simpl.
    split; [done|]. split; [lia|]. split; [f_equal; lia|lia].
  - destruct (ring_log q !! c) as [m|] eqn:E.
    + simpl. rewrite list_lookup_insert_eq by (by eapply lookup_lt_Some). simpl.
      rewrite !Nat.max_l by lia. split; [lia|]. split; [by apply drop_S|fold n; fold k; lia].
    + apply lookup_ge_None in E. split; [lia|]. apply drop_ge. fold n in E |- *. lia.
Qed.
Next Obligation.
  simpl. intros q id i b' other H (c & Hc & Hl). unfold ring_recv in H.
  assert (forall c', (c' <= length (ring_log q))%nat ->
    ring_receivers (mkRing (ring_capacity q) (ring_log q) (<[id := c']> (ring_cursors q))) other
    /\ (other <> id -> ring_cursor (mkRing (ring_capacity q) (ring_log q) (<[id := c']> (ring_cursors q))) other = ring_cursor q other)) as Hx.
  { intros c' Hc'. unfold ring_receivers, ring_cursor. simpl. destruct (decide (id = other)) as [->|Hne].
    - rewrite list_lookup_insert_eq by (by eapply lookup_lt_Some). split; [by exists c'|done].
    - rewrite list_lookup_insert_ne by done. split; [by exists c|done]. }
  destruct (_ <? _)%nat.
  - injection H as <- <-. destruct (Hx (ring_oldest q)) as [Hr Hcur]; [unfold ring_oldest; lia|].
    split; [done|]. intros Hne. by rewrite (Hcur Hne).
  - destruct (ring_log q !! ring_cursor q id) eqn:E; [|done]. injection H as <- <-.
    destruct (Hx (S (ring_cursor q id))) as [Hr Hcur]; [apply lookup_lt_Some in E; lia|].
    split; [done|]. intros Hne. by rewrite (Hcur Hne).
Qed.

(** ** What a receiver has read *)

(** The frames read, with the gaps, account for [due] up to [rest]. *)
Inductive explains : list Item -> list rstr -> list rstr -> Prop :=
| explains_nil rest : explains [] rest rest
| explains_frame m items due rest : explains items due rest -> explains (Frame m :: items) (m :: due) rest
| explains_gap lost items due rest :
    explains items due rest -> explains (Gap (length lost) :: items) (lost ++ due) rest.

Lemma explains_snoc_frame items due m rest : explains items due (m :: rest) -> explains (items ++ [Frame m]) due rest.
Proof.
  remember (m :: rest) as r eqn:E. intros H. revert m rest E.
  induction H as [r|m' items due r _ IH|lost items due r _ IH]; intros m rest ->; simpl; constructor; auto. constructor.
Qed.
Lemma explains_snoc_gap items due lost rest :
  explains items due (lost ++ rest) -> explains (items ++ [Gap (length lost)]) due rest.
Proof.
  remember (lost ++ rest) as r eqn:E. intros H. revert lost rest E.
  induction H as [r|m' items due r _ IH|lost' items due r _ IH]; intros lost rest ->; simpl; constructor; auto. constructor.
Qed.
Lemma explains_more items due rest more : explains items due rest -> explains items (due ++ more) (rest ++ more).
Proof. induction 1; rewrite <- ?app_assoc; simpl; by constructor. Qed.

Definition frames (items : list Item) : list rstr :=
  omap (fun i => match i with Frame m => Some m | Gap _ => None end) items.
Definition no_gap (items : list Item) : Prop := Forall (fun i => match i with Frame _ => True | Gap _ => False end) items.

Lemma explains_frames items due rest : explains items due rest -> no_gap items -> due = frames items ++ rest.
Proof. induction 1; intros Hn; inversion Hn; subst; simpl; [done|f_equal; auto|done]. Qed.
Lemma explains_in items due rest m : explains items due rest -> In m (frames items) -> In m due.
Proof. induction 1; simpl; [done|intros [<-|]; [by left|right; auto]|intros; apply in_app_iff; right; auto]. Qed.

(** A receiver, and how many arrivals there had been when it was created. *)
Record Subscription := mkSubscription { receiver : nat; since : nat; got : list Item }.
Definition read_item (i : Item) (v : Subscription) : Subscription := mkSubscription (receiver v) (since v) (got v ++ [i]).

Section Feeds.
Context {B : Type} {Br : Broadcast B}.

(** The subscription has read, lost or not yet read exactly what is due to it. *)
Definition Feed (b : B) (v : Subscription) (due : list rstr) : Prop :=
  receivers b (receiver v)
  /\ exists lost, length lost = skipped b (receiver v)
       /\ explains (got v) due (lost ++ unread b (receiver v))
       /\ (lost <> [] -> capacity_of b <= length (unread b (receiver v)))%nat.

Lemma feed_new b id b' n : subscribe b = (id, b') -> Feed b' (mkSubscription id n []) [].
Proof.
  intros H. destruct (subscribe_new _ _ _ H) as (_ & Hr & Hu & Hs). split; [done|]. exists [].
  cbn [receiver got length]. rewrite Hu, Hs. split; [done|]. split; [constructor|done].
Qed.

Lemma feed_old b id b' v due : subscribe b = (id, b') -> Feed b v due -> Feed b' v due.
Proof.
  intros H (Hr & lost & Hl & He & Hc). destruct (subscribe_old _ _ _ _ H Hr) as (Hr' & Hu & Hs).
  split; [done|]. exists lost. rewrite Hu, Hs. split; [done|]. split; [done|].
  assert (capacity_of b' = capacity_of b) as ->; [|done].
  destruct (capacity_kept b) as (_ & Hk & _). by rewrite H in Hk.
Qed.

Lemma feed_send b v due m : Feed b v due -> Feed (send m b) v (due ++ [m]).
Proof.
  intros (Hr & lost & Hl & He & Hc). destruct (send_received m b _ Hr) as (Hr' & more & Hu & Hs & Hfull).
  split; [done|]. exists (lost ++ more). rewrite length_app. split; [lia|]. split.
  - rewrite <- app_assoc, <- Hu, app_assoc. by apply explains_more.
  - intros Hne. rewrite (proj1 (capacity_kept b)). apply Hfull. rewrite Hs, <- Hl.
    destruct lost, more; simpl in *; (done || lia).
Qed.

Lemma feed_read b v due i b' :
  recv (receiver v) b = Some (i, b') -> Feed b v due -> Feed b' (read_item i v) due.
Proof.
  intros H (Hr & lost & Hl & He & Hc). pose proof (recv_next b _ Hr) as Hn. rewrite H in Hn.
  destruct (recv_others _ _ _ _ _ H Hr) as [Hr' _].
  split; [done|]. exists []. cbn [receiver read_item got]. destruct i as [m|n].
  - destruct Hn as (Hs & Hu & Hs'). split; [by rewrite Hs'|]. split; [|done].
    apply explains_snoc_frame. simpl. rewrite <- Hu. by destruct lost; [|simpl in Hl; lia].
  - destruct Hn as (Hs & Hne & Hu & Hs'). split; [by rewrite Hs'|]. split; [|done].
    rewrite Hu. replace n with (length lost) by lia. by apply explains_snoc_gap.
Qed.

Lemma feed_other b v due id i b' :
  recv id b = Some (i, b') -> receiver v <> id -> Feed b v due -> Feed b' v due.
Proof.
  intros H Hne (Hr & lost & Hl & He & Hc). destruct (recv_others _ _ _ _ _ H Hr) as [Hr' Hsame].
  destruct (Hsame Hne) as [Hu Hs]. split; [done|]. exists lost. rewrite Hu, Hs. split; [done|]. split; [done|].
  by rewrite (proj2 (proj2 (capacity_kept b)) _ _ _ H).
Qed.

(** The subscriptions of a channel, by socket, with what is due to each: all are
    fed, by receivers of their own. *)
Definition Fed (b : B) (vs : nat -> option (Subscription * list rstr)) : Prop :=
  (forall s v due, vs s = Some (v, due) -> Feed b v due)
  /\ forall s s' v v' due due',
       vs s = Some (v, due) -> vs s' = Some (v', due') -> receiver v = receiver v' -> s = s'.

Lemma fed_fewer b vs vs' : Fed b vs -> (forall s x, vs' s = Some x -> vs s = Some x) -> Fed b vs'.
Proof. intros [Hf Hd] H. split; [intros s v due Hv; by apply (Hf s), H|]. intros s s' v v' due due' Hv Hv'. eauto. Qed.

Lemma fed_enter b vs vs' s id b' n :
  Fed b vs -> subscribe b = (id, b') ->
  vs' s = Some (mkSubscription id n [], []) -> (forall s' x, s' <> s -> vs' s' = Some x -> vs s' = Some x) -> Fed b' vs'.
Proof.
  intros [Hf Hd] Hsub Hs Ho. destruct (subscribe_new _ _ _ Hsub) as (Hfresh & _).
  assert (forall s' v due, s' <> s -> vs' s' = Some (v, due) -> receiver v <> id) as Hne.
  { intros s' v due Hss Hv <-. apply Hfresh. by destruct (Hf _ _ _ (Ho _ _ Hss Hv)). }
  split.
  - intros s' v due Hv. destruct (decide (s' = s)) as [->|Hss].
    + rewrite Hs in Hv. injection Hv as <- <-. by eapply feed_new.
    + eapply feed_old; [done|]. by apply (Hf s'), Ho.
  - intros s1 s2 v v' due due' H1 H2 E. destruct (decide (s1 = s)) as [->|H1s], (decide (s2 = s)) as [->|H2s]; try done.
    + rewrite Hs in H1. injection H1 as <- <-. by destruct (Hne _ _ _ H2s H2).
    + rewrite Hs in H2. injection H2 as <- <-. by destruct (Hne _ _ _ H1s H1).
    + eapply Hd; [by apply Ho|by apply Ho|done].
Qed.

Lemma fed_send b vs vs' m :
  Fed b vs ->
  (forall s v due', vs' s = Some (v, due') -> exists due, vs s = Some (v, due) /\ due' = due ++ [m]) ->
  Fed (send m b) vs'.
Proof.
  intros [Hf Hd] H. split.
  - intros s v due' Hv. destruct (H _ _ _ Hv) as (due & Hv' & ->). apply feed_send. by apply (Hf s).
  - intros s s' v v' due due' (d & Hv & _)%H (d' & Hv' & _)%H. eauto.
Qed.

Lemma fed_read b vs vs' s v due i b' :
  Fed b vs -> vs s = Some (v, due) -> recv (receiver v) b = Some (i, b') ->
  vs' s = Some (read_item i v, due) -> (forall s' x, s' <> s -> vs' s' = Some x -> vs s' = Some x) -> Fed b' vs'.
Proof.
  intros [Hf Hd] Hs Hr Hs' Ho. split.
  - intros s1 v1 due1 H1. destruct (decide (s1 = s)) as [->|Hne].
    + rewrite Hs' in H1. injection H1 as <- <-. eapply feed_read; [done|by apply (Hf s)].
    + eapply feed_other; [done| |by apply (Hf s1), Ho]. intros E. apply Hne. eapply Hd; [by apply Ho|done|done].
  - assert (forall s1 v1 d1, vs' s1 = Some (v1, d1) -> exists v0 d0, vs s1 = Some (v0, d0) /\ receiver v0 = receiver v1) as Hx.
    { intros s1 v1 d1 H1. destruct (decide (s1 = s)) as [->|Hne]; [|by exists v1, d1; split; [apply Ho|]].
      rewrite Hs' in H1. injection H1 as <- <-. by exists v, due. }
    intros s1 s2 v1 v2 d1 d2 (v1' & d1' & H1 & E1)%Hx (v2' & d2' & H2 & E2)%Hx E. eapply Hd; [done..|congruence].
Qed.
End Feeds.

(** ** The hub: registry, channels and receivers *)

(** What the manager sends on: a Pub/Sub payload, or its own notice that the
    connection was lost. *)
Variant Arrival := Payload (text : rstr) | Interrupted.

Definition quoted (s : string) : rstr := [34] ++ rs s ++ [34].
Definition interruption : rstr :=
  rs "{" ++ quoted "type" ++ rs ":" ++ quoted "error" ++ rs "," ++ quoted "message" ++ rs ":"
  ++ quoted "realtime connection interrupted" ++ rs "}".
Definition text_of (a : Arrival) : rstr := match a with Payload text => text | Interrupted => interruption end.

(** [WS_ROOM_EVENT_CAPACITY] *)
Definition room_event_capacity (var : option rstr) : Z :=
  clamp 128 65536
    (default 4096 (value ← var ≫= parse_unsigned u64_max; if 0 <? value then Some value else None)).

(** The sockets of the registry with their receivers; [history] is all that
    arrived, and where the manager sent it. *)
Record Hub (B : Type) := mkHub {
  registry : System;
  room_channels : gmap nat B;
  control : B;
  room_views : gmap nat Subscription;
  control_views : gmap nat Subscription;
  history : list (Arrival * Destination)
}.
Arguments mkHub {B}. Arguments registry {B}. Arguments room_channels {B}. Arguments control {B}.
Arguments room_views {B}. Arguments control_views {B}. Arguments history {B}.

(** The room of an event, as the manager routes it. *)
Definition routed_channel (event : ServerEvent) : option rstr :=
  match event with
  | SvMessage m | SvMessageUpdated m => Some (msg_channel m)
  | SvReactionUpdated channel _ | SvParticipants channel _ | SvParticipantJoined channel _
  | SvParticipantLeft channel _ | SvPresenceSync channel _ | SvTyping channel _ _ _ => Some channel
  | _ => None
  end.
Lemma route_sender m event r :
  route m event = ToRoom r ->
  exists ch e, routed_channel event = Some ch /\ rooms m !! ch = Some e /\ entry_sender e = r.
Proof.
  unfold route, to_room. destruct event as [| | | | | | | | |m'|m'| | | | | | | | |]; try done;
    (destruct (rooms m !! _) as [e|] eqn:E; [|done]; intros [= <-]; by eexists _, e).
Qed.
Lemma route_routed m event ch e :
  routed_channel event = Some ch -> rooms m !! ch = Some e -> route m event = ToRoom (entry_sender e).
Proof. unfold route, to_room. destruct event; intros [= <-] He; by rewrite He. Qed.

Section Hub.
Context {B : Type} {Br : Broadcast B}.
(** [serde_json::from_slice::<ServerEvent>], and the capacity of a room. *)
Context (decode : rstr -> option ServerEvent) (room_capacity : nat).
Notation Hub := (Hub B).

(** [RoomManager::start] *)
Definition hub_start : Hub := mkHub (mkSystem manager_start ∅) ∅ (channel 128) ∅ ∅ [].

Definition destination (m : Manager) (a : Arrival) : Destination :=
  match a with
  | Payload text => match decode text with Some event => route m event | None => Dropped end
  | Interrupted => ToControl
  end.
Definition arrive (a : Arrival) (hub : Hub) : Hub :=
  let d := destination (manager (registry hub)) a in
  let text := text_of a in
  mkHub (registry hub)
    (match d with ToRoom r => alter (send text) r (room_channels hub) | _ => room_channels hub end)
    (match d with ToControl => send text (control hub) | _ => control hub end)
    (room_views hub) (control_views hub) (history hub ++ [(a, d)]).

(** [subscribe_control] *)
Definition enter_control (s : nat) (hub : Hub) : Hub :=
  let (id, b) := subscribe (control hub) in
  mkHub (registry hub) (room_channels hub) b (room_views hub)
    (<[s := mkSubscription id (length (history hub)) []]> (control_views hub)) (history hub).

(** The manager's answer to [Subscribe], a receiver of the room's channel. *)
Definition enter (s : nat) (ch : rstr) (r : nat) (m : Manager) (hub : Hub) : Hub :=
  let (id, b) := subscribe (default (channel room_capacity) (room_channels hub !! r)) in
  mkHub (mkSystem m (<[s := InRoom ch r]> (sockets (registry hub)))) (<[r := b]> (room_channels hub)) (control hub)
    (<[s := mkSubscription id (length (history hub)) []]> (room_views hub)) (control_views hub) (history hub).

Definition with_registry (sys : System) (hub : Hub) : Hub :=
  mkHub sys (room_channels hub) (control hub) (room_views hub) (control_views hub) (history hub).

(** The branches of the select loop that read from a receiver; [None] is one
    that does not fire. *)
Definition read_room (s : nat) (hub : Hub) : option Hub :=
  match sockets (registry hub) !! s with
  | Some (InRoom _ r) =>
      v ← room_views hub !! s; b ← room_channels hub !! r; item ← recv (receiver v) b;
      Some (mkHub (registry hub) (<[r := item.2]> (room_channels hub)) (control hub)
              (<[s := read_item item.1 v]> (room_views hub)) (control_views hub) (history hub))
  | _ => None
  end.
Definition read_control (s : nat) (hub : Hub) : option Hub :=
  match sockets (registry hub) !! s with
  | Some (InRoom _ _) =>
      v ← control_views hub !! s; item ← recv (receiver v) (control hub);
      Some (mkHub (registry hub) (room_channels hub) item.2 (room_views hub)
              (<[s := read_item item.1 v]> (control_views hub)) (history hub))
  | _ => None
  end.

Inductive hub_step : Hub -> option Label -> Hub -> Prop :=
| hub_registry hub l sys :
    step (registry hub) l sys -> l <> Connect -> l <> Subscribed -> hub_step hub (Some l) (with_registry sys hub)
| hub_control hub s : sockets (registry hub) !! s = None -> hub_step hub None (enter_control s hub)
| hub_connect hub s ok r m :
    sockets (registry hub) !! s = None -> is_Some (control_views hub !! s) ->
    manager_subscribe MAIN_CHANNEL ok (manager (registry hub)) = (Some r, m) ->
    hub_step hub (Some Connect) (enter s MAIN_CHANNEL r m hub)
| hub_subscribed hub s ch ok r m :
    sockets (registry hub) !! s = Some (Switching ch) ->
    manager_subscribe ch ok (manager (registry hub)) = (Some r, m) ->
    hub_step hub (Some Subscribed) (enter s ch r m hub)
| hub_arrive hub a : hub_step hub None (arrive a hub)
| hub_read hub s hub' : read_room s hub = Some hub' -> hub_step hub None hub'
| hub_read_control hub s hub' : read_control s hub = Some hub' -> hub_step hub None hub'.

Inductive hub_reachable (allowed : Label -> Prop) : Hub -> Prop :=
| hub_reach_start : hub_reachable allowed hub_start
| hub_reach_step hub l hub' :
    hub_reachable allowed hub -> (forall l', l = Some l' -> allowed l') -> hub_step hub l hub' ->
    hub_reachable allowed hub'.

Lemma read_room_some s hub hub' :
  read_room s hub = Some hub' ->
  exists ch r v b i b', sockets (registry hub) !! s = Some (InRoom ch r) /\ room_views hub !! s = Some v
    /\ room_channels hub !! r = Some b /\ recv (receiver v) b = Some (i, b')
    /\ hub' = mkHub (registry hub) (<[r := b']> (room_channels hub)) (control hub)
                (<[s := read_item i v]> (room_views hub)) (control_views hub) (history hub).
Proof.
  unfold read_room. destruct (sockets _ !! s) as [[ch r| |]|]; try done.
  intros (v & Hv & (b & Hb & ([i b'] & Hr & [= <-])%bind_Some)%bind_Some)%bind_Some. by exists ch, r, v, b, i, b'.
Qed.
Lemma read_control_some s hub hub' :
  read_control s hub = Some hub' ->
  exists v i b', control_views hub !! s = Some v /\ recv (receiver v) (control hub) = Some (i, b')
    /\ hub' = mkHub (registry hub) (room_channels hub) b' (room_views hub)
                (<[s := read_item i v]> (control_views hub)) (history hub).
Proof.
  unfold read_control. destruct (sockets _ !! s) as [[ch r| |]|]; try done.
  intros (v & Hv & ([i b'] & Hr & [= <-])%bind_Some)%bind_Some. by exists v, i, b'.
Qed.

(** The registry moves as [Rooms] says. *)
Lemma hub_step_registry hub l hub' :
  hub_step hub l hub' ->
  registry hub' = registry hub \/ exists l', l = Some l' /\ step (registry hub) l' (registry hub').
Proof.
  destruct 1 as [hub l sys Hs _ _|hub s _|hub s ok r m Hn _ Hm|hub s ch ok r m Hw Hm|hub a|hub s hub' Hr|hub s hub' Hr];
    [| | | |by left|apply read_room_some in Hr as (? & ? & ? & ? & ? & ? & _ & _ & _ & _ & ->); by left
     |apply read_control_some in Hr as (? & ? & ? & _ & _ & ->); by left].
  - right. by exists l.
  - left. unfold enter_control. by destruct (subscribe _).
  - right. exists Connect. split; [done|]. unfold enter. destruct (subscribe _). simpl.
    destruct (registry hub). by eapply step_connect.
  - right. exists Subscribed. split; [done|]. unfold enter. destruct (subscribe _). simpl.
    destruct (registry hub). by eapply step_subscribed.
Qed.

Lemma hub_reachable_registry allowed hub : hub_reachable allowed hub -> reachable allowed (registry hub).
Proof.
  induction 1 as [|hub l hub' _ IH Hl Hs]; [constructor|].
  destruct (hub_step_registry _ _ _ Hs) as [->|(l' & -> & Hs')]; [done|]. eapply reach_step; [done| |done]. by apply Hl.
Qed.

(** What a step of the registry other than an entry does: no socket enters a
    room, and senders stay with their rooms. *)
Lemma step_leaves sys l sys' :
  step sys l sys' -> l <> Connect -> l <> Subscribed ->
  forall s ch r, sockets sys' !! s = Some (InRoom ch r) -> sockets sys !! s = Some (InRoom ch r).
Proof.
  destruct 1; intros H1 H2 s' c r' Hs; simpl in *; try done;
    try (by apply lookup_insert_Some in Hs as [[_ ?]|[_ ?]]); by apply lookup_delete_Some in Hs as [_ ?].
Qed.

Definition senders_kept (m m' : Manager) : Prop :=
  (next_sender m <= next_sender m')%nat
  /\ forall ch e', rooms m' !! ch = Some e' -> exists e, rooms m !! ch = Some e /\ entry_sender e = entry_sender e'.
Lemma release_senders ch ok m : senders_kept m (manager_release ch ok m).
Proof.
  unfold manager_release. destruct (rooms m !! ch) as [e|] eqn:E; [|by split; [|eauto]].
  destruct (_ =? 0); split; simpl; try lia; intros c e'.
  - intros [_ H]%lookup_delete_Some. eauto.
  - intros [[<- <-]|[_ H]]%lookup_insert_Some; eauto.
Qed.
Lemma refused_senders ch ok m m' : manager_subscribe ch ok m = (None, m') -> senders_kept m m'.
Proof. unfold manager_subscribe. destruct (rooms m !! ch), ok; intros [= <-]. split; simpl; eauto. Qed.
Lemma step_senders sys l sys' :
  step sys l sys' -> l <> Connect -> l <> Subscribed -> senders_kept (manager sys) (manager sys').
Proof.
  destruct 1 as [| | | | | | |m ss accepted m' Hr]; intros H1 H2; simpl in *; try done;
    try apply release_senders; try (by eapply refused_senders); [by split; [|eauto]|].
  unfold reconnect in Hr. destruct (accepted control_key); [|done]. destruct (restore _ _ _); [|done].
  injection Hr as <-. split; simpl; eauto.
Qed.

(** *** What is due to a receiver *)

Definition due (to : Destination -> bool) (v : Subscription) (h : list (Arrival * Destination)) : list rstr :=
  map (fun e => text_of e.1) (List.filter (fun e => to e.2) (drop (since v) h)).
Definition to_sender (r : nat) (d : Destination) : bool := match d with ToRoom r' => Nat.eqb r' r | _ => false end.
Definition to_control (d : Destination) : bool := match d with ToControl => true | _ => false end.

Lemma due_snoc to v h e :
  (since v <= length h)%nat -> due to v (h ++ [e]) = due to v h ++ (if to e.2 then [text_of e.1] else []).
Proof.
  intros Hs. unfold due. rewrite drop_app_le, List.filter_app, map_app by done. f_equal. simpl. by destruct (to e.2).
Qed.
Lemma due_new to id h got : due to (mkSubscription id (length h) got) h = [].
Proof. unfold due. simpl. by rewrite drop_all. Qed.

(** The receivers of a room's channel, and of the control channel. *)
Definition listeners (hub : Hub) (r s : nat) : option (Subscription * list rstr) :=
  match sockets (registry hub) !! s with
  | Some (InRoom _ r') =>
      if Nat.eqb r' r then (fun v => (v, due (to_sender r) v (history hub))) <$> room_views hub !! s else None
  | _ => None
  end.
Definition control_listeners (hub : Hub) (s : nat) : option (Subscription * list rstr) :=
  (fun v => (v, due to_control v (history hub))) <$> control_views hub !! s.

Lemma listeners_some hub r s v d :
  listeners hub r s = Some (v, d) <->
  (exists ch, sockets (registry hub) !! s = Some (InRoom ch r)) /\ room_views hub !! s = Some v
  /\ d = due (to_sender r) v (history hub).
Proof.
  unfold listeners. split.
  - destruct (_ !! s) as [[ch r'| |]|]; try done. destruct (Nat.eqb_spec r' r) as [->|]; [|done].
    destruct (room_views hub !! s); intros [= <- <-]. split; [by exists ch|done].
  - intros ([ch ->] & -> & ->). by rewrite Nat.eqb_refl.
Qed.

Record HubInv (hub : Hub) : Prop := {
  rooms_fed r b : room_channels hub !! r = Some b -> Fed b (listeners hub r) /\ (room_capacity <= capacity_of b)%nat;
  control_fed : Fed (control hub) (control_listeners hub) /\ (128 <= capacity_of (control hub))%nat;
  rooms_open s ch r :
    sockets (registry hub) !! s = Some (InRoom ch r) -> is_Some (room_channels hub !! r) /\ is_Some (room_views hub !! s);
  timely s v : room_views hub !! s = Some v \/ control_views hub !! s = Some v -> (since v <= length (history hub))%nat
}.

Lemma start_inv : HubInv hub_start.
Proof.
  split; simpl.
  - intros r b H. by rewrite lookup_empty in H.
  - split; [|apply channel_capacity]. by split.
  - intros s ch r H. by rewrite lookup_empty in H.
  - intros s v [H|H]; by rewrite lookup_empty in H.
Qed.

Lemma registry_inv hub l sys :
  HubInv hub -> step (registry hub) l sys -> l <> Connect -> l <> Subscribed -> HubInv (with_registry sys hub).
Proof.
  intros I Hs H1 H2. pose proof (step_leaves _ _ _ Hs H1 H2) as Hl. split; simpl.
  - intros r b Hb. destruct (rooms_fed _ I r b Hb) as [Hf Hc]. split; [|done]. eapply fed_fewer; [done|].
    intros s [v d] ((ch & Hs') & Hv & Hd)%listeners_some. apply listeners_some. split; [exists ch; by apply Hl|done].
  - apply I.
  - intros s ch r H. by eapply (rooms_open _ I), Hl.
  - apply I.
Qed.

Lemma enter_control_inv hub s : HubInv hub -> HubInv (enter_control s hub).
Proof.
  intros I. unfold enter_control. destruct (subscribe (control hub)) as [id b] eqn:E.
  destruct (control_fed _ I) as [Hf Hc]. split; simpl.
  - apply I.
  - split; [|by rewrite <- (proj1 (proj2 (capacity_kept (control hub)))), E in Hc].
    apply (fed_enter (control hub) (control_listeners hub) _ s id b (length (history hub))); [done|done| |];
      unfold control_listeners; simpl.
    + rewrite lookup_insert_eq. simpl. by rewrite due_new.
    + intros s' x Hne. by rewrite lookup_insert_ne.
  - apply I.
  - intros s' v [H|[[<- <-]|[_ H]]%lookup_insert_Some]; simpl; [apply (timely _ I s'); by left|done|apply (timely _ I s'); by right].
Qed.

Lemma enter_inv hub s ch r m : HubInv hub -> HubInv (enter s ch r m hub).
Proof.
  intros I. unfold enter. destruct (subscribe (default _ _)) as [id b] eqn:E.
  set (b0 := default (channel room_capacity) (room_channels hub !! r)) in *.
  assert (Fed b0 (listeners hub r) /\ (room_capacity <= capacity_of b0)%nat) as [Hf Hc].
  { unfold b0. destruct (room_channels hub !! r) as [b'|] eqn:Eb; simpl; [by apply I|].
    split; [|apply channel_capacity].
    assert (forall s' x, listeners hub r s' <> Some x) as Hno.
    { intros s' [v d] ((c & Hs) & _)%listeners_some. destruct (rooms_open _ I _ _ _ Hs) as [[? H] _]. congruence. }
    split; [intros s' v d H|intros s1 s2 v v' d d' H]; by apply Hno in H. }
  split; simpl.
  - intros r' b' [[<- <-]|[Hne Hb]]%lookup_insert_Some.
    + split; [|by rewrite <- (proj1 (proj2 (capacity_kept b0))), E in Hc].
      apply (fed_enter b0 (listeners hub r) _ s id b (length (history hub))); [done|done| |].
      * apply listeners_some. simpl. rewrite !lookup_insert_eq, due_new. split; [by exists ch|done].
      * intros s' [v d] Hss H. apply listeners_some in H. apply listeners_some. simpl in H.
        by rewrite !lookup_insert_ne in H.
    + destruct (rooms_fed _ I r' b' Hb) as [Hf' Hc']. split; [|done]. eapply fed_fewer; [done|].
      intros s' [v d] H. apply listeners_some in H as ((c & Hs) & Hv & Hd). apply listeners_some. simpl in *.
      apply lookup_insert_Some in Hs as [[_ [= _ ->]]|[Hss Hs]]; [done|]. rewrite lookup_insert_ne in Hv by done.
      split; [by exists c|done].
  - apply I.
  - intros s' c r' [[<- [= <- <-]]|[Hss Hs]]%lookup_insert_Some; [by rewrite !lookup_insert_eq|].
    destruct (rooms_open _ I _ _ _ Hs) as [? ?]. rewrite (lookup_insert_ne _ s s') by done. split; [|done].
    destruct (decide (r = r')) as [->|]; [by rewrite lookup_insert_eq|by rewrite lookup_insert_ne].
  - intros s' v [[[<- <-]|[_ H]]%lookup_insert_Some|H]; simpl; [done|apply (timely _ I s'); by left|apply (timely _ I s'); by right].
Qed.

Lemma arrive_listeners a hub r s v d :
  HubInv hub -> listeners (arrive a hub) r s = Some (v, d) ->
  exists d0, listeners hub r s = Some (v, d0)
    /\ d = d0 ++ (if to_sender r (destination (manager (registry hub)) a) then [text_of a] else []).
Proof.
  intros I (Hs & Hv & ->)%listeners_some. simpl in *. eexists. split; [by apply listeners_some|].
  apply due_snoc. apply (timely _ I s). by left.
Qed.

Lemma arrive_inv a hub : HubInv hub -> HubInv (arrive a hub).
Proof.
  intros I. pose proof (fun r s v d => arrive_listeners a hub r s v d I) as Hlist.
  set (d := destination (manager (registry hub)) a) in *. split.
  - intros r b Hb.
    assert (exists b0, room_channels hub !! r = Some b0 /\ b = if to_sender r d then send (text_of a) b0 else b0)
      as (b0 & Hb0 & ->).
    { simpl in Hb. fold d in Hb. destruct d as [r0| |]; simpl; [|by exists b..].
      apply lookup_alter_Some in Hb as [(<- & b0 & Hb0 & ->)|[Hne Hb]].
      - exists b0. by rewrite Nat.eqb_refl.
      - exists b. split; [done|]. by rewrite (proj2 (Nat.eqb_neq _ _)). }
    destruct (rooms_fed _ I r b0 Hb0) as [Hf Hc]. specialize (Hlist r). destruct (to_sender r d).
    + split; [|by rewrite (proj1 (capacity_kept b0))]. by eapply fed_send.
    + split; [|done]. eapply fed_fewer; [done|]. intros s [v d'] (d0 & H & ->)%Hlist. by rewrite app_nil_r.
  - destruct (control_fed _ I) as [Hf Hc]. simpl. fold d.
    assert (forall s v d', control_listeners (arrive a hub) s = Some (v, d') ->
      exists d0, control_listeners hub s = Some (v, d0) /\ d' = d0 ++ (if to_control d then [text_of a] else [])) as Hx.
    { intros s v d'. unfold control_listeners. simpl. fold d.
      destruct (control_views hub !! s) as [v0|] eqn:Ev; [|done]. intros [= <- <-]. eexists. split; [done|].
      apply due_snoc. apply (timely _ I s). by right. }
    destruct d; simpl in *;
      try (split; [|done]; eapply fed_fewer; [done|]; intros s [v d'] (d0 & H & ->)%Hx; by rewrite app_nil_r).
    split; [by eapply fed_send|by rewrite (proj1 (capacity_kept _))].
  - intros s ch r Hs. simpl in *. fold d. destruct (rooms_open _ I _ _ _ Hs) as [Hc Hv]. split; [|done].
    destruct d as [r0| |]; try done. destruct (decide (r0 = r)) as [->|Hne].
    + rewrite lookup_alter_eq. destruct Hc as [b ->]. by eexists.
    + by rewrite lookup_alter_ne.
  - intros s v H. simpl. rewrite length_app. pose proof (timely _ I s v H). lia.
Qed.

Lemma read_inv hub s hub' : HubInv hub -> read_room s hub = Some hub' -> HubInv hub'.
Proof.
  intros I (ch & r & v & b & i & b' & Hs & Hv & Hb & Hr & ->)%read_room_some. split; simpl.
  - intros r' b0 [[<- <-]|[Hne Hb0]]%lookup_insert_Some.
    + destruct (rooms_fed _ I r b Hb) as [Hf Hc]. split; [|by rewrite (proj2 (proj2 (capacity_kept b)) _ _ _ Hr)].
      apply (fed_read b (listeners hub r) _ s v (due (to_sender r) v (history hub)) i b'); try done.
      * apply listeners_some. split; [by exists ch|done].
      * apply listeners_some. simpl. rewrite lookup_insert_eq. split; [by exists ch|done].
      * intros s' [v' d'] Hss H. apply listeners_some in H. apply listeners_some. simpl in H. by rewrite lookup_insert_ne in H.
    + destruct (rooms_fed _ I r' b0 Hb0) as [Hf Hc]. split; [|done]. eapply fed_fewer; [done|].
      intros s' [v' d'] H. apply listeners_some in H as ((c & Hs') & Hv' & Hd). apply listeners_some. simpl in *.
      assert (s <> s') by congruence. rewrite lookup_insert_ne in Hv' by done. split; [by exists c|done].
  - apply I.
  - intros s' c r' Hs'. destruct (rooms_open _ I _ _ _ Hs') as [? ?]. split.
    + destruct (decide (r = r')) as [->|]; [by rewrite lookup_insert_eq|by rewrite lookup_insert_ne].
    + destruct (decide (s = s')) as [->|]; [by rewrite lookup_insert_eq|by rewrite lookup_insert_ne].
  - intros s' v' [[[<- <-]|[_ H]]%lookup_insert_Some|H]; simpl;
      [apply (timely _ I s); by left|apply (timely _ I s'); by left|apply (timely _ I s'); by right].
Qed.

Lemma read_control_inv hub s hub' : HubInv hub -> read_control s hub = Some hub' -> HubInv hub'.
Proof.
  intros I (v & i & b' & Hv & Hr & ->)%read_control_some. destruct (control_fed _ I) as [Hf Hc]. split; simpl.
  - apply I.
  - split; [|by rewrite (proj2 (proj2 (capacity_kept _)) _ _ _ Hr)].
    apply (fed_read (control hub) (control_listeners hub) _ s v (due to_control v (history hub)) i b'); try done;
      unfold control_listeners; simpl.
    + by rewrite Hv.
    + by rewrite lookup_insert_eq.
    + intros s' x Hne. by rewrite lookup_insert_ne.
  - apply I.
  - intros s' v' [H|[[<- <-]|[_ H]]%lookup_insert_Some]; simpl;
      [apply (timely _ I s'); by left|apply (timely _ I s); by right|apply (timely _ I s'); by right].
Qed.

Lemma hub_step_inv hub l hub' : HubInv hub -> hub_step hub l hub' -> HubInv hub'.
Proof.
  intros I. destruct 1; [by eapply registry_inv|by apply enter_control_inv|by apply enter_inv|by apply enter_inv
    |by apply arrive_inv|by eapply read_inv|by eapply read_control_inv].
Qed.

Lemma hub_reachable_inv allowed hub : hub_reachable allowed hub -> HubInv hub.
Proof. induction 1; [apply start_inv|by eapply hub_step_inv]. Qed.

(** *** Rooms keep to their events *)

Definition event_for (ch : rstr) (a : Arrival) : bool :=
  match a with
  | Payload text => match decode text with Some event => bool_decide (routed_channel event = Some ch) | None => false end
  | Interrupted => false
  end.

(** Every sender has belonged to one room, and carried its events only. *)
Definition Owned (hub : Hub) : Prop := exists owner : nat -> rstr,
  (forall ch e, rooms (manager (registry hub)) !! ch = Some e ->
     owner (entry_sender e) = ch /\ (entry_sender e < next_sender (manager (registry hub)))%nat)
  /\ (forall s ch r, sockets (registry hub) !! s = Some (InRoom ch r) ->
     owner r = ch /\ (r < next_sender (manager (registry hub)))%nat)
  /\ forall a r, In (a, ToRoom r) (history hub) ->
     event_for (owner r) a = true /\ (r < next_sender (manager (registry hub)))%nat.

Lemma destination_sender m a r :
  destination m a = ToRoom r -> exists ch e, event_for ch a = true /\ rooms m !! ch = Some e /\ entry_sender e = r.
Proof.
  destruct a as [text|]; [|done]. simpl. destruct (decode text) as [event|]; [|done].
  intros (ch & e & Hch & He & Hr)%route_sender. exists ch, e. by rewrite bool_decide_eq_true_2.
Qed.
Lemma destination_for m a ch e :
  event_for ch a = true -> rooms m !! ch = Some e -> destination m a = ToRoom (entry_sender e).
Proof.
  destruct a as [text|]; [|done]. simpl. destruct (decode text) as [event|]; [|done].
  intros Hch%bool_decide_eq_true. by apply route_routed.
Qed.

(** A subscription gives the sender of the room's entry, or a new one. *)
Lemma subscribe_sender ch ok m r m' :
  manager_subscribe ch ok m = (Some r, m') ->
  (exists e, rooms m' !! ch = Some e /\ entry_sender e = r)
  /\ (forall c e', c <> ch -> rooms m' !! c = Some e' -> rooms m !! c = Some e')
  /\ ((exists e, rooms m !! ch = Some e /\ entry_sender e = r /\ next_sender m' = next_sender m)
      \/ r = next_sender m /\ next_sender m' = S (next_sender m)).
Proof.
  unfold manager_subscribe. destruct (rooms m !! ch) as [e|] eqn:E; [|destruct ok; [|done]]; intros [= <- <-]; simpl.
  - rewrite lookup_insert_eq. split; [by eexists|]. split; [|left; by exists e].
    intros c e' Hne. by rewrite lookup_insert_ne.
  - rewrite lookup_insert_eq. split; [by eexists|]. split; [|by right].
    intros c e' Hne. by rewrite lookup_insert_ne.
Qed.

Lemma enter_owned hub s ch ok r m :
  Owned hub -> manager_subscribe ch ok (manager (registry hub)) = (Some r, m) -> Owned (enter s ch r m hub).
Proof.
  intros (owner & He & Hs & Hh) ((e0 & He0 & Er) & Hother & Hcase)%subscribe_sender.
  set (n := next_sender (manager (registry hub))) in *.
  exists (fun r' => if (r' <? n)%nat then owner r' else ch).
  unfold enter. destruct (subscribe _) as [id b]. simpl.
  assert (n <= next_sender m)%nat as Hn by (destruct Hcase as [(e & _ & _ & ->)|[_ ->]]; lia).
  assert ((if (r <? n)%nat then owner r else ch) = ch /\ (r < next_sender m)%nat) as Hr.
  { destruct Hcase as [(e & Ee & <- & ->)|[-> ->]].
    - destruct (He ch e Ee) as [Ho Hl]. by rewrite (proj2 (Nat.ltb_lt _ _)).
    - rewrite Nat.ltb_irrefl. split; [done|lia]. }
  assert (forall r' c, owner r' = c /\ (r' < n)%nat -> (if (r' <? n)%nat then owner r' else ch) = c /\ (r' < next_sender m)%nat) as Hold.
  { intros r' c [Ho Hl]. rewrite (proj2 (Nat.ltb_lt _ _)) by done. split; [done|lia]. }
  split; [|split].
  - intros c e Hc. destruct (decide (c = ch)) as [->|Hne]; [|by apply Hold, He, Hother].
    assert (e = e0) as -> by congruence. by rewrite Er.
  - intros s' c r' [[_ [= <- <-]]|[_ H]]%lookup_insert_Some; [done|]. by eapply Hold, Hs.
  - intros a r' Hin. destruct (Hh a r' Hin) as [Ha Hl]. rewrite (proj2 (Nat.ltb_lt _ _)) by done. split; [done|lia].
Qed.

Lemma hub_step_owned hub l hub' : Owned hub -> hub_step hub l hub' -> Owned hub'.
Proof.
  intros Hown Hstep.
  destruct Hstep as [hub l sys Hst H1 H2|hub s _|hub s ok r m Hn _ Hm|hub s ch ok r m Hw Hm|hub a|hub s hub' Hr|hub s hub' Hr].
  - destruct Hown as (owner & He & Hs & Hh).
    destruct (step_senders _ _ _ Hst H1 H2) as [Hn Hk]. exists owner. simpl. split; [|split].
    + intros ch e' (e & Hlook & <-)%Hk. destruct (He _ _ Hlook). split; [done|lia].
    + intros s ch r H. destruct (Hs s ch r) as [? ?]; [by eapply step_leaves|]. split; [done|lia].
    + intros a r [? ?]%Hh. split; [done|lia].
  - unfold enter_control. by destruct (subscribe _).
  - by eapply enter_owned.
  - by eapply enter_owned.
  - destruct Hown as (owner & He & Hs & Hh). exists owner. simpl. split; [done|]. split; [done|].
    intros a' r [Hin|[[= <- Hd]|[]]]%in_app_iff; [by apply Hh|].
    apply destination_sender in Hd as (ch & e & Ha & Hlook & <-). destruct (He _ _ Hlook) as [-> ?]. done.
  - by apply read_room_some in Hr as (? & ? & ? & ? & ? & ? & _ & _ & _ & _ & ->).
  - by apply read_control_some in Hr as (? & ? & ? & _ & _ & ->).
Qed.

Lemma hub_reachable_owned allowed hub : hub_reachable allowed hub -> Owned hub.
Proof.
  induction 1; [|by eapply hub_step_owned]. exists (fun _ => []). simpl. split; [|split]; intros ? ?; by rewrite ?lookup_empty.
Qed.

(** No event of a room goes elsewhere while a socket is in it. *)
Definition Heard (hub : Hub) : Prop := forall s ch r v e,
  sockets (registry hub) !! s = Some (InRoom ch r) -> room_views hub !! s = Some v ->
  In e (drop (since v) (history hub)) -> event_for ch e.1 = true -> e.2 = ToRoom r.

Lemma exact_sender sys s ch r :
  Exact sys -> sockets sys !! s = Some (InRoom ch r) ->
  exists e, rooms (manager sys) !! ch = Some e /\ entry_sender e = r.
Proof.
  intros (_ & He & _) Hs. specialize (He ch). unfold room_exact in He.
  destruct (rooms (manager sys) !! ch) as [e|].
  - exists e. split; [done|]. destruct He as (_ & _ & _ & Hr). symmetry. by eapply Hr.
  - pose proof (holders_positive ch _ s _ Hs (in_room_holds ch (InRoom ch r) r eq_refl)). lia.
Qed.

Lemma hub_step_heard hub l hub' :
  HubInv hub -> Exact (registry hub) -> Heard hub -> hub_step hub l hub' -> Heard hub'.
Proof.
  intros I Hex Hh Hstep.
  assert (forall s ch r m, Heard (enter s ch r m hub)) as Henter.
  { intros s ch r m s' c r' v e. unfold enter. destruct (subscribe _) as [id b]. simpl.
    intros [[<- [= <- <-]]|[Hne Hs]]%lookup_insert_Some Hv Hin.
    - rewrite lookup_insert_eq in Hv. injection Hv as <-. simpl in Hin. by rewrite drop_all in Hin.
    - rewrite lookup_insert_ne in Hv by done. by eapply Hh. }
  destruct Hstep as [hub l sys Hst H1 H2|hub s _|hub s ok r m Hn _ Hm|hub s ch ok r m Hw Hm|hub a|hub s hub' Hr|hub s hub' Hr].
  - intros s ch r v e Hs. simpl in *. eapply Hh. by eapply step_leaves.
  - unfold enter_control. by destruct (subscribe _).
  - apply Henter.
  - apply Henter.
  - intros s ch r v e Hs Hv Hin Ha. simpl in *. rewrite drop_app_le in Hin by (apply (timely _ I s); by left).
    apply in_app_iff in Hin as [Hin|[<-|[]]]; [by eapply Hh|]. simpl in *.
    destruct (exact_sender _ _ _ _ Hex Hs) as (entry & He & <-). by eapply destination_for.
  - apply read_room_some in Hr as (ch & r & v & i & i0 & b' & Hs & Hv & _ & _ & ->).
    intros s' c r' v' e Hs' Hv'. simpl in *. apply lookup_insert_Some in Hv' as [[<- <-]|[_ Hv']];
      [by apply (Hh s c r' v)|by eapply Hh].
  - by apply read_control_some in Hr as (? & ? & ? & _ & _ & ->).
Qed.

Definition no_failed_switch (l : Label) : Prop := l <> SubscribeFailed.

Lemma hub_reachable_heard hub : hub_reachable no_failed_switch hub -> Heard hub.
Proof.
  induction 1 as [|hub l hub' Hr IH _ Hs].
  - intros s ch r v e Hs. simpl in Hs. by rewrite lookup_empty in Hs.
  - eapply hub_step_heard; [by eapply hub_reachable_inv| |exact IH|exact Hs].
    by apply reachable_exact, (hub_reachable_registry no_failed_switch).
Qed.

(** The texts that arrived for a room since a socket entered it. *)
Definition arrived_for (ch : rstr) (v : Subscription) (h : list (Arrival * Destination)) : list rstr :=
  map (fun e => text_of e.1) (List.filter (fun e => event_for ch e.1) (drop (since v) h)).

(** The frames read in a room are events of the room. *)
Lemma frames_of_room allowed hub s ch r v text :
  hub_reachable allowed hub -> sockets (registry hub) !! s = Some (InRoom ch r) ->
  room_views hub !! s = Some v -> In text (frames (got v)) ->
  exists event, decode text = Some event /\ routed_channel event = Some ch.
Proof.
  intros Hreach Hs Hv Hin. destruct (hub_reachable_owned _ _ Hreach) as (owner & _ & Hsock & Hhist).
  pose proof (hub_reachable_inv _ _ Hreach) as I. destruct (rooms_open _ I _ _ _ Hs) as [[b Hb] _].
  destruct (rooms_fed _ I r b Hb) as [[Hfed _] _].
  destruct (Hfed s v (due (to_sender r) v (history hub))) as (_ & lost & _ & He & _);
    [apply listeners_some; split; [by exists ch|done]|].
  apply (explains_in _ _ _ _ He), in_map_iff in Hin as ([a d] & Ht & [Hd Hto]%filter_In). simpl in *.
  destruct d as [r'| |]; try done. apply Nat.eqb_eq in Hto as ->.
  assert (In (a, ToRoom r) (history hub)) as [Ha _]%Hhist by (rewrite <- (take_drop (since v)); apply in_app_iff; by right).
  destruct (Hsock _ _ _ Hs) as [<- _]. destruct a as [payload|]; [|done]. simpl in Ha, Ht. subst.
  destruct (decode text) as [event|]; [|done]. exists event. by apply bool_decide_eq_true in Ha.
Qed.

(** ** Theorems *)

(** C9. A socket in a room is sent the events of that room and of no other, whatever
    commands interleave and whatever fails. *)
Theorem room_isolated allowed hub s ch r v text :
  hub_reachable allowed hub -> sockets (registry hub) !! s = Some (InRoom ch r) ->
  room_views hub !! s = Some v -> In text (frames (got v)) ->
  exists event, decode text = Some event /\ routed_channel event = Some ch.
Proof. apply frames_of_room. Qed.

(** A socket in a room is fed what arrived for the room since it entered. *)
Lemma room_feed hub s ch r :
  hub_reachable no_failed_switch hub -> sockets (registry hub) !! s = Some (InRoom ch r) ->
  exists v b, room_views hub !! s = Some v /\ room_channels hub !! r = Some b
    /\ Feed b v (arrived_for ch v (history hub)) /\ (room_capacity <= capacity_of b)%nat.
Proof.
  intros Hreach Hs. pose proof (hub_reachable_inv _ _ Hreach) as I. pose proof (hub_reachable_heard _ Hreach) as Hh.
  destruct (hub_reachable_owned _ _ Hreach) as (owner & _ & Hsock & Hhist).
  destruct (rooms_open _ I _ _ _ Hs) as [[b Hb] [v Hv]]. destruct (rooms_fed _ I r b Hb) as [[Hfed _] Hcap].
  exists v, b. split; [done|]. split; [done|]. split; [|done].
  assert (due (to_sender r) v (history hub) = arrived_for ch v (history hub)) as <-.
  { unfold due, arrived_for. f_equal. apply filter_ext_in. intros [a d] Hin. simpl. apply eq_iff_eq_true. split.
    - destruct d as [r'| |]; try done. intros ->%Nat.eqb_eq.
      assert (In (a, ToRoom r) (history hub)) as [Ha _]%Hhist by (rewrite <- (take_drop (since v)); apply in_app_iff; by right).
      by destruct (Hsock _ _ _ Hs) as [<- _].
    - intros Ha. pose proof (Hh s ch r v (a, d) Hs Hv Hin Ha) as Hd. simpl in Hd. subst. apply Nat.eqb_refl. }
  apply (Hfed s). apply listeners_some. split; [by exists ch|done].
Qed.

(** C8. What a socket in a room has read, in order, is what arrived for the room
    since it entered: while no change of room fails nothing is missing, repeated
    or out of order but what the socket was told it missed, and what it has not
    read yet; and nothing is missed unless it is a whole buffer behind. *)
Theorem room_delivery hub s ch r :
  hub_reachable no_failed_switch hub -> sockets (registry hub) !! s = Some (InRoom ch r) ->
  exists v b lost, room_views hub !! s = Some v /\ room_channels hub !! r = Some b
    /\ explains (got v) (arrived_for ch v (history hub)) (lost ++ unread b (receiver v))
    /\ (lost <> [] -> room_capacity <= length (unread b (receiver v)))%nat
    /\ (no_gap (got v) -> arrived_for ch v (history hub) = frames (got v) ++ lost ++ unread b (receiver v)).
Proof.
  intros Hreach Hs. destruct (room_feed _ _ _ _ Hreach Hs) as (v & b & Hv & Hb & (_ & lost & _ & He & Hfull) & Hcap).
  exists v, b, lost. split; [done|]. split; [done|]. split; [done|]. split.
  - intros Hne. specialize (Hfull Hne). lia.
  - intros Hg. by apply explains_frames.
Qed.

(** *** The control channel *)

Definition for_control (a : Arrival) : bool :=
  match a with
  | Payload text =>
      match decode text with Some (SvChannelCreated _) | Some (SvChannelDeleted _) => true | _ => false end
  | Interrupted => true
  end.
Lemma destination_control m a : to_control (destination m a) = for_control a.
Proof.
  destruct a as [text|]; [|done]. simpl. destruct (decode text) as [event|]; [|done].
  destruct event; simpl; unfold to_room; try done; by destruct (rooms m !! _).
Qed.

Lemma hub_step_history hub l hub' :
  hub_step hub l hub' ->
  history hub' = history hub \/ exists a, history hub' = history hub ++ [(a, destination (manager (registry hub)) a)].
Proof.
  destruct 1 as [| | | |hub a|hub s hub' Hr|hub s hub' Hr]; try (by left); try (by right; exists a);
    try (left; unfold enter, enter_control; by destruct (subscribe _)).
  - left. by apply read_room_some in Hr as (? & ? & ? & ? & ? & ? & _ & _ & _ & _ & ->).
  - left. by apply read_control_some in Hr as (? & ? & ? & _ & _ & ->).
Qed.
Lemma history_control allowed hub a d :
  hub_reachable allowed hub -> In (a, d) (history hub) -> to_control d = for_control a.
Proof.
  induction 1 as [|hub l hub' _ IH _ Hs]; [done|].
  destruct (hub_step_history _ _ _ Hs) as [->|[a' ->]]; [done|].
  intros [Hin|[[= <- <-]|[]]]%in_app_iff; [by apply IH|apply destination_control].
Qed.

(** Every socket is told, from its connection on, of the channels created and
    deleted and of every interruption of the Pub/Sub connection, in order, unless
    it falls 128 notices behind. *)
Theorem control_delivery allowed hub s v :
  hub_reachable allowed hub -> control_views hub !! s = Some v ->
  exists lost,
    explains (got v) (map (fun e => text_of e.1) (List.filter (fun e => for_control e.1) (drop (since v) (history hub))))
      (lost ++ unread (control hub) (receiver v))
    /\ (lost <> [] -> 128 <= length (unread (control hub) (receiver v)))%nat.
Proof.
  intros Hreach Hv. destruct (control_fed _ (hub_reachable_inv _ _ Hreach)) as [[Hfed _] Hcap].
  destruct (Hfed s v (due to_control v (history hub))) as (_ & lost & _ & He & Hfull);
    [unfold control_listeners; by rewrite Hv|].
  exists lost. split; [|intros Hne; specialize (Hfull Hne); lia].
  assert (due to_control v (history hub)
    = map (fun e => text_of e.1) (List.filter (fun e => for_control e.1) (drop (since v) (history hub)))) as <-; [|done].
  unfold due. f_equal. apply filter_ext_in. intros [a d] Hin. apply (history_control allowed hub); [done|].
  rewrite <- (take_drop (since v)). apply in_app_iff. by right.
Qed.

(** *** Reading on *)

Fixpoint catch_up (fuel : nat) (s : nat) (hub : Hub) : Hub :=
  match fuel with
  | O => hub
  | S fuel' => match read_room s hub with Some hub' => catch_up fuel' s hub' | None => hub end
  end.

(** The reads left to a receiver: one tells what was lost, the others a frame
    each. *)
Definition reads_left (b : B) (id : nat) : nat :=
  (length (unread b id) + (if decide (skipped b id = 0%nat) then 0 else 1))%nat.

Lemma recv_reads_left b id i b' :
  receivers b id -> recv id b = Some (i, b') -> reads_left b id = S (reads_left b' id).
Proof.
  intros Hr H. pose proof (recv_next b id Hr) as Hn. rewrite H in Hn. unfold reads_left. destruct i as [m|n].
  - destruct Hn as (-> & -> & ->). simpl. lia.
  - destruct Hn as (-> & Hne & -> & ->). rewrite decide_False by done. simpl. lia.
Qed.
Lemma recv_none b id : receivers b id -> recv id b = None -> reads_left b id = 0%nat.
Proof. intros Hr H. pose proof (recv_next b id Hr) as Hn. rewrite H in Hn. unfold reads_left. by destruct Hn as [-> ->]. Qed.

Lemma catch_up_reachable allowed fuel s hub :
  hub_reachable allowed hub -> hub_reachable allowed (catch_up fuel s hub).
Proof.
  revert hub. induction fuel as [|fuel IH]; intros hub H; simpl; [done|].
  destruct (read_room s hub) as [hub'|] eqn:E; [|done]. apply IH. eapply hub_reach_step; [done| |by eapply hub_read]. done.
Qed.

Lemma catch_up_reads fuel s hub ch r v b :
  HubInv hub -> sockets (registry hub) !! s = Some (InRoom ch r) -> room_views hub !! s = Some v ->
  room_channels hub !! r = Some b -> (reads_left b (receiver v) <= fuel)%nat ->
  registry (catch_up fuel s hub) = registry hub /\ history (catch_up fuel s hub) = history hub
  /\ exists v' b', room_views (catch_up fuel s hub) !! s = Some v' /\ room_channels (catch_up fuel s hub) !! r = Some b'
       /\ since v' = since v /\ receiver v' = receiver v /\ reads_left b' (receiver v) = 0%nat.
Proof.
  revert hub v b. induction fuel as [|fuel IH]; intros hub v b I Hs Hv Hb Hl; simpl.
  { split; [done|]. split; [done|]. exists v, b. repeat split; try done. lia. }
  assert (receivers b (receiver v)) as Hr.
  { destruct (rooms_fed _ I r b Hb) as [[Hf _] _].
    apply (Hf s v (due (to_sender r) v (history hub))). apply listeners_some. split; [by exists ch|done]. }
  destruct (recv (receiver v) b) as [[i b']|] eqn:E.
  - assert (read_room s hub = Some (mkHub (registry hub) (<[r := b']> (room_channels hub)) (control hub)
      (<[s := read_item i v]> (room_views hub)) (control_views hub) (history hub))) as Hread.
    { unfold read_room. by rewrite Hs, Hv; simpl; rewrite Hb; simpl; rewrite E. }
    pose proof (read_inv _ _ _ I Hread) as I'. rewrite Hread.
    pose proof (recv_reads_left _ _ _ _ Hr E).
    destruct (IH _ (read_item i v) b' I') as (Hreg & Hhist & v' & b'' & ? & ? & ? & ? & ?); simpl;
      [done|by rewrite lookup_insert_eq..|lia|].
    split; [done|]. split; [done|]. by exists v', b''.
  - assert (read_room s hub = None) as -> by (unfold read_room; by rewrite Hs, Hv; simpl; rewrite Hb; simpl; rewrite E).
    split; [done|]. split; [done|]. exists v, b. repeat split; try done. by apply recv_none.
Qed.

(** A socket in a room that reads on is sent all that arrived, or told how much
    it missed: as many reads as are left bring it up to date. *)
Theorem room_catches_up hub s ch r :
  hub_reachable no_failed_switch hub -> sockets (registry hub) !! s = Some (InRoom ch r) ->
  exists n v0 v, registry (catch_up n s hub) = registry hub
    /\ room_views hub !! s = Some v0 /\ room_views (catch_up n s hub) !! s = Some v /\ since v = since v0
    /\ explains (got v) (arrived_for ch v (history hub)) [].
Proof.
  intros Hreach Hs. destruct (room_feed _ _ _ _ Hreach Hs) as (v & b & Hv & Hb & _).
  set (n := reads_left b (receiver v)). exists n, v.
  destruct (catch_up_reads n s hub ch r v b) as (Hreg & Hhist & v' & b' & Hv' & Hb' & Hsince & Hrec & Hleft);
    [by eapply hub_reachable_inv|done..|].
  destruct (room_feed (catch_up n s hub) s ch r) as (v2 & b2 & Hv2 & Hb2 & (_ & lost & Hl & He & _) & _);
    [by apply catch_up_reachable|by rewrite Hreg|].
  rewrite Hhist in He. exists v'. split; [done|]. split; [done|]. split; [done|]. split; [done|].
  rewrite Hv' in Hv2. rewrite Hb' in Hb2. injection Hv2 as <-. injection Hb2 as <-. rewrite <- Hrec in Hleft.
  unfold reads_left in Hleft. destruct (decide _) as [E|]; [|lia].
  assert (lost ++ unread b' (receiver v') = []) as Enil by (apply nil_length_inv; rewrite length_app; lia).
  by rewrite Enil in He.
Qed.
End Hub.

(** The capacity read from the environment is between 128 and 65536. *)
Lemma room_event_capacity_range var : 128 <= room_event_capacity var <= 65536.
Proof. unfold room_event_capacity, clamp. lia. Qed.

(** ** Witnesses *)

(** A decoder that knows two texts. *)
Definition sample_typing : ServerEvent := SvTyping MAIN_CHANNEL (uuid_of 1) (rs "alice") true.
Definition sample_decode (text : rstr) : option ServerEvent :=
  if text ≟ rs "typing" then Some sample_typing
  else if text ≟ rs "elsewhere" then Some (SvTyping (rs "team") (uuid_of 1) (rs "alice") true) else None.

(** Socket 7 enters the main room; an event of it arrives between others, and is
    read. *)
Definition sample_entered : Hub Ring :=
  enter 1 7 MAIN_CHANNEL 0 (manager_subscribe MAIN_CHANNEL true manager_start).2 (enter_control 7 hub_start).
Definition sample_hub : Hub Ring :=
  catch_up 5 7 (arrive sample_decode (Payload (rs "typing"))
    (arrive sample_decode (Payload (rs "elsewhere")) (arrive sample_decode (Payload (rs "noise")) sample_entered))).

Lemma sample_reachable : hub_reachable sample_decode 1 no_failed_switch sample_hub.
Proof.
  apply catch_up_reachable. do 3 (eapply hub_reach_step; [| |apply hub_arrive]; [|done]).
  apply (hub_reach_step _ _ _ (enter_control 7 hub_start) (Some Connect)).
  - eapply hub_reach_step; [apply hub_reach_start| |by apply (hub_control _ _ _ 7)]. done.
  - intros l [= <-]. discriminate.
  - apply (hub_connect _ _ _ 7 true); [reflexivity|eexists; reflexivity|reflexivity].
Qed.

Lemma room_isolated_witness :
  exists event, sample_decode (rs "typing") = Some event /\ routed_channel event = Some MAIN_CHANNEL.
Proof.
  eapply (room_isolated sample_decode 1 no_failed_switch sample_hub 7 MAIN_CHANNEL 0 _ (rs "typing") sample_reachable).
  - vm_compute. reflexivity.
  - vm_compute. reflexivity.
  - vm_compute. left. reflexivity.
Defined.

Lemma room_delivery_witness :
  exists v, room_views sample_hub !! 7%nat = Some v /\ arrived_for sample_decode MAIN_CHANNEL v (history sample_hub) = [rs "typing"].
Proof.
  destruct (room_delivery sample_decode 1 sample_hub 7 MAIN_CHANNEL 0 sample_reachable) as (v & b & lost & Hv & _).
  - vm_compute. reflexivity.
  - exists v. split; [exact Hv|]. vm_compute in Hv. injection Hv as <-. vm_compute. reflexivity.
Defined.

(** With a capacity of one, the first of two events is lost, and the socket is
    told. *)
Example slow_socket :
  got <$> room_views (catch_up 5 7 (arrive sample_decode (Payload (rs "typing"))
    (arrive sample_decode (Payload (rs "typing")) sample_entered))) !! 7%nat
  = Some [Gap 1; Frame (rs "typing")].
Proof. by vm_compute. Qed.
