(* ===== verification/Notify.v ===== *)
(** * Notifications

    [api/notifications.rs]: who is notified of a message, the rows written for
    them, the preferences, the push subscriptions and the profile. *)
From Stdlib Require Import String.
From S2P Require Export Repository.
From S2P Require Import Reference.
Open Scope m_scope.

(** ** Who is notified *)

Definition preference_of (d : Db) (user : Uuid) : option PreferenceRow :=
  first_row (fun p => np_user_id p ≟ user) (notification_preferences d).
(** [COALESCE(np.column, default)] over the left join. *)
Definition pref (get : PreferenceRow -> bool) (default : bool) (p : option PreferenceRow) : bool :=
  match p with Some p => get p | None => default end.

(** The arguments bound to the recipients query. *)
Record Mentioning := mkMentioning {
  mentioned_names : list rstr; channel_wide : bool; here_ids : list Uuid
}.

Section Recipients.
Context {U : Unicode}.

Definition wants (d : Db) (about : Mentioning) (c : ChannelRow) (u : UserRow) : bool :=
  let np := preference_of d (u_id u) in
  let member := is_member d (c_id c) (u_id u) in
  (bool_decide (pg_lower (u_username u) ∈ mentioned_names about) || channel_wide about
     || bool_decide (u_id u ∈ here_ids about))
    && pref np_mentions true np && ((c_kind c ≟ Public) || member)
  || (c_kind c ≟ Direct) && member && pref np_direct_messages true np
  || (c_kind c ≟ Private) && member && pref np_channel_messages false np
  || (c_kind c ≟ Public) && pref np_channel_messages false np.

Definition reachable_user (d : Db) (now : Z) (actor : Uuid) (c : ChannelRow) (u : UserRow) : bool :=
  negb (u_id u ≟ actor) && is_none (u_disabled_at u) && is_none (u_deleted_at u)
  && negb (channel_banned d now (u_id u) (c_id c)).

Record Candidate := mkCandidate {
  ca_channel : Uuid; ca_kind : ChannelKind; ca_user : Uuid; ca_username : rstr; ca_email : rstr;
  ca_mentions : bool; ca_email_enabled : bool; ca_browser : bool
}.

Definition candidate (d : Db) (c : ChannelRow) (u : UserRow) : Candidate :=
  let np := preference_of d (u_id u) in
  mkCandidate (c_id c) (c_kind c) (u_id u) (u_username u) (u_email u) (pref np_mentions true np)
    (pref np_email_enabled false np) (pref np_browser_push_enabled false np).

Definition sql_candidates (channel : rstr) (actor : Uuid) (now : Z) (about : Mentioning) (d : Db) :
    list Candidate :=
  concat (map (fun c =>
      map (candidate d c)
        (where_ (fun u => reachable_user d now actor c u && wants d about c u) (users d)))
    (where_ (active_channel channel) (channels d))).

Record Recipient := mkRecipient {
  r_id : Uuid; r_user : Uuid; r_channel : Uuid; r_email : rstr; r_kind : rstr; r_body : rstr;
  r_email_enabled : bool; r_browser_enabled : bool
}.

Definition notification_kind (about : Mentioning) (here : bool) (row : Candidate) : rstr :=
  let username := to_lowercase (ca_username row) in
  let is_mention :=
    ca_mentions row
    && (channel_wide about || here && bool_decide (ca_user row ∈ here_ids about)
        || existsb (fun candidate => candidate ≟ username) (mentioned_names about)) in
  if is_mention then rs "mention"
  else if ca_kind row ≟ Direct then rs "direct_message" else rs "channel_message".

Definition notification_body (actor channel kind : rstr) : rstr :=
  if kind ≟ rs "mention" then actor ++ rs " mentioned you in #" ++ channel
  else if kind ≟ rs "direct_message" then actor ++ rs " sent you a direct message"
  else actor ++ rs " posted in #" ++ channel.

Definition recipient (about : Mentioning) (here : bool) (actor channel : rstr) (id : Uuid) (row : Candidate) :
    Recipient :=
  let kind := notification_kind about here row in
  mkRecipient id (ca_user row) (ca_channel row) (ca_email row) kind
    (notification_body actor channel kind) (ca_email_enabled row) (ca_browser row).
End Recipients.

(** ** The two INSERTs *)

(** One statement over many rows: it fails as a whole. *)
Fixpoint exec_all {A R} (f : A -> Db -> Result SqlxError (R * Db)) (l : list A) (d : Db) :
    Result SqlxError (list R * Db) :=
  match l with
  | [] => Ok ([], d)
  | a :: l' =>
      match f a d with
      | Ok (r, d1) => match exec_all f l' d1 with Ok (rs, d2) => Ok (r :: rs, d2) | Err e => Err e end
      | Err e => Err e
      end
  end.

Definition notification_key (n : NotificationRow) : Uuid * option Uuid * rstr :=
  (n_user_id n, n_message_id n, n_kind n).
Definition fk_message (d : Db) (m : Uuid) : bool := exists_row (fun r => m_id r ≟ m) (messages d).

(** [... ON CONFLICT (user_id, message_id, kind) DO UPDATE SET body =
    EXCLUDED.body RETURNING id, user_id, kind] *)
Definition upsert_notification (actor message : Uuid) (created_at : Z) (r : Recipient) (d : Db) :
    Result SqlxError ((Uuid * Uuid * rstr) * Db) :=
  let key := (r_user r, Some message, r_kind r) in
  match first_row (fun n => notification_key n ≟ key) (notifications d) with
  | Some n =>
      Ok ((n_id n, n_user_id n, n_kind n),
          set_notifications (update_where (fun n => notification_key n ≟ key) (set_n_body (r_body r))) d)
  | None =>
      match insert_row n_id
              (fk_user d (r_user r) && fk_user d actor && fk_message d message
               && fk_channel d (r_channel r))
              notifications set_notifications
              (mkNotificationRow (r_id r) (r_user r) (Some actor) (r_kind r) (Some message)
                 (Some (r_channel r)) (r_body r) created_at None) d with
      | Ok (_, d') => Ok ((r_id r, r_user r, r_kind r), d')
      | Err e => Err e
      end
  end.

Record Delivery := mkDelivery {
  de_notification : Uuid; de_user : Uuid; de_channel : rstr; de_email : rstr; de_kind : rstr;
  de_body : rstr
}.

(** [notification_ids]: the last entry of a key wins in the map. *)
Definition notification_id_of (rows : list (Uuid * Uuid * rstr)) (user : Uuid) (kind : rstr) : option Uuid :=
  (fun r => r.1.1) <$> first_row (fun r => (r.1.2 ≟ user) && (r.2 ≟ kind)) (reverse rows).

Definition channels_of (r : Recipient) : list rstr :=
  (if r_email_enabled r then [rs "email"] else []) ++ (if r_browser_enabled r then [rs "browser"] else []).

Definition deliveries_of (rows : list (Uuid * Uuid * rstr)) (r : Recipient) : list Delivery :=
  match notification_id_of rows (r_user r) (r_kind r) with
  | None => []
  | Some id =>
      map (fun channel => mkDelivery id (r_user r) channel (r_email r) (r_kind r) (r_body r)) (channels_of r)
  end.

Definition delivery_key (x : DeliveryRow) : Uuid * rstr := (d_notification_id x, d_channel x).

(** [... ON CONFLICT (notification_id, channel) DO NOTHING] *)
Definition insert_delivery (now : Z) (item : Uuid * Delivery) (d : Db) : Result SqlxError (unit * Db) :=
  let x := item.2 in
  if exists_row (fun r => delivery_key r ≟ (de_notification x, de_channel x)) (notification_deliveries d)
  then Ok (tt, d)
  else insert_row d_id
         (exists_row (fun n => n_id n ≟ de_notification x) (notifications d) && fk_user d (de_user x))
         notification_deliveries set_notification_deliveries
         (mkDeliveryRow item.1 (de_notification x) (de_user x) (de_channel x) (de_email x) (de_kind x)
            (de_body x) 0 now None None None) d.

(** ** The handler *)

Section Create.
Context {K : Type} {T : UuidText} {U : Unicode}.
Notation M := (M K AppError).

(** [into_iter().map(...).collect()] of an effectful step. *)
Fixpoint collect {A B} (l : list A) (f : A -> M B) : M (list B) :=
  match l with
  | [] => ret []
  | a :: l' => b <- f a ;; bs <- collect l' f ;; ret (b :: bs)
  end.

(** [message.metadata.get("online_user_ids")...collect()] *)
Definition online_user_ids (metadata : json) : list Uuid :=
  match json_get metadata (rs "online_user_ids") ≫= json_as_array with
  | Some l => omap json_as_uuid l
  | None => []
  end.

Definition mentioning (actor : AuthUser) (message : ChatMessage) : Mentioning :=
  mkMentioning (extract_mentioned_usernames (msg_text message) (username actor))
    (mention_scope (msg_text message) ≟ Some ScopeChannel) (online_user_ids (msg_metadata message)).

Definition create_message_notifications (actor : AuthUser) (message : ChatMessage) : M unit :=
  let about := mentioning actor message in
  let here := mention_scope (msg_text message) ≟ Some ScopeHere in
  asked_at <- now_millis ;;
  rows <- query (sql_candidates (msg_channel message) (user_id actor) (as_i64 asked_at) about) ;;
  now <- now_millis ;;
  recipients <- collect rows (fun row =>
                  id <- now_v7 ;;
                  ret (recipient about here (username actor) (msg_channel message) id row)) ;;
  if is_empty recipients then ret tt else
  transaction (
    notified <- execute (exec_all
      (upsert_notification (user_id actor) (msg_id message) (as_i64 (msg_created_at message))) recipients) ;;
    items <- collect (concat (map (deliveries_of notified) recipients))
               (fun x => id <- now_v7 ;; ret (id, x)) ;;
    if is_empty items then ret tt
    else execute (exec_all (insert_delivery (as_i64 now)) items) ;; ret tt).

(** The message and its author, read back for a retry. *)
Definition sql_retry_message (actor message : Uuid) (d : Db) : option (AuthUser * ChatMessage) :=
  head (concat (map (fun mc =>
    map (fun u =>
        (mkAuthUser (u_id u) (u_email u) (u_username u) [] [],
         let m := mc.1 in
         mkChatMessage (m_id m) (c_name mc.2) (m_username m) (m_text m) (as_u64 (m_created_at m))
           (m_edited m) (is_some (m_deleted_at m)) (m_root_message_id m) 0 (m_metadata m)
           (m_mentions m) (m_client_id m) (file_ids_of d (m_id m))))
      (where_ (fun u => u_id u ≟ actor) (users d)))
    (where_ (fun mc => m_id mc.1 ≟ message) (messages_with_channel d)))).

Definition retry_message_notifications (actor_id message_id : Uuid) : M unit :=
  row <- query (sql_retry_message actor_id message_id) ;;
  match row with
  | None => ret tt
  | Some (actor, message) => create_message_notifications actor message
  end.
End Create.

(** ** Facts about the INSERTs *)

Section Statements.
Lemma exec_all_inv {A R} (f : A -> Db -> Result SqlxError (R * Db)) (P : Db -> Prop) l d out d' :
  (forall a d r d1, In a l -> P d -> f a d = Ok (r, d1) -> P d1) ->
  P d -> exec_all f l d = Ok (out, d') -> P d'.
Proof.
  revert d out. induction l as [|a l IH]; intros d out Hf Hd; simpl; [by intros [= <- <-]|].
  destruct (f a d) as [[r d1]|] eqn:E; [|done].
  destruct (exec_all f l d1) as [[rs d2]|] eqn:E2; [|done]. intros [= <- <-].
  eapply (IH d1); [|by eapply Hf; [left| |]|done]. intros; eapply Hf; eauto. by right.
Qed.

Lemma exec_all_still {A R} (f : A -> Db -> Result SqlxError (R * Db)) l out d :
  Forall2 (fun a r => f a d = Ok (r, d)) l out -> exec_all f l d = Ok (out, d).
Proof. induction 1 as [|a r l out E _ IH]; simpl; [done|]. by rewrite E, IH. Qed.

(** A property each step establishes for its own item, and every later step keeps. *)
Lemma exec_all_each {A R} (f : A -> Db -> Result SqlxError (R * Db)) (Q : A -> R -> Db -> Prop)
    (ok : A -> Prop) l d out d' :
  (forall a d r d1, ok a -> f a d = Ok (r, d1) -> Q a r d1) ->
  (forall a b d r r' d1, ok a -> ok b -> Q a r d -> f b d = Ok (r', d1) -> Q a r d1) ->
  Forall ok l -> exec_all f l d = Ok (out, d') -> Forall2 (fun a r => Q a r d') l out.
Proof.
  intros Hown Hkeep Hok. revert d out. induction Hok as [|a l Ha Hl IH]; intros d out; simpl.
  - intros [= <- <-]. constructor.
  - destruct (f a d) as [[r d1]|] eqn:E; [|done].
    destruct (exec_all f l d1) as [[rs d2]|] eqn:E2; [|done]. intros [= <- <-].
    constructor; [|by eapply IH]. pose proof (Hown _ _ _ _ Ha E) as HQ.
    revert HQ E2. clear -Hkeep Ha Hl. revert d1 rs. induction Hl as [|b l Hb Hl IH]; intros d1 rs HQ; simpl.
    + by intros [= <- <-].
    + destruct (f b d1) as [[r' d3]|] eqn:E; [|done].
      destruct (exec_all f l d3) as [[rs' d4]|] eqn:E2; [|done]. intros [= <- <-].
      eapply IH; [|done]. by eapply Hkeep.
Qed.

End Statements.

Section Settled.
Variables (message : Uuid).
Definition recipient_key (r : Recipient) : Uuid * option Uuid * rstr := (r_user r, Some message, r_kind r).

(** The notification of [r] is in the table under [out], with its text. *)
Definition Settled (r : Recipient) (out : Uuid * Uuid * rstr) (d : Db) : Prop :=
  (exists n, first_row (fun n => notification_key n ≟ recipient_key r) (notifications d) = Some n
     /\ out = (n_id n, r_user r, r_kind r))
  /\ forall n, In n (notifications d) -> notification_key n = recipient_key r -> n_body n = r_body r.

Lemma set_notifications_id d : set_notifications (fun _ => notifications d) d = d.
Proof. by destruct d. Qed.
Lemma body_key b n : notification_key (set_n_body b n) = notification_key n.
Proof. done. Qed.

Lemma upsert_shape actor at_ r d out d1 :
  upsert_notification actor message at_ r d = Ok (out, d1) ->
  (exists n, first_row (fun n => notification_key n ≟ recipient_key r) (notifications d) = Some n
     /\ out = (n_id n, r_user r, r_kind r)
     /\ d1 = set_notifications (update_where (fun n => notification_key n ≟ recipient_key r)
                                  (set_n_body (r_body r))) d)
  \/ (first_row (fun n => notification_key n ≟ recipient_key r) (notifications d) = None
      /\ out = (r_id r, r_user r, r_kind r)
      /\ d1 = set_notifications (fun t => t ++ [mkNotificationRow (r_id r) (r_user r) (Some actor)
                (r_kind r) (Some message) (Some (r_channel r)) (r_body r) at_ None]) d).
Proof.
  unfold upsert_notification. fold (recipient_key r).
  destruct (first_row _ _) as [n|] eqn:E.
  - intros [= <- <-]. left. exists n. split; [done|]. split; [|done].
    apply first_row_some in E as [_ E]. bool_simpl. unfold notification_key, recipient_key in E. congruence.
  - unfold insert_row. destruct (_ && _); [|done]. intros [= <- <-]. by right.
Qed.

Lemma upsert_settles actor at_ r d out d1 :
  upsert_notification actor message at_ r d = Ok (out, d1) -> Settled r out d1.
Proof.
  intros [(n & E & -> & ->)|(E & -> & ->)]%upsert_shape; split; simpl.
  - rewrite first_row_update by done. rewrite E. simpl. eexists. split; [done|].
    by destruct (_ ≟ _).
  - intros n' (n0 & Hin & ->)%in_update_where. destruct (notification_key n0 ≟ recipient_key r) eqn:En; [done|].
    bool_simpl. done.
  - rewrite first_row_app, E. unfold first_row. simpl.
    rewrite bool_decide_eq_true_2 by done. simpl. eauto.
  - intros n' [Hin|[<-|[]]]%in_app_iff Hk; [|done].
    apply first_row_none in E. rewrite exists_row_false in E. specialize (E n' Hin). by bool_simpl.
Qed.

Lemma upsert_keeps_settled actor at_ r r' d out out' d1 :
  (recipient_key r = recipient_key r' -> r_body r = r_body r') ->
  Settled r out d -> upsert_notification actor message at_ r' d = Ok (out', d1) -> Settled r out d1.
Proof.
  intros Hb [(n & E & ->) Hbody] [(n' & E' & -> & ->)|(E' & -> & ->)]%upsert_shape; split; simpl.
  - rewrite first_row_update by done. rewrite E. simpl. eexists. split; [done|].
    by destruct (_ ≟ _).
  - intros x (x0 & Hin & ->)%in_update_where. destruct (notification_key x0 ≟ recipient_key r') eqn:Ex.
    + bool_simpl. rewrite body_key. intros Hk. simpl. symmetry. apply Hb. congruence.
    + by apply Hbody.
  - rewrite first_row_app, E. eauto.
  - intros x [Hin|[<-|[]]]%in_app_iff Hk; [by apply Hbody|]. simpl. symmetry. by apply Hb.
Qed.

Lemma upsert_settled actor at_ r out d :
  Settled r out d -> upsert_notification actor message at_ r d = Ok (out, d).
Proof.
  intros [(n & E & ->) Hbody]. unfold upsert_notification. fold (recipient_key r). rewrite E.
  pose proof E as [_ Hk]%first_row_some. bool_simpl. unfold notification_key, recipient_key in Hk.
  do 2 f_equal; [congruence|]. destruct d. unfold set_notifications. simpl in *. f_equal.
  apply update_where_id. intros x Hin Hx. bool_simpl. specialize (Hbody x Hin Hx).
  destruct x. unfold set_n_body. simpl in *. congruence.
Qed.
End Settled.

Section Deliveries.
Definition Delivered (x : Delivery) (d : Db) : Prop :=
  exists_row (fun r => delivery_key r ≟ (de_notification x, de_channel x)) (notification_deliveries d) = true.

Lemma insert_delivery_shape now item d out d1 :
  insert_delivery now item d = Ok (out, d1) ->
  d1 = d \/ exists r, delivery_key r = (de_notification item.2, de_channel item.2)
              /\ d_user_id r = de_user item.2 /\ d_email r = de_email item.2
              /\ d1 = set_notification_deliveries (fun t => t ++ [r]) d.
Proof.
  unfold insert_delivery. destruct (exists_row _ _); [intros [= _ <-]; by left|].
  unfold insert_row. destruct (_ && _); [|done]. intros [= _ <-]. right.
  by exists (mkDeliveryRow item.1 (de_notification item.2) (de_user item.2) (de_channel item.2)
    (de_email item.2) (de_kind item.2) (de_body item.2) 0 now None None None).
Qed.
Lemma insert_delivery_delivers now item d out d1 :
  insert_delivery now item d = Ok (out, d1) -> Delivered item.2 d1.
Proof.
  unfold insert_delivery, Delivered. destruct (exists_row _ (notification_deliveries d)) eqn:E.
  - intros [= _ <-]. exact E.
  - unfold insert_row. destruct (_ && _); [|done]. intros [= _ <-]. simpl.
    apply exists_row_true. eexists. split; [apply in_app_iff; right; left; reflexivity|].
    by apply bool_decide_eq_true_2.
Qed.
Lemma insert_delivery_keeps now item x d out d1 :
  Delivered x d -> insert_delivery now item d = Ok (out, d1) -> Delivered x d1.
Proof.
  intros Hx [->|(r & _ & _ & _ & ->)]%insert_delivery_shape; [done|]. unfold Delivered in *. simpl.
  apply exists_row_true in Hx as (y & Hin & Hy). apply exists_row_true. exists y.
  rewrite in_app_iff. auto.
Qed.
Lemma insert_delivery_done now item d : Delivered item.2 d -> insert_delivery now item d = Ok (tt, d).
Proof. unfold Delivered, insert_delivery. by intros ->. Qed.
End Deliveries.

(** ** What a run writes *)

Section Runs.
Context {K : Type} {T : UuidText} {U : Unicode}.
Implicit Types (w : World K).

Lemma frame_collect R `{!FrameRel R} {A B} (l : list A) (f : A -> M K AppError B) :
  (forall a, Frame R (f a)) -> Frame R (collect l f).
Proof.
  intros Hf. induction l as [|a l IH]; simpl; [apply frame_ret; exact _|].
  apply frame_bind; [exact _|done|]. intros b. apply frame_bind; [exact _|done|].
  intros bs. apply frame_ret. exact _.
Qed.

Lemma wp_collect {A B} (P : A -> B -> Prop) (l : list A) (f : A -> M K AppError B) d :
  (forall a, wp (f a) (fun b d' => P a b /\ d' = d) (fun d' => d' = d) d) ->
  wp (collect l f) (fun bs d' => Forall2 P l bs /\ d' = d) (fun d' => d' = d) d.
Proof.
  intros Hf. induction l as [|a l IH]; simpl; [apply wp_ret; by split|].
  apply wp_bind. eapply wp_mono; [apply Hf| |done]. intros b d' [Hb ->].
  apply wp_bind. eapply wp_mono; [apply IH| |done]. intros bs d' [Hbs ->].
  apply wp_ret. by split; [constructor|].
Qed.

(** The recipients of the rows, each with a fresh identifier. *)
Definition recipients_of (actor : AuthUser) (message : ChatMessage) (rows : list Candidate)
    (l : list Recipient) : Prop :=
  Forall2 (fun row r => exists id,
    r = recipient (mentioning actor message) (mention_scope (msg_text message) ≟ Some ScopeHere)
          (username actor) (msg_channel message) id row) rows l.

Definition Wrote (actor : AuthUser) (message : ChatMessage) (rows : list Candidate) (d d' : Db) : Prop :=
  exists l notified items d1 now out,
    recipients_of actor message rows l
    /\ exec_all (upsert_notification (user_id actor) (msg_id message) (as_i64 (msg_created_at message))) l d
       = Ok (notified, d1)
    /\ map snd items = concat (map (deliveries_of notified) l)
    /\ exec_all (insert_delivery now) items d1 = Ok (out, d').

Lemma Forall2_snd {A B} (l : list B) (items : list (A * B)) :
  Forall2 (fun x item => item.2 = x) l items -> map snd items = l.
Proof. induction 1 as [|x item l items E _ IH]; simpl; [done|]. by rewrite E, IH. Qed.

Lemma create_wrote actor message env w r w' :
  create_message_notifications actor message env w = (r, w') ->
  let rows := sql_candidates (msg_channel message) (user_id actor) (as_i64 (env_clock env (w_step w)))
                (mentioning actor message) (w_db w) in
  (r = Ok tt -> Wrote actor message rows (w_db w) (w_db w'))
  /\ (w_db w' = w_db w \/ Wrote actor message rows (w_db w) (w_db w')).
Proof.
  intros Hr. unfold create_message_notifications in Hr. rewrite run_bind in Hr.
  cbn [now_millis] in Hr. rewrite run_bind in Hr. set (w1 := tick w) in *.
  set (t := as_i64 _) in Hr |- *. unfold query in Hr.
  destruct (env_fault env (w_step w1)); [|injection Hr as <- <-; split; [done|by left]..].
  change (w_db w1) with (w_db w) in Hr. set (rows := sql_candidates _ _ t _ _) in *. simpl.
  match type of Hr with ?m env (tick w1) = _ =>
    assert (wp m (fun _ d' => Wrote actor message rows (w_db w) d')
              (fun d' => d' = w_db w \/ Wrote actor message rows (w_db w) d') (w_db w)) as Hwp end.
  { apply wp_bind. wp_silent_step; [by left|]. rename a into now. apply wp_bind.
    eapply wp_mono; [apply (wp_collect (fun row r => exists id,
       r = recipient (mentioning actor message) (mention_scope (msg_text message) ≟ Some ScopeHere)
          (username actor) (msg_channel message) id row))| |by intros d' ->; left].
    { intros row. apply wp_bind. wp_silent_step. apply wp_ret. eauto. }
    intros l d' [Hl ->]. destruct (is_empty l) eqn:He.
    - apply wp_ret. destruct l; [|done]. exists [], [], [], (w_db w), 0, []. done.
    - apply wp_transaction; [by left|]. apply wp_bind, wp_execute; [done|]. intros notified d1 E1.
      split; [|done]. apply wp_bind.
      eapply wp_mono; [apply (wp_collect (fun x item => item.2 = x))| |done].
      { intros x. apply wp_bind. wp_silent_step. by apply wp_ret. }
      intros items d' [Hi%Forall2_snd ->]. destruct (is_empty items) eqn:Hie.
      + apply wp_ret. destruct items; [|done].
        assert (Wrote actor message rows (w_db w) d1) by (exists l, notified, [], d1, 0, []; done). auto.
      + apply wp_bind, wp_execute; [done|]. intros out d2 E2. split; [|done]. apply wp_ret.
        assert (Wrote actor message rows (w_db w) d2)
          by (exists l, notified, items, d1, (as_i64 now), out; done). auto. }
  specialize (Hwp env (tick w1) eq_refl). rewrite Hr in Hwp. destruct r as [[]|e]; [|split; [done|done]].
  split; [done|by right].
Qed.
End Runs.

Section Specifications.
Context {U : Unicode}.

(** Whom a candidate row stands for. *)
Definition Notifiable (d : Db) (now : Z) (actor : Uuid) (channel : rstr) (user channel_id : Uuid) : Prop :=
  exists c u, In u (users d) /\ u_id u = user /\ user <> actor
    /\ u_disabled_at u = None /\ u_deleted_at u = None
    /\ c_name c = channel /\ c_id c = channel_id /\ CanSee d now user c.

Lemma candidate_spec channel actor now about d row :
  In row (sql_candidates channel actor now about d) ->
  Notifiable d now actor channel (ca_user row) (ca_channel row)
  /\ ca_email_enabled row = pref np_email_enabled false (preference_of d (ca_user row))
  /\ ca_browser row = pref np_browser_push_enabled false (preference_of d (ca_user row)).
Proof.
  unfold sql_candidates. rewrite in_concat. intros (l & (c & <- & [Hc Ha]%in_where)%in_map_iff & Hrow).
  apply in_map_iff in Hrow as (u & <- & [Hu Hp]%in_where). split; [|done].
  unfold active_channel in Ha. rewrite andb_true_iff, bool_decide_eq_true, is_none_true in Ha.
  destruct Ha as [Hn Hd]. apply andb_true_iff in Hp as [Hr Hw]. unfold reachable_user in Hr.
  rewrite !andb_true_iff, !negb_true_iff, !is_none_true, bool_decide_eq_false in Hr.
  destruct Hr as (((Hne & Hdis) & Hdel) & Hban). exists c, u. repeat (split; [done|]). apply visible_to_spec; [done|done|].
  unfold visible_to. simpl. rewrite Hban, andb_true_r. unfold wants in Hw. apply orb_true_iff.
  rewrite !orb_true_iff, !andb_true_iff, !orb_true_iff in Hw. tauto.
Qed.
End Specifications.

Section Safety.
Context {K : Type} {T : UuidText} {U : Unicode}.
Implicit Types (w : World K).

(** What the first INSERT leaves in the table. *)
Definition notification_origin (d : Db) (message : Uuid) (l : list Recipient) (n : NotificationRow) : Prop :=
  (exists n0, In n0 (notifications d) /\ n_id n0 = n_id n /\ notification_key n0 = notification_key n)
  \/ exists r, In r l /\ n_user_id n = r_user r /\ n_message_id n = Some message
       /\ n_channel_id n = Some (r_channel r).

Lemma upsert_origin actor message at_ l d notified d1 :
  exec_all (upsert_notification actor message at_) l d = Ok (notified, d1) ->
  forall n, In n (notifications d1) -> notification_origin d message l n.
Proof.
  apply (exec_all_inv _ (fun d1 => forall n, In n (notifications d1) -> notification_origin d message l n)).
  - intros r d0 out d2 Hin IH [(_ & _ & _ & ->)|(_ & _ & ->)]%upsert_shape n Hn; simpl in Hn.
    + apply in_update_where in Hn as (n0 & Hn0 & ->). specialize (IH n0 Hn0).
      destruct (_ ≟ _); [|done]. exact IH.
    + apply in_app_iff in Hn as [Hn|[<-|[]]]; [by apply IH|]. right. by exists r.
  - intros n Hn. left. by exists n.
Qed.

Lemma deliveries_keep now items d out d1 :
  exec_all (insert_delivery now) items d = Ok (out, d1) -> notifications d1 = notifications d.
Proof.
  apply (exec_all_inv _ (fun d1 => notifications d1 = notifications d)); [|done].
  intros item d0 r d2 _ IH [->|(r' & _ & _ & _ & ->)]%insert_delivery_shape; done.
Qed.

Lemma deliveries_origin now items d out d1 :
  exec_all (insert_delivery now) items d = Ok (out, d1) ->
  forall x, In x (notification_deliveries d1) -> In x (notification_deliveries d)
    \/ exists item, In item items /\ d_channel x = de_channel item.2 /\ d_user_id x = de_user item.2.
Proof.
  apply (exec_all_inv _ (fun d1 => forall x, In x (notification_deliveries d1) ->
    In x (notification_deliveries d) \/ exists item, In item items
      /\ d_channel x = de_channel item.2 /\ d_user_id x = de_user item.2)); [|auto].
  intros item d0 r d2 Hin IH [->|(y & Hk & Hu & _ & ->)]%insert_delivery_shape x Hx; [by apply IH|].
  apply in_app_iff in Hx as [Hx|[<-|[]]]; [by apply IH|]. right. exists item.
  unfold delivery_key in Hk. injection Hk as _ Hc. done.
Qed.

(** C20. Nobody is notified about what they may not see: whatever fails, a
    notification in the database after [create_message_notifications] was there
    before under the same key, or is about this message, and its user is an
    active account other than the author who may read the channel at that time,
    with no ban in force. *)
Theorem notifications_visible actor message env w r w' n :
  create_message_notifications actor message env w = (r, w') ->
  In n (notifications (w_db w')) ->
  let now := as_i64 (env_clock env (w_step w)) in
  (exists n0, In n0 (notifications (w_db w)) /\ n_id n0 = n_id n
     /\ notification_key n0 = notification_key n)
  \/ n_message_id n = Some (msg_id message)
     /\ exists channel_id, n_channel_id n = Some channel_id
        /\ Notifiable (w_db w) now (user_id actor) (msg_channel message) (n_user_id n) channel_id.
Proof.
  intros Hr Hn now. apply create_wrote in Hr as [_ [E|Hw]].
  - left. exists n. by rewrite <- E.
  - destruct Hw as (l & notified & items & d1 & at_ & out & Hl & E1 & _ & E2).
    rewrite (deliveries_keep _ _ _ _ _ E2) in Hn.
    destruct (upsert_origin _ _ _ _ _ _ _ E1 n Hn) as [Hold|(rec & Hin & Hu & Hm & Hc)]; [by left|].
    right. split; [done|]. exists (r_channel rec). split; [done|].
    destruct (in_Forall2_r _ _ _ _ Hl Hin) as (row & Hrow & id & ->). rewrite Hu.
    by apply candidate_spec in Hrow as [Hrow _].
Qed.

(** An e-mail or browser delivery that [create_message_notifications] adds
    goes only to a user whose stored preferences enable that channel. *)
Theorem deliveries_opted_in actor message env w r w' x :
  create_message_notifications actor message env w = (r, w') ->
  In x (notification_deliveries (w_db w')) ->
  In x (notification_deliveries (w_db w))
  \/ exists p, In p (notification_preferences (w_db w)) /\ np_user_id p = d_user_id x
       /\ (d_channel x = rs "email" /\ np_email_enabled p = true
           \/ d_channel x = rs "browser" /\ np_browser_push_enabled p = true).
Proof.
  intros Hr Hx. apply create_wrote in Hr as [_ [E|Hw]]; [left; by rewrite <- E|].
  destruct Hw as (l & notified & items & d1 & at_ & out & Hl & E1 & Hitems & E2).
  destruct (deliveries_origin _ _ _ _ _ E2 x Hx) as [Hold|(item & Hin & Hc & Hu)].
  - left. revert Hold. enough (notification_deliveries d1 = notification_deliveries (w_db w)) as -> by done.
    revert E1. apply (exec_all_inv _ (fun d1 => notification_deliveries d1 = notification_deliveries (w_db w)));
      [|done]. intros rec d0 o d2 _ IH [(_ & _ & _ & ->)|(_ & _ & ->)]%upsert_shape; done.
  - right. apply (in_map snd) in Hin. rewrite Hitems in Hin. apply in_concat in Hin as (ds & Hds & Hin).
    apply in_map_iff in Hds as (rec & <- & Hrec). unfold deliveries_of in Hin.
    destruct (notification_id_of _ _ _) as [nid|]; [|done].
    apply in_map_iff in Hin as (ch & E & Hch). rewrite Hc, Hu, <- E. simpl.
    destruct (in_Forall2_r _ _ _ _ Hl Hrec) as (row & Hrow & id & ->).
    apply candidate_spec in Hrow as (_ & He & Hb). simpl in *. unfold channels_of in Hch. simpl in Hch.
    rewrite He, Hb in Hch. unfold preference_of in Hch.
    destruct (first_row _ _) as [p|] eqn:Ep; [|by simpl in Hch].
    apply first_row_some in Ep as [Hp Hid]. bool_simpl. exists p. split; [done|]. split; [done|]. simpl in Hch.
    apply in_app_iff in Hch as [Hch|Hch].
    + destruct (np_email_enabled p); [|done]. destruct Hch as [<-|[]]. by left.
    + destruct (np_browser_push_enabled p); [|done]. destruct Hch as [<-|[]]. by right.
Qed.

Lemma same_tables_candidates channel actor now about d d' :
  users d' = users d -> channels d' = channels d -> channel_members d' = channel_members d ->
  user_bans d' = user_bans d -> notification_preferences d' = notification_preferences d ->
  sql_candidates channel actor now about d' = sql_candidates channel actor now about d.
Proof.
  intros E1 E2 E3 E4 E5. unfold sql_candidates, candidate, reachable_user, wants, preference_of,
    is_member, channel_banned. by rewrite E1, E2, E3, E4, E5.
Qed.

Lemma wrote_frame actor message rows d d' :
  Wrote actor message rows d d' ->
  users d' = users d /\ channels d' = channels d /\ channel_members d' = channel_members d
  /\ user_bans d' = user_bans d /\ notification_preferences d' = notification_preferences d.
Proof.
  intros (l & notified & items & d1 & now & out & _ & E1 & _ & E2). revert E2.
  set (P := fun d' => users d' = users d /\ channels d' = channels d
    /\ channel_members d' = channel_members d /\ user_bans d' = user_bans d
    /\ notification_preferences d' = notification_preferences d).
  change (exec_all (insert_delivery now) items d1 = Ok (out, d') -> P d'). apply exec_all_inv.
  - intros item d0 r d2 _ IH [->|(r' & _ & _ & _ & ->)]%insert_delivery_shape; done.
  - revert E1. apply exec_all_inv; [|by unfold P].
    intros rec d0 r d2 _ IH [(_ & _ & _ & ->)|(_ & _ & ->)]%upsert_shape; done.
Qed.
End Safety.

(** ** Retries *)

Section Idempotence.
Context {K : Type} {T : UuidText} {U : Unicode}.
Implicit Types (w : World K).

Definition body_ok (actor channel : rstr) (r : Recipient) : Prop :=
  r_body r = notification_body actor channel (r_kind r).

Lemma recipients_body actor message rows l :
  recipients_of actor message rows l -> Forall (body_ok (username actor) (msg_channel message)) l.
Proof. induction 1 as [|row r rows l (id & ->) _ IH]; constructor; [|done]. done. Qed.

Lemma upsert_all_settled actor message at_ name channel l d notified d1 :
  Forall (body_ok name channel) l ->
  exec_all (upsert_notification actor message at_) l d = Ok (notified, d1) ->
  Forall2 (fun r o => Settled message r o d1) l notified.
Proof.
  apply (exec_all_each _ (fun r o d => Settled message r o d)).
  - intros r d0 o d2 _. apply upsert_settles.
  - intros r r' d0 o o' d2 Hb Hb' Hs. apply upsert_keeps_settled; [|done]. unfold body_ok in *.
    intros E. rewrite Hb, Hb'. unfold recipient_key in E. by replace (r_kind r') with (r_kind r) by congruence.
Qed.

(** Recipients of the same rows differ in their identifiers only. *)
Definition same_recipient (r r' : Recipient) : Prop :=
  r_user r = r_user r' /\ r_kind r = r_kind r' /\ r_body r = r_body r' /\ r_email r = r_email r'
  /\ r_email_enabled r = r_email_enabled r' /\ r_browser_enabled r = r_browser_enabled r'.

Lemma recipients_same actor message rows l l' :
  recipients_of actor message rows l -> recipients_of actor message rows l' -> Forall2 same_recipient l l'.
Proof.
  intros H. revert l'. induction H as [|row r rows l (id & ->) _ IH]; intros l' H';
    inversion H' as [|row' r' rows' l2 (id' & ->) H2]; subst; [constructor|]. constructor; [done|by apply IH].
Qed.

Lemma settled_same message r r' o d : same_recipient r r' -> Settled message r o d -> Settled message r' o d.
Proof. intros (Hu & Hk & Hb & _). unfold Settled, recipient_key. by rewrite Hu, Hk, Hb. Qed.

Lemma deliveries_same notified l l' :
  Forall2 same_recipient l l' -> map (deliveries_of notified) l = map (deliveries_of notified) l'.
Proof.
  induction 1 as [|r r' l l' (Hu & Hk & Hb & He & H1 & H2) _ IH]; simpl; [done|]. f_equal; [|done].
  unfold deliveries_of, channels_of. by rewrite Hu, Hk, Hb, He, H1, H2.
Qed.

Lemma Settled_notifications message r o d d' :
  notifications d' = notifications d -> Settled message r o d -> Settled message r o d'.
Proof. unfold Settled. by intros ->. Qed.

Lemma wrote_twice actor message rows d d' d'' :
  Wrote actor message rows d d' -> Wrote actor message rows d' d'' -> d'' = d'.
Proof.
  intros (l & notified & items & d1 & now & out & Hl & E1 & Hi & E2).
  intros (l' & notified' & items' & d2 & now' & out' & Hl' & E1' & Hi' & E2').
  pose proof (recipients_same _ _ _ _ _ Hl Hl') as Hsame.
  pose proof (upsert_all_settled _ _ _ _ _ _ _ _ _ (recipients_body _ _ _ _ Hl) E1) as Hset.
  assert (Forall2 (fun r o => upsert_notification (user_id actor) (msg_id message)
            (as_i64 (msg_created_at message)) r d' = Ok (o, d')) l' notified) as Hagain.
  { pose proof (deliveries_keep _ _ _ _ _ E2) as Hn. clear -Hset Hsame Hn. revert l' Hsame.
    induction Hset as [|r o l notified Hs _ IH]; intros l' Hsame; inversion Hsame; subst; constructor.
    - apply upsert_settled. by eapply Settled_notifications, settled_same.
    - by apply IH. }
  apply exec_all_still in Hagain. rewrite E1' in Hagain. injection Hagain as -> ->.
  assert (Forall2 (fun item _ => Delivered item.2 d') items out) as Hdone.
  { eapply (exec_all_each _ (fun (item : Uuid * Delivery) (_ : unit) d => Delivered item.2 d) (fun _ => True));
      [| | |exact E2].
    - intros item d0 r d2 _. apply insert_delivery_delivers.
    - intros item item' d0 r r' d2 _ _. apply insert_delivery_keeps.
    - by apply List.Forall_forall. }
  assert (exec_all (insert_delivery now') items' d' = Ok (map (fun _ => tt) items', d')) as Hstill.
  { apply exec_all_still. assert (forall x, In x (map snd items') -> Delivered x d') as Hall.
    { rewrite Hi', <- (deliveries_same _ _ _ Hsame), <- Hi. intros x (item & <- & Hin)%in_map_iff.
      by destruct (in_Forall2_l _ _ _ _ Hdone Hin) as (? & _ & ?). }
    clear -Hall. induction items' as [|item items' IH]; constructor.
    - apply insert_delivery_done, Hall. by left.
    - apply IH. intros x Hx. apply Hall. by right. }
  rewrite E2' in Hstill. congruence.
Qed.

(** C37. Retrying is harmless: when [create_message_notifications] succeeded and
    is run again for the same message on the database it left, with the same
    recipients, the database stays as it is, whatever fails the second time. *)
Theorem notifications_idempotent actor message env env2 w w1 (w2 : World K) :
  let candidates (now : Z) d :=
    sql_candidates (msg_channel message) (user_id actor) (as_i64 now) (mentioning actor message) d in
  create_message_notifications actor message env w = (Ok tt, w1) ->
  w_db w2 = w_db w1 ->
  candidates (env_clock env2 (w_step w2)) (w_db w) = candidates (env_clock env (w_step w)) (w_db w) ->
  w_db (create_message_notifications actor message env2 w2).2 = w_db w1.
Proof.
  intros candidates H1 Hdb Hcand. apply create_wrote in H1 as [H1 _]. specialize (H1 eq_refl). simpl in H1.
  destruct (create_message_notifications actor message env2 w2) as [r w3] eqn:E2.
  apply create_wrote in E2 as [_ [E|H2]]; simpl; [congruence|]. rewrite Hdb in H2. simpl in H2.
  destruct (wrote_frame _ _ _ _ _ H1) as (F1 & F2 & F3 & F4 & F5).
  unfold candidates in Hcand.
  rewrite (same_tables_candidates _ _ _ _ _ _ F1 F2 F3 F4 F5), Hcand in H2. by eapply wrote_twice.
Qed.
End Idempotence.

(** ** Witnesses *)

#[local] Existing Instance hyphenated_text.
#[local] Existing Instance ascii_unicode.

Definition notify_db : Db :=
  set_notification_preferences (fun _ => [mkPreferenceRow (uuid_of 2) true true false true false 0]) chat_db.
Notation notify_world := (sample_world notify_db).
Definition mention_bob : ChatMessage :=
  mkChatMessage (uuid_of 52) (rs "main") (rs "alice") (rs "hello @Bob") 8000000001 false false None 0
    json_empty [] None [].
Notation notify_run :=
  (create_message_notifications (K := Keyspace) (sample_auth 1 "alice" []) mention_bob (sample_env 5) notify_world)
  (only parsing).

Lemma notify_run_ok : exists w1, notify_run = (Ok tt, w1)
  /\ map (fun n => (n_user_id n, n_kind n)) (notifications (w_db w1)) = [(uuid_of 2, rs "mention")]
  /\ map (fun x => (d_user_id x, d_channel x)) (notification_deliveries (w_db w1)) = [(uuid_of 2, rs "email")].
Proof.
  destruct notify_run as [r w1] eqn:E. vm_compute in E. injection E as <- <-.
  eexists. split; [reflexivity|]. split; reflexivity.
Qed.

Lemma notifications_visible_witness :
  exists w1 n, notify_run = (Ok tt, w1) /\ In n (notifications (w_db w1)) /\ n_user_id n = uuid_of 2
    /\ exists channel_id, Notifiable notify_db 5 (uuid_of 1) (rs "main") (uuid_of 2) channel_id.
Proof.
  destruct notify_run_ok as (w1 & E & Hn & _). destruct (notifications (w_db w1)) as [|n l] eqn:El; [discriminate|].
  injection Hn as Hu _ _. exists w1, n. split; [exact E|]. rewrite El. split; [left; reflexivity|]. split; [exact Hu|].
  destruct (notifications_visible _ _ _ _ _ _ n E) as [(n0 & [] & _)|(_ & c & _ & H)].
  - rewrite El. left. reflexivity.
  - rewrite Hu in H. exists c. exact H.
Defined.

Lemma deliveries_opted_in_witness :
  exists w1 x, notify_run = (Ok tt, w1) /\ In x (notification_deliveries (w_db w1))
    /\ exists p, In p (notification_preferences notify_db) /\ np_user_id p = uuid_of 2.
Proof.
  destruct notify_run_ok as (w1 & E & _ & Hx). destruct (notification_deliveries (w_db w1)) as [|x l] eqn:El; [discriminate|].
  injection Hx as Hu _ _. exists w1, x. split; [exact E|]. rewrite El. split; [left; reflexivity|].
  destruct (deliveries_opted_in _ _ _ _ _ _ x E) as [[]|(p & Hp & Hid & _)].
  - rewrite El. left. reflexivity.
  - exists p. split; [exact Hp|]. rewrite Hid. exact Hu.
Defined.

Lemma notifications_idempotent_witness :
  exists w1, notify_run = (Ok tt, w1)
    /\ w_db (create_message_notifications (sample_auth 1 "alice" []) mention_bob (faulty_env 90 3 FaultAfter) w1).2
       = w_db w1.
Proof.
  destruct notify_run_ok as (w1 & E & _). exists w1. split; [exact E|].
  apply (notifications_idempotent _ _ (sample_env 5) _ notify_world w1 w1 E eq_refl).
  reflexivity.
Defined.
