(* ===== verification/NotifyApi.v ===== *)
(** * Notification settings and profiles

    The HTTP handlers of [api/notifications.rs] around [Notify]: the list, the
    preferences, the push subscriptions, and the profile. *)
From Stdlib Require Import String.
From S2P Require Export Notify.
From S2P Require Import Reference.
Open Scope m_scope.

(** The [url] crate's view of an absolute URL. *)
Record Url := mkUrl {
  url_scheme : rstr; url_host : option rstr; url_username : rstr; url_password : option rstr
}.
Class UrlText := { url_parse : rstr -> option Url }.

Record NotificationView := mkNotificationView {
  nv_id : Uuid; nv_kind : rstr; nv_message_id : option Uuid; nv_channel_id : option Uuid;
  nv_body : rstr; nv_created_at : Z; nv_read_at : option Z
}.
Record NotificationPreferencesView := mkPreferencesView {
  pv_mentions : bool; pv_direct_messages : bool; pv_channel_messages : bool;
  pv_email_enabled : bool; pv_browser_push_enabled : bool
}.
Record NotificationPreferencesUpdate := mkPreferencesUpdate {
  pu_mentions : option bool; pu_direct_messages : option bool; pu_channel_messages : option bool;
  pu_email_enabled : option bool; pu_browser_push_enabled : option bool
}.
Record NotificationSubscriptionView := mkSubscriptionView {
  sw_id : Uuid; sw_endpoint : rstr; sw_p256dh : rstr; sw_auth : rstr
}.
Record ProfileView := mkProfileView {
  pf_id : Uuid; pf_username : rstr; pf_display_name : rstr; pf_custom_status : rstr;
  pf_status_expires_at : option Z
}.

(** ** Statements *)

(** [ORDER BY created_at DESC, id DESC] *)
Definition notification_newest (a b : NotificationRow) : bool :=
  (n_created_at b <? n_created_at a) || ((n_created_at b =? n_created_at a) && uuid_leb (n_id b) (n_id a)).
Definition notification_view (n : NotificationRow) : NotificationView :=
  mkNotificationView (n_id n) (n_kind n) (n_message_id n) (n_channel_id n) (n_body n) (n_created_at n)
    (n_read_at n).
Definition sql_notifications (user : Uuid) (limit : Z) (d : Db) : list NotificationView :=
  map notification_view
    (limit_rows limit (order_by notification_newest
       (where_ (fun n => n_user_id n ≟ user) (notifications d)))).

Definition or_else {A} (o : option A) (default : A) : A := match o with Some a => a | None => default end.

(** [SET read_at=COALESCE(read_at,$1)] *)
Definition sql_mark_read (now : Z) (id user : Uuid) (d : Db) : Result SqlxError (unit * Db) :=
  Ok (tt, set_notifications (update_where (fun n => (n_id n ≟ id) && (n_user_id n ≟ user))
                               (fun n => set_n_read_at (Some (or_else (n_read_at n) now)) n)) d).

Definition preferences_view (p : PreferenceRow) : NotificationPreferencesView :=
  mkPreferencesView (np_mentions p) (np_direct_messages p) (np_channel_messages p)
    (np_email_enabled p) (np_browser_push_enabled p).

(** [INSERT ... ON CONFLICT (user_id) DO NOTHING RETURNING ...], the columns
    from their defaults *)
Definition sql_default_preferences (user : Uuid) (now : Z) (d : Db) :
    Result SqlxError (option NotificationPreferencesView * Db) :=
  match preference_of d user with
  | Some _ => Ok (None, d)
  | None =>
      let row := mkPreferenceRow user true true false false false now in
      match insert_row np_user_id (fk_user d user) notification_preferences set_notification_preferences row d with
      | Ok (_, d') => Ok (Some (preferences_view row), d')
      | Err e => Err e
      end
  end.

Definition updated_preferences (u : NotificationPreferencesUpdate) (now : Z) (p : PreferenceRow) : PreferenceRow :=
  mkPreferenceRow (np_user_id p) (or_else (pu_mentions u) (np_mentions p))
    (or_else (pu_direct_messages u) (np_direct_messages p))
    (or_else (pu_channel_messages u) (np_channel_messages p))
    (or_else (pu_email_enabled u) (np_email_enabled p))
    (or_else (pu_browser_push_enabled u) (np_browser_push_enabled p)) now.

Definition sql_upsert_preferences (user : Uuid) (u : NotificationPreferencesUpdate) (now : Z) (d : Db) :
    Result SqlxError (NotificationPreferencesView * Db) :=
  match preference_of d user with
  | Some p =>
      Ok (preferences_view (updated_preferences u now p),
          set_notification_preferences
            (update_where (fun p => np_user_id p ≟ user) (updated_preferences u now)) d)
  | None =>
      let row := updated_preferences u now (mkPreferenceRow user true true false false false now) in
      match insert_row np_user_id (fk_user d user) notification_preferences set_notification_preferences row d with
      | Ok (_, d') => Ok (preferences_view row, d')
      | Err e => Err e
      end
  end.

Definition subscription_newest (a b : SubscriptionRow) : bool :=
  (sub_updated_at b <? sub_updated_at a)
  || ((sub_updated_at b =? sub_updated_at a) && uuid_leb (sub_id b) (sub_id a)).
Definition subscription_view (s : SubscriptionRow) : NotificationSubscriptionView :=
  mkSubscriptionView (sub_id s) (sub_endpoint s) (sub_p256dh s) (sub_auth s).
Definition sql_subscriptions (user : Uuid) (d : Db) : list NotificationSubscriptionView :=
  map subscription_view (order_by subscription_newest
    (where_ (fun s => sub_user_id s ≟ user) (notification_subscriptions d))).

Definition subscription_key (s : SubscriptionRow) : Uuid * rstr := (sub_user_id s, sub_endpoint s).
(** [... ON CONFLICT (user_id,endpoint) DO UPDATE SET ... RETURNING ...] *)
Definition sql_save_subscription (id user : Uuid) (endpoint p256dh auth : rstr) (now : Z) (d : Db) :
    Result SqlxError (NotificationSubscriptionView * Db) :=
  let same := fun s => subscription_key s ≟ (user, endpoint) in
  match first_row same (notification_subscriptions d) with
  | Some s =>
      Ok (mkSubscriptionView (sub_id s) endpoint p256dh auth,
          set_notification_subscriptions
            (update_where same (fun s => mkSubscriptionRow (sub_id s) (sub_user_id s) (sub_endpoint s)
                                           p256dh auth (sub_created_at s) now)) d)
  | None =>
      match insert_row sub_id (fk_user d user) notification_subscriptions set_notification_subscriptions
              (mkSubscriptionRow id user endpoint p256dh auth now now) d with
      | Ok (_, d') => Ok (mkSubscriptionView id endpoint p256dh auth, d')
      | Err e => Err e
      end
  end.
Definition sql_delete_subscription (id user : Uuid) (d : Db) : Result SqlxError (unit * Db) :=
  Ok (tt, set_notification_subscriptions
            (delete_where (fun s => (sub_id s ≟ id) && (sub_user_id s ≟ user))) d).

(** [CASE WHEN status_expires_at IS NULL OR status_expires_at > $2 THEN ...] *)
Definition status_in_force (now : Z) (u : UserRow) : bool :=
  match u_status_expires_at u with None => true | Some t => now <? t end.
Definition present_user (user : Uuid) (u : UserRow) : bool := (u_id u ≟ user) && is_none (u_deleted_at u).
Definition sql_profile (user : Uuid) (now : Z) (d : Db) : option ProfileView :=
  (fun u => mkProfileView (u_id u) (u_username u) (u_display_name u)
              (if status_in_force now u then u_custom_status u else [])
              (if status_in_force now u then u_status_expires_at u else None))
  <$> first_row (present_user user) (users d).
Definition sql_update_profile (user : Uuid) (display status : rstr) (expires : option Z) (now : Z) (d : Db) :
    Result SqlxError (unit * Db) :=
  Ok (tt, set_users (update_where (present_user user)
        (fun u => set_u_updated_at now (set_u_status_expires_at expires
                    (set_u_custom_status status (set_u_display_name display u))))) d).

(** ** Handlers *)

Section Handlers.
Context {K : Type} {V : Valkey K} {T : UuidText} {J : JsonText} {L : UrlText}.
Notation M := (M K AppError).

Definition list_notifications (headers : HeaderMap) (limit : option Z) : M (list NotificationView) :=
  session <- load_session headers ;;
  query (sql_notifications (user_id (session_user session)) (clamp 1 100 (or_else limit 50))).

Definition mark_notification_read (headers : HeaderMap) (id : Uuid) : M unit :=
  session <- load_session headers ;;
  require_csrf headers session ;;
  now <- now_millis ;;
  execute (sql_mark_read (as_i64 now) id (user_id (session_user session))).

(** [fetch_one]: no row is an error. *)
Definition fetch_one {A} (f : Db -> option A) : M A :=
  row <- query f ;; ok_or row (from_err SqlxRowNotFound).

Definition notification_preferences_view (headers : HeaderMap) : M NotificationPreferencesView :=
  session <- load_session headers ;;
  let user := user_id (session_user session) in
  now <- now_millis ;;
  row <- execute (sql_default_preferences user (as_i64 now)) ;;
  match row with
  | Some row => ret row
  | None => fetch_one (fun d => preferences_view <$> preference_of d user)
  end.

(** The public key is [VAPID_PUBLIC_KEY]. *)
Definition notification_config (vapid_public_key : option rstr) (headers : HeaderMap) : M (option rstr) :=
  load_session headers ;;
  ret vapid_public_key.

Definition update_notification_preferences (headers : HeaderMap) (request : NotificationPreferencesUpdate) :
    M NotificationPreferencesView :=
  session <- load_session headers ;;
  require_csrf headers session ;;
  now <- now_millis ;;
  execute (sql_upsert_preferences (user_id (session_user session)) request (as_i64 now)).

Definition notification_subscriptions_view (headers : HeaderMap) : M (list NotificationSubscriptionView) :=
  session <- load_session headers ;;
  query (sql_subscriptions (user_id (session_user session))).

(** The checks of a push endpoint and of its keys. *)
Definition push_endpoint (raw : rstr) : Result AppError rstr :=
  let endpoint := trim raw in
  match url_parse endpoint with
  | None => Err (bad_request "invalid push endpoint")
  | Some url =>
      if negb (url_scheme url ≟ rs "https") || is_none (url_host url) || negb (is_empty (url_username url))
         || is_some (url_password url) || (2048 <? len endpoint)
      then Err (bad_request "push endpoint must be HTTPS")
      else Ok endpoint
  end.
Definition push_keys (raw_p256dh raw_auth : rstr) : Result AppError (rstr * rstr) :=
  let p256dh := trim raw_p256dh in
  let auth := trim raw_auth in
  if negb (in_range 16 512 (len p256dh)) || negb (in_range 8 256 (len auth))
  then Err (bad_request "invalid push subscription keys")
  else Ok (p256dh, auth).

Definition save_notification_subscription (headers : HeaderMap) (endpoint p256dh auth : rstr) :
    M NotificationSubscriptionView :=
  session <- load_session headers ;;
  require_csrf headers session ;;
  endpoint <- lift (push_endpoint endpoint) ;;
  keys <- lift (push_keys p256dh auth) ;;
  now <- now_millis ;;
  id <- now_v7 ;;
  execute (sql_save_subscription id (user_id (session_user session)) endpoint keys.1 keys.2 (as_i64 now)).

Definition delete_notification_subscription (headers : HeaderMap) (id : Uuid) : M unit :=
  session <- load_session headers ;;
  require_csrf headers session ;;
  execute (sql_delete_subscription id (user_id (session_user session))).

Definition profile (headers : HeaderMap) : M ProfileView :=
  session <- load_session headers ;;
  now <- now_millis ;;
  fetch_one (sql_profile (user_id (session_user session)) (as_i64 now)).

(** [.trim().chars().take(n).collect()] of an optional field *)
Definition short_text (n : nat) (o : option rstr) : rstr := take n (trim (or_else o [])).

Definition update_profile (headers : HeaderMap) (display_name custom_status : option rstr)
    (status_expires_at : option Z) : M ProfileView :=
  session <- load_session headers ;;
  require_csrf headers session ;;
  let user := session_user session in
  let display := short_text 80 display_name in
  let status := short_text 160 custom_status in
  (match status_expires_at with
   | None => ret tt
   | Some expires_at =>
       now <- now_millis ;;
       if expires_at <=? as_i64 now then throw (bad_request "status expiry must be in the future")
       else ret tt
   end) ;;
  now <- now_millis ;;
  execute (sql_update_profile (user_id user) display status status_expires_at (as_i64 now)) ;;
  ret (mkProfileView (user_id user) (username user) display status status_expires_at).
End Handlers.
