(* ===== verification/Outbox.v ===== *)
(** * The outbox and the delivery queue

    [outbox.rs] and [notifications/delivery.rs]: the two workers that claim rows
    for a minute, act on them and record the outcome. Rows locked by another
    claim are skipped; here every statement is one step, so none is. *)
From Stdlib Require Import String.
From S2P Require Export Notify Collections.
From S2P Require Import Reference.
Open Scope m_scope.

Definition CLAIM_TIMEOUT_MILLIS : Z := 60000.
Definition CLAIM_LIMIT : Z := 32.

(** ** Claims *)

Definition claim_expired (now : Z) (claimed_at : option Z) : bool :=
  match claimed_at with None => true | Some t => t <? now - CLAIM_TIMEOUT_MILLIS end.

Definition claimable (now : Z) (e : OutboxRow) : bool :=
  is_none (ob_published_at e) && (ob_attempts e <? 5) && claim_expired now (ob_claimed_at e).
(** [ORDER BY created_at, id] *)
Definition outbox_le (a b : OutboxRow) : bool :=
  (ob_created_at a <? ob_created_at b)
  || ((ob_created_at a =? ob_created_at b) && uuid_leb (ob_id a) (ob_id b)).
Definition next_events (now : Z) (d : Db) : list OutboxRow :=
  limit_rows CLAIM_LIMIT (order_by outbox_le (where_ (claimable now) (outbox_events d))).

Definition claim_event (now : Z) (e : OutboxRow) : OutboxRow :=
  set_ob_claimed_at (Some now) (set_ob_attempts (ob_attempts e + 1) e).
Definition claimed_among (next : list OutboxRow) (e : OutboxRow) : bool :=
  exists_row (fun e' => ob_id e' ≟ ob_id e) next.

Definition sql_claim_events (now : Z) (d : Db) : Result SqlxError (list (Uuid * rstr * json) * Db) :=
  let next := next_events now d in
  Ok (map (fun e => (ob_id e, ob_topic e, ob_payload e)) next,
      set_outbox_events (update_where (claimed_among next) (claim_event now)) d).

Definition sql_publish_event (now : Z) (id : Uuid) (d : Db) : Result SqlxError (unit * Db) :=
  Ok (tt, set_outbox_events (update_where (fun e => (ob_id e ≟ id) && is_none (ob_published_at e))
            (fun e => set_ob_published_at (Some now) (set_ob_claimed_at None e))) d).
Definition sql_release_event (id : Uuid) (d : Db) : Result SqlxError (unit * Db) :=
  Ok (tt, set_outbox_events (update_where (fun e => (ob_id e ≟ id) && is_none (ob_published_at e))
            (set_ob_claimed_at None)) d).

(** ** Dispatch *)

Section Outbox.
Context {K : Type} {V : Valkey K} {T : UuidText} {U : Unicode}.
Notation M := (M K).

Definition claim_events (now : Z) : M SqlxError (list (Uuid * rstr * json)) :=
  execute (sql_claim_events now).

(** [PUBLISH] on a channel no part of the program subscribes to. *)
Definition publish_unheard : M AppError unit := fun env w =>
  match env_fault env (w_step w) with
  | NoFault => (Ok tt, tick w)
  | _ => (Err (from_err RedisIo), tick w)
  end.

Definition json_uuid_field (payload : json) (field : string) : option Uuid :=
  json_get payload (rs field) ≫= json_as_uuid.

Definition handle_auth_invalidate (payload : json) : M AppError unit :=
  user <- ok_or (json_uuid_field payload "user_id") (bad_request "invalid auth invalidation payload") ;;
  connection ;;
  session_ids <- command (Smembers (user_sessions_key user)) ;;
  (let keys := map session_key (omap uuid_parse session_ids) in
   if is_empty keys then ret tt else command (Del keys) ;; ret tt) ;;
  command (Del [user_sessions_key user]) ;;
  publish_unheard.

Definition notification_retry_ids (payload : json) : Result AppError (Uuid * Uuid) :=
  match json_uuid_field payload "actor_id", json_uuid_field payload "message_id" with
  | Some actor, Some message => Ok (actor, message)
  | _, _ => Err (bad_request "invalid notification retry payload")
  end.

Definition handle_notification_retry (payload : json) : M AppError unit :=
  ids <- lift (notification_retry_ids payload) ;;
  retry_message_notifications ids.1 ids.2.

Definition dispatch (topic : rstr) (payload : json) : M AppError unit :=
  if topic ≟ rs "auth.invalidate" then handle_auth_invalidate payload
  else if topic ≟ rs "message.notifications" then handle_notification_retry payload
  else ret tt.

Definition finish_event (id : Uuid) (delivered : bool) : M SqlxError unit :=
  if delivered then now <- now_millis ;; execute (sql_publish_event (as_i64 now) id)
  else execute (sql_release_event id).

(** One turn of [run_outbox]; failures are logged. *)
Definition outbox_round : M SqlxError unit :=
  now <- now_millis ;;
  rows <- attempt (F := SqlxError) (claim_events (as_i64 now)) ;;
  match rows with
  | Err _ => ret tt
  | Ok rows =>
      for_each rows (fun '(id, topic, payload) =>
        result <- attempt (dispatch topic payload) ;;
        attempt (F := SqlxError) (finish_event id (is_ok result)) ;;
        ret tt)
  end.
End Outbox.

(** ** The delivery queue *)

Definition deliverable (now : Z) (x : DeliveryRow) : bool :=
  is_none (d_sent_at x) && (d_next_attempt_at x <=? now) && claim_expired now (d_claimed_at x).
Definition delivery_le (a b : DeliveryRow) : bool :=
  (d_next_attempt_at a <? d_next_attempt_at b)
  || ((d_next_attempt_at a =? d_next_attempt_at b) && uuid_leb (d_id a) (d_id b)).
Definition next_deliveries (now : Z) (d : Db) : list DeliveryRow :=
  limit_rows CLAIM_LIMIT (order_by delivery_le (where_ (deliverable now) (notification_deliveries d))).
Definition claim_delivery (now : Z) (x : DeliveryRow) : DeliveryRow :=
  set_d_claimed_at (Some now) (set_d_attempts (d_attempts x + 1) x).

Record NotificationTarget := mkTarget {
  t_user_id : Uuid; t_email : rstr; t_endpoint : option rstr; t_p256dh : option rstr; t_auth : option rstr
}.
Record Job := mkJob {
  j_id : Uuid; j_channel : rstr; j_kind : rstr; j_body : rstr; j_attempts : Z; j_target : NotificationTarget
}.

(** The lateral join: the newest push subscription, for [browser] rows only. *)
Definition newest_subscription (user : Uuid) (d : Db) : option SubscriptionRow :=
  head (order_by (fun a b => (sub_updated_at b <? sub_updated_at a)
                             || ((sub_updated_at b =? sub_updated_at a) && uuid_leb (sub_id b) (sub_id a)))
          (where_ (fun s => sub_user_id s ≟ user) (notification_subscriptions d))).
Definition job_of (d : Db) (x : DeliveryRow) : Job :=
  let s := if d_channel x ≟ rs "browser" then newest_subscription (d_user_id x) d else None in
  mkJob (d_id x) (d_channel x) (d_kind x) (d_body x) (d_attempts x + 1)
    (mkTarget (d_user_id x) (d_email x) (sub_endpoint <$> s) (sub_p256dh <$> s) (sub_auth <$> s)).

Definition sql_claim_deliveries (now : Z) (d : Db) : Result SqlxError (list Job * Db) :=
  let next := next_deliveries now d in
  Ok (map (job_of d) next,
      set_notification_deliveries
        (update_where (fun x => exists_row (fun y => d_id y ≟ d_id x) next) (claim_delivery now)) d).

Definition pending_delivery (id : Uuid) (x : DeliveryRow) : bool := (d_id x ≟ id) && is_none (d_sent_at x).
Definition sql_sent (now : Z) (id : Uuid) (d : Db) : Result SqlxError (unit * Db) :=
  Ok (tt, set_notification_deliveries (update_where (pending_delivery id)
            (fun x => set_d_sent_at (Some now) (set_d_claimed_at None x))) d).
Definition sql_retry_later (next_attempt_at : Z) (error : rstr) (id : Uuid) (d : Db) :
    Result SqlxError (unit * Db) :=
  Ok (tt, set_notification_deliveries (update_where (pending_delivery id)
            (fun x => set_d_last_error (Some error)
                        (set_d_next_attempt_at next_attempt_at (set_d_claimed_at None x)))) d).

(** [(1_i64 << attempts.clamp(0, 12)).saturating_mul(1000).min(60 * 60 * 1000)] *)
Definition retry_delay_ms (attempts : Z) : Z :=
  Z.min (Z.min i64_max (Z.shiftl 1 (clamp 0 12 attempts) * 1000)) (60 * 60 * 1000).

(** A sink answers by itself, at each step its own way. *)
Record NotificationSink := mkSink {
  deliver : nat -> NotificationTarget -> rstr -> rstr -> Result rstr unit
}.
Definition DisabledNotificationSink : NotificationSink := mkSink (fun _ _ _ _ => Ok tt).

Section Delivery.
Context {K : Type}.
Notation M := (M K SqlxError).

Definition call_sink (sink : NotificationSink) (job : Job) : M (Result rstr unit) := fun _ w =>
  (Ok (deliver sink (w_step w) (j_target job) (j_kind job) (j_body job)), tick w).

(** The task spawned for one claimed row. *)
Definition deliver_job (email_sink browser_sink : NotificationSink) (job : Job) : M unit :=
  let sink := if j_channel job ≟ rs "email" then email_sink else browser_sink in
  result <- call_sink sink job ;;
  (match result with
   | Ok _ =>
       now <- now_millis ;;
       attempt (F := SqlxError) (execute (E := SqlxError) (sql_sent (as_i64 now) (j_id job)))
   | Err error =>
       now <- now_millis ;;
       attempt (F := SqlxError) (execute (E := SqlxError)
         (sql_retry_later (as_i64 now + retry_delay_ms (j_attempts job)) error (j_id job)))
   end) ;;
  ret tt.

(** One turn of [run_notification_delivery], the spawned tasks one after the
    other. *)
Definition delivery_round (email_sink browser_sink : NotificationSink) : M unit :=
  now <- now_millis ;;
  jobs <- attempt (F := SqlxError) (execute (E := SqlxError) (sql_claim_deliveries (as_i64 now))) ;;
  match jobs with
  | Err _ => ret tt
  | Ok jobs => for_each jobs (deliver_job email_sink browser_sink)
  end.
End Delivery.

(** ** Claims are exclusive *)

Section Claims.
Lemma outbox_le_total a b : outbox_le a b = true \/ outbox_le b a = true.
Proof. unfold outbox_le, uuid_leb. lia. Qed.
Lemma outbox_le_trans a b c : outbox_le a b = true -> outbox_le b c = true -> outbox_le a c = true.
Proof. unfold outbox_le, uuid_leb. lia. Qed.

Lemma in_next_events now d e : In e (next_events now d) -> In e (outbox_events d) /\ claimable now e = true.
Proof.
  unfold next_events, limit_rows. intros H%in_take. rewrite in_order_by, in_where in H. done.
Qed.

Lemma claimable_fields now e :
  claimable now e = true ->
  ob_published_at e = None /\ ob_attempts e < 5
  /\ forall t, ob_claimed_at e = Some t -> t < now - CLAIM_TIMEOUT_MILLIS.
Proof.
  unfold claimable, claim_expired. intros H. bool_simpl. split; [done|]. split; [lia|].
  intros t Ht. rewrite Ht in *. lia.
Qed.

(** The rows a claim returns are claimed in the state it leaves. *)
Lemma claimed_rows now d e :
  In e (next_events now d) -> unique_on ob_id (outbox_events d) ->
  forall e', In e' (update_where (claimed_among (next_events now d)) (claim_event now) (outbox_events d)) ->
    ob_id e' = ob_id e -> e' = claim_event now e.
Proof.
  intros He Hu e' (e0 & Hin & ->)%in_update_where Hid.
  assert (ob_id (if claimed_among (next_events now d) e0 then claim_event now e0 else e0) = ob_id e0) as Hid0
    by (by destruct (claimed_among _ e0)).
  rewrite Hid0 in Hid. destruct (in_next_events _ _ _ He) as [Hin' _].
  assert (e0 = e) as -> by (by eapply unique_on_eq).
  enough (claimed_among (next_events now d) e = true) as -> by done.
  unfold claimed_among. apply exists_row_true. exists e. split; [done|]. by apply bool_decide_eq_true_2.
Qed.
End Claims.

(** C25. A claim of outbox events is exclusive and in order: at most 32 rows are
    claimed, each pending with fewer than five attempts, their attempt is
    counted and no claim within the timeout takes them again; a claimable event
    that was not taken waits behind 32 older ones. *)
Theorem outbox_claim_exclusive now d rows d' :
  unique_on ob_id (outbox_events d) -> sql_claim_events now d = Ok (rows, d') ->
  (length rows <= 32)%nat
  /\ (forall id topic payload, In (id, topic, payload) rows ->
        exists e, In e (outbox_events d) /\ ob_id e = id /\ ob_topic e = topic /\ ob_payload e = payload
          /\ ob_published_at e = None /\ ob_attempts e < 5
          /\ (forall e', In e' (outbox_events d') -> ob_id e' = id ->
                ob_claimed_at e' = Some now /\ ob_attempts e' = ob_attempts e + 1)
          /\ (forall later rows' d'', later <= now + CLAIM_TIMEOUT_MILLIS ->
                sql_claim_events later d' = Ok (rows', d'') -> ~ In id (map (fun r => r.1.1) rows')))
  /\ (forall e, In e (outbox_events d) -> claimable now e = true ->
        In (ob_id e) (map (fun r => r.1.1) rows)
        \/ length rows = 32%nat
           /\ forall id topic payload, In (id, topic, payload) rows -> exists older,
                In older (outbox_events d) /\ ob_id older = id /\ outbox_le older e = true).
Proof.
  unfold sql_claim_events. intros Hu [= <- <-]. set (next := next_events now d).
  split; [|split].
  - rewrite length_map. unfold next, next_events, limit_rows. rewrite length_take.
    change (Z.to_nat CLAIM_LIMIT) with 32%nat. lia.
  - intros id topic payload (e & [= <- <- <-] & He)%in_map_iff. exists e.
    destruct (in_next_events _ _ _ He) as [Hin Hc]. destruct (claimable_fields _ _ Hc) as (Hp & Ha & _).
    repeat (split; [done|]). split.
    + intros e' Hin' Hid. simpl in Hin'. by rewrite (claimed_rows now d e He Hu e' Hin' Hid).
    + intros later rows' d'' Hl [= <- _] Hin'. rewrite map_map in Hin'. simpl in Hin'.
      apply in_map_iff in Hin' as (e' & Hid & Hn). destruct (in_next_events _ _ _ Hn) as [Hin' Hc'].
      simpl in Hin'. rewrite (claimed_rows now d e He Hu e' Hin' Hid) in Hc'.
      destruct (claimable_fields _ _ Hc') as (_ & _ & Ht). specialize (Ht now eq_refl). lia.
  - intros e Hin Hc.
    assert (In e (order_by outbox_le (where_ (claimable now) (outbox_events d)))) as Ho
      by (apply in_order_by, in_where; done).
    assert (StronglySorted (rel_of outbox_le) (order_by outbox_le (where_ (claimable now) (outbox_events d)))) as Hs
      by (apply order_by_sorted; [apply outbox_le_total|apply outbox_le_trans]).
    destruct (sorted_take_spec _ (Z.to_nat CLAIM_LIMIT) _ _ Hs Ho) as [Ht|[Hlen Hle]].
    + left. rewrite map_map. simpl. by apply in_map.
    + right. split; [by rewrite length_map|]. intros id topic payload (o & [= <- _ _] & Hno)%in_map_iff.
      exists o. split; [by apply in_next_events in Hno as [? _]|]. split; [done|]. by apply Hle.
Qed.

(** ** Revoking sessions *)

Section Revocation.
Context {K : Type} {V : Valkey K} {T : UuidText} {J : JsonText} {U : Unicode}.
Implicit Types (w : World K).

Definition invalidation_payload (user : Uuid) : json := JObj [(rs "user_id", json_uuid user)].

Lemma lookup_del_fold (keys : list rstr) (ks : Keyspace) k :
  fold_left (fun ks k => delete k ks) keys ks !! k = if bool_decide (k ∈ keys) then None else ks !! k.
Proof. apply lookup_fold_delete. Qed.

Lemma payload_user user : json_uuid_field (invalidation_payload user) "user_id" = Some user.
Proof. unfold json_uuid_field, invalidation_payload. rewrite json_get_head. apply json_as_uuid_uuid. Qed.

Lemma run_invalidate user s env w :
  healthy env -> pool_ok (w_pool w) -> set_at (cache_of w) (user_sessions_key user) s ->
  exists w', handle_auth_invalidate (invalidation_payload user) env w = (Ok tt, w')
    /\ cache_of w' = delete (user_sessions_key user)
         (fold_left (fun ks k => delete k ks) (map session_key (omap uuid_parse (elements s))) (cache_of w)).
Proof.
  intros Hh Hp Hs. unfold handle_auth_invalidate. rewrite payload_user. cbn [ok_or].
  rewrite run_bind. unfold ret at 1. rewrite (run_bind_ok _ _ _ _ _ _ (run_connection env w Hp)).
  set (w1 := with_pool _ w). destruct (set_at_view (env_clock env (w_step w1)) _ _ _ Hs) as [Hv _].
  destruct (run_command_view (Smembers (user_sessions_key user)) env w1 Hh) as (k2 & E2 & V2).
  change (cache_of w1) with (cache_of w) in E2, V2. cbn [keyspace_exec] in E2, V2. rewrite Hv in E2, V2.
  rewrite (run_bind_ok _ _ _ _ _ _ E2). cbn [fst snd run_view] in V2. set (w2 := with_cache k2 (tick w1)).
  set (keys := map session_key (omap uuid_parse (elements s))).
  assert (exists w3, (if is_empty keys then ret tt else command (Del keys) ;; ret tt) env w2 = (Ok tt, w3)
            /\ cache_of w3 = fold_left (fun ks k => delete k ks) keys (cache_of w)) as (w3 & E3 & V3).
  { destruct keys as [|k keys'] eqn:Ek; cbn [is_empty].
    - exists w2. split; [done|]. exact V2.
    - destruct (run_command_view (Del (k :: keys')) env w2 Hh) as (k3 & E3 & V3).
      change (cache_of w2) with (vk_view k2) in V3. rewrite V2 in V3.
      exists (with_cache k3 (tick w2)). split; [|exact V3]. unfold bind. by rewrite E3. }
  rewrite (run_bind_ok _ _ _ _ _ _ E3).
  destruct (run_command_view (Del [user_sessions_key user]) env w3 Hh) as (k4 & E4 & V4).
  rewrite (run_bind_ok _ _ _ _ _ _ E4). unfold publish_unheard. rewrite Hh. eexists. split; [done|].
  change (vk_view k4 = delete (user_sessions_key user) (fold_left (fun ks k => delete k ks) keys (cache_of w))).
  rewrite V4, <- V3. done.
Qed.

(** C26. Dispatching an [auth.invalidate] event ends the user's sessions:
    afterwards no cookie of a session listed for the user loads, the list
    itself is gone, and no other key of the cache has changed. *)
Theorem sessions_revoked env w user s :
  healthy env -> pool_ok (w_pool w) -> set_at (cache_of w) (user_sessions_key user) s ->
  exists w', dispatch auth_invalidate (invalidation_payload user) env w = (Ok tt, w')
    /\ (forall id, uuid_to_string id ∈ s ->
          forall env2 (w2 w3 : World K) session, cache_of w2 = cache_of w' ->
            load_session (session_cookie id) env2 w2 <> (Ok session, w3))
    /\ cache_of w' !! user_sessions_key user = None
    /\ forall key, key <> user_sessions_key user ->
         (forall id text, text ∈ s -> uuid_parse text = Some id -> key <> session_key id) ->
         cache_of w' !! key = cache_of w !! key.
Proof.
  intros Hh Hp Hs. destruct (run_invalidate user s env w Hh Hp Hs) as (w' & E & Hc).
  exists w'. split; [exact E|]. split; [|split].
  - intros id Hid env2 w2 w3 session Hw2 Hl.
    apply load_session_inv in Hl as (raw & e & Hraw & Hparse & Hlive & _).
    rewrite session_cookie_value in Hraw. injection Hraw as <-.
    rewrite uuid_parse_to_string in Hparse. injection Hparse as ->.
    apply live_some in Hlive as [Hlive _]. rewrite Hw2, Hc in Hlive.
    rewrite lookup_delete_ne in Hlive by (intros Hk; symmetry in Hk; by apply session_key_user_sessions in Hk).
    rewrite lookup_del_fold, bool_decide_eq_true_2 in Hlive; [done|].
    apply list_elem_of_fmap. exists (session_id session). split; [done|]. apply list_elem_of_omap.
    exists (uuid_to_string (session_id session)). split; [by apply elem_of_elements|]. apply uuid_parse_to_string.
  - rewrite Hc. apply lookup_delete_eq.
  - intros key Hne Hother. rewrite Hc, lookup_delete_ne by congruence. rewrite lookup_del_fold.
    rewrite bool_decide_eq_false_2; [done|]. intros (id & -> & (text & Ht & Hp')%list_elem_of_omap)%list_elem_of_fmap.
    apply elem_of_elements in Ht. by eapply Hother.
Qed.
End Revocation.

(** ** Witnesses *)

#[local] Existing Instance hyphenated_text.
#[local] Existing Instance coded_json.
#[local] Existing Instance ascii_unicode.
#[local] Existing Instance keyspace_valkey.

Definition sample_event (n : N) (at_ : Z) : OutboxRow :=
  mkOutboxRow (uuid_of n) (rs "auth.invalidate") (invalidation_payload (uuid_of 1)) at_ None 0 None.
Definition outbox_db : Db := set_outbox_events (fun _ => [sample_event 80 7; sample_event 81 6]) sample_db.

Lemma outbox_claim_exclusive_witness :
  exists rows d', sql_claim_events 100 outbox_db = Ok (rows, d')
    /\ map (fun r => r.1.1) rows = [uuid_of 81; uuid_of 80]
    /\ forall rows' d'', sql_claim_events 60100 d' = Ok (rows', d'') ->
         ~ In (uuid_of 81) (map (fun r => r.1.1) rows').
Proof.
  destruct (sql_claim_events 100 outbox_db) as [[rows d']|] eqn:E; [|discriminate].
  assert (unique_on ob_id (outbox_events outbox_db)) as Hu.
  { apply NoDup_ListNoDup, (bool_decide_unpack _). vm_compute. exact I. }
  assert (exists t p, In (uuid_of 81, t, p) rows) as (t & p & Hin).
  { injection E as <- _. eexists _, _. left. reflexivity. }
  exists rows, d'. split; [reflexivity|]. split; [injection E as <- _; reflexivity|].
  intros rows' d'' E'. destruct (outbox_claim_exclusive 100 outbox_db rows d' Hu E) as (_ & H & _).
  destruct (H _ _ _ Hin) as (e & _ & _ & _ & _ & _ & _ & _ & Hlater).
  exact (Hlater 60100 rows' d'' ltac:(discriminate) E').
Defined.

Definition one_session : World Keyspace :=
  with_cache (keyspace_exec 5 (Sadd (user_sessions_key (uuid_of 1)) (uuid_to_string (uuid_of 9))) ∅).2
    (sample_world sample_db).

Lemma sessions_revoked_witness :
  exists w', dispatch auth_invalidate (invalidation_payload (uuid_of 1)) (sample_env 5) one_session = (Ok tt, w')
    /\ cache_of w' !! user_sessions_key (uuid_of 1) = None.
Proof.
  destruct (sessions_revoked (sample_env 5) one_session (uuid_of 1) ({[uuid_to_string (uuid_of 9)]} ∪ ∅)
              (sample_env_healthy 5) (conj eq_refl eq_refl)) as (w' & E & _ & H & _).
  - destruct (exec_sadd 5 ∅ (user_sessions_key (uuid_of 1)) ∅ (uuid_to_string (uuid_of 9)) (set_at_empty _))
      as [H _]. exact H.
  - exists w'. split; [exact E|exact H].
Defined.
