(* ===== verification/Channels.v ===== *)
(** * Channels over HTTP

    [api/channels.rs] and [api/drafts.rs]: the conversation list, invite links,
    favorites and drafts. *)
From Stdlib Require Import String.
From S2P Require Export Services.
From S2P Require Import Reference.
Open Scope m_scope.

(** ** The conversation list *)

(** [MAX(created_at)] over a channel's messages that are not deleted. *)
Definition last_message_at (d : Db) (channel : Uuid) : option Z :=
  fold_left (fun acc m => Some (match acc with None => m_created_at m | Some t => Z.max t (m_created_at m) end))
    (where_ (fun m => (m_channel_id m ≟ channel) && is_none (m_deleted_at m)) (messages d)) None.

(** The other members of a direct conversation, or one row without a peer. *)
Definition peers (d : Db) (user : Uuid) (c : ChannelRow) : list (option UserRow) :=
  let others := where_ (fun m => (cm_channel_id m ≟ c_id c) && negb (cm_user_id m ≟ user)
                                 && (c_kind c ≟ Direct)) (channel_members d) in
  if is_empty others then [None]
  else map (fun m => first_row (fun u => u_id u ≟ cm_user_id m) (users d)) others.

Definition conversation (d : Db) (c : ChannelRow) (peer : option UserRow) : ConversationSummary :=
  mkConversationSummary (c_id c) (c_name c) (c_kind c) (c_owner_user_id c)
    (if c_kind c ≟ Direct then match peer with Some u => u_username u | None => c_name c end else c_name c)
    (u_id <$> peer) (u_username <$> peer) (last_message_at d (c_id c)).

Definition in_conversation_list (d : Db) (now : Z) (user : Uuid) (c : ChannelRow) : bool :=
  is_none (c_deleted_at c) && is_none (c_archived_at c) && visible_to d now user c.

Definition kind_rank (k : ChannelKind) : Z := match k with Direct => 0 | Private => 1 | Public => 2 end.
Definition is_main (s : ConversationSummary) : bool := (conv_kind s ≟ Public) && (conv_name s ≟ MAIN_CHANNEL).
(** [ORDER BY last_message_at DESC NULLS LAST, main DESC, kind, name] *)
Definition conversation_le (a b : ConversationSummary) : bool :=
  let by_name :=
    if is_main a then true else if is_main b then false
    else (kind_rank (conv_kind a) <? kind_rank (conv_kind b))
         || ((kind_rank (conv_kind a) =? kind_rank (conv_kind b)) && str_leb (conv_name a) (conv_name b)) in
  match conv_last_message_at a, conv_last_message_at b with
  | Some s, Some t => (t <? s) || ((s =? t) && by_name)
  | Some _, None => true
  | None, Some _ => false
  | None, None => by_name
  end.

Definition sql_conversations (user : Uuid) (now : Z) (d : Db) : list ConversationSummary :=
  order_by conversation_le
    (concat (map (fun c => map (conversation d c) (peers d user c))
       (where_ (in_conversation_list d now user) (channels d)))).

(** ** Invite links *)

Definition invite_of_hash (hash : rstr) (d : Db) : option (ChannelRow * InviteRow) :=
  head (concat (map (fun l =>
    map (fun c => (c, l))
      (where_ (fun c => (c_id c ≟ inv_channel_id l) && is_none (c_deleted_at c)) (channels d)))
    (where_ (fun l => inv_token_hash l ≟ hash) (channel_invite_links d)))).

(** [token_hash] is unique. *)
Definition sql_insert_invite (l : InviteRow) (d : Db) : Result SqlxError (unit * Db) :=
  insert_row inv_id
    (fk_channel d (inv_channel_id l) && fk_user d (inv_created_by l)
     && negb (exists_row (fun l' => inv_token_hash l' ≟ inv_token_hash l) (channel_invite_links d)))
    channel_invite_links set_channel_invite_links l d.
Definition sql_use_invite (hash : rstr) (d : Db) : Result SqlxError (unit * Db) :=
  Ok (tt, set_channel_invite_links
            (update_where (fun l => inv_token_hash l ≟ hash) (fun l => set_inv_uses (inv_uses l + 1) l)) d).

Definition invite_usable (now : Z) (l : InviteRow) : bool :=
  negb (match inv_expires_at l with Some expires => expires <=? now | None => false end
        || ((0 <? inv_max_uses l) && (inv_max_uses l <=? inv_uses l))).

(** ** Favorites and drafts *)

Definition favorite_key (f : FavoriteRow) : Uuid * Uuid := (fav_user_id f, fav_channel_id f).
(** [INSERT ... SELECT ... FROM channels ... ON CONFLICT DO NOTHING] *)
Definition sql_favorite (user : Uuid) (name : rstr) (now : Z) (d : Db) : Result SqlxError (unit * Db) :=
  match find_channel d name with
  | None => Ok (tt, d)
  | Some c =>
      if exists_row (fun f => favorite_key f ≟ (user, c_id c)) (channel_favorites d) then Ok (tt, d)
      else insert_row favorite_key (fk_user d user) channel_favorites set_channel_favorites
             (mkFavoriteRow user (c_id c) now) d
  end.
Definition named (d : Db) (name : rstr) (channel : Uuid) : bool :=
  exists_row (fun c => (c_id c ≟ channel) && (c_name c ≟ name)) (channels d).
Definition sql_unfavorite (user : Uuid) (name : rstr) (d : Db) : Result SqlxError (unit * Db) :=
  Ok (tt, set_channel_favorites
            (delete_where (fun f => (fav_user_id f ≟ user) && named d name (fav_channel_id f))) d).
(** [ORDER BY f.created_at, c.name] *)
Definition favorite_le (a b : FavoriteRow * ChannelRow) : bool :=
  (fav_created_at a.1 <? fav_created_at b.1)
  || ((fav_created_at a.1 =? fav_created_at b.1) && str_leb (c_name a.2) (c_name b.2)).
Definition sql_favorites (user : Uuid) (now : Z) (d : Db) : list rstr :=
  map (fun p => c_name p.2) (order_by favorite_le
    (concat (map (fun f => map (fun c => (f, c))
        (where_ (fun c => (c_id c ≟ fav_channel_id f) && is_none (c_deleted_at c) && visible_to d now user c)
           (channels d)))
      (where_ (fun f => fav_user_id f ≟ user) (channel_favorites d))))).

Definition draft_key (r : DraftRow) : Uuid * Uuid := (dr_user_id r, dr_channel_id r).
Definition sql_draft (user : Uuid) (name : rstr) (d : Db) : option rstr :=
  dr_body <$> first_row (fun r => (dr_user_id r ≟ user)
     && exists_row (fun c => (c_id c ≟ dr_channel_id r) && active_channel name c) (channels d)) (channel_drafts d).
Definition sql_save_draft (user : Uuid) (name body : rstr) (now : Z) (d : Db) : Result SqlxError (unit * Db) :=
  match find_channel d name with
  | None => Ok (tt, d)
  | Some c =>
      let same := fun r => draft_key r ≟ (user, c_id c) in
      if exists_row same (channel_drafts d) then
        Ok (tt, set_channel_drafts (update_where same (fun _ => mkDraftRow user (c_id c) body now)) d)
      else insert_row draft_key (fk_user d user) channel_drafts set_channel_drafts
             (mkDraftRow user (c_id c) body now) d
  end.
Definition sql_delete_draft (user : Uuid) (name : rstr) (d : Db) : Result SqlxError (unit * Db) :=
  Ok (tt, set_channel_drafts
            (delete_where (fun r => (dr_user_id r ≟ user) && named d name (dr_channel_id r))) d).

Section Channels.
Context {K : Type} {V : Valkey K} {T : UuidText} {J : JsonText} {U : Unicode} {C : Crypto}.
Notation M := (M K AppError).

Definition list_visible_conversations (user : Uuid) : M (list ConversationSummary) :=
  now <- now_millis ;;
  query (sql_conversations user (as_i64 now)).

Definition create_channel_handler (headers : HeaderMap) (name : rstr) : M rstr :=
  session <- load_session headers ;;
  require_csrf headers session ;;
  create_public_channel (session_user session) name.

Definition find_conversation (user id : Uuid) : M ConversationSummary :=
  summaries <- list_visible_conversations user ;;
  ok_or (first_row (fun item => conv_id item ≟ id) summaries) (from_err NotFound).

Definition create_private_channel (headers : HeaderMap) (name : rstr) : M ConversationSummary :=
  session <- load_session headers ;;
  require_csrf headers session ;;
  created <- create_private_conversation (session_user session) name ;;
  find_conversation (user_id (session_user session)) created.1.

Definition open_direct_conversation (headers : HeaderMap) (target : Uuid) : M ConversationSummary :=
  session <- load_session headers ;;
  require_csrf headers session ;;
  opened <- open_direct (session_user session) target ;;
  find_conversation (user_id (session_user session)) opened.1.

(** The token is ASCII, so its characters are its bytes. *)
Definition invite_token_hash (token : rstr) : rstr := hex_encode (sha256 (as_bytes token)).

(** What follows the checks of the session and of the ban. *)
Definition invite_guard (user : AuthUser) (c : ChannelRow) : Result AppError unit :=
  if (c_kind c ≟ Private) && negb (c_owner_user_id c ≟ Some (user_id user))
     && negb (has_permission (permissions user) chat_moderate)
  then Err (forbidden "only the channel owner can create invite links") else Ok tt.

Definition create_invite_link (headers : HeaderMap) (name : rstr) (expires_at max_uses : option Z) :
    M (rstr * option Z * Z) :=
  session <- load_session headers ;;
  require_csrf headers session ;;
  let user := session_user session in
  require_permission user chat_write ;;
  ensure_not_globally_banned (user_id user) ;;
  found <- query (fun d => find_channel d name) ;;
  channel <- ok_or found (from_err NotFound) ;;
  ensure_channel_access name (user_id user) ;;
  lift (invite_guard user channel) ;;
  let max_uses := match max_uses with Some n => n | None => 0 end in
  if negb (in_range 0 100000 max_uses) then throw (bad_request "max_uses must be between 0 and 100000") else
  (match expires_at with
   | None => ret tt
   | Some expires_at =>
       now <- now_millis ;;
       if expires_at <=? as_i64 now then throw (bad_request "invite link expiry must be in the future")
       else ret tt
   end) ;;
  bytes <- fill_bytes ;;
  let token := hex_encode bytes in
  id <- now_v7 ;;
  now <- now_millis ;;
  execute (sql_insert_invite (mkInviteRow id (c_id channel) (invite_token_hash token) (user_id user)
                                expires_at max_uses 0 (as_i64 now))) ;;
  ret (token, expires_at, max_uses).

Definition valid_token (token : rstr) : bool := (len token =? 64) && forallb is_ascii_hexdigit token.

(** The transaction of an acceptance; the ban is read on another connection. *)
Definition accept_transaction (user : Uuid) (hash : rstr) : M (ChannelRow * bool) :=
  transaction (
    found <- query (invite_of_hash hash) ;;
    row <- ok_or found (from_err NotFound) ;;
    now <- now_millis ;;
    let '(channel, link) := row in
    if negb (invite_usable (as_i64 now) link) then throw (bad_request "invite link is expired or exhausted") else
    banned <- query (fun d => channel_banned d (as_i64 now) user (c_id channel)) ;;
    if banned : bool then throw (forbidden "conversation access denied") else
    already <- query (fun d => is_member d (c_id channel) user) ;;
    (if already : bool then ret tt else
       execute (sql_insert_member (mkMemberRow (c_id channel) user Member None (as_i64 now))) ;;
       execute (sql_use_invite hash)) ;;
    ret (channel, already)).

Definition accept_invite_link (headers : HeaderMap) (token : rstr) : M rstr :=
  session <- load_session headers ;;
  require_csrf headers session ;;
  let user := session_user session in
  require_permission user chat_write ;;
  if negb (valid_token token) then throw (bad_request "invalid invite link") else
  joined <- accept_transaction (user_id user) (invite_token_hash token) ;;
  let '(channel, already_member) := joined in
  (if already_member : bool then ret tt
   else publish_system_message (c_name channel) (username user ++ rs " joined the conversation")) ;;
  ret (c_name channel).

Definition favorite_channel (headers : HeaderMap) (name : rstr) : M unit :=
  session <- load_session headers ;;
  require_csrf headers session ;;
  ensure_channel_access name (user_id (session_user session)) ;;
  now <- now_millis ;;
  execute (sql_favorite (user_id (session_user session)) name (as_i64 now)).

Definition unfavorite_channel (headers : HeaderMap) (name : rstr) : M unit :=
  session <- load_session headers ;;
  require_csrf headers session ;;
  execute (sql_unfavorite (user_id (session_user session)) name).

Definition list_favorite_channels (headers : HeaderMap) : M (list rstr) :=
  session <- load_session headers ;;
  now <- now_millis ;;
  query (sql_favorites (user_id (session_user session)) (as_i64 now)).

Definition get_draft (headers : HeaderMap) (channel : rstr) : M (rstr * rstr) :=
  session <- load_session headers ;;
  channel <- lift (normalize_channel_name channel) ;;
  ensure_channel_access channel (user_id (session_user session)) ;;
  body <- query (sql_draft (user_id (session_user session)) channel) ;;
  ret (channel, match body with Some b => b | None => [] end).

Definition update_draft (headers : HeaderMap) (channel body : rstr) : M (rstr * rstr * Z) :=
  session <- load_session headers ;;
  require_csrf headers session ;;
  channel <- lift (normalize_channel_name channel) ;;
  ensure_channel_access channel (user_id (session_user session)) ;;
  body <- lift (normalize_draft_body body) ;;
  now <- now_millis ;;
  execute (sql_save_draft (user_id (session_user session)) channel body (as_i64 now)) ;;
  ret (channel, body, as_i64 now).

Definition delete_draft (headers : HeaderMap) (channel : rstr) : M unit :=
  session <- load_session headers ;;
  require_csrf headers session ;;
  channel <- lift (normalize_channel_name channel) ;;
  ensure_channel_access channel (user_id (session_user session)) ;;
  execute (sql_delete_draft (user_id (session_user session)) channel).
End Channels.

(** ** Invite links are spent *)

Section Invites.
Context {K : Type} {V : Valkey K} {T : UuidText} {J : JsonText} {U : Unicode} {C : Crypto}.

(** One acceptance that admits a new member. *)
Definition Joined (user : Uuid) (hash : rstr) (c : ChannelRow) (d d' : Db) : Prop :=
  exists l now,
    In l (channel_invite_links d) /\ inv_token_hash l = hash /\ inv_channel_id l = c_id c
    /\ In c (channels d) /\ c_deleted_at c = None
    /\ (forall expires, inv_expires_at l = Some expires -> now < expires)
    /\ (0 < inv_max_uses l -> inv_uses l < inv_max_uses l)
    /\ channel_banned d now user (c_id c) = false /\ is_member d (c_id c) user = false
    /\ channel_members d' = channel_members d ++ [mkMemberRow (c_id c) user Member None now]
    /\ channel_invite_links d'
       = update_where (fun l => inv_token_hash l ≟ hash) (fun l => set_inv_uses (inv_uses l + 1) l)
           (channel_invite_links d).

Lemma invite_of_hash_some hash d c l :
  invite_of_hash hash d = Some (c, l) ->
  In l (channel_invite_links d) /\ inv_token_hash l = hash /\ inv_channel_id l = c_id c
  /\ In c (channels d) /\ c_deleted_at c = None.
Proof.
  unfold invite_of_hash. intros H.
  assert (In (c, l) (concat (map (fun l => map (fun c => (c, l))
      (where_ (fun c => (c_id c ≟ inv_channel_id l) && is_none (c_deleted_at c)) (channels d)))
    (where_ (fun l => inv_token_hash l ≟ hash) (channel_invite_links d))))) as Hin.
  { destruct (concat _) as [|x t]; [done|]. injection H as ->. by left. }
  apply in_concat in Hin as (t & (l' & <- & [Hl Hh]%in_where)%in_map_iff & Hin).
  apply in_map_iff in Hin as (c' & [= -> ->] & [Hc Hp]%in_where). bool_simpl. done.
Qed.

Lemma invite_usable_spec now l :
  invite_usable now l = true ->
  (forall expires, inv_expires_at l = Some expires -> now < expires)
  /\ (0 < inv_max_uses l -> inv_uses l < inv_max_uses l).
Proof.
  unfold invite_usable. rewrite negb_true_iff, orb_false_iff. intros [He Hu]. split; [|lia].
  intros expires E. rewrite E in He. lia.
Qed.

Lemma accept_wp user hash d :
  wp (accept_transaction (K := K) user hash)
    (fun r d' => if r.2 : bool then d' = d else Joined user hash r.1 d d')
    (fun d' => d' = d \/ exists c, Joined user hash c d d') d.
Proof.
  apply wp_transaction; [by left|]. apply wp_bind, wp_query; [done|]. apply wp_bind, wp_ok_or; [done|].
  intros [c l] E. apply invite_of_hash_some in E as (Hl & Hh & Hc & Hin & Hd).
  apply wp_bind. wp_silent_step. rename a into now. destruct (invite_usable (as_i64 now) l) eqn:Eu; [|by apply wp_throw].
  cbn [negb]. apply invite_usable_spec in Eu as [He Hu].
  apply wp_bind, wp_query; [done|]. destruct (channel_banned d (as_i64 now) user (c_id c)) eqn:Eb; [by apply wp_throw|].
  apply wp_bind, wp_query; [done|]. destruct (is_member d (c_id c) user) eqn:Em.
  - apply wp_bind, wp_ret. apply wp_ret. cbn [fst snd]. auto.
  - apply wp_bind, wp_bind, wp_execute; [done|]. intros [] d1 E1. split; [|done].
    apply wp_execute; [done|]. intros [] d2 [= <-]. split; [|done]. apply wp_ret. cbn [fst snd].
    enough (Joined user hash c d (set_channel_invite_links (update_where (fun l => inv_token_hash l ≟ hash)
      (fun l => set_inv_uses (inv_uses l + 1) l)) d1)) by eauto.
    unfold sql_insert_member, insert_row in E1. destruct (_ && _); [|done]. injection E1 as <-.
    by exists l, (as_i64 now).
Qed.

(** Calls by several users, one after the other: who joined. *)
Fixpoint accept_all (hash : rstr) (calls : list (Env * Uuid)) (w : World K) : Z * World K :=
  match calls with
  | [] => (0, w)
  | (env, user) :: rest =>
      let '(r, w1) := accept_transaction user hash env w in
      let '(n, w2) := accept_all hash rest w1 in
      (match r with Ok (_, false) => 1 | _ => 0 end + n, w2)
  end.

Lemma joined_uses user hash c d d' l :
  unique_on inv_token_hash (channel_invite_links d) -> Joined user hash c d d' ->
  In l (channel_invite_links d) -> inv_token_hash l = hash ->
  unique_on inv_token_hash (channel_invite_links d')
  /\ In (set_inv_uses (inv_uses l + 1) l) (channel_invite_links d')
  /\ (0 < inv_max_uses l -> inv_uses l < inv_max_uses l).
Proof.
  intros Hu (l' & now & Hl' & Hh' & _ & _ & _ & _ & Hmax & _ & _ & _ & ->) Hl Hh.
  assert (l' = l) as -> by (eapply unique_on_eq; [exact Hu| | |]; [done|done|congruence]).
  split; [by apply unique_on_update|]. split; [|done]. apply in_update_where. exists l.
  by rewrite bool_decide_eq_true_2.
Qed.

(** C24. An invite link admits no more than its limit: over any sequence of
    acceptances by any users, with any failures, the joins do not exceed the
    uses that were left, and the recorded count neither passes the limit nor
    falls behind the joins. *)
Theorem invite_uses_bounded hash calls (w : World K) l :
  unique_on inv_token_hash (channel_invite_links (w_db w)) ->
  In l (channel_invite_links (w_db w)) -> inv_token_hash l = hash ->
  0 < inv_max_uses l -> inv_uses l <= inv_max_uses l ->
  let '(joined, w') := accept_all hash calls w in
  0 <= joined <= inv_max_uses l - inv_uses l
  /\ exists l', In l' (channel_invite_links (w_db w')) /\ inv_token_hash l' = hash
       /\ inv_max_uses l' = inv_max_uses l
       /\ inv_uses l + joined <= inv_uses l' <= inv_max_uses l.
Proof.
  revert w l. induction calls as [|[env user] calls IH]; intros w l Hu Hl Hh Hpos Hle; simpl.
  - split; [lia|]. exists l. repeat split; (done || lia).
  - pose proof (accept_wp user hash (w_db w) env w eq_refl) as Hwp.
    destruct (accept_transaction user hash env w) as [r w1].
    assert (w_db w1 = w_db w /\ match r with Ok (_, false) => False | _ => True end
            \/ exists c, Joined user hash c (w_db w) (w_db w1)) as [[E Hr]|[c Hj]].
    { destruct r as [[c []]|e]; cbn [snd fst] in Hwp; [left; done|right; eauto|]. destruct Hwp; auto. }
    + rewrite <- E in Hu, Hl. specialize (IH w1 l Hu Hl Hh Hpos Hle).
      destruct (accept_all hash calls w1) as [n w2]. by destruct r as [[c []]|e].
    + destruct (joined_uses _ _ _ _ _ _ Hu Hj Hl Hh) as (Hu1 & Hl1 & Hlt).
      specialize (IH w1 _ Hu1 Hl1 Hh Hpos). simpl in IH. specialize (IH ltac:(lia)).
      destruct (accept_all hash calls w1) as [n w2]. destruct IH as [Hn (l' & H1 & H2 & H3 & H4)].
      assert (0 <= match r with Ok (_, false) => 1 | _ => 0 end <= 1) by (destruct r as [[? []]|]; lia).
      split; [lia|]. exists l'. repeat split; (done || lia).
Qed.
End Invites.

(** ** Witnesses *)

#[local] Existing Instance hyphenated_text.
#[local] Existing Instance keyspace_valkey.

Definition sample_invite : InviteRow :=
  mkInviteRow (uuid_of 60) (uuid_of 11) (rs "hash") (uuid_of 1) (Some 1000) 1 0 0.
Definition invite_db : Db := set_channel_invite_links (fun _ => [sample_invite]) sample_db.

Lemma invite_uses_bounded_witness :
  exists w', accept_all (rs "hash") [(sample_env 5, uuid_of 2); (sample_env 50, uuid_of 3)] (sample_world invite_db)
             = (1, w')
    /\ exists l', In l' (channel_invite_links (w_db w')) /\ inv_uses l' <= 1.
Proof.
  assert (unique_on inv_token_hash (channel_invite_links invite_db)) as Hu.
  { apply NoDup_ListNoDup, (bool_decide_unpack _). vm_compute. exact I. }
  pose proof (invite_uses_bounded (rs "hash") [(sample_env 5, uuid_of 2); (sample_env 50, uuid_of 3)]
                (sample_world invite_db) sample_invite Hu (or_introl eq_refl) eq_refl eq_refl
                ltac:(discriminate)) as H.
  assert (exists w', accept_all (rs "hash") [(sample_env 5, uuid_of 2); (sample_env 50, uuid_of 3)]
                       (sample_world invite_db) = (1, w')) as (w' & E).
  { destruct (accept_all _ _ _) as [n w'] eqn:E. vm_compute in E. injection E as <- <-. eexists. reflexivity. }
  rewrite E in H. destruct H as [_ (l' & Hin & _ & _ & Hle)]. exists w'. split; [exact E|].
  exists l'. split; [exact Hin|]. change (inv_max_uses sample_invite) with 1 in Hle. apply Hle.
Defined.
