(* ===== verification/Handler.v ===== *)
(** * The WebSocket handler

    [websocket/handler.rs]: one definition per client event, and the parts of a
    socket's life around them. The room a socket is subscribed to is [Rooms];
    here a socket is the channel it is in. *)
From Stdlib Require Import String.
From S2P Require Export Channels History Presence Notify.
From S2P Require Import Reference.
Open Scope m_scope.

(** ** Statements *)

(** [SELECT COUNT( * ) FROM files WHERE id=ANY($1) AND ...] *)
Definition sql_owned_files (ids : list Uuid) (user : Uuid) (d : Db) : Z :=
  count_rows (fun f => bool_decide (f_id f ∈ ids) && (f_uploader_user_id f ≟ user) && is_none (f_deleted_at f))
    (files d).

Section Statements.
Context {T : UuidText}.

Definition retry_topic : rstr := rs "message.notifications".
(** [INSERT ... WHERE NOT EXISTS (a pending event of this message)] *)
Definition sql_queue_notification_retry (id actor message : Uuid) (now : Z) (d : Db) :
    Result SqlxError (unit * Db) :=
  if exists_row (fun e => (ob_topic e ≟ retry_topic)
                          && (json_get (ob_payload e) (rs "message_id") ≟ Some (json_uuid message))
                          && is_none (ob_published_at e)) (outbox_events d)
  then Ok (tt, d)
  else sql_queue_outbox id retry_topic
         (JObj [(rs "actor_id", json_uuid actor); (rs "message_id", json_uuid message)]) now d.

Definition reaction_key (r : ReactionRow) : Uuid * Uuid * rstr := (re_message_id r, re_user_id r, re_emoji r).
Definition message_in (d : Db) (channel : rstr) (message : Uuid) : bool :=
  exists_row (fun mc => (m_id mc.1 ≟ message) && active_channel channel mc.2) (messages_with_channel d).
Definition sql_add_reaction (user : Uuid) (emoji : rstr) (now : Z) (message : Uuid) (channel : rstr) (d : Db) :
    Result SqlxError (unit * Db) :=
  if negb (message_in d channel message) then Ok (tt, d)
  else if exists_row (fun r => reaction_key r ≟ (message, user, emoji)) (message_reactions d) then Ok (tt, d)
  else insert_row reaction_key (fk_user d user) message_reactions set_message_reactions
         (mkReactionRow message user emoji now) d.
Definition sql_remove_reaction (message user : Uuid) (emoji channel : rstr) (d : Db) :
    Result SqlxError (unit * Db) :=
  Ok (tt, if message_in d channel message then
            set_message_reactions (delete_where (fun r => reaction_key r ≟ (message, user, emoji))) d
          else d).

Definition read_key (r : ReadRow) : Uuid * Uuid := (rd_user_id r, rd_channel_id r).
(** [DO UPDATE SET last_read_created_at=GREATEST(...),
    last_read_message_id=CASE WHEN ... END] *)
Definition advance_read (message : Uuid) (created_at now : Z) (r : ReadRow) : ReadRow :=
  mkReadRow (rd_user_id r) (rd_channel_id r) (Z.max (rd_last_read_created_at r) created_at)
    (if rd_last_read_created_at r <=? created_at then Some message else rd_last_read_message_id r) now.
Definition sql_mark_channel_read (user : Uuid) (created_at : Z) (message : Uuid) (now : Z) (channel : rstr) (d : Db) :
    Result SqlxError (unit * Db) :=
  match first_row (fun c => c_name c ≟ channel) (channels d) with
  | None => Ok (tt, d)
  | Some c =>
      let same := fun r => read_key r ≟ (user, c_id c) in
      if exists_row same (channel_reads d) then
        Ok (tt, set_channel_reads (update_where same (advance_read message created_at now)) d)
      else insert_row read_key (fk_user d user) channel_reads set_channel_reads
             (mkReadRow user (c_id c) created_at (Some message) now) d
  end.

(** The profile of [participant_for_user]. *)
Definition sql_participant_profile (user : Uuid) (now : Z) (d : Db) : option (rstr * rstr) :=
  (fun u => (u_display_name u,
             if match u_status_expires_at u with None => true | Some t => now <? t end
             then u_custom_status u else []))
  <$> first_row (fun u => (u_id u ≟ user) && is_none (u_deleted_at u)) (users d).
End Statements.

(** What the arms of [handle_client_event] read: the socket's channel, user and
    session. The socket's own name is the user's. *)
Record Client := mkClient { s_channel : rstr; s_user : AuthUser; s_session : Uuid }.

Section Handler.
Context {K : Type} {V : Valkey K} {T : UuidText} {J : JsonText} {B : Bitcode} {U : Unicode} {C : Crypto}.
Notation M := (M K AppError).

(** A failed query reads as no profile. *)
Definition participant_for_user (user : AuthUser) : M Participant :=
  now <- now_millis ;;
  profile <- attempt (F := AppError) (query (E := SqlxError) (sql_participant_profile (user_id user) (as_i64 now))) ;;
  let profile := match profile with Ok p => p | Err _ => None end in
  ret (mkParticipant (user_id user) (username user)
         (match profile with Some p => p.1 | None => username user end)
         (match profile with Some p => p.2 | None => [] end)
         (roles user) true).

Definition send_channels (user : Uuid) : M unit :=
  channels <- conv (list_channels user) ;;
  send_event (SvChannels channels).

Definition send_private_conversations (user : Uuid) : M unit :=
  conversations <- list_visible_conversations user ;;
  send_event (SvPrivateConversations (List.filter (fun c => negb (conv_kind c ≟ Public)) conversations)).

(** The guards most events start with. *)
Definition may_write (s : Client) : M unit :=
  require_permission (s_user s) chat_write ;;
  ensure_channel_access (s_channel s) (user_id (s_user s)).

(** ** SendMessage *)

Definition scope_json (scope : option MentionScope) : json :=
  match scope with
  | Some ScopeChannel => JStr (rs "channel") | Some ScopeHere => JStr (rs "here") | None => JNull
  end.

Definition same_send (channel text : rstr) (root : option Uuid) (file_ids : list Uuid) (m : ChatMessage) : bool :=
  (msg_channel m ≟ channel) && (msg_text m ≟ text) && (msg_root_message_id m ≟ root)
  && (msg_file_ids m ≟ file_ids).

(** A message the client already sent: notified again and echoed. *)
Definition replay (s : Client) (text : rstr) (root : option Uuid) (file_ids : list Uuid)
    (existing : ChatMessage) : M unit :=
  if negb (same_send (s_channel s) text root file_ids existing) then
    throw (bad_request "client_id was already used for a different message")
  else
    create_message_notifications (s_user s) existing ;;
    send_event (SvMessage existing).

Definition find_sent (s : Client) (client_id : option rstr) : M (option ChatMessage) :=
  match client_id with
  | None => ret None
  | Some client => conv (find_message_by_client_id (s_channel s) (s_session s) client)
  end.

Definition online_ids (s : Client) (text : rstr) : M (list json) :=
  if mention_scope text ≟ Some ScopeHere then
    present <- attempt (F := AppError) (list_presence (s_channel s)) ;;
    ret (map (fun p => json_uuid (part_user_id p))
           (List.filter (fun p => negb (part_user_id p ≟ user_id (s_user s)))
              (match present with Ok ps => ps | Err _ => [] end)))
  else ret [].

Definition new_message (s : Client) (text : rstr) (root : option Uuid) (client_id : option rstr)
    (file_ids : list Uuid) : M ChatMessage :=
  id <- now_v7 ;;
  created_at <- now_millis ;;
  online <- online_ids s text ;;
  ret (mkChatMessage id (s_channel s) (username (s_user s)) text created_at false false root 0
         (JObj [(rs "root_message_id", match root with Some r => json_uuid r | None => JNull end);
                (rs "file_ids", JArr (map json_uuid file_ids));
                (rs "mention_scope", scope_json (mention_scope text));
                (rs "online_user_ids", JArr online)])
         (extract_mentioned_usernames text (username (s_user s))) client_id file_ids).

(** Notification failures are queued for the outbox, and a failure to queue is
    logged. *)
Definition notify_or_queue (s : Client) (m : ChatMessage) : M unit :=
  notified <- attempt (F := AppError) (create_message_notifications (s_user s) m) ;;
  match notified with
  | Ok _ => ret tt
  | Err _ =>
      id <- now_v7 ;;
      now <- now_millis ;;
      attempt (F := AppError) (execute (E := SqlxError)
        (sql_queue_notification_retry id (user_id (s_user s)) (msg_id m) (as_i64 now))) ;;
      ret tt
  end.

Definition file_guard (s : Client) (file_ids : list Uuid) : M unit :=
  if (10 <? length file_ids)%nat then throw (bad_request "a message can contain at most 10 files")
  else if is_empty file_ids then ret tt
  else
    owned_files <- query (sql_owned_files file_ids (user_id (s_user s))) ;;
    if owned_files =? Z.of_nat (length file_ids) then ret tt
    else throw (forbidden "one or more files are not available").

Definition deliver_message (s : Client) (m : ChatMessage) : M unit :=
  notify_or_queue s m ;;
  store_message m (s_session s) ;;
  broadcast (s_channel s) (SvMessage m).

Definition on_send_message (s : Client) (text : rstr) (root : option Uuid) (client_id : option rstr)
    (file_ids : list Uuid) : M unit :=
  let user := s_user s in
  require_permission user chat_write ;;
  enforce_rate_limit (message_rate_key (user_id user)) 60 60 ;;
  ensure_channel_access (s_channel s) (user_id user) ;;
  ensure_channel_posting_access (s_channel s) (user_id user) (permissions user) ;;
  text <- lift (normalize_message_text text) ;;
  file_guard s file_ids ;;
  let client_id := match client_id with
                   | Some c => if is_empty (trim c) then None else Some c | None => None end in
  existing <- find_sent s client_id ;;
  match existing with
  | Some existing => replay s text root file_ids existing
  | None =>
      m <- new_message s text root client_id file_ids ;;
      saved <- attempt (F := AppError) (save_message m (s_session s) (user_id user)) ;;
      match saved with
      | Ok _ => deliver_message s m
      | Err error =>
          existing <- find_sent s client_id ;;
          match existing with
          | Some existing => replay s text root file_ids existing
          | None => throw (from_err error)
          end
      end
  end.

(** ** The other events *)

Definition on_edit_message (s : Client) (id : Uuid) (text : rstr) : M unit :=
  may_write s ;;
  text <- lift (normalize_message_text text) ;;
  m <- conv (edit_message (s_channel s) id (s_session s) text) ;;
  update_hot_message m ;;
  broadcast (s_channel s) (SvMessageUpdated m).

Definition on_delete_message (s : Client) (id : Uuid) : M unit :=
  may_write s ;;
  m <- conv (delete_message (s_channel s) id (s_session s) (has_permission (permissions (s_user s)) chat_moderate)) ;;
  update_hot_message m ;;
  broadcast (s_channel s) (SvMessageUpdated m).

Definition on_add_reaction (s : Client) (message : Uuid) (emoji : rstr) : M unit :=
  may_write s ;;
  emoji <- lift (normalize_emoji emoji) ;;
  now <- now_millis ;;
  execute (sql_add_reaction (user_id (s_user s)) emoji (as_i64 now) message (s_channel s)) ;;
  broadcast_reaction (s_channel s) message emoji.

Definition on_remove_reaction (s : Client) (message : Uuid) (emoji : rstr) : M unit :=
  may_write s ;;
  emoji <- lift (normalize_emoji emoji) ;;
  execute (sql_remove_reaction message (user_id (s_user s)) emoji (s_channel s)) ;;
  broadcast_reaction (s_channel s) message emoji.

Definition on_typing (s : Client) (typing : bool) : M unit :=
  may_write s ;;
  broadcast (s_channel s) (SvTyping (s_channel s) (user_id (s_user s)) (username (s_user s)) typing).

Definition on_mark_read (s : Client) (message : Uuid) (created_at : Z) : M unit :=
  may_write s ;;
  now <- now_millis ;;
  execute (sql_mark_channel_read (user_id (s_user s)) (as_i64 created_at) message (as_i64 now) (s_channel s)) ;;
  send_event (SvReadStateUpdated (s_channel s) (user_id (s_user s)) message created_at).

(** A request about another channel is stale and ignored. *)
Definition on_load_history (s : Client) (requested : rstr) (created_at : Z) (before : Uuid) : M unit :=
  requested <- lift (normalize_or_main requested) ;;
  if negb (requested ≟ s_channel s) then ret tt
  else
    ensure_channel_access requested (user_id (s_user s)) ;;
    send_history_page requested (Some (created_at, before)).

Definition on_load_thread (s : Client) (message : Uuid) (created_at : option Z) (before : option Uuid) : M unit :=
  may_write s ;;
  let cursor := match created_at, before with Some t, Some id => Some (t, id) | _, _ => None end in
  messages <- load_thread (s_channel s) message cursor (Z.of_nat HISTORY_PAGE_SIZE) ;;
  send_event (SvThreadHistory message messages (length messages =? HISTORY_PAGE_SIZE)%nat).

Definition on_heartbeat (s : Client) : M unit :=
  connection ;;
  active <- command (Exists (session_key (s_session s))) ;;
  if negb active then throw (unauthorized "session expired")
  else
    participant <- participant_for_user (s_user s) ;;
    attempt (F := AppError) (refresh_presence (s_channel s) participant) ;;
    attempt (F := AppError) (broadcast (s_channel s) (SvParticipantJoined (s_channel s) participant)) ;;
    ret tt.

(** [handle_client_event] on a parsed text. The answer is the channel to switch
    to, which is also the socket's channel then; an error leaves it. *)
Definition handle_client_event (s : Client) (event : option ClientEvent) : M (option rstr) :=
  let user := s_user s in
  match event with
  | None => throw (bad_request "invalid event")
  | Some ListChannels =>
      send_channels (user_id user) ;; send_private_conversations (user_id user) ;; ret None
  | Some (CreateChannel name) => create_public_channel user name ;; ret None
  | Some (CreatePrivateChannel name) =>
      create_private_conversation user name ;; send_private_conversations (user_id user) ;; ret None
  | Some (OpenDirect target) =>
      opened <- open_direct user target ;;
      send_private_conversations (user_id user) ;;
      ret (Some opened.2)
  | Some (InviteMember channel target) => invite_member user channel target ;; ret None
  | Some (RemoveMember channel target) => remove_member user channel target ;; ret None
  | Some (JoinChannel name) =>
      name <- lift (normalize_or_main name) ;;
      ensure_channel_access name (user_id user) ;;
      ret (Some name)
  | Some (DeleteChannel name) =>
      name <- delete_channel_service user name ;;
      if s_channel s ≟ name then ret (Some MAIN_CHANNEL) else ret None
  | Some (SendMessage text root client_id file_ids) =>
      on_send_message s text root client_id file_ids ;; ret None
  | Some (EditMessage id text) => on_edit_message s id text ;; ret None
  | Some (DeleteMessage id) => on_delete_message s id ;; ret None
  | Some (AddReaction message emoji) => on_add_reaction s message emoji ;; ret None
  | Some (RemoveReaction message emoji) => on_remove_reaction s message emoji ;; ret None
  | Some (Typing typing) => on_typing s typing ;; ret None
  | Some (MarkRead message created_at) => on_mark_read s message created_at ;; ret None
  | Some (LoadHistory channel created_at before) => on_load_history s channel created_at before ;; ret None
  | Some (LoadThread message created_at before) => on_load_thread s message created_at before ;; ret None
  | Some Heartbeat => on_heartbeat s ;; ret None
  end.

(** ** The life of a socket *)

Definition websocket (headers : HeaderMap) (configured_origin : option rstr) : M Session :=
  let configured := match configured_origin with
                    | Some o => if is_empty (trim o) then None else Some o | None => None end in
  if negb (websocket_origin_allowed headers configured) then
    throw (forbidden "websocket origin is not allowed")
  else
    session <- load_session headers ;;
    ensure_channel_access MAIN_CHANNEL (user_id (session_user session)) ;;
    ret session.

Definition members_or_default (channel : rstr) : M (list ChannelMember) :=
  members <- attempt (F := AppError) (channel_members_of channel) ;;
  ret (match members with Ok l => l | Err _ => [] end).

Definition announce_join (channel : rstr) (participant : Participant) : M unit :=
  attempt (F := AppError) (broadcast channel (SvParticipantJoined channel participant)) ;; ret tt.

(** Before the subscriptions; an error ends the socket. *)
Definition socket_greet (user : AuthUser) : M Participant :=
  participant <- participant_for_user user ;;
  send_event (SvWelcome (username user)) ;;
  send_channels (user_id user) ;;
  send_private_conversations (user_id user) ;;
  ret participant.

(** After them, up to the loop; an error ends the socket. *)
Definition socket_join (participant : Participant) : M unit :=
  send_joined_with_history MAIN_CHANNEL ;;
  members <- members_or_default MAIN_CHANNEL ;;
  send_event (SvMembers MAIN_CHANNEL members) ;;
  refresh_presence MAIN_CHANNEL participant ;;
  sync_presence MAIN_CHANNEL ;;
  announce_join MAIN_CHANNEL participant.

Definition socket_open (user : AuthUser) : M unit :=
  participant <- socket_greet user ;;
  socket_join participant.

(** What a socket does when it leaves a channel. *)
Definition socket_leave (user : AuthUser) (channel : rstr) : M unit :=
  attempt (F := AppError) (remove_presence channel (user_id user)) ;;
  attempt (F := AppError) (broadcast channel (SvParticipantLeft channel (user_id user))) ;;
  ret tt.

(** After the subscription to the new room; an error ends the loop. *)
Definition socket_enter (user : AuthUser) (channel : rstr) : M unit :=
  send_joined_with_history channel ;;
  members <- members_or_default channel ;;
  attempt (F := AppError) (send_event (SvMembers channel members)) ;;
  participant <- participant_for_user user ;;
  attempt (F := AppError) (refresh_presence channel participant) ;;
  attempt (F := AppError) (sync_presence channel) ;;
  announce_join channel participant.

(** What the loop does after a text message. *)
Variant Turn := Stay | SwitchTo (channel : rstr) | Quit.

Definition socket_event (s : Client) (event : option ClientEvent) : M Turn :=
  answer <- attempt (F := AppError) (handle_client_event s event) ;;
  match answer with
  | Ok None => ret Stay
  | Ok (Some channel) => ret (SwitchTo channel)
  | Err error =>
      attempt (F := AppError) (send_event (SvError (message error))) ;;
      ret (if status error =? UNAUTHORIZED then Quit else Stay)
  end.

(** One text message and the switch it asks for: the socket's channel afterwards
    and whether the loop goes on. [subscribed] is the answer of the room manager. *)
Definition socket_text (s : Client) (event : option ClientEvent) (subscribed : Result AppError unit) :
    M (rstr * bool) :=
  turn <- socket_event s event ;;
  match turn with
  | Stay => ret (s_channel s, true)
  | Quit => ret (s_channel s, false)
  | SwitchTo channel =>
      socket_leave (s_user s) (s_channel s) ;;
      match subscribed with
      | Ok _ =>
          entered <- attempt (F := AppError) (socket_enter (s_user s) channel) ;;
          ret (channel, is_ok entered)
      | Err error =>
          attempt (F := AppError) (send_event (SvError (message error))) ;;
          ret (channel, false)
      end
  end.

Definition socket_close (user : AuthUser) (channel : rstr) : M unit := socket_leave user channel.
End Handler.

(** ** What a message event may write *)

Definition same_messages (d d' : Db) : Prop := messages d' = messages d.
#[export] Instance same_messages_preorder : PreOrder same_messages.
Proof. split; unfold same_messages; [done|]. intros x y z. congruence. Qed.

Section Frames.
Context {K : Type} {V : Valkey K} {T : UuidText} {J : JsonText} {B : Bitcode} {U : Unicode} {C : Crypto}.

Lemma silent_list_presence channel : DbSilent (list_presence (K := K) channel).
Proof. unfold list_presence. frame_auto. Qed.
Lemma silent_store_message m session : DbSilent (store_message (K := K) m session).
Proof. unfold store_message, pipe. frame_auto. Qed.
Lemma silent_find_sent s client : DbSilent (find_sent (K := K) s client).
Proof. unfold find_sent, find_message_by_client_id. frame_auto. Qed.
Lemma silent_online_ids s text : DbSilent (online_ids (K := K) s text).
Proof. unfold online_ids. destruct (_ ≟ _); frame_auto. apply silent_list_presence. Qed.
Lemma silent_new_message s text root client files : DbSilent (new_message (K := K) s text root client files).
Proof. unfold new_message. frame_auto. apply silent_online_ids. Qed.
Lemma silent_rate_limit key limit window : DbSilent (enforce_rate_limit (K := K) key limit window).
Proof. unfold enforce_rate_limit. frame_auto. Qed.
Lemma silent_file_guard s files : DbSilent (file_guard (K := K) s files).
Proof. unfold file_guard. frame_auto. Qed.

Lemma notifications_same_messages actor m :
  Frame (K := K) (DbRel same_messages) (create_message_notifications actor m).
Proof.
  intros env w. unfold DbRel, same_messages.
  destruct (create_message_notifications actor m env w) as [r w'] eqn:E. simpl.
  apply create_wrote in E as [_ [->|(l & notified & items & d1 & now & out & _ & E1 & _ & E2)]]; [done|].
  revert E2. apply (exec_all_inv _ (fun d' => messages d' = messages (w_db w))).
  - intros item d0 r0 d2 _ IH [->|(? & _ & _ & _ & ->)]%insert_delivery_shape; done.
  - revert E1. apply (exec_all_inv _ (fun d' => messages d' = messages (w_db w))); [|done].
    intros rec d0 r0 d2 _ IH [(_ & _ & _ & ->)|(_ & _ & ->)]%upsert_shape; done.
Qed.

Lemma frame_eq_same_messages {E A} (m : M K E A) : DbSilent m -> Frame (DbRel same_messages) m.
Proof. intros H env w. specialize (H env w). unfold DbRel, same_messages in *. by rewrite <- H. Qed.

Lemma replay_same_messages s text root files m :
  Frame (K := K) (DbRel same_messages) (replay s text root files m).
Proof. unfold replay. frame_auto. apply notifications_same_messages. Qed.

Lemma queue_same_messages id actor m now d x d' :
  sql_queue_notification_retry id actor m now d = Ok (x, d') -> same_messages d d'.
Proof.
  unfold sql_queue_notification_retry, sql_queue_outbox, insert_row, same_messages.
  destruct (exists_row _ _); [by intros [= _ <-]|]. destruct (_ && _); [|done]. by intros [= _ <-].
Qed.

Lemma deliver_same_messages s m : Frame (K := K) (DbRel same_messages) (deliver_message s m).
Proof.
  unfold deliver_message, notify_or_queue. frame_auto.
  - apply notifications_same_messages.
  - apply frame_execute; [exact _|]. intros w x d'. apply queue_same_messages.
  - apply frame_eq_same_messages, silent_store_message.
Qed.
End Frames.
#[export] Hint Resolve silent_list_presence silent_store_message silent_find_sent silent_online_ids
  silent_new_message silent_rate_limit silent_file_guard : frame.

Section Posting.
Context {K : Type} {V : Valkey K} {T : UuidText} {J : JsonText} {B : Bitcode} {U : Unicode} {C : Crypto}.

(** Archived and restricted channels. *)
Definition MayPost (d : Db) (user : AuthUser) (c : ChannelRow) : Prop :=
  let moderates := has_permission (permissions user) chat_moderate = true in
  (c_archived_at c = None \/ moderates)
  /\ (c_posting_restricted c = false \/ moderates
      \/ exists m, In m (channel_members d) /\ cm_channel_id m = c_id c /\ cm_user_id m = user_id user
           /\ (cm_role m = Owner \/ cm_role m = Moderator)).

Definition Posted (s : Client) (raw : rstr) (root : option Uuid) (d d' : Db) : Prop :=
  exists c now row,
    has_permission (permissions (s_user s)) chat_write = true
    /\ c_name c = s_channel s /\ CanSee d now (user_id (s_user s)) c /\ MayPost d (s_user s) c
    /\ messages d' = messages d ++ [row]
    /\ m_channel_id row = c_id c /\ m_owner_user_id row = Some (user_id (s_user s))
    /\ m_owner_session row = s_session s /\ m_username row = username (s_user s)
    /\ m_text row = trim raw /\ 0 < len (trim raw) <= 2000 /\ m_root_message_id row = root.

Lemma wp_require_permission user p d :
  wp (K := K) (require_permission user p)
    (fun _ d' => d' = d /\ has_permission (permissions user) p = true) (fun d' => d' = d) d.
Proof. unfold require_permission. destruct (has_permission _ _); [by apply wp_ret|by apply wp_throw]. Qed.

Lemma wp_channel_access name user d :
  wp (K := K) (ensure_channel_access name user)
    (fun _ d' => d' = d /\ exists c now, c_name c = name /\ CanSee d now user c) (fun d' => d' = d) d.
Proof.
  unfold ensure_channel_access. apply wp_bind. wp_silent_step. rename a into now.
  apply wp_bind, wp_query; [done|]. destruct (sql_channel_access d name user (as_i64 now)) eqn:E; [|by apply wp_throw].
  apply wp_ret. split; [done|]. apply sql_channel_access_spec in E as (c & Hn & Hs). eauto.
Qed.

Lemma wp_posting_access name user d :
  unique_on c_name (channels d) -> unique_on c_id (channels d) ->
  wp (K := K) (ensure_channel_posting_access name (user_id user) (permissions user))
    (fun _ d' => d' = d /\ forall c, In c (channels d) -> c_name c = name -> MayPost d user c)
    (fun d' => d' = d) d.
Proof.
  intros Hu Hid. unfold ensure_channel_posting_access. apply wp_bind, wp_query; [done|].
  destruct (find_channel d name) as [c|] eqn:E; [|by apply wp_throw].
  apply find_channel_some in E as (Hin & Hn & _).
  assert (forall P : ChannelRow -> Prop, P c -> forall c', In c' (channels d) -> c_name c' = name -> P c') as Huniq.
  { intros P HP c' Hin' Hn'. replace c' with c; [done|]. eapply unique_on_eq; [exact Hu|done|done|congruence]. }
  set (mo := has_permission (permissions user) chat_moderate).
  destruct (is_some (c_archived_at c) && negb mo) eqn:Ea; [by apply wp_throw|].
  assert (c_archived_at c = None \/ mo = true) as Harch
    by (destruct (c_archived_at c), mo; auto).
  destruct (negb (c_posting_restricted c) || mo) eqn:Er.
  - apply wp_ret. split; [done|]. apply Huniq. split; [done|].
    apply orb_true_iff in Er as [Er%negb_true_iff|Er]; auto.
  - apply wp_bind, wp_query; [done|]. destruct (sql_can_post d name (user_id user)) eqn:Ep; [|by apply wp_throw].
    apply wp_ret. split; [done|]. apply Huniq. split; [done|]. right. right.
    unfold sql_can_post in Ep. apply exists_row_true in Ep as (m & Hm & Hp).
    apply andb_true_iff in Hp as [Hp Hc]. apply andb_true_iff in Hp as [Hu' Hrole]. bool_simpl.
    apply exists_row_true in Hc as (c' & Hc' & Hn'). bool_simpl. exists m. split; [done|].
    split; [|split; [done|]].
    + assert (c' = c) as -> by (eapply unique_on_eq; [exact Hu|done|done|congruence]). done.
    + apply orb_true_iff in Hrole as [Hr|Hr]; bool_simpl; auto.
Qed.

(** The row a save adds. *)
Definition Saved (m : ChatMessage) (session user : Uuid) (d d' : Db) : Prop :=
  exists c, In c (channels d) /\ c_name c = msg_channel m
    /\ messages d' = messages d ++ [message_row m (c_id c) session user].

Lemma insert_message_shape m session user d n d' :
  sql_insert_message m session user d = Ok (n, d') -> n = 0 /\ d' = d \/ n = 1 /\ Saved m session user d d'.
Proof.
  unfold sql_insert_message, insert_row. destruct (first_row _ _) as [c|] eqn:E; [|intros [= <- <-]; auto].
  apply first_row_some in E as [Hin Hp]. unfold active_channel in Hp. bool_simpl.
  destruct (_ && _); [|done]. intros [= <- <-]. right. split; [done|]. by exists c.
Qed.

Lemma wp_save_message m session user d :
  wp (K := K) (save_message m session user)
    (fun _ d' => Saved m session user d d') (fun d' => d' = d \/ Saved m session user d d') d.
Proof.
  apply wp_transaction; [by left|]. apply wp_bind, wp_execute; [done|]. intros n d1 E. split; [|done].
  apply insert_message_shape in E as [[-> ->]|[-> (c & Hin & Hn & Hm)]]; [by apply wp_throw|]. cbn [Z.eqb].
  eapply (wp_mono _ (fun _ d' => messages d' = messages d1) _ (fun _ => True)); [| |done].
  - apply wp_for_each; [done| |done]. intros file d2 _ Hd2. apply wp_execute; [done|].
    intros [] d3 E3. split; [|done]. unfold sql_link_file, insert_row in E3.
    destruct (exists_row _ _); [by injection E3 as <-|].
    destruct (_ && _); [|done]. injection E3 as <-. done.
  - intros _ d2 Hd2. assert (Saved m session user d d2); [|auto]. exists c. by rewrite Hd2.
Qed.
End Posting.

Section Sending.
Context {K : Type} {V : Valkey K} {T : UuidText} {J : JsonText} {B : Bitcode} {U : Unicode} {C : Crypto}.

Lemma normalized_text raw text :
  normalize_message_text raw = Ok text -> text = trim raw /\ 0 < len (trim raw) <= 2000.
Proof.
  unfold normalize_message_text. destruct (is_empty (trim raw) || _) eqn:E; [done|]. intros [= <-].
  split; [done|]. apply orb_false_iff in E as [He Hl]. split; [|lia].
  pose proof (len_bounds (trim raw)). destruct (trim raw) as [|c t]; [done|]. simpl length in *. lia.
Qed.

Lemma wp_new_message s text root client files d :
  wp (K := K) (new_message s text root client files)
    (fun m d' => d' = d /\ msg_channel m = s_channel s /\ msg_username m = username (s_user s)
       /\ msg_text m = text /\ msg_root_message_id m = root /\ msg_client_id m = client
       /\ msg_file_ids m = files) (fun d' => d' = d) d.
Proof. unfold new_message. do 3 (apply wp_bind; wp_silent_step). by apply wp_ret. Qed.

(** [m] runs without touching the messages of the state it starts in. *)
Lemma wp_same {E A} (m : M K E A) (P : Db -> Prop) d :
  Frame (DbRel same_messages) m -> (forall d', same_messages d d' -> P d') -> wp m (fun _ => P) P d.
Proof. intros Hm HP. eapply wp_frame; [exact Hm|exact HP|]. intros _. exact HP. Qed.

(** The arms that end a send. *)
Lemma wp_end_send s text root client files d (P : Db -> Prop) :
  (forall d', same_messages d d' -> P d') ->
  forall error : RepositoryError,
  wp (K := K) (existing <- find_sent s client ;;
      match existing with
      | Some existing => replay s text root files existing
      | None => throw (from_err error)
      end) (fun _ => P) P d.
Proof.
  intros HP error. apply wp_bind. wp_silent_step; [by apply HP|].
  destruct a as [m|]; [|by apply wp_throw, HP]. apply wp_same; [apply replay_same_messages|done].
Qed.

Lemma wp_send_message s raw root client files d :
  unique_on c_name (channels d) -> unique_on c_id (channels d) ->
  let Post d' := same_messages d d' \/ Posted s raw root d d' in
  wp (K := K) (on_send_message s raw root client files) (fun _ => Post) Post d.
Proof.
  intros Hu Hid Post. unfold on_send_message.
  assert (Post d) as Hd by (left; done).
  assert (forall d', d' = d -> Post d') as Heq by (by intros d' ->).
  apply wp_bind. eapply wp_mono; [apply wp_require_permission| |exact Heq]. intros _ d' [-> Hperm].
  apply wp_bind. wp_silent_step. apply wp_bind.
  eapply wp_mono; [apply wp_channel_access| |exact Heq]. intros _ d' [-> (c & now & Hn & Hsee)].
  apply wp_bind. eapply wp_mono; [by apply wp_posting_access| |exact Heq]. intros _ d' [-> Hpost].
  apply wp_bind, wp_lift; [done|]. intros text [-> Hlen]%normalized_text.
  apply wp_bind. wp_silent_step. apply wp_bind. wp_silent_step. destruct a1 as [m|].
  { apply wp_same; [apply replay_same_messages|by left]. }
  apply wp_bind. eapply wp_mono; [apply wp_new_message| |exact Heq].
  intros m d' (-> & Hch & Hname & Htext & Hroot & _).
  assert (forall d1 d2, Saved m (s_session s) (user_id (s_user s)) d d1 -> same_messages d1 d2 -> Post d2) as Hsaved.
  { intros d1 d2 (c' & Hin' & Hn' & Hm) Hsame. right. exists c, now, (message_row m (c_id c') (s_session s) (user_id (s_user s))).
    assert (c' = c) as ->.
    { destruct Hsee as (Hin & _). eapply unique_on_eq; [exact Hu|done|done|congruence]. }
    split; [done|]. split; [done|]. split; [done|]. split; [apply Hpost; [by destruct Hsee|done]|].
    split; [by rewrite Hsame|]. simpl. split; [done|]. split; [done|]. split; [done|].
    split; [done|]. by rewrite Htext. }
  apply wp_bind, wp_attempt. eapply wp_mono; [apply wp_save_message| |].
  - intros [] d1 Hs. eapply wp_same; [apply deliver_same_messages|]. intros d2. exact (Hsaved _ d2 Hs).
  - intros d1 Hs error. apply wp_end_send. intros d2 Hsame.
    destruct Hs as [->|Hs]; [by left|by eapply Hsaved].
Qed.

(** C1. Posting is authorised: whatever requests fail, [SendMessage] either
    leaves the messages as they were or appends exactly one, in the live
    channel of the socket, by a user with the write permission who can see the
    channel and may post in it (not archived and not restricted, unless a
    moderator), owned by that user and session, with the trimmed text of 1 to
    2000 bytes. *)
Theorem send_message_authorised s raw root client files env (w w' : World K) r :
  unique_on c_name (channels (w_db w)) -> unique_on c_id (channels (w_db w)) ->
  on_send_message s raw root client files env w = (r, w') ->
  messages (w_db w') = messages (w_db w) \/ Posted s raw root (w_db w) (w_db w').
Proof.
  intros Hu Hid Hr. pose proof (wp_send_message s raw root client files (w_db w) Hu Hid env w eq_refl) as H.
  rewrite Hr in H. destruct r; exact H.
Qed.

(** C38. A retried message is not posted twice: when the session already has a
    message under the client identifier, [SendMessage] leaves the messages as
    they are, and it succeeds only when channel, text, thread and files are the
    ones stored. *)
Theorem send_message_retry s raw root client files env (w w' : World K) r row :
  is_empty (trim client) = false -> sql_find_by_client (s_session s) client (w_db w) = Some row ->
  on_send_message s raw root (Some client) files env w = (r, w') ->
  messages (w_db w') = messages (w_db w)
  /\ (r = Ok tt -> sel_channel row = s_channel s /\ sel_text row = trim raw
        /\ sel_root_message_id row = root /\ sel_file_ids row = files).
Proof.
  intros Hc Hrow Hr.
  set (Echo := sel_channel row = s_channel s /\ sel_text row = trim raw
        /\ sel_root_message_id row = root /\ sel_file_ids row = files).
  assert (wp (on_send_message s raw root (Some client) files) (fun _ d' => same_messages (w_db w) d' /\ Echo)
            (same_messages (w_db w)) (w_db w)) as H.
  { unfold on_send_message. rewrite Hc. do 4 (apply wp_bind; wp_silent_step).
    apply wp_bind, wp_lift; [done|]. intros text [-> _]%normalized_text.
    apply wp_bind. wp_silent_step. apply wp_bind. unfold find_sent, find_message_by_client_id.
    apply wp_conv, wp_bind, wp_query; [done|]. rewrite Hrow.
    apply wp_bind, wp_lift; [done|]. intros m Hm. apply wp_ret. unfold replay.
    destruct (same_send _ _ _ _ m) eqn:Es; cbn [negb]; [|by apply wp_throw].
    assert (Echo) as Hecho.
    { unfold same_send in Es. bool_simpl. unfold try_from_row in Hm.
      destruct (checked_unsigned _ _); [|done]. destruct (checked_unsigned _ _); [|done]. by simplify_eq. }
    apply wp_bind. eapply wp_frame; [apply notifications_same_messages|done|]. intros [] d1 Hd1.
    wp_silent_step. done. }
  specialize (H env w eq_refl). rewrite Hr in H. destruct r as [[]|]; [|done]. destruct H as [H He]. done.
Qed.
End Sending.

(** ** Witnesses *)

#[local] Existing Instance hyphenated_text.
#[local] Existing Instance coded_json.
#[local] Existing Instance coded_bitcode.
#[local] Existing Instance ascii_unicode.
#[local] Existing Instance keyspace_valkey.

Notation alice_client := (mkClient (rs "main") (sample_auth 1 "alice" ["chat:write"%string]) (uuid_of 900)) (only parsing).
Notation send_run := (on_send_message (K := Keyspace) alice_client (rs " hi ") None (Some (rs "c1")) []) (only parsing).

Lemma send_run_ok : (send_run (sample_env 8000000002) (sample_world chat_db)).1 = Ok tt.
Proof. vm_compute. reflexivity. Qed.
Lemma send_run_adds :
  length (messages (w_db (send_run (sample_env 8000000002) (sample_world chat_db)).2)) = 5%nat.
Proof. vm_compute. reflexivity. Qed.

Lemma send_message_authorised_witness :
  exists w', send_run (sample_env 8000000002) (sample_world chat_db) = (Ok tt, w')
    /\ Posted alice_client (rs " hi ") None chat_db (w_db w').
Proof.
  pose proof (run_split _ _ _ _ send_run_ok) as E. eexists. split; [exact E|].
  assert (unique_on c_name (channels chat_db)) as Hn.
  { apply NoDup_ListNoDup, (bool_decide_unpack _). vm_compute. exact I. }
  destruct (send_message_authorised alice_client (rs " hi ") None (Some (rs "c1")) []
              (sample_env 8000000002) (sample_world chat_db) _ _ Hn chat_db_channels E) as [H|H]; [|exact H].
  apply (f_equal (@length _)) in H. rewrite send_run_adds in H. discriminate.
Defined.

Definition sent_db : Db :=
  set_messages (fun t => t ++ [mkMessageRow (uuid_of 54) (uuid_of 10) (rs "alice") (rs "hi") 8000000001 false
    (uuid_of 900) (Some (uuid_of 1)) None (Some (rs "c1")) json_empty [] None None None]) chat_db.

Lemma resend_run_ok : (send_run (sample_env 8000000002) (sample_world sent_db)).1 = Ok tt.
Proof. vm_compute. reflexivity. Qed.

Lemma send_message_retry_witness :
  exists w', send_run (sample_env 8000000002) (sample_world sent_db) = (Ok tt, w')
    /\ messages (w_db w') = messages sent_db.
Proof.
  pose proof (run_split _ _ _ _ resend_run_ok) as E. eexists. split; [exact E|].
  destruct (sql_find_by_client (uuid_of 900) (rs "c1") sent_db) as [row|] eqn:Er.
  - exact (proj1 (send_message_retry alice_client (rs " hi ") None (rs "c1") []
      (sample_env 8000000002) (sample_world sent_db) _ _ row eq_refl Er E)).
  - vm_compute in Er. discriminate.
Defined.
