(* ===== verification/EndToEnd.v ===== *)
(** * From a sender to the sockets of the room

    [on_send_message] of the WebSocket handler, the publication of its event, the
    room manager and the receivers of the other sockets, together: [Handler] and
    [Fanout] composed. *)
From Stdlib Require Import String.
From S2P Require Export Handler Fanout.
From S2P Require Import Reference.
Open Scope Z_scope.

(** The Pub/Sub key an event of a channel is published to. *)
Definition publish_key (ch : rstr) : rstr := if ch ≟ rs "_control" then ch else room_key ch.

(** *** What happens before the broadcast *)

(** Time passed and nothing was published. *)
Definition Unpublished {K} (w w' : World K) : Prop :=
  w_published w' = w_published w /\ (w_step w <= w_step w')%nat.
#[export] Instance unpublished_frame {K} : FrameRel (@Unpublished K).
Proof.
  split; unfold Unpublished; simpl; try (intros; split; [done|lia]).
  - intros w1 w2 w3 [E1 ?] [E2 ?]. split; [by rewrite E2|lia].
  - done.
Qed.
#[export] Instance unpublished_db {K} : FrameDbFree (@Unpublished K).
Proof. intros w d. split; [done|simpl; lia]. Qed.
#[export] Instance unpublished_cache {K} : FrameCacheFree (@Unpublished K).
Proof. intros w k. split; [done|simpl; lia]. Qed.
#[export] Instance unpublished_sent {K} : FrameSentFree (@Unpublished K).
Proof. intros w e. split; [done|simpl; lia]. Qed.

(** A request between two states whose effect stood and whose answer was lost. *)
Definition lost_ack {K} (env : Env) (w w' : World K) : Prop :=
  exists n, (w_step w <= n < w_step w')%nat /\ env_fault env n = FaultAfter.

Lemma lost_ack_widen {K} env (w0 w w' w1 : World K) :
  Unpublished w0 w -> Unpublished w' w1 -> lost_ack env w w' -> lost_ack env w0 w1.
Proof. intros [_ ?] [_ ?] (n & ? & ?). exists n. split; [lia|done]. Qed.

(** A transaction that fails was rolled back, or its commit lost its answer. *)
Lemma transaction_err_inv {K E A} `{From SqlxError E} (body : M K E A) env w e w' :
  Frame Unpublished body -> transaction body env w = (Err e, w') ->
  w_db w' = w_db w \/ lost_ack env w w'.
Proof.
  intros Hb. unfold transaction. destruct (env_fault env (w_step w)); [|by intros [= _ <-]; left..].
  specialize (Hb env (tick w)). destruct (body env (tick w)) as [[a|e'] w1]; [|by intros [= _ <-]; left].
  destruct Hb as [_ Hb]. simpl in Hb. destruct (env_fault env (w_step w1)) eqn:Ef; [done|by intros [= _ <-]; left|].
  intros [= _ <-]. right. exists (w_step w1). split; [simpl; lia|done].
Qed.

Section Sender.
Context {K : Type} {V : Valkey K} {T : UuidText} {J : JsonText} {B : Bitcode} {U : Unicode} {C : Crypto}.

Lemma execute_unpublished {E A} `{From SqlxError E} (f : Db -> Result SqlxError (A * Db)) :
  Frame (K := K) (E := E) Unpublished (execute f).
Proof. apply frame_execute; [exact _|]. intros w a d _. apply frame_db. Qed.
#[local] Hint Resolve execute_unpublished : frame.

Lemma notifications_unpublished actor m : Frame (K := K) Unpublished (create_message_notifications actor m).
Proof.
  unfold create_message_notifications. repeat first [frame_step|apply frame_collect; [exact _|intros ?]].
Qed.
#[local] Hint Resolve notifications_unpublished : frame.
Lemma replay_unpublished s text root files m : Frame (K := K) Unpublished (replay s text root files m).
Proof. unfold replay. frame_auto. Qed.
Lemma find_sent_unpublished s client : Frame (K := K) Unpublished (find_sent s client).
Proof. unfold find_sent, find_message_by_client_id. frame_auto. Qed.
Lemma new_message_unpublished s text root client files :
  Frame (K := K) Unpublished (new_message s text root client files).
Proof. unfold new_message, online_ids, list_presence. frame_auto. Qed.
Lemma file_guard_unpublished s files : Frame (K := K) Unpublished (file_guard s files).
Proof. unfold file_guard. frame_auto. Qed.
Lemma save_message_unpublished m session user : Frame (K := K) Unpublished (save_message m session user).
Proof. unfold save_message. frame_auto. Qed.
Lemma notify_or_queue_unpublished s m : Frame (K := K) Unpublished (notify_or_queue s m).
Proof. unfold notify_or_queue. frame_auto. Qed.
Lemma store_message_unpublished m session : Frame (K := K) Unpublished (store_message m session).
Proof. unfold store_message, pipe. frame_auto. Qed.
#[local] Hint Resolve replay_unpublished find_sent_unpublished new_message_unpublished
  file_guard_unpublished save_message_unpublished notify_or_queue_unpublished
  store_message_unpublished : frame.

(** A step that keeps the database and publishes nothing. *)
Lemma bind_idle_inv {E A D} (m : M K E A) (k : A -> M K E D) env w r w' :
  bind m k env w = (Ok r, w') -> Frame Unpublished m -> DbSilent m ->
  exists a w1, m env w = (Ok a, w1) /\ k a env w1 = (Ok r, w') /\ Unpublished w w1 /\ w_db w1 = w_db w.
Proof.
  intros (a & w1 & E1 & E2)%bind_ok_inv Hm Hd. exists a, w1. split; [done|]. split; [done|].
  specialize (Hm env w). specialize (Hd env w). rewrite E1 in Hm, Hd. by split.
Qed.

(** A broadcast that is reported published was published. *)
Lemma broadcast_ok ch event env (w w' : World K) x :
  broadcast ch event env w = (Ok x, w') -> w_published w' = w_published w ++ [(publish_key ch, event)].
Proof.
  unfold broadcast. intros (? & w1 & Hc & H)%bind_ok_inv. unfold publish in H.
  assert (w_published w1 = w_published w) as <-.
  { pose proof (frame_connection Unpublished env w) as Hu. rewrite Hc in Hu. by destruct Hu. }
  destruct (env_fault _ _); try done. by injection H as _ <-.
Qed.

Lemma deliver_ok s m env (w w' : World K) x :
  deliver_message s m env w = (Ok x, w') ->
  w_published w' = w_published w ++ [(publish_key (s_channel s), SvMessage m)].
Proof.
  unfold deliver_message. intros (? & w1 & E1 & (? & w2 & E2 & H)%bind_ok_inv)%bind_ok_inv.
  apply broadcast_ok in H as ->. pose proof (notify_or_queue_unpublished s m env w) as [H1 _].
  pose proof (store_message_unpublished m (s_session s) env w1) as [H2 _].
  rewrite E1 in H1. rewrite E2 in H2. simpl in *. congruence.
Qed.

Lemma replay_ok s text root files m env (w w' : World K) x :
  replay s text root files m env w = (Ok x, w') ->
  same_send (s_channel s) text root files m = true /\ exists l, w_sent w' = l ++ [SvMessage m].
Proof.
  unfold replay. destruct (same_send _ _ _ _ m); [|done]. cbn [negb].
  intros (? & w1 & _ & H)%bind_ok_inv. split; [done|]. unfold send_event in H.
  destruct (env_fault _ _); try done. injection H as _ <-. by eexists.
Qed.

(** What a message says for the event that sent it. *)
Definition says (s : Client) (text : rstr) (root : option Uuid) (files : list Uuid) (m : ChatMessage) : Prop :=
  msg_channel m = s_channel s /\ msg_text m = text /\ msg_root_message_id m = root /\ msg_file_ids m = files.

Lemma same_send_says s text root files m : same_send (s_channel s) text root files m = true -> says s text root files m.
Proof. unfold same_send. intros H. by bool_simpl. Qed.

Lemma new_message_says s text root client files env (w w' : World K) m :
  new_message s text root client files env w = (Ok m, w') -> says s text root files m.
Proof.
  intros H. pose proof (wp_new_message s text root client files (w_db w) env w eq_refl) as Hwp. rewrite H in Hwp.
  by destruct Hwp as (_ & ? & _ & ? & ? & _ & ?).
Qed.

(** The message is on record as one this session sent under this client
    identifier. *)
Definition sent_before (s : Client) (client : option rstr) (d : Db) (m : ChatMessage) : Prop :=
  exists c row, client = Some c /\ is_empty (trim c) = false /\ In row (messages d)
    /\ m_id row = msg_id m /\ m_owner_session row = s_session s /\ m_client_id row = Some c.

(** The client identifier [on_send_message] looks for. *)
Definition usable_client (client : option rstr) : option rstr :=
  match client with Some c => if is_empty (trim c) then None else Some c | None => None end.

Lemma find_sent_inv s client env (w w' : World K) m :
  find_sent s (usable_client client) env w = (Ok (Some m), w') -> sent_before s client (w_db w) m.
Proof.
  destruct client as [c|]; [|done]. cbn [usable_client]. destruct (is_empty (trim c)) eqn:Ec; [done|].
  cbn [find_sent]. unfold conv. destruct (find_message_by_client_id _ _ _ _ _) as [[found|] w1] eqn:E; [|done].
  intros [= -> _]. unfold find_message_by_client_id in E. apply bind_ok_inv in E as (rows & w2 & Hq & E).
  apply query_ok_inv in Hq as [-> ->]. unfold sql_find_by_client in E.
  destruct (first_row _ _) as [[row ch]|] eqn:Ef; [|done]. cbn [fmap option_fmap option_map] in E.
  apply bind_ok_inv in E as (m' & w3 & Hl & E). injection E as <- <-. unfold lift in Hl.
  destruct (try_from_row _) as [m''|] eqn:Et; [|done]. injection Hl as -> _.
  apply try_from_row_ok in Et as [Hid _]. apply first_row_some in Ef as [Hin Hp].
  apply in_messages_with_channel in Hin as [Hin _]. bool_simpl. by exists c, row.
Qed.

Lemma saved_row m session user d d' :
  Saved m session user d d' -> exists row, messages d' = messages d ++ [row] /\ m_id row = msg_id m.
Proof. intros (c & _ & _ & E). by eexists. Qed.

(** What a send that succeeds did: the message was added and published, or it
    was sent before and is echoed to the sender. *)
Definition Delivered (s : Client) (w w' : World K) (m : ChatMessage) : Prop :=
  w_published w' = w_published w ++ [(publish_key (s_channel s), SvMessage m)]
  /\ exists row, messages (w_db w') = messages (w_db w) ++ [row] /\ m_id row = msg_id m.
Definition Echoed (s : Client) (client : option rstr) (env : Env) (w w' : World K) (m : ChatMessage) : Prop :=
  (exists l, w_sent w' = l ++ [SvMessage m])
  /\ (sent_before s client (w_db w) m \/ sent_before s client (w_db w') m /\ lost_ack env w w').

(** The two ends of a send. *)
Lemma send_replays s text root client files m env (w0 w w' : World K) x :
  replay s text root files m env w = (Ok x, w') -> Unpublished w0 w ->
  sent_before s client (w_db w) m -> w_db w = w_db w0 \/ lost_ack env w0 w ->
  says s text root files m /\ Echoed s client env w0 w' m.
Proof.
  intros Hr Hu Hb Hdb. pose proof (replay_ok _ _ _ _ _ _ _ _ _ Hr) as [Hs Hsent].
  split; [by apply same_send_says|]. split; [done|].
  pose proof (replay_same_messages s text root files m env w) as Hm.
  pose proof (replay_unpublished s text root files m env w) as Hu'. rewrite Hr in Hm, Hu'. simpl in Hm, Hu'.
  destruct Hdb as [Hdb|Hlost]; [left; by rewrite <- Hdb|right]. split.
  - unfold sent_before. unfold DbRel, same_messages in Hm. by rewrite Hm.
  - by apply (lost_ack_widen _ w0 w0 w w'); [apply frame_refl| |].
Qed.

Lemma send_delivers s m env (w0 w w1 w' : World K) x :
  save_message m (s_session s) (user_id (s_user s)) env w = (Ok tt, w1) ->
  deliver_message s m env w1 = (Ok x, w') -> Unpublished w0 w -> w_db w = w_db w0 ->
  Delivered s w0 w' m.
Proof.
  intros Hsave Hd [Hp _] Hdb. pose proof (deliver_ok _ _ _ _ _ _ Hd) as Hpub.
  pose proof (save_message_unpublished m (s_session s) (user_id (s_user s)) env w) as Hu.
  pose proof (wp_save_message m (s_session s) (user_id (s_user s)) (w_db w) env w eq_refl) as Hs.
  pose proof (deliver_same_messages s m env w1) as Hm.
  rewrite Hsave in Hu, Hs. rewrite Hd in Hm. destruct Hu as [Hu _]. simpl in Hu, Hs, Hm.
  split; [by rewrite Hpub, Hu, Hp|]. apply saved_row in Hs as (row & E & Hid). exists row.
  unfold DbRel, same_messages in Hm. by rewrite Hm, E, Hdb.
Qed.

Lemma send_ok s raw root client files env (w w' : World K) x :
  on_send_message s raw root client files env w = (Ok x, w') ->
  exists m, says s (trim raw) root files m /\ (Delivered s w w' m \/ Echoed s client env w w' m).
Proof.
  unfold on_send_message. change (match client with Some c => if is_empty (trim c) then None else Some c
    | None => None end) with (usable_client client). intros H.
  do 4 (apply bind_idle_inv in H as (? & ? & _ & H & ?Hu & ?Hd); [|solve [frame_auto]..]).
  apply bind_idle_inv in H as (text & ? & Htext & H & Hu3 & Hd3); [|solve [frame_auto]..]. unfold lift in Htext.
  destruct (normalize_message_text raw) as [text'|] eqn:En; [|done]. injection Htext as <- <-.
  apply normalized_text in En as [-> _].
  apply bind_idle_inv in H as (? & w5 & _ & H & Hu4 & Hd4); [|solve [frame_auto]..].
  apply bind_idle_inv in H as (existing & w6 & Hfind & H & Hu5 & Hd5); [|solve [frame_auto]..].
  assert (Unpublished w w6) as Hw6 by (repeat (eapply frame_trans; [eassumption|]); apply frame_refl).
  assert (w_db w6 = w_db w) as Hdb6 by congruence.
  destruct existing as [m|].
  { apply find_sent_inv in Hfind. exists m.
    assert (says s (trim raw) root files m /\ Echoed s client env w w' m) as [? ?]; [|by auto].
    eapply send_replays; [done..| |by left]. by rewrite Hd5. }
  apply bind_idle_inv in H as (m & w7 & Hm & H & Hu6 & Hd6); [|solve [frame_auto]..].
  apply new_message_says in Hm. assert (Unpublished w w7) as Hw7 by (by eapply frame_trans).
  apply bind_ok_inv in H as (saved & w8 & Hsave & H). unfold attempt in Hsave.
  destruct (save_message m (s_session s) (user_id (s_user s)) env w7) as [r w8'] eqn:Es.
  injection Hsave as -> ->. destruct saved as [[]|error].
  - exists m. split; [done|]. left. eapply send_delivers; [done..|congruence].
  - pose proof (save_message_unpublished m (s_session s) (user_id (s_user s)) env w7) as Hu8.
    rewrite Es in Hu8. simpl in Hu8.
    apply bind_idle_inv in H as (again & w9 & Hfind' & H & Hu9 & Hd9); [|solve [frame_auto]..].
    destruct again as [m'|]; [|done]. apply find_sent_inv in Hfind'. exists m'.
    assert (says s (trim raw) root files m' /\ Echoed s client env w w' m') as [? ?]; [|by auto].
    eapply send_replays; [done| |by rewrite Hd9|].
    { repeat (eapply frame_trans; [eassumption|]). apply frame_refl. }
    apply transaction_err_inv in Es as [Es|Es]; [left; congruence|right|frame_auto].
    by eapply lost_ack_widen.
Qed.

(** *** A retry is not broadcast *)

(** The steps before the lookup keep the database and publish nothing. *)
Lemma unpublished_step {E A D} (m : M K E A) (k : A -> M K E D) env w :
  Frame Unpublished m -> DbSilent m ->
  (forall a w1, m env w = (Ok a, w1) -> w_db w1 = w_db w -> Unpublished w1 (k a env w1).2) ->
  Unpublished w (bind m k env w).2.
Proof.
  intros Hm Hd Hk. unfold bind. specialize (Hm env w). specialize (Hd env w). unfold DbRel in Hd.
  destruct (m env w) as [[a|e] w1]; simpl in *; [|done]. eapply frame_trans; [exact Hm|]. by apply Hk.
Qed.

(** A retried message reaches nobody but its sender: when the session already
    has a message under the client identifier, nothing is published, whether the
    first attempt was broadcast or not. *)
Theorem retry_not_broadcast s raw root client files env (w : World K) row :
  is_empty (trim client) = false -> sql_find_by_client (s_session s) client (w_db w) = Some row ->
  w_published (on_send_message s raw root (Some client) files env w).2 = w_published w.
Proof.
  intros Hc Hrow. cut (Unpublished w (on_send_message s raw root (Some client) files env w).2); [by intros []|].
  unfold on_send_message. rewrite Hc.
  do 6 (apply unpublished_step; [solve [frame_auto]|solve [frame_auto]|]; intros ? ? _ Hdb; rewrite <- Hdb in Hrow; clear Hdb).
  apply unpublished_step; [solve [frame_auto]|solve [frame_auto]|].
  intros existing wf Hfind _. assert (exists m, existing = Some m) as [m ->]; [|apply replay_unpublished].
  revert Hfind. cbn [find_sent]. unfold conv. destruct (find_message_by_client_id _ _ _ _ _) as [[found|] wq] eqn:E; [|done].
  intros [= -> _]. revert E. unfold find_message_by_client_id. intros (rows & wr & Hq & H)%bind_ok_inv.
  apply query_ok_inv in Hq as [-> ->]. rewrite Hrow in H. apply bind_ok_inv in H as (m & ? & _ & H).
  injection H as <- _. by exists m.
Qed.
End Sender.

(** ** The room *)

Section Receiver.
Context {K : Type} {V : Valkey K} {T : UuidText} {J : JsonText} {B : Bitcode} {U : Unicode} {C : Crypto}.
Context {Ch : Type} {Br : Broadcast Ch} (decode : rstr -> option ServerEvent) (room_capacity : nat).

(** While a socket is in a room, the process listens to its key. *)
Lemma key_subscribed (hub : Hub Ch) s ch r :
  hub_reachable decode room_capacity no_failed_switch hub -> sockets (registry hub) !! s = Some (InRoom ch r) ->
  publish_key ch ∈ sink (manager (registry hub)).
Proof.
  intros Hreach Hs. assert (Exact (registry hub)) as Hex by (by apply reachable_exact, (hub_reachable_registry decode room_capacity no_failed_switch)).
  unfold publish_key. case_bool_decide as E; [rewrite E; apply Hex|].
  destruct (exact_sender _ _ _ _ Hex Hs) as (e & He & _). destruct Hex as (_ & Hrooms & _).
  specialize (Hrooms ch). unfold room_exact in Hrooms. rewrite He in Hrooms. by destruct Hrooms as (_ & _ & ? & _).
Qed.

(** An event of the room that arrives is the last thing a socket in it has read
    once it has read on. *)
Lemma arrival_read hub s ch r event text :
  hub_reachable decode room_capacity no_failed_switch hub -> sockets (registry hub) !! s = Some (InRoom ch r) ->
  decode text = Some event -> routed_channel event = Some ch ->
  exists n v0 v, room_views hub !! s = Some v0
    /\ room_views (catch_up n s (arrive decode (Payload text) hub)) !! s = Some v
    /\ explains (got v) (arrived_for decode ch v0 (history hub) ++ [text]) [].
Proof.
  intros Hreach Hs Hd Hev. set (hub' := arrive decode (Payload text) hub).
  assert (hub_reachable decode room_capacity no_failed_switch hub') as Hreach'.
  { eapply hub_reach_step; [exact Hreach| |apply hub_arrive]. done. }
  destruct (room_catches_up decode room_capacity hub' s ch r Hreach' Hs) as (n & v0 & v & _ & Hv0 & Hv & Hsince & He).
  exists n, v0, v. split; [done|]. split; [done|].
  assert (arrived_for decode ch v (history hub') = arrived_for decode ch v0 (history hub) ++ [text]) as <-; [|done].
  unfold arrived_for. rewrite Hsince. simpl. pose proof (hub_reachable_inv _ _ _ _ Hreach) as I.
  rewrite drop_app_le by (eapply (timely _ _ I); by left). rewrite List.filter_app, map_app. simpl.
  by rewrite Hd, bool_decide_eq_true_2.
Qed.

(** C2. From a sender to the sockets of the room: a send that succeeds has added
    its message and published it, once, to a key the process of every socket in
    the room listens to, and each such socket, when the event arrives and it
    reads on, has read the message last, after all that arrived for the room
    before, unless it was told that it missed some. The one exception is the echo
    of a message to its sender: then the session has a message on record under
    the client identifier of the send, from before, or from this very send when
    an acknowledgement was lost while it ran. *)
Theorem message_reaches_room s raw root client files env (w w' : World K) hub other r :
  on_send_message s raw root client files env w = (Ok tt, w') ->
  hub_reachable decode room_capacity no_failed_switch hub ->
  sockets (registry hub) !! other = Some (InRoom (s_channel s) r) ->
  exists m, says s (trim raw) root files m
    /\ (((exists l, w_sent w' = l ++ [SvMessage m])
          /\ (sent_before s client (w_db w) m
              \/ sent_before s client (w_db w') m
                 /\ exists n, (w_step w <= n < w_step w')%nat /\ env_fault env n = FaultAfter))
        \/ w_published w' = w_published w ++ [(publish_key (s_channel s), SvMessage m)]
           /\ (exists row, messages (w_db w') = messages (w_db w) ++ [row] /\ m_id row = msg_id m)
           /\ publish_key (s_channel s) ∈ sink (manager (registry hub))
           /\ forall text, decode text = Some (SvMessage m) ->
                exists n v, room_views (catch_up n other (arrive decode (Payload text) hub)) !! other = Some v
                  /\ (no_gap (got v) -> exists before, frames (got v) = before ++ [text])).
Proof.
  intros Hsend Hreach Hs.
  apply send_ok in Hsend as (m & Hm & [[Hpub Hrow]|Hecho]); exists m; (split; [done|]); [right|by left].
  split; [done|]. split; [done|]. split; [by eapply key_subscribed|]. intros text Hd.
  destruct (arrival_read hub other (s_channel s) r (SvMessage m) text) as (n & v0 & v & _ & Hv & He); try done.
  { simpl. f_equal. apply Hm. }
  exists n, v. split; [done|]. intros Hg. apply explains_frames in He; [|done]. rewrite app_nil_r in He. by eexists.
Qed.
End Receiver.

(** ** Witnesses *)

#[local] Existing Instance hyphenated_text.
#[local] Existing Instance coded_json.
#[local] Existing Instance coded_bitcode.
#[local] Existing Instance ascii_unicode.
#[local] Existing Instance keyspace_valkey.
#[local] Existing Instance ring_broadcast.

Definition alice_socket : Client :=
  mkClient (rs "main") (sample_auth 1 "alice" ["chat:write"%string]) (uuid_of 900).
Definition attempt_send : M Keyspace AppError unit :=
  on_send_message alice_socket (rs " hi ") None (Some (rs "c1")) [].

(** The broadcast of a message fails after the message was saved, so the sender
    retries; the retry succeeds, and the room never hears of the message. *)
Definition failed_send : World Keyspace :=
  (attempt_send (faulty_env 8000000002 16 FaultBefore) (sample_world chat_db)).2.
Lemma retry_loses_broadcast :
  is_ok (attempt_send (faulty_env 8000000002 16 FaultBefore) (sample_world chat_db)).1 = false
  /\ length (messages (w_db failed_send)) = S (length (messages chat_db))
  /\ (attempt_send (sample_env 8000000100) failed_send).1 = Ok tt
  /\ w_published (attempt_send (sample_env 8000000100) failed_send).2 = [].
Proof. vm_compute. split; [reflexivity|]. split; [reflexivity|]. split; reflexivity. Qed.

Lemma retry_not_broadcast_witness :
  w_published (attempt_send (sample_env 8000000100) failed_send).2 = [].
Proof.
  destruct (sql_find_by_client (uuid_of 900) (rs "c1") (w_db failed_send)) as [row|] eqn:E.
  - etransitivity; [exact (retry_not_broadcast alice_socket (rs " hi ") None (rs "c1") [] (sample_env 8000000100)
      failed_send row eq_refl E)|]. vm_compute. reflexivity.
  - vm_compute in E. discriminate E.
Defined.

(** A send that succeeds, and a socket of the room. *)
Definition sent_world : World Keyspace := (attempt_send (sample_env 8000000002) (sample_world chat_db)).2.
Definition sent_decode (text : rstr) : option ServerEvent :=
  if text ≟ rs "sent" then snd <$> last (w_published sent_world) else None.
Definition listening_hub : Hub Ring :=
  enter 8 7 MAIN_CHANNEL 0 (manager_subscribe MAIN_CHANNEL true manager_start).2 (enter_control 7 hub_start).

Lemma sent_ok : (attempt_send (sample_env 8000000002) (sample_world chat_db)).1 = Ok tt.
Proof. vm_compute. reflexivity. Qed.
Lemma sent_nothing_back : w_sent sent_world = [].
Proof. vm_compute. reflexivity. Qed.

Lemma listening_reachable : hub_reachable sent_decode 8 no_failed_switch listening_hub.
Proof.
  apply (hub_reach_step _ _ _ (enter_control 7 hub_start) (Some Connect)).
  - eapply hub_reach_step; [apply hub_reach_start| |by apply (hub_control _ _ _ 7)]. done.
  - intros l [= <-]. discriminate.
  - apply (hub_connect _ _ _ 7 true); [reflexivity|eexists; reflexivity|reflexivity].
Qed.

Lemma message_reaches_room_witness :
  exists m n v, msg_text m = rs "hi"
    /\ room_views (catch_up n 7 (arrive sent_decode (Payload (rs "sent")) listening_hub)) !! 7%nat = Some v
    /\ (no_gap (got v) -> exists before, frames (got v) = before ++ [rs "sent"]).
Proof.
  destruct (message_reaches_room sent_decode 8 alice_socket (rs " hi ") None (Some (rs "c1")) [] (sample_env 8000000002)
    (sample_world chat_db) sent_world listening_hub 7 0 (run_split _ _ _ _ sent_ok) listening_reachable)
    as (m & (Hch & Htext & Hrest) & [[[l Hl] _]|(Hl & _ & _ & Hread)]).
  - vm_compute. reflexivity.
  - rewrite sent_nothing_back in Hl. destruct l; discriminate Hl.
  - destruct (Hread (rs "sent")) as (n & v & Hv & Hf).
    + unfold sent_decode. rewrite bool_decide_eq_true_2 by reflexivity. rewrite Hl, last_snoc. reflexivity.
    + exists m, n, v. split; [|split; [exact Hv|exact Hf]]. rewrite Htext. vm_compute. reflexivity.
Defined.
