(* ===== verification/Sockets.v ===== *)
(** * The sockets of the process

    [handle_socket] from the upgrade to the last release: each socket is a
    program whose steps run the parts of [Handler] on the world and the commands
    of [Fanout] on the room manager, interleaved with those of the other sockets,
    with the arrivals, and with whatever else the process does. *)
From Stdlib Require Import String.
From S2P Require Export EndToEnd.
From S2P Require Import Reference Conversations.
Open Scope Z_scope.

(** ** The system *)

(** Where a socket is in [handle_socket]: before its subscriptions (with its
    participant once it is known), in the main room before it is shown its
    history, in the loop (with the guard of the shutdown timer, which [select!]
    reads when it starts to wait), in a change of room (before the old room is
    released, before its presence is removed, before the new one is subscribed
    to, before its history is shown), past the loop, and before the last release. *)
Variant Stage :=
| Greeting
| Greeted (participant : Participant)
| Controlled (participant : Participant)
| Entered (participant : Participant)
| Looping (channel : rstr) (draining : bool)
| Releasing (channel next : rstr)
| Departing (channel next : rstr)
| Subscribing (next : rstr)
| Entering (channel : rstr)
| Stopping (channel : rstr)
| Leaving (channel : rstr).

Record Connection := mkConnection { session : Session; stage : Stage }.

(** [gauge] is [ACTIVE_WEBSOCKETS], [shutting_down] is [SHUTTING_DOWN]. *)
Record Server (K B : Type) := mkServer {
  world : World K;
  hub : Hub B;
  connections : gmap nat Connection;
  gauge : Z;
  shutting_down : bool
}.
Arguments mkServer {K B}. Arguments world {K B}. Arguments hub {K B}.
Arguments connections {K B}. Arguments gauge {K B}. Arguments shutting_down {K B}.

(** [fetch_add] and [fetch_sub] of an [AtomicU64] wrap. *)
Definition gauge_up (n : Z) : Z := as_u64 (n + 1).
Definition gauge_down (n : Z) : Z := as_u64 (n - 1).

(** Why the loop ends on its own: the timer that waits while the process shuts
    down, the end of the stream or an error of it, a frame that cannot be sent,
    or a receiver that is closed. *)
Variant Ending := Drained | PeerGone | SendFailed | ReceiverClosed.
Definition may_end (draining : bool) (e : Ending) : bool :=
  match e with Drained => draining | _ => true end.

(** *** The commands to the manager, and the local receiver *)

Section Commands.
Context {B : Type} {Br : Broadcast B}.
Implicit Types (h : Hub B).
Notation with_registry := (with_registry (B := B)).

Definition refuse (m : Manager) h : Hub B := with_registry (mkSystem m (sockets (registry h))) h.
Definition release_for (s : nat) (ch next : rstr) (ok : bool) h : Hub B :=
  with_registry (mkSystem (manager_release ch ok (manager (registry h)))
                   (<[s := Switching next]> (sockets (registry h)))) h.
Definition fail_switch (s : nat) (ch : rstr) (m : Manager) h : Hub B :=
  with_registry (mkSystem m (<[s := Closing ch None]> (sockets (registry h)))) h.
(** Past the loop the socket still holds the receiver it has. *)
Definition end_loop (s : nat) h : Hub B :=
  match sockets (registry h) !! s with
  | Some (InRoom ch r) =>
      with_registry (mkSystem (manager (registry h)) (<[s := Closing ch (Some r)]> (sockets (registry h)))) h
  | _ => h
  end.
Definition release_last (s : nat) (ch : rstr) (ok : bool) h : Hub B :=
  with_registry (mkSystem (manager_release ch ok (manager (registry h))) (delete s (sockets (registry h)))) h.
End Commands.

(** *** The steps *)

Section Server.
Context {K : Type} {V : Valkey K} {T : UuidText} {J : JsonText} {B : Bitcode} {U : Unicode} {C : Crypto}.
Context {Ch : Type} {Br : Broadcast Ch} (decode : rstr -> option ServerEvent) (room_capacity : nat).
Notation Server := (Server K Ch).
Implicit Types (p q : Server) (w : World K) (h : Hub Ch) (c : Connection).

Definition user_of c : AuthUser := session_user (session c).
Definition client_of c (ch : rstr) : Client := mkClient ch (user_of c) (session_id (session c)).

(** The socket goes on to [st], with the world and the hub its step left. *)
Definition goes (s : nat) c (st : Stage) w h p : Server :=
  mkServer w h (<[s := mkConnection (session c) st]> (connections p)) (gauge p) (shutting_down p).
(** [handle_socket] returns, and drops its guard. *)
Definition returns (s : nat) w h p : Server :=
  mkServer w h (delete s (connections p)) (gauge_down (gauge p)) (shutting_down p).

Definition after_event (ch : rstr) (draining : bool) (t : Turn) : Stage :=
  match t with Stay => Looping ch draining | SwitchTo next => Releasing ch next | Quit => Stopping ch end.
Definition ends (t : Turn) : bool := match t with Quit => true | _ => false end.

(** A step of socket [s], whose connection is [c]; the label is the one of
    [Rooms.step] it makes, if any. *)
Inductive socket_step (p : Server) (s : nat) c : option Label -> Server -> Prop :=
| greets env participant w :
    stage c = Greeting -> socket_greet (user_of c) env (world p) = (Ok participant, w) ->
    socket_step p s c None (goes s c (Greeted participant) w (hub p) p)
| greets_not env e w :
    stage c = Greeting -> socket_greet (user_of c) env (world p) = (Err e, w) ->
    socket_step p s c None (returns s w (hub p) p)
| listens participant :
    stage c = Greeted participant ->
    socket_step p s c None (goes s c (Controlled participant) (world p) (enter_control s (hub p)) p)
| connects participant ok r m :
    stage c = Controlled participant ->
    manager_subscribe MAIN_CHANNEL ok (manager (registry (hub p))) = (Some r, m) ->
    socket_step p s c (Some Connect)
      (goes s c (Entered participant) (world p) (enter room_capacity s MAIN_CHANNEL r m (hub p)) p)
| connects_not participant ok m :
    stage c = Controlled participant ->
    manager_subscribe MAIN_CHANNEL ok (manager (registry (hub p))) = (None, m) ->
    socket_step p s c (Some ConnectRefused) (returns s (world p) (refuse m (hub p)) p)
| joins env participant x w :
    stage c = Entered participant -> socket_join participant env (world p) = (Ok x, w) ->
    socket_step p s c None (goes s c (Looping MAIN_CHANNEL (shutting_down p)) w (hub p) p)
| joins_not env participant e w :
    stage c = Entered participant -> socket_join participant env (world p) = (Err e, w) ->
    socket_step p s c (Some LoopEnds) (goes s c (Leaving MAIN_CHANNEL) w (end_loop s (hub p)) p)
| hears env ch draining event t w :
    stage c = Looping ch draining -> socket_event (client_of c ch) event env (world p) = (Ok t, w) ->
    socket_step p s c (if ends t then Some LoopEnds else None)
      (goes s c (after_event ch (shutting_down p) t) w (if ends t then end_loop s (hub p) else hub p) p)
| ignores ch draining :
    stage c = Looping ch draining ->
    socket_step p s c None (goes s c (Looping ch (shutting_down p)) (world p) (hub p) p)
| reads ch draining h :
    stage c = Looping ch draining -> read_room s (hub p) = Some h ->
    socket_step p s c None (goes s c (Looping ch (shutting_down p)) (world p) h p)
| reads_control ch draining h :
    stage c = Looping ch draining -> read_control s (hub p) = Some h ->
    socket_step p s c None (goes s c (Looping ch (shutting_down p)) (world p) h p)
| stops ch draining ending :
    stage c = Looping ch draining -> may_end draining ending = true ->
    socket_step p s c (Some LoopEnds) (goes s c (Stopping ch) (world p) (end_loop s (hub p)) p)
| releases ch next ok :
    stage c = Releasing ch next ->
    socket_step p s c (Some SwitchRoom)
      (goes s c (Departing ch next) (world p) (release_for s ch next ok (hub p)) p)
| departs env ch next x w :
    stage c = Departing ch next -> socket_leave (user_of c) ch env (world p) = (Ok x, w) ->
    socket_step p s c None (goes s c (Subscribing next) w (hub p) p)
| subscribes ch ok r m :
    stage c = Subscribing ch -> manager_subscribe ch ok (manager (registry (hub p))) = (Some r, m) ->
    socket_step p s c (Some Subscribed) (goes s c (Entering ch) (world p) (enter room_capacity s ch r m (hub p)) p)
| subscribes_not env ch ok m e x w :
    stage c = Subscribing ch -> manager_subscribe ch ok (manager (registry (hub p))) = (None, m) ->
    attempt (F := AppError) (send_event (SvError (message e))) env (world p) = (Ok x, w) ->
    socket_step p s c (Some SubscribeFailed) (goes s c (Stopping ch) w (fail_switch s ch m (hub p)) p)
| enters env ch x w :
    stage c = Entering ch -> socket_enter (user_of c) ch env (world p) = (Ok x, w) ->
    socket_step p s c None (goes s c (Looping ch (shutting_down p)) w (hub p) p)
| enters_not env ch e w :
    stage c = Entering ch -> socket_enter (user_of c) ch env (world p) = (Err e, w) ->
    socket_step p s c (Some LoopEnds) (goes s c (Stopping ch) w (end_loop s (hub p)) p)
| closes env ch x w :
    stage c = Stopping ch -> socket_close (user_of c) ch env (world p) = (Ok x, w) ->
    socket_step p s c None (goes s c (Leaving ch) w (hub p) p)
| leaves ch ok :
    stage c = Leaving ch ->
    socket_step p s c (Some Released) (returns s (world p) (release_last s ch ok (hub p)) p).

(** A step of the process: a request that becomes a socket, a step of a socket,
    one of the room manager, or anything else it does to the world. *)
Inductive server_step p : option Label -> Server -> Prop :=
| upgraded s headers origin env session w :
    connections p !! s = None -> websocket headers origin env (world p) = (Ok session, w) ->
    server_step p None
      (mkServer w (hub p) (<[s := mkConnection session Greeting]> (connections p)) (gauge_up (gauge p)) (shutting_down p))
| socket_turn s c l q :
    connections p !! s = Some c -> socket_step p s c l q -> server_step p l q
| arrives a :
    server_step p None (mkServer (world p) (arrive decode a (hub p)) (connections p) (gauge p) (shutting_down p))
| reconnects accepted m :
    reconnect accepted (manager (registry (hub p))) = Some m ->
    server_step p (Some Reconnected)
      (mkServer (world p) (refuse m (hub p)) (connections p) (gauge p) (shutting_down p))
| elsewhere w : server_step p None (mkServer w (hub p) (connections p) (gauge p) (shutting_down p))
| shuts_down : server_step p None (mkServer (world p) (hub p) (connections p) (gauge p) true).

Definition server_start w : Server := mkServer w hub_start ∅ 0 false.

(** The states a run of the process went through, the last first. *)
Inductive run (allowed : Label -> Prop) : list Server -> Server -> Prop :=
| run_start w : run allowed [server_start w] (server_start w)
| run_step past p l q :
    run allowed past p -> (forall l', l = Some l' -> allowed l') -> server_step p l q -> run allowed (q :: past) q.

(** ** The sockets follow the room manager *)

Definition place h (s : nat) : option Socket := sockets (registry h) !! s.

(** What the manager's side knows of a socket at each point of its program. *)
Definition fits (st : Stage) h (s : nat) : Prop :=
  match st with
  | Greeting | Greeted _ => place h s = None
  | Controlled _ => place h s = None /\ is_Some (control_views h !! s)
  | Entered _ => exists r, place h s = Some (InRoom MAIN_CHANNEL r)
  | Looping ch _ | Releasing ch _ | Entering ch => exists r, place h s = Some (InRoom ch r)
  | Departing _ next | Subscribing next => place h s = Some (Switching next)
  | Stopping ch | Leaving ch => exists r, place h s = Some (Closing ch r)
  end.

Record Agrees p : Prop := {
  connected s c : connections p !! s = Some c -> fits (stage c) (hub p) s;
  gone s : connections p !! s = None -> place (hub p) s = None;
  counted : gauge p = as_u64 (Z.of_nat (size (connections p)))
}.

Lemma fits_same st h h' s :
  place h' s = place h s -> (is_Some (control_views h !! s) -> is_Some (control_views h' !! s)) ->
  fits st h s -> fits st h' s.
Proof. intros Hp Hc. destruct st; simpl; rewrite Hp; tauto. Qed.

(** What a step of a socket does to the other side, to the other sockets, and to
    its own place. *)
Record Moves (s : nat) (c : Connection) (l : option Label) p q : Prop := {
  hub_moves : hub q = hub p /\ l = None \/ hub_step decode room_capacity (hub p) l (hub q);
  others_stay s' : s' <> s -> place (hub q) s' = place (hub p) s';
  itself : connections q = delete s (connections p) /\ place (hub q) s = None /\ gauge q = gauge_down (gauge p)
           \/ exists st, connections q = <[s := mkConnection (session c) st]> (connections p)
                /\ fits st (hub q) s /\ gauge q = gauge p
}.

Lemma goes_still s c st w l p :
  l = None -> fits st (hub p) s -> Moves s c l p (goes s c st w (hub p) p).
Proof. intros -> Hf. split; [by left|done|right; by exists st]. Qed.

Lemma goes_moves s c st w h l p :
  hub_step decode room_capacity (hub p) l h -> (forall s', s' <> s -> place h s' = place (hub p) s') ->
  fits st h s -> Moves s c l p (goes s c st w h p).
Proof. intros Hs Ho Hf. split; [by right|done|right; by exists st]. Qed.

Lemma enter_place s ch r m h :
  place (enter room_capacity s ch r m h) s = Some (InRoom ch r)
  /\ forall s', s' <> s -> place (enter room_capacity s ch r m h) s' = place h s'.
Proof.
  unfold enter, place. destruct (subscribe _) as [id b]. simpl.
  split; [by rewrite lookup_insert_eq|]. intros s' Hne. by rewrite lookup_insert_ne.
Qed.

(** The loop of a socket in a room ends. *)
Lemma end_loop_moves s c ch r st w p :
  place (hub p) s = Some (InRoom ch r) -> fits st (end_loop s (hub p)) s ->
  Moves s c (Some LoopEnds) p (goes s c st w (end_loop s (hub p)) p).
Proof.
  intros Hp Hf. apply goes_moves; [| |done]; unfold end_loop, place in *; rewrite Hp.
  - apply hub_registry; [|done..]. destruct (registry (hub p)). by eapply step_ends.
  - intros s' Hne. simpl. by rewrite lookup_insert_ne.
Qed.
Lemma end_loop_place s ch r h : place h s = Some (InRoom ch r) -> place (end_loop s h) s = Some (Closing ch (Some r)).
Proof. intros Hp. unfold end_loop. unfold place in Hp. rewrite Hp. unfold place. simpl. by rewrite lookup_insert_eq. Qed.

Lemma read_room_place s s' h h' : read_room s h = Some h' -> place h' s' = place h s'.
Proof. by intros (? & ? & ? & ? & ? & ? & _ & _ & _ & _ & ->)%read_room_some. Qed.
Lemma read_control_place s s' h h' : read_control s h = Some h' -> place h' s' = place h s'.
Proof. by intros (? & ? & ? & _ & _ & ->)%read_control_some. Qed.
Lemma enter_control_place s s' h :
  place (enter_control s h) s' = place h s' /\ is_Some (control_views (enter_control s h) !! s).
Proof. unfold enter_control, place. destruct (subscribe _). simpl. rewrite lookup_insert_eq. by eauto. Qed.

Lemma socket_step_moves p s c l q : fits (stage c) (hub p) s -> socket_step p s c l q -> Moves s c l p q.
Proof.
  intros Hf Hstep. destruct Hstep as
    [env pa w E _|env e w E _|pa E|pa ok r m E Hm|pa ok m E Hm|env pa x w E _|env pa e w E _|env ch d ev t w E _
    |ch d E|ch d h E Hr|ch d h E Hr|ch d en E _|ch nx ok E|env ch nx x w E _|ch ok r m E Hm|env ch ok m e x w E Hm _
    |env ch x w E _|env ch e w E _|env ch x w E _|ch ok E]; rewrite E in Hf; simpl in Hf.
  - by apply goes_still.
  - split; [by left|done|left; done].
  - apply goes_moves; [by apply hub_control|intros; apply enter_control_place|]. simpl.
    destruct (enter_control_place s s (hub p)) as [-> ?]. done.
  - destruct Hf as [Hn Hv]. apply goes_moves; [by eapply hub_connect|apply enter_place|].
    eexists. apply enter_place.
  - destruct Hf as [Hn Hv]. split; [right|done|left; done].
    apply hub_registry; [|done..]. destruct (registry (hub p)). by eapply step_refused.
  - by apply goes_still.
  - destruct Hf as [r Hp]. eapply end_loop_moves; [done|]. eexists. by eapply end_loop_place.
  - destruct Hf as [r Hp]. destruct t; simpl.
    + apply goes_still; [done|by exists r].
    + apply goes_still; [done|by exists r].
    + eapply end_loop_moves; [done|]. eexists. by eapply end_loop_place.
  - by apply goes_still.
  - apply goes_moves; [by eapply hub_read|intros; by eapply read_room_place|].
    simpl. by rewrite (read_room_place _ _ _ _ Hr).
  - apply goes_moves; [by eapply hub_read_control|intros; by eapply read_control_place|].
    simpl. by rewrite (read_control_place _ _ _ _ Hr).
  - destruct Hf as [r Hp]. eapply end_loop_moves; [done|]. eexists. by eapply end_loop_place.
  - destruct Hf as [r Hp]. unfold place in *. apply goes_moves; unfold release_for.
    + apply hub_registry; [|done..]. destruct (registry (hub p)). by eapply step_switch.
    + intros s' Hne. unfold place. simpl. by rewrite lookup_insert_ne.
    + simpl. unfold place. simpl. by rewrite lookup_insert_eq.
  - by apply goes_still.
  - apply goes_moves; [by eapply hub_subscribed|apply enter_place|]. eexists. apply enter_place.
  - unfold place in *. apply goes_moves; unfold fail_switch.
    + apply hub_registry; [|done..]. destruct (registry (hub p)). by eapply step_failed.
    + intros s' Hne. unfold place. simpl. by rewrite lookup_insert_ne.
    + simpl. unfold place. simpl. rewrite lookup_insert_eq. by eexists.
  - by apply goes_still.
  - destruct Hf as [r Hp]. eapply end_loop_moves; [done|]. eexists. by eapply end_loop_place.
  - by apply goes_still.
  - destruct Hf as [r Hp]. unfold place in *. unfold release_last. split; [right| |left].
    + apply hub_registry; [|done..]. destruct (registry (hub p)). by eapply step_released.
    + intros s' Hne. unfold place. simpl. by rewrite lookup_delete_ne.
    + split; [done|]. unfold place. simpl. by rewrite lookup_delete_eq.
Qed.

Lemma control_views_kept h l h' s :
  hub_step decode room_capacity h l h' -> is_Some (control_views h !! s) -> is_Some (control_views h' !! s).
Proof.
  destruct 1 as [h l sys _ _ _|h s' _|h s' ok r m _ _ _|h s' ch ok r m _ _|h a|h s' h' Hr|h s' h' Hr]; try done.
  - unfold enter_control. destruct (subscribe _). simpl. intros H.
    destruct (decide (s' = s)) as [->|]; [by rewrite lookup_insert_eq; eexists|by rewrite lookup_insert_ne].
  - unfold enter. by destruct (subscribe _).
  - unfold enter. by destruct (subscribe _).
  - by apply read_room_some in Hr as (? & ? & ? & ? & ? & ? & _ & _ & _ & _ & ->).
  - apply read_control_some in Hr as (v & i & b & _ & _ & ->). simpl. intros H.
    destruct (decide (s' = s)) as [->|]; [by rewrite lookup_insert_eq; eexists|by rewrite lookup_insert_ne].
Qed.

Lemma gauge_up_count n : gauge_up (as_u64 n) = as_u64 (n + 1).
Proof. unfold gauge_up, as_u64. by rewrite Zplus_mod_idemp_l. Qed.
Lemma gauge_down_count n : gauge_down (as_u64 n) = as_u64 (n - 1).
Proof. unfold gauge_down, as_u64. by rewrite Zminus_mod_idemp_l. Qed.

Lemma moves_agrees s c l p q : connections p !! s = Some c -> Agrees p -> Moves s c l p q -> Agrees q.
Proof.
  intros Hs A M.
  assert (forall s' st, s' <> s -> fits st (hub p) s' -> fits st (hub q) s') as Hkeep.
  { intros s' st Hne. apply fits_same; [by apply (others_stay _ _ _ _ _ M)|].
    destruct (hub_moves _ _ _ _ _ M) as [[-> _]|H]; [done|by eapply control_views_kept]. }
  destruct (itself _ _ _ _ _ M) as [(Ec & Hp & Eg)|(st & Ec & Hf & Eg)]; split; rewrite ?Ec, ?Eg.
  - intros s' c' [Hne H]%lookup_delete_Some. apply Hkeep; [done|by apply A].
  - intros s' [<-|H]%lookup_delete_None; [done|]. destruct (decide (s' = s)) as [->|Hne]; [done|].
    rewrite (others_stay _ _ _ _ _ M) by done. by apply A.
  - rewrite (counted _ A), gauge_down_count. f_equal.
    rewrite map_size_delete_Some by done. assert (size (connections p) <> 0%nat) by (by eapply map_size_ne_0_lookup_2).
    lia.
  - intros s' c' [[<- <-]|[Hne H]]%lookup_insert_Some; [done|]. apply Hkeep; [done|by apply A].
  - intros s' [H Hne]%lookup_insert_None. rewrite (others_stay _ _ _ _ _ M) by done. by apply A.
  - rewrite (counted _ A), map_size_insert_Some by done. done.
Qed.

Lemma upgraded_agrees s session w p :
  connections p !! s = None -> Agrees p ->
  Agrees (mkServer w (hub p) (<[s := mkConnection session Greeting]> (connections p)) (gauge_up (gauge p)) (shutting_down p)).
Proof.
  intros Hs A. split; simpl.
  - intros s' c' [[<- <-]|[Hne H]]%lookup_insert_Some; [by apply (gone _ A)|by apply (connected _ A)].
  - intros s' [H Hne]%lookup_insert_None. by apply A.
  - rewrite (counted _ A), gauge_up_count, map_size_insert_None by done. f_equal. lia.
Qed.

(** A step that leaves the sockets where they are. *)
Lemma agrees_same p w h sd :
  (forall s, place h s = place (hub p) s) -> (forall s, is_Some (control_views (hub p) !! s) -> is_Some (control_views h !! s)) ->
  Agrees p -> Agrees (mkServer w h (connections p) (gauge p) sd).
Proof.
  intros Hp Hc A. split; simpl; [|intros s; rewrite Hp; by apply A|by apply A].
  intros s c H. apply (fits_same _ (hub p)); [done|by apply Hc|by apply A].
Qed.

Lemma server_step_follows p l q :
  Agrees p -> server_step p l q ->
  Agrees q /\ (hub q = hub p \/ hub_step decode room_capacity (hub p) l (hub q)).
Proof.
  intros A. destruct 1 as [s headers origin env session w Hs _|s c l q Hs Hstep|a|accepted m Hr|w|]; simpl.
  - split; [by apply upgraded_agrees|by left].
  - pose proof (socket_step_moves _ _ _ _ _ (connected _ A _ _ Hs) Hstep) as M.
    split; [by eapply moves_agrees|]. destruct (hub_moves _ _ _ _ _ M) as [[? _]|?]; auto.
  - split; [by apply agrees_same|right; apply hub_arrive].
  - split; [by apply agrees_same|]. right. apply hub_registry; [|done..].
    destruct (registry (hub p)). by eapply step_reconnected.
  - split; [by apply agrees_same|by left].
  - split; [by apply agrees_same|by left].
Qed.

Lemma run_follows allowed past p :
  run allowed past p -> Agrees p /\ hub_reachable decode room_capacity allowed (hub p).
Proof.
  induction 1 as [w|past p l q _ [A H] Hl Hstep].
  - split; [|apply hub_reach_start]. split; simpl; [intros s c; by rewrite lookup_empty|done|by rewrite map_size_empty].
  - apply server_step_follows in Hstep as [A' Hh]; [|done]. split; [done|].
    destruct Hh as [->|Hh]; [done|]. by eapply hub_reach_step.
Qed.

(** ** Who is let into a room *)

(** The policy of channel access at some time, or a direct conversation of the
    user's: [open_direct] looks at global bans only. *)
Definition Admits (d : Db) (user : Uuid) (ch : rstr) : Prop :=
  exists row : ChannelRow, c_name row = ch
    /\ ((exists now, CanSee d now user row)
        \/ In row (channels d) /\ c_deleted_at row = None /\ c_kind row = Direct
           /\ exists m, In m (channel_members d) /\ cm_channel_id m = c_id row /\ cm_user_id m = user).

Lemma access_admits ch user env w x w' :
  ensure_channel_access ch user env w = (Ok x, w') -> Admits (w_db w') user ch.
Proof. intros (Hd & now & c & Hc & Hs)%channel_access_ok. rewrite Hd. exists c. eauto. Qed.

Lemma direct_admits actor target env w r w' :
  open_direct actor target env w = (Ok r, w') -> Admits (w_db w') (user_id actor) r.2.
Proof.
  intros H. pose proof (wp_run _ _ _ env w (wp_open_direct actor target (w_db w))) as Hwp. rewrite H in Hwp.
  destruct Hwp as (Hf & Hm & _). unfold sql_find_direct in Hf.
  destruct (first_row _ _) as [c|] eqn:E; [|done]. injection Hf as <-.
  apply first_row_some in E as [Hin Hl]. unfold direct_live in Hl. bool_simpl.
  exists c. split; [done|]. right. simpl in Hm. apply is_member_true in Hm. done.
Qed.

Lemma conversations_shown user env w r w' : send_private_conversations user env w = (r, w') -> w_db w = w_db w'.
Proof.
  intros H. assert (Effects.Frame (DbRel (@eq Db)) (send_private_conversations (K := K) user)) as Hd
    by (unfold send_private_conversations, list_visible_conversations; frame_auto).
  specialize (Hd env w). by rewrite H in Hd.
Qed.

(** A change of room is to the main channel, or to one that is open to the user
    when it is asked for. *)
Lemma switch_admits (cl : Client) event env w ch w' :
  handle_client_event cl event env w = (Ok (Some ch), w') ->
  ch = MAIN_CHANNEL \/ Admits (w_db w') (user_id (s_user cl)) ch.
Proof.
  destruct event as [[]|]; cbn [handle_client_event]; try done;
    repeat (intros (? & ? & ? & H)%bind_ok_inv; revert H); try done.
  - intros [= <- <-]. right. lazymatch goal with
      | H : open_direct _ _ _ _ = _, H' : send_private_conversations _ _ _ = _ |- _ =>
          rewrite <- (conversations_shown _ _ _ _ _ H'); by eapply direct_admits
      end.
  - intros [= <- <-]. right. by eapply access_admits.
  - destruct (_ ≟ _); intros [= <- <-]. by left.
Qed.

Lemma event_admits (cl : Client) event env w t w' ch :
  socket_event cl event env w = (Ok t, w') -> t = SwitchTo ch ->
  ch = MAIN_CHANNEL \/ Admits (w_db w') (user_id (s_user cl)) ch.
Proof.
  unfold socket_event. intros (answer & w1 & Ha & H)%bind_ok_inv ->. unfold attempt in Ha.
  destruct (handle_client_event cl event env w) as [r w2] eqn:E. injection Ha as <- <-.
  destruct r as [[next|]|e]; [|done|].
  - injection H as <- <-. by eapply switch_admits.
  - apply bind_ok_inv in H as (? & ? & _ & H). by destruct (_ =? _).
Qed.

(** The rooms a socket is in or on its way to or from. *)
Definition rooms_of (st : Stage) : list rstr :=
  match st with
  | Greeting | Greeted _ | Controlled _ | Entered _ => []
  | Looping ch _ | Entering ch | Stopping ch | Leaving ch | Subscribing ch => [ch]
  | Releasing ch next | Departing ch next => [ch; next]
  end.

Lemma socket_step_rooms p s c l q :
  socket_step p s c l q ->
  connections q = delete s (connections p)
  \/ exists st, connections q = <[s := mkConnection (session c) st]> (connections p)
       /\ forall ch, In ch (rooms_of st) -> ch = MAIN_CHANNEL \/ In ch (rooms_of (stage c))
            \/ Admits (w_db (world q)) (user_id (user_of c)) ch.
Proof.
  intros Hstep. destruct Hstep as
    [env pa w E _|env e w E _|pa E|pa ok r m E Hm|pa ok m E Hm|env pa x w E _|env pa e w E _|env ch d ev t w E Ht
    |ch d E|ch d h E Hr|ch d h E Hr|ch d en E _|ch nx ok E|env ch nx x w E _|ch ok r m E Hm|env ch ok m e x w E Hm _
    |env ch x w E _|env ch e w E _|env ch x w E _|ch ok E]; rewrite E; try (by left);
    right; eexists; (split; [reflexivity|]); simpl; try tauto; try (intros ch' [<-|[]]; tauto).
  intros ch' Hin. destruct t as [|next|]; simpl in Hin; try tauto.
  destruct Hin as [<-|[<-|[]]]; [tauto|]. apply (event_admits _ _ _ _ _ _ next) in Ht; [|done]. tauto.
Qed.

(** Every room of a socket was open to its user in a state of the run, the main
    room at the upgrade. *)
Definition LetIn (past : list Server) p : Prop :=
  forall s c ch, connections p !! s = Some c -> ch = MAIN_CHANNEL \/ In ch (rooms_of (stage c)) ->
  exists q, In q past /\ Admits (w_db (world q)) (user_id (user_of c)) ch.

Lemma upgrade_admits headers origin env w session w' :
  websocket headers origin env w = (Ok session, w') ->
  Admits (w_db w') (user_id (session_user session)) MAIN_CHANNEL.
Proof.
  unfold websocket. destruct (negb _); [done|]. intros (x & w1 & _ & H)%bind_ok_inv.
  apply bind_ok_inv in H as (? & w2 & Ha & H). injection H as <- <-. by eapply access_admits.
Qed.

Lemma admitted_more past p q : LetIn past p -> connections q = connections p -> LetIn (q :: past) q.
Proof. intros A E s c ch. rewrite E. intros Hs Hch. destruct (A s c ch Hs Hch) as (q' & ? & ?). exists q'. simpl. auto. Qed.

Lemma run_admitted allowed past p : run allowed past p -> LetIn past p.
Proof.
  induction 1 as [w|past p l q _ IH _ Hstep]; [intros s c ch H; simpl in H; by rewrite lookup_empty in H|].
  destruct Hstep as [s headers origin env session w Hs Hw|s c l q Hs Hstep|a|accepted m Hr|w|]; try by eapply admitted_more.
  - intros s' c' ch Hs' Hch. cbn [connections] in Hs'. apply lookup_insert_Some in Hs' as [[<- <-]|[Hne H]].
    + exists (mkServer w (hub p) (<[s := mkConnection session Greeting]> (connections p)) (gauge_up (gauge p)) (shutting_down p)).
      split; [by left|]. destruct Hch as [->|[]]. by eapply upgrade_admits.
    + destruct (IH s' c' ch H Hch) as (q' & ? & ?). exists q'. simpl. auto.
  - intros s' c' ch Hs' Hch.
    assert (forall c0, connections p !! s' = Some c0 -> user_of c0 = user_of c' ->
              ch = MAIN_CHANNEL \/ In ch (rooms_of (stage c0)) ->
              exists q0, In q0 (q :: past) /\ Admits (w_db (world q0)) (user_id (user_of c')) ch) as Hold.
    { intros c0 H0 Hu Hc0. destruct (IH s' c0 ch H0 Hc0) as (q' & ? & Ha). rewrite Hu in Ha. exists q'. simpl. auto. }
    apply socket_step_rooms in Hstep as [Ec|(st & Ec & Hr)]; rewrite Ec in Hs'.
    + apply lookup_delete_Some in Hs' as [_ Hs']. by eapply Hold.
    + apply lookup_insert_Some in Hs' as [[<- <-]|[_ Hs']]; [|by eapply Hold].
      destruct Hch as [->|Hin]; [by apply (Hold c); [done..|left]|].
      destruct (Hr ch Hin) as [->|[Hin'|Ha]]; [by apply (Hold c); [done..|left]|by apply (Hold c); [done..|right]|].
      exists q. split; [by left|done].
Qed.

(** ** Theorems *)

(** The room a socket holds, by its program: from its subscription to its
    release. *)
Definition occupies (ch : rstr) (c : Connection) : bool :=
  match stage c with
  | Entered _ => MAIN_CHANNEL ≟ ch
  | Looping ch' _ | Releasing ch' _ | Entering ch' | Stopping ch' | Leaving ch' => ch' ≟ ch
  | _ => false
  end.

Lemma fits_occupies st se h s ch :
  (forall ch', place h s <> Some (Closing ch' None)) -> fits st h s ->
  match place h s with Some k => in_room ch k | None => false end = occupies ch (mkConnection se st).
Proof.
  intros Hn Hf. unfold occupies. simpl. destruct st; simpl in Hf;
    first [by rewrite Hf|by destruct Hf as [-> _]|destruct Hf as [[r|] Hf]; [by rewrite Hf|by destruct (Hn _ Hf)]|by destruct Hf as [r ->]].
Qed.

Lemma holders_occupy past p ch :
  run no_failed_switch past p -> holders ch (sockets (registry (hub p))) = count_entries (occupies ch) (connections p).
Proof.
  intros [A Hh]%run_follows. assert (Exact (registry (hub p))) as (_ & _ & Hn).
  { by apply reachable_exact, (hub_reachable_registry decode room_capacity no_failed_switch). }
  apply count_entries_match. intros s. destruct (connections p !! s) as [[se st]|] eqn:E.
  - pose proof (fits_occupies _ se _ s ch (Hn s) (connected _ A _ _ E)) as Hf. unfold place in Hf. cbn [stage] in Hf.
    destruct (sockets _ !! s); naive_solver congruence.
  - pose proof (gone _ A _ E) as Hp. unfold place in Hp. rewrite Hp. naive_solver.
Qed.

(** C7. No path through [handle_socket] loses count: in every state of the process
    reachable while no change of room fails, `ACTIVE_WEBSOCKETS` is the number of
    sockets that have not returned, and a room is registered with exactly as many
    clients as there are sockets between their subscription to it and their
    release of it, and not at all when there are none. *)
Theorem sockets_counted past p ch :
  run no_failed_switch past p ->
  gauge p = as_u64 (Z.of_nat (size (connections p)))
  /\ match rooms (manager (registry (hub p))) !! ch with
     | Some e => clients e = Z.of_nat (count_entries (occupies ch) (connections p)) /\ 0 < clients e
     | None => count_entries (occupies ch) (connections p) = 0%nat
     end.
Proof.
  intros Hrun. pose proof (holders_occupy _ _ ch Hrun) as Hocc. apply run_follows in Hrun as [A Hh].
  split; [by apply A|].
  assert (Exact (registry (hub p))) as (_ & He & _).
  { by apply reachable_exact, (hub_reachable_registry decode room_capacity no_failed_switch). }
  specialize (He ch). unfold room_exact in He. rewrite <- Hocc.
  destruct (rooms _ !! ch) as [e|]; [|done]. by destruct He as (? & ? & _).
Qed.

(** C3. Nobody reads a room they were never let into: whatever the socket of a
    user has read in a room, whatever fails and whatever else the process does,
    is an event of that room, and the room was open to the user (by the policy of
    channel access, or as a direct conversation of theirs) in a state the process
    went through. *)
Theorem room_reads_admitted allowed past p s c ch r v text :
  run allowed past p -> connections p !! s = Some c -> place (hub p) s = Some (InRoom ch r) ->
  room_views (hub p) !! s = Some v -> In text (frames (got v)) ->
  (exists event, decode text = Some event /\ routed_channel event = Some ch)
  /\ exists q, In q past /\ Admits (w_db (world q)) (user_id (user_of c)) ch.
Proof.
  intros Hrun Hs Hp Hv Hin. destruct (run_follows _ _ _ Hrun) as [A Hh]. split; [by eapply frames_of_room|].
  eapply run_admitted; [exact Hrun|exact Hs|]. pose proof (connected _ A _ _ Hs) as Hf.
  destruct (stage c); simpl in *;
    first [congruence|by destruct Hf; congruence|destruct Hf as [? Hf]; rewrite Hp in Hf; injection Hf; intros; subst; auto].
Qed.

(** *** Admission is checked once *)

Lemma run_reads allowed n past p s c ch d :
  run allowed past p -> connections p !! s = Some c -> stage c = Looping ch d ->
  exists past' q, run allowed past' q /\ world q = world p /\ hub q = catch_up n s (hub p).
Proof.
  revert past p c d. induction n as [|n IH]; intros past p c d Hrun Hs Hst; simpl; [by exists past, p|].
  destruct (read_room s (hub p)) as [h|] eqn:E; [|by exists past, p].
  set (q := goes s c (Looping ch (shutting_down p)) (world p) h p).
  destruct (IH (q :: past) q (mkConnection (session c) (Looping ch (shutting_down p))) (shutting_down p)) as (past' & q' & ? & ? & ?).
  - eapply run_step; [exact Hrun| |eapply socket_turn; [exact Hs|by eapply reads]]. done.
  - apply lookup_insert_eq.
  - done.
  - by exists past', q'.
Qed.

(** A socket goes on reading its room whatever becomes of the database, so also
    when its user is removed from the channel or banned: there is a run in which
    it has read the next event of the room after any change of the world. *)
Theorem reads_after_removal past p s c ch d w event text :
  run no_failed_switch past p -> connections p !! s = Some c -> stage c = Looping ch d ->
  decode text = Some event -> routed_channel event = Some ch ->
  exists past' q v, run no_failed_switch past' q /\ world q = w
    /\ room_views (hub q) !! s = Some v /\ (no_gap (got v) -> exists before, frames (got v) = before ++ [text]).
Proof.
  intros Hrun Hs Hst Hd Hev. destruct (run_follows _ _ _ Hrun) as [A Hh].
  pose proof (connected _ A _ _ Hs) as Hf. rewrite Hst in Hf. destruct Hf as [r Hp].
  destruct (arrival_read decode room_capacity (hub p) s ch r event text) as (n & v0 & v & _ & Hv & He); try done.
  set (p1 := mkServer w (hub p) (connections p) (gauge p) (shutting_down p)).
  set (p2 := mkServer w (arrive decode (Payload text) (hub p)) (connections p) (gauge p) (shutting_down p)).
  destruct (run_reads no_failed_switch n (p2 :: p1 :: past) p2 s c ch d) as (past' & q & Hq & Ew & Eh); [|done..|].
  - eapply run_step; [eapply run_step; [exact Hrun| |apply elsewhere]| |apply (arrives p1)]; done.
  - exists past', q, v. split; [done|]. split; [done|]. split; [by rewrite Eh|].
    intros Hg. apply explains_frames in He; [|done]. rewrite app_nil_r in He. by eexists.
Qed.
End Server.

(** ** Witnesses *)

#[local] Existing Instance hyphenated_text.
#[local] Existing Instance coded_json.
#[local] Existing Instance coded_bitcode.
#[local] Existing Instance ascii_unicode.
#[local] Existing Instance keyspace_valkey.
#[local] Existing Instance ring_broadcast.

(** Alice opens a socket, and in the main room it reads that bob is typing. *)
Definition cookie : HeaderMap := session_cookie (uuid_of 1000).
Definition signed_in : World Keyspace := (sample_create (sample_env 5) (sample_world chat_db)).2.
Definition typing (text : rstr) : option ServerEvent :=
  if text ≟ rs "typing" then Some (SvTyping MAIN_CHANNEL (uuid_of 2) (rs "bob") true) else None.
Definition alice_participant : Participant :=
  mkParticipant (uuid_of 1) (rs "alice") [] [] [rs "user"] true.
Definition at_stage (st : Stage) : Connection := mkConnection sample_session st.
Definition main_manager : Manager := (manager_subscribe MAIN_CHANNEL true manager_start).2.

Section SampleRun.
Context (w0 w1 w2 w3 : World Keyspace).
Definition p1 : Server Keyspace Ring := mkServer w1 hub_start (<[0%nat := at_stage Greeting]> ∅) 1 false.
Definition p2 := goes 0 (at_stage Greeting) (Greeted alice_participant) w2 (hub p1) p1.
Definition p3 := goes 0 (at_stage (Greeted alice_participant)) (Controlled alice_participant) w2 (enter_control 0 (hub p2)) p2.
Definition p4 := goes 0 (at_stage (Controlled alice_participant)) (Entered alice_participant) w2
  (enter 8 0 MAIN_CHANNEL 0 main_manager (hub p3)) p3.
Definition p5 := goes 0 (at_stage (Entered alice_participant)) (Looping MAIN_CHANNEL false) w3 (hub p4) p4.
Definition p6 := mkServer w3 (arrive typing (Payload (rs "typing")) (hub p5)) (connections p5) (gauge p5) false.
Definition p7 := goes 0 (at_stage (Looping MAIN_CHANNEL false)) (Looping MAIN_CHANNEL false) w3 (catch_up 1 0 (hub p6)) p6.
Definition sample_past : list (Server Keyspace Ring) := [p7; p6; p5; p4; p3; p2; p1; server_start w0].

Context (Hupgrade : websocket cookie None (sample_env 900) w0 = (Ok sample_session, w1)).
Context (Hgreet : socket_greet (session_user sample_session) (sample_env 910) w1 = (Ok alice_participant, w2)).
Context (Hjoin : socket_join alice_participant (sample_env 920) w2 = (Ok tt, w3)).

Lemma sample_step past p c l q :
  run typing 8 no_failed_switch past p -> (forall l', l = Some l' -> no_failed_switch l') ->
  connections p !! 0%nat = Some c -> socket_step 8 p 0 c l q -> run typing 8 no_failed_switch (q :: past) q.
Proof. intros Hrun Hl Hs Hstep. eapply run_step; [exact Hrun|exact Hl|]. by eapply socket_turn. Qed.

Lemma sample_entered : run typing 8 no_failed_switch [p4; p3; p2; p1; server_start w0] p4.
Proof.
  apply (sample_step _ p3 (at_stage (Controlled alice_participant)) (Some Connect)).
  2: { intros l [= <-]. discriminate. }
  2: { reflexivity. }
  2: { exact (connects 8 p3 0 (at_stage (Controlled alice_participant)) alice_participant true 0%nat main_manager eq_refl eq_refl). }
  apply (sample_step _ p2 (at_stage (Greeted alice_participant)) None);
    [|done|reflexivity|exact (listens 8 p2 0 (at_stage (Greeted alice_participant)) alice_participant eq_refl)].
  apply (sample_step _ p1 (at_stage Greeting) None); [|done|reflexivity|].
  2: { exact (greets 8 p1 0 (at_stage Greeting) (sample_env 910) alice_participant w2 eq_refl Hgreet). }
  eapply run_step; [apply run_start| |exact (upgraded typing 8 (server_start w0) 0 cookie None (sample_env 900) sample_session w1 eq_refl Hupgrade)].
  done.
Qed.

Lemma sample_run : run typing 8 no_failed_switch sample_past p7.
Proof.
  apply (sample_step _ p6 (at_stage (Looping MAIN_CHANNEL false)) None); [|done|reflexivity|].
  2: { refine (reads 8 p6 0 (at_stage (Looping MAIN_CHANNEL false)) MAIN_CHANNEL false _ eq_refl _). vm_compute. reflexivity. }
  eapply run_step; [| |apply (arrives typing 8 p5 (Payload (rs "typing")))]; [|done].
  apply (sample_step _ p4 (at_stage (Entered alice_participant)) None); [exact sample_entered|done|reflexivity|].
  exact (joins 8 p4 0 (at_stage (Entered alice_participant)) (sample_env 920) alice_participant tt w3 eq_refl Hjoin).
Qed.

Lemma sample_view : room_views (hub p7) !! 0%nat = Some (mkSubscription 0 0 [Fanout.Frame (rs "typing")]).
Proof. vm_compute. reflexivity. Qed.
End SampleRun.

Definition w1 : World Keyspace := (websocket cookie None (sample_env 900) signed_in).2.
Definition w2 : World Keyspace := (socket_greet (session_user sample_session) (sample_env 910) w1).2.
Definition w3 : World Keyspace := (socket_join alice_participant (sample_env 920) w2).2.

Lemma upgrade_ok : websocket cookie None (sample_env 900) signed_in = (Ok sample_session, w1).
Proof. unfold w1. apply run_split. vm_compute. reflexivity. Qed.
Lemma greet_ok : socket_greet (session_user sample_session) (sample_env 910) w1 = (Ok alice_participant, w2).
Proof. unfold w2. apply run_split. vm_compute. reflexivity. Qed.
Lemma join_ok : socket_join alice_participant (sample_env 920) w2 = (Ok tt, w3).
Proof. unfold w3. apply run_split. vm_compute. reflexivity. Qed.
Lemma alice_run : run typing 8 no_failed_switch (sample_past signed_in w1 w2 w3) (p7 w1 w2 w3).
Proof. exact (sample_run signed_in w1 w2 w3 upgrade_ok greet_ok join_ok). Qed.

Lemma sockets_counted_witness :
  gauge (p7 w1 w2 w3) = 1 /\ match rooms (manager (registry (hub (p7 w1 w2 w3)))) !! MAIN_CHANNEL with
    | Some e => clients e = 1 /\ 0 < clients e | None => False end.
Proof. exact (sockets_counted typing 8 (sample_past signed_in w1 w2 w3) (p7 w1 w2 w3) MAIN_CHANNEL alice_run). Defined.

Lemma room_reads_admitted_witness :
  exists q, In q (sample_past signed_in w1 w2 w3) /\ Admits (w_db (world q)) (uuid_of 1) MAIN_CHANNEL.
Proof.
  apply (room_reads_admitted typing 8 no_failed_switch (sample_past signed_in w1 w2 w3) (p7 w1 w2 w3) 0
    (at_stage (Looping MAIN_CHANNEL false)) MAIN_CHANNEL 0 (mkSubscription 0 0 [Fanout.Frame (rs "typing")]) (rs "typing")).
  - exact alice_run.
  - reflexivity.
  - reflexivity.
  - apply sample_view.
  - left. reflexivity.
Defined.

Lemma reads_after_removal_witness :
  exists past' q v, run typing 8 no_failed_switch past' q /\ world q = sample_world sample_db
    /\ room_views (hub q) !! 0%nat = Some v /\ (no_gap (got v) -> exists before, frames (got v) = before ++ [rs "typing"]).
Proof.
  eapply (reads_after_removal typing 8 (sample_past signed_in w1 w2 w3) (p7 w1 w2 w3) 0 (at_stage (Looping MAIN_CHANNEL false))
    MAIN_CHANNEL false (sample_world sample_db)).
  - exact alice_run.
  - reflexivity.
  - reflexivity.
  - reflexivity.
  - reflexivity.
Defined.
