(* ===== verification/Metrics.v ===== *)
(** * The clock and the metrics layer

    [clock.rs] and [metrics.rs]: the time the other components read, and the
    counters around the handlers. *)
From Stdlib Require Import String.
From stdpp Require Import gmap countable.
From S2P Require Export Models.
Open Scope Z_scope.

(** ** [SystemClock] *)

(** [now] is the system time in nanoseconds since the epoch, before it when
    negative: [duration_since] refuses that, and the default is zero. *)
Definition system_now_millis (now : Z) : Z := as_u64 (if now <? 0 then 0 else now / 1000000).

Lemma system_now_bounds now : 0 <= system_now_millis now <= u64_max.
Proof. unfold system_now_millis, as_u64, u64_max. pose proof (Z.mod_pos_bound (if now <? 0 then 0 else now / 1000000) (2 ^ 64)). lia. Qed.

(** The time does not run backwards with the system's, and fits the signed
    columns it is stored in, up to [i64::MAX] milliseconds. *)
Lemma system_now_exact now later :
  now <= later -> later < i64_max * 1000000 ->
  system_now_millis now <= system_now_millis later /\ as_i64 (system_now_millis later) = system_now_millis later.
Proof.
  intros Hle Hmax. assert (forall t, t <= later -> system_now_millis t = if t <? 0 then 0 else t / 1000000) as Hid.
  { intros t Ht. apply as_u64_id. unfold u64_max, i64_max in *. case_match; [lia|].
    split; [apply Z.div_pos; lia|]. apply (Z.div_le_upper_bound t); lia. }
  rewrite !Hid by lia. destruct (Z.ltb_spec later 0).
  - rewrite (proj2 (Z.ltb_lt now 0)) by lia. split; [lia|]. apply as_i64_id. unfold i64_max. lia.
  - assert (later / 1000000 <= i64_max) by (apply Z.div_le_upper_bound; lia).
    assert (0 <= later / 1000000) by (apply Z.div_pos; lia). split; [|apply as_i64_id; lia].
    destruct (now <? 0) eqn:E; [lia|]. apply Z.div_le_mono; lia.
Qed.

(** ** The counters *)

(** The series the layer increments; the status is its number. *)
Variant Series := Authentications | HttpRequests (method route : rstr) (status : Z).
#[export] Instance series_eq_dec : EqDecision Series.
Proof. solve_decision. Defined.
#[export] Program Instance series_countable : Countable Series :=
  inj_countable' (fun k => match k with Authentications => None | HttpRequests m r s => Some (m, r, s) end)
    (fun o => match o with None => Authentications | Some (m, r, s) => HttpRequests m r s end) _.
Next Obligation. by intros []. Qed.

(** [AUTHENTICATIONS] is an [AtomicU64]; the recorder keeps the counters and the
    durations of each route. *)
Record Recorded := mkRecorded {
  total_authentications : Z;
  counters : gmap Series Z;
  durations : gmap rstr (list Z)
}.
Definition nothing_recorded : Recorded := mkRecorded 0 ∅ ∅.
Definition count_of (k : Series) (x : Recorded) : Z := default 0 (counters x !! k).
Definition increment (k : Series) (x : Recorded) : Recorded :=
  mkRecorded (total_authentications x) (<[k := count_of k x + 1]> (counters x)) (durations x).

Definition record_authentication (x : Recorded) : Recorded :=
  let x := mkRecorded (as_u64 (total_authentications x + 1)) (counters x) (durations x) in
  increment Authentications x.

(** [next] is the rest of the stack; [elapsed] is read after it returned. *)
Definition track_http_request {W R : Type} (status : R -> Z) (method : rstr) (matched : option rstr)
    (next : W -> R * W) (elapsed : W -> Z) (x : Recorded) (w : W) : R * W * Recorded :=
  let route := default (rs "unmatched") matched in
  let '(response, w) := next w in
  let x := increment (HttpRequests method route (status response)) x in
  (response, w,
   mkRecorded (total_authentications x) (counters x)
     (<[route := default [] (durations x !! route) ++ [elapsed w]]> (durations x))).

Section Tracking.
Context {W R : Type} (status : R -> Z) (elapsed : W -> Z).

(** The answer and the effects are those of the handler. *)
Lemma track_transparent method matched next x (w : W) :
  (track_http_request status method matched next elapsed x w).1 = next w.
Proof. unfold track_http_request. by destruct (next w). Qed.

Lemma count_increment k k' x : count_of k' (increment k x) = count_of k' x + (if decide (k = k') then 1 else 0).
Proof.
  unfold count_of at 1, increment. simpl. destruct (decide (k = k')) as [->|Hne].
  - by rewrite lookup_insert_eq.
  - rewrite lookup_insert_ne by done. unfold count_of. lia.
Qed.

(** Requests one after the other, each with its method, route and handler. *)
Fixpoint track_all (l : list (rstr * option rstr * (W -> R * W))) (x : Recorded) (w : W) : list Series * W * Recorded :=
  match l with
  | [] => ([], w, x)
  | (method, matched, next) :: l =>
      let '(response, w, x) := track_http_request status method matched next elapsed x w in
      let '(served, w, x) := track_all l x w in
      (HttpRequests method (default (rs "unmatched") matched) (status response) :: served, w, x)
  end.

(** Every request is counted once, under the status it was answered with. *)
Theorem requests_counted l x w k :
  let '(served, _, x') := track_all l x w in
  count_of k x' = count_of k x + Z.of_nat (length (List.filter (fun k' => bool_decide (k' = k)) served)).
Proof.
  revert x w. induction l as [|[[method matched] next] l IH]; intros x w; simpl; [lia|].
  unfold track_http_request. destruct (next w) as [response w1]. cbv zeta.
  set (k1 := HttpRequests method (default (rs "unmatched") matched) (status response)).
  set (x1 := mkRecorded _ _ _). specialize (IH x1 w1). destruct (track_all l x1 w1) as [[served w2] x2].
  rewrite IH. assert (count_of k x1 = count_of k (increment k1 x)) as -> by done.
  rewrite count_increment. simpl. destruct (decide (k1 = k)) as [E|E];
    [rewrite (bool_decide_eq_true_2 _ E)|rewrite (bool_decide_eq_false_2 _ E)]; simpl; lia.
Qed.
End Tracking.

Lemma record_authentication_counts x :
  count_of Authentications (record_authentication x) = count_of Authentications x + 1.
Proof. unfold record_authentication. by rewrite count_increment, decide_True. Qed.

Lemma authentications_counted n :
  let x := Nat.iter n record_authentication nothing_recorded in
  total_authentications x = as_u64 (Z.of_nat n) /\ count_of Authentications x = Z.of_nat n.
Proof.
  cbv zeta. induction n as [|n [IHt IHc]]; [done|].
  rewrite Nat.iter_succ, record_authentication_counts, IHc. split; [|lia].
  change (as_u64 (total_authentications (Nat.iter n record_authentication nothing_recorded) + 1) = as_u64 (Z.of_nat (S n))).
  rewrite IHt. unfold as_u64. rewrite Zplus_mod_idemp_l. f_equal. lia.
Qed.
