(* ===== verification/Account.v ===== *)
(** * Accounts

    [api/account.rs], the account statements of [repository/postgres.rs] and the
    notifier of [auth/recovery.rs]: registration, login, sessions, password
    changes and account recovery. *)
From Stdlib Require Import String.
From S2P Require Export Services.
From S2P Require Import Reference.
Open Scope m_scope.

(** ** Statements on users *)

(** [users_email_lower_idx] and [users_username_lower_idx]. *)
Definition user_conflict {U : Unicode} (d : Db) (id : Uuid) (email username : rstr) : bool :=
  exists_row (fun u => negb (u_id u ≟ id)
    && ((pg_lower (u_email u) ≟ pg_lower email) || (pg_lower (u_username u) ≟ pg_lower username))) (users d).

Definition sql_insert_user {U : Unicode} (id : Uuid) (email username hash : rstr) (now : Z) (d : Db) :
    Result SqlxError (unit * Db) :=
  let email := pg_lower email in
  insert_row u_id (negb (user_conflict d id email username)) users set_users
    (mkUserRow id email username hash None 1 now now None [] [] None) d.

(** [role_version=role_version+1, updated_at=$now] *)
Definition touch_user (now : Z) (u : UserRow) : UserRow :=
  set_u_updated_at now (set_u_role_version (u_role_version u + 1) u).

Definition live_user (user : Uuid) (u : UserRow) : bool := (u_id u ≟ user) && is_none (u_deleted_at u).

(** The user's role names and distinct permission names. *)
Definition role_held (d : Db) (user role : Uuid) : bool :=
  exists_row (fun ur => (ur_user_id ur ≟ user) && (ur_role_id ur ≟ role)) (user_roles d).
Definition roles_of (d : Db) (user : Uuid) : list rstr :=
  map ro_name (where_ (fun r => role_held d user (ro_id r)) (roles_t d)).
Definition permissions_of (d : Db) (user : Uuid) : list rstr :=
  remove_dups (map pe_name (where_ (fun p =>
    exists_row (fun rp => (rp_permission_id rp ≟ pe_id p) && role_held d user (rp_role_id rp))
      (role_permissions d)) (permissions_t d))).

(** [user_from_row] *)
Definition user_from_row (d : Db) (u : UserRow) : AuthUser :=
  mkAuthUser (u_id u) (u_email u) (u_username u) (roles_of d (u_id u)) (permissions_of d (u_id u)).

(** [INSERT INTO user_roles ... SELECT ... FROM roles WHERE name=$role]; role
    names are unique. *)
Definition user_role_key (r : UserRoleRow) : Uuid * Uuid := (ur_user_id r, ur_role_id r).
Definition role_named (d : Db) (name : rstr) : option RoleRow := first_row (fun r => ro_name r ≟ name) (roles_t d).
Definition sql_give_role (user : Uuid) (role : rstr) (now : Z) (d : Db) : Result SqlxError (unit * Db) :=
  match role_named d role with
  | None => Ok (tt, d)
  | Some r => insert_row user_role_key (fk_user d user) user_roles set_user_roles
                (mkUserRoleRow user (ro_id r) now) d
  end.
(** [... ON CONFLICT DO NOTHING], with the number of rows. *)
Definition sql_assign_role (user : Uuid) (role : rstr) (now : Z) (d : Db) : Result SqlxError (Z * Db) :=
  match role_named d role with
  | None => Ok (0, d)
  | Some r =>
      if role_held d user (ro_id r) then Ok (0, d)
      else match sql_give_role user role now d with Ok (_, d') => Ok (1, d') | Err e => Err e end
  end.

Definition sql_user (user : Uuid) (d : Db) : option AuthUser :=
  user_from_row d <$> first_row (fun u => u_id u ≟ user) (users d).

(** [WHERE lower(u.email)=lower($1) OR lower(u.username)=lower($1)] *)
Definition login_match {U : Unicode} (identifier : rstr) (u : UserRow) : bool :=
  (pg_lower (u_email u) ≟ pg_lower identifier) || (pg_lower (u_username u) ≟ pg_lower identifier).
Definition sql_login {U : Unicode} (identifier : rstr) (d : Db) : option (AuthUser * rstr * bool) :=
  (fun u => (user_from_row d u, u_password_hash u, is_some (u_disabled_at u)))
  <$> first_row (login_match identifier) (users d).

Definition sql_set_disabled (disabled : bool) (now : Z) (user : Uuid) (d : Db) : Result SqlxError (Z * Db) :=
  let p := fun u => u_id u ≟ user in
  Ok (count_rows p (users d),
      set_users (update_where p (fun u => touch_user now
        (set_u_disabled_at
           (if disabled then match u_disabled_at u with Some t => Some t | None => Some now end else None) u))) d).

Definition sql_set_username {U : Unicode} (username : rstr) (now : Z) (user : Uuid) (d : Db) :
    Result SqlxError (Z * Db) :=
  if exists_row (fun u => negb (u_id u ≟ user) && (pg_lower (u_username u) ≟ pg_lower username)) (users d)
     && exists_row (live_user user) (users d)
  then Err SqlxDatabase
  else Ok (count_rows (live_user user) (users d),
           set_users (update_where (live_user user) (fun u => touch_user now (set_u_username username u))) d).

Definition sql_touch_user (now : Z) (user : Uuid) (d : Db) : Result SqlxError (unit * Db) :=
  Ok (tt, set_users (update_where (fun u => u_id u ≟ user) (touch_user now)) d).

(** ** The repository's account operations *)

Section AccountRepository.
Context {K : Type} {T : UuidText} {U : Unicode}.
Notation M := (M K RepositoryError).

Definition register_user (email username password_hash : rstr) : M AuthUser :=
  transaction (
    id <- now_v7 ;;
    now <- now_millis ;;
    execute (sql_insert_user id email username password_hash (as_i64 now)) ;;
    execute (sql_give_role id (rs "user") (as_i64 now)) ;;
    record_audit (mkAuditEvent None (rs "user.registered") (rs "user") id json_empty (as_i64 now)) ;;
    row <- query (sql_user id) ;;
    ok_or row (from_err SqlxRowNotFound)).

Definition find_user_for_login (email : rstr) : M (option (AuthUser * rstr * bool)) :=
  query (sql_login email).

Definition set_user_disabled (actor user : Uuid) (disabled : bool) : M unit :=
  now <- now_millis ;;
  transaction (
    affected <- execute (sql_set_disabled disabled (as_i64 now) user) ;;
    if affected =? 0 then throw NotFound
    else
      record_audit (audit actor (if disabled then "user.disabled" else "user.enabled")%string "user" user
                      json_empty (as_i64 now)) ;;
      queue_auth_invalidation user (as_i64 now)).

Definition update_username (user : Uuid) (username : rstr) : M unit :=
  transaction (
    now <- now_millis ;;
    affected <- execute (sql_set_username username (as_i64 now) user) ;;
    if affected =? 0 then throw NotFound
    else record_audit (audit user "user.username_changed" "user" user
                         (JObj [(rs "username", JStr username)]) (as_i64 now))).

Definition assign_role (actor user : Uuid) (role : rstr) : M unit :=
  now <- now_millis ;;
  transaction (
    affected <- execute (sql_assign_role user role (as_i64 now)) ;;
    if affected =? 0 then throw NotFound
    else
      execute (sql_touch_user (as_i64 now) user) ;;
      record_audit (audit actor "user.role_assigned" "user" user (JObj [(rs "role", JStr role)]) (as_i64 now)) ;;
      queue_auth_invalidation user (as_i64 now)).
End AccountRepository.

(** ** Recovery tokens *)

Definition live_account {U : Unicode} (email : rstr) (u : UserRow) : bool :=
  (pg_lower (u_email u) ≟ pg_lower email) && is_none (u_disabled_at u) && is_none (u_deleted_at u).

Definition sql_drop_unused_tokens (user : Uuid) (d : Db) : Result SqlxError (unit * Db) :=
  Ok (tt, set_account_recovery_tokens
            (delete_where (fun r => (rt_user_id r ≟ user) && is_none (rt_used_at r))) d).
(** [token_hash] is unique. *)
Definition sql_insert_token (id user : Uuid) (hash : rstr) (expires_at now : Z) (d : Db) :
    Result SqlxError (unit * Db) :=
  insert_row rt_id
    (fk_user d user && negb (exists_row (fun r => rt_token_hash r ≟ hash) (account_recovery_tokens d)))
    account_recovery_tokens set_account_recovery_tokens (mkRecoveryRow id user hash expires_at now None) d.
(** [WHERE token_hash=$1 AND used_at IS NULL AND expires_at>$2] *)
Definition usable_token (hash : rstr) (now : Z) (r : RecoveryRow) : bool :=
  (rt_token_hash r ≟ hash) && is_none (rt_used_at r) && (now <? rt_expires_at r).
Definition sql_token_user (hash : rstr) (now : Z) (d : Db) : option Uuid :=
  rt_user_id <$> first_row (usable_token hash now) (account_recovery_tokens d).
(** [SET password_hash=$1,role_version=role_version+1,updated_at=$2 WHERE id=$3
    AND deleted_at IS NULL] *)
Definition new_password (hash : rstr) (now : Z) (u : UserRow) : UserRow :=
  touch_user now (set_u_password_hash hash u).
Definition sql_new_password (hash : rstr) (now : Z) (user : Uuid) (d : Db) : Result SqlxError (unit * Db) :=
  Ok (tt, set_users (update_where (live_user user) (new_password hash now)) d).
Definition sql_use_token (hash : rstr) (now : Z) (d : Db) : Result SqlxError (unit * Db) :=
  Ok (tt, set_account_recovery_tokens
            (update_where (fun r => rt_token_hash r ≟ hash) (set_rt_used_at (Some now))) d).

Definition sql_self_delete (now : Z) (user : Uuid) (d : Db) : Result SqlxError (unit * Db) :=
  Ok (tt, set_users (update_where (live_user user) (fun u => touch_user now
            (set_u_deleted_at (Some now) (set_u_disabled_at (Some now) u)))) d).

(** [RecoveryNotifier]: the sender answers by itself, at each step its own way. *)
Record RecoveryNotifier := mkNotifier { notify : nat -> rstr -> rstr -> Result rstr unit }.
Definition DisabledRecoveryNotifier : RecoveryNotifier :=
  mkNotifier (fun _ _ _ => Err (rs "account recovery delivery is not configured")).

Record SessionView := mkSessionView { view_id : Uuid; view_current : bool }.
Record ExportedMessage := mkExportedMessage {
  ex_channel : rstr; ex_id : Uuid; ex_text : rstr; ex_created_at : Z; ex_edited : bool; ex_deleted : bool
}.
(** [... JOIN channels ... WHERE m.owner_user_id=$1 ORDER BY m.created_at] *)
Definition sql_export (user : Uuid) (d : Db) : list ExportedMessage :=
  concat (map (fun m =>
    map (fun c => mkExportedMessage (c_name c) (m_id m) (m_text m) (m_created_at m) (m_edited m)
                    (is_some (m_deleted_at m)))
      (where_ (fun c => c_id c ≟ m_channel_id m) (channels d)))
    (order_by (fun a b => m_created_at a <=? m_created_at b)
       (where_ (fun m => m_owner_user_id m ≟ Some user) (messages d)))).

(** ** api/account.rs *)

Definition account_gone : string := "account unavailable".
Definition bad_credentials : AppError := unauthorized "invalid credentials".
Definition bad_recovery_token : AppError := unauthorized "invalid or expired recovery token".

Section Account.
Context {K : Type} {V : Valkey K} {T : UuidText} {J : JsonText} {U : Unicode} {C : Crypto}.
Notation M := (M K AppError).

Definition recovery_token_hash (token : rstr) : rstr := hex_encode (sha256 (as_bytes token)).

(** The cookie and the token a new session answers with; [secure] is
    [COOKIE_SECURE]. *)
Definition session_headers (secure : bool) (id : Uuid) (csrf : rstr) : HeaderMap :=
  [(rs "set-cookie", auth_cookie secure id); (CSRF_HEADER, csrf)].

Definition register (secure : bool) (headers : HeaderMap) (raw_email raw_username password : rstr) :
    M (HeaderMap * AuthUser) :=
  let email := to_lowercase (trim raw_email) in
  let username := trim raw_username in
  if negb (existsb (fun c => c =? 64) email) || (320 <? len email) then throw (bad_request "invalid email") else
  lift (validate_username username) ;;
  let ip_hash := hex_encode (sha256 (as_bytes (client_ip headers))) in
  enforce_rate_limit (rs "chat:rate:register:ip:" ++ ip_hash) 5 3600 ;;
  hash <- password_hash password ;;
  registered <- attempt (register_user email username hash) ;;
  user <- match registered with Ok user => ret user | Err error => throw (map_conflict error) end ;;
  created <- create_session user ;;
  ret (session_headers secure created.1 created.2, user).

(** [dummy_hash] is the value of the [OnceLock] [DUMMY_HASH]. *)
Definition login (dummy_hash : rstr) (secure : bool) (headers : HeaderMap) (email password : rstr) :
    M (HeaderMap * AuthUser) :=
  let email_trimmed := to_lowercase (trim email) in
  let ip_hash := hex_encode (sha256 (as_bytes (client_ip headers))) in
  enforce_rate_limit (rs "chat:rate:login:ip:" ++ ip_hash) 20 300 ;;
  let target_hash := hex_encode (sha256 (as_bytes email_trimmed)) in
  enforce_rate_limit (rs "chat:rate:login:target:" ++ target_hash) 5 300 ;;
  found <- conv (find_user_for_login (trim email)) ;;
  let '(user, hash, disabled) :=
    match found with
    | Some (user, hash, disabled) => (Some user, hash, disabled)
    | None => (None, dummy_hash, false)
    end in
  let key := match user with Some u => user_id u | None => uuid_nil end in
  verified <- verify_password_coalesced key password hash ;;
  if disabled : bool then throw bad_credentials else
  user <- ok_or user bad_credentials ;;
  if negb verified then throw bad_credentials else
  created <- create_session user ;;
  ret (session_headers secure created.1 created.2, user).

Definition recovery_sent : rstr :=
  rs "If the account exists, recovery instructions will be sent.".

Definition call_notifier (notifier : RecoveryNotifier) (email token : rstr) : M (Result rstr unit) := fun _ w =>
  (Ok (notify notifier (w_step w) email token), tick w).

Definition request_recovery (notifier : RecoveryNotifier) (raw_email : rstr) : M rstr :=
  let email := to_lowercase (trim raw_email) in
  if is_empty email || (320 <? len email) then throw (bad_request "invalid email") else
  let key := rs "chat:rate:recovery:" ++ hex_encode (sha256 (as_bytes email)) in
  enforce_rate_limit key 5 3600 ;;
  row <- query (fun d => first_row (live_account email) (users d)) ;;
  match row with
  | None => ret recovery_sent
  | Some row =>
      bytes <- fill_bytes ;;
      let token := hex_encode bytes in
      now <- now_millis ;;
      transaction (
        execute (sql_drop_unused_tokens (u_id row)) ;;
        id <- now_v7 ;;
        execute (sql_insert_token id (u_id row) (recovery_token_hash token)
                   (as_i64 now + 30 * 60 * 1000) (as_i64 now))) ;;
      call_notifier notifier (u_email row) token ;;
      ret recovery_sent
  end.

Definition reset_recovery (raw_token password : rstr) : M unit :=
  let token := trim raw_token in
  if negb (len token =? 64) || negb (forallb is_ascii_hexdigit token) then throw bad_recovery_token else
  let hash := recovery_token_hash token in
  password_hash <- password_hash password ;;
  now <- now_millis ;;
  transaction (
    row <- query (sql_token_user hash (as_i64 now)) ;;
    user <- ok_or row bad_recovery_token ;;
    execute (sql_new_password password_hash (as_i64 now) user) ;;
    execute (sql_use_token hash (as_i64 now)) ;;
    record_audit (audit user "user.password_recovered" "user" user json_empty (as_i64 now)) ;;
    queue_auth_invalidation user (as_i64 now)).

Definition logout (headers : HeaderMap) : M unit :=
  session <- load_session headers ;;
  require_csrf headers session ;;
  connection ;;
  command (Del [session_key (session_id session)]) ;;
  command (Srem (user_sessions_key (user_id (session_user session)))
             [uuid_to_string (session_id session)]) ;;
  ret tt.

Definition me (headers : HeaderMap) : M (HeaderMap * AuthUser) :=
  session <- load_session headers ;;
  ret ([(CSRF_HEADER, csrf session)], session_user session).

Definition update_account (headers : HeaderMap) (raw_username : rstr) : M AuthUser :=
  session <- load_session headers ;;
  require_csrf headers session ;;
  let username := trim raw_username in
  lift (validate_username username) ;;
  conv (update_username (user_id (session_user session)) username) ;;
  let u := session_user session in
  let user := mkAuthUser (user_id u) (email u) username (roles u) (permissions u) in
  connection ;;
  command (Hset (session_key (session_id session)) [(rs "user", json_to_string (user_to_json user))]) ;;
  ret user.

Definition export_account (headers : HeaderMap) : M (AuthUser * list ExportedMessage * Z) :=
  session <- load_session headers ;;
  rows <- query (sql_export (user_id (session_user session))) ;;
  now <- now_millis ;;
  ret (session_user session, rows, now).

Definition delete_account (headers : HeaderMap) : M unit :=
  session <- load_session headers ;;
  require_csrf headers session ;;
  let user := user_id (session_user session) in
  now <- now_millis ;;
  transaction (
    execute (sql_self_delete (as_i64 now) user) ;;
    record_audit (audit user "user.self_deleted" "user" user json_empty (as_i64 now))) ;;
  connection ;;
  let sessions_key := user_sessions_key user in
  ids <- command (Smembers sessions_key) ;;
  for_each ids (fun id =>
    match uuid_parse id with
    | Some id => command (Del [session_key id]) ;; ret tt
    | None => ret tt
    end) ;;
  command (Del [sessions_key]) ;;
  ret tt.

Definition change_password (headers : HeaderMap) (current_password new_password : rstr) : M unit :=
  session <- load_session headers ;;
  require_csrf headers session ;;
  let user := session_user session in
  found <- conv (find_user_for_login (username user)) ;;
  found <- ok_or found (unauthorized account_gone) ;;
  let '(_, current_hash, disabled) := found in
  (if disabled : bool then throw (unauthorized "current password is incorrect") else
   verified <- verify_password_coalesced (user_id user) current_password current_hash ;;
   if negb verified then throw (unauthorized "current password is incorrect") else ret tt) ;;
  hash <- password_hash new_password ;;
  now <- now_millis ;;
  execute (sql_new_password hash (as_i64 now) (user_id user)) ;;
  connection ;;
  let sessions_key := user_sessions_key (user_id user) in
  sessions <- command (Smembers sessions_key) ;;
  for_each sessions (fun id =>
    if id ≟ uuid_to_string (session_id session) then ret tt else
    match uuid_parse id with
    | None => ret tt
    | Some sid =>
        command (Del [session_key sid]) ;;
        command (Srem sessions_key [id]) ;;
        ret tt
    end) ;;
  record_audit_pool (audit (user_id user) "user.password_changed" "user" (user_id user) json_empty (as_i64 now)).

Fixpoint session_views (sessions_key : rstr) (current : Uuid) (ids : list rstr) : M (list SessionView) :=
  match ids with
  | [] => ret []
  | id :: ids =>
      match uuid_parse id with
      | None => session_views sessions_key current ids
      | Some parsed =>
          live <- command (Exists (session_key parsed)) ;;
          if live : bool then
            rest <- session_views sessions_key current ids ;;
            ret (mkSessionView parsed (parsed ≟ current) :: rest)
          else
            command (Srem sessions_key [id]) ;;
            session_views sessions_key current ids
      end
  end.
Definition list_sessions (headers : HeaderMap) : M (list SessionView) :=
  session <- load_session headers ;;
  connection ;;
  let sessions_key := user_sessions_key (user_id (session_user session)) in
  ids <- command (Smembers sessions_key) ;;
  session_views sessions_key (session_id session) ids.

Definition revoke_session (headers : HeaderMap) (id : Uuid) : M unit :=
  session <- load_session headers ;;
  require_csrf headers session ;;
  if id ≟ session_id session then throw (bad_request "use logout to revoke the current session") else
  connection ;;
  command (Del [session_key id]) ;;
  command (Srem (user_sessions_key (user_id (session_user session))) [uuid_to_string id]) ;;
  ret tt.
End Account.

(** ** Logging in *)

Section AccountFacts.
Context {K : Type} {V : Valkey K} {T : UuidText} {J : JsonText} {U : Unicode} {C : Crypto}.

(** The verdict of the verifier is the verdict on that password and hash. *)
Lemma wp_verify user password encoded d :
  wp (K := K) (verify_password_coalesced user password encoded)
    (fun b d' => d' = d /\ b = argon2_verify password encoded) (fun d' => d' = d) d.
Proof.
  intros env w Hw. unfold verify_password_coalesced. by destruct (env_fault _ _).
Qed.

Lemma wp_password_hash password d :
  wp (K := K) (password_hash password)
    (fun h d' => d' = d /\ argon2_verify password h = true) (fun d' => d' = d) d.
Proof.
  unfold password_hash, hash_password_unchecked. apply wp_bind, wp_lift; [done|]. intros _ _.
  apply wp_bind. wp_silent_step. apply wp_ok_or; [done|]. intros h Hh. split; [done|].
  by eapply argon2_verify_hash.
Qed.
End AccountFacts.

Section LoginFacts.
Context {K : Type} {V : Valkey K} {T : UuidText} {J : JsonText} {U : Unicode} {C : Crypto}.

(** The limiter's keys are no session's, and it does not look at the database. *)
Lemma rate_limit_effect key limit window env (w : World K) r w' :
  (forall id, session_key id <> key) -> enforce_rate_limit key limit window env w = (r, w') ->
  SameSessions w w' /\ w_db w' = w_db w.
Proof.
  intros Hk Hr. pose proof (sessions_enforce_rate_limit key limit window Hk env w) as Hs.
  pose proof (frame_enforce_rate_limit (DbRel eq) key limit window env w) as Hd.
  rewrite Hr in Hs, Hd. by split.
Qed.

(** A login that succeeds: the account it found, and the block it ran. *)
Lemma login_inv dummy secure headers identifier password env w response user w' :
  login dummy secure headers identifier password env w = (Ok (response, user), w') ->
  exists u id tok w1,
    In u (users (w_db w)) /\ login_match (trim identifier) u = true
    /\ u_disabled_at u = None /\ argon2_verify password (u_password_hash u) = true
    /\ user = user_from_row (w_db w) u /\ response = session_headers secure id tok
    /\ SameSessions w w1 /\ create_session user env w1 = (Ok (id, tok), w').
Proof.
  unfold login, find_user_for_login. cbv zeta. intros H.
  apply bind_ok_inv in H as ([] & w1 & H1 & H). apply bind_ok_inv in H as ([] & w2 & H2 & H).
  apply bind_ok_inv in H as (found & w3 & H3 & H).
  assert (found = sql_login (trim identifier) (w_db w2) /\ w3 = tick w2) as [-> ->].
  { unfold conv, query in H3. destruct (env_fault _ _); [by injection H3 as <- <-|done..]. }
  apply rate_limit_effect in H1 as [Hs1 Hd1]; [|done]. apply rate_limit_effect in H2 as [Hs2 Hd2]; [|done].
  assert (SameSessions w w2) as Hs by (by eapply frame_trans).
  assert (w_db w2 = w_db w) as Hd by congruence.
  unfold sql_login in H. rewrite Hd in H.
  destruct (first_row (login_match (trim identifier)) (users (w_db w))) as [u|] eqn:Hu;
    cbn [fmap option_fmap option_map] in H; apply bind_ok_inv in H as (verified & w4 & H4 & H).
  2:{ by apply bind_ok_inv in H as (? & ? & ? & _). }
  apply first_row_some in Hu as [Hin Hm].
  destruct (u_disabled_at u) as [t|] eqn:Hdis; [done|]. cbn [is_some is_none negb] in H.
  apply bind_ok_inv in H as (? & w5 & H5 & H). injection H5 as <- <-.
  destruct verified; [|done]. apply bind_ok_inv in H as ([id tok] & w6 & H6 & H). injection H as <- <- <-.
  assert (argon2_verify password (u_password_hash u) = true /\ w4 = tick (tick w2)) as [Hv ->].
  { unfold verify_password_coalesced in H4. destruct (env_fault _ _); [by injection H4 as H4 <-|done..]. }
  exists u, id, tok, (tick (tick w2)). by repeat split.
Qed.
End LoginFacts.

(** C18. Nobody logs in without the password: when [login] succeeds, whatever
    requests failed on the way, there is an account whose e-mail or name is the
    one given, that is not disabled and whose stored hash verifies the password;
    the answer is that account with the cookie and the token of one session; the
    entry stored under the identifier in the cookie (when nothing was there) is
    that account's session with that token, for its time to live from then on;
    no other session changes, and neither does the database. *)
Theorem login_sound {K} {V : Valkey K} {T : UuidText} {J : JsonText} {U : Unicode} {C : Crypto}
    (env : Env) (w w' : World K) dummy secure headers identifier password response user
    (Hr : login dummy secure headers identifier password env w = (Ok (response, user), w')) :
  w_db w' = w_db w
  /\ (exists u, In u (users (w_db w)) /\ login_match (trim identifier) u = true
       /\ u_disabled_at u = None /\ argon2_verify password (u_password_hash u) = true
       /\ user = user_from_row (w_db w) u)
  /\ exists id tok, response = session_headers secure id tok
       /\ (cache_of w !! session_key id = None ->
            exists e, cache_of w' !! session_key id = Some e
              /\ session_entry (mkSession id tok user) e
              /\ ve_expire e = Some (env_clock env (Nat.pred (w_step w')) + 1000 * SESSION_TTL_SECONDS))
       /\ forall other, other <> id ->
            cache_of w' !! session_key other = cache_of w !! session_key other.
Proof.
  split.
  { assert (Frame (K := K) (DbRel eq) (login dummy secure headers identifier password)) as Hf
      by (unfold login, find_user_for_login; frame_auto).
    specialize (Hf env w). by rewrite Hr in Hf. }
  destruct (login_inv _ _ _ _ _ _ _ _ _ _ Hr) as (u & id & tok & w1 & Hin & Hm & Hd & Hv & Hu & Hh & Hs & Hc).
  apply create_session_inv in Hc. split; [by exists u|]. exists id, tok. split; [exact Hh|]. split.
  - intros Hn. rewrite Hc.
    destruct (session_actions_stored (env_clock env (Nat.pred (w_step w'))) user id tok (cache_of w1))
      as (e & He & Hx & Hen); [|by exists e].
    unfold live. by rewrite Hs, Hn.
  - intros other Hne. rewrite Hc, session_actions_other by done. apply Hs.
Qed.

(** ** Recovery tokens are used once *)

Section RecoveryFacts.
Context {K : Type} {V : Valkey K} {T : UuidText} {J : JsonText} {U : Unicode} {C : Crypto}.

(** The statements of a reset, in the transaction. *)
Definition Reset (hash new_hash : rstr) (now : Z) (d d' : Db) : Prop :=
  exists t, In t (account_recovery_tokens d) /\ usable_token hash now t = true
    /\ users d' = update_where (live_user (rt_user_id t)) (new_password new_hash now) (users d)
    /\ account_recovery_tokens d'
       = update_where (fun r => rt_token_hash r ≟ hash) (set_rt_used_at (Some now)) (account_recovery_tokens d).

Lemma sql_queue_outbox_same id topic payload now d x d' :
  sql_queue_outbox id topic payload now d = Ok (x, d') ->
  users d' = users d /\ account_recovery_tokens d' = account_recovery_tokens d.
Proof.
  intros H. split; [eapply (insert_row_keeps users)|eapply (insert_row_keeps account_recovery_tokens)];
    try exact H; done.
Qed.
Lemma sql_record_audit_same id e d x d' :
  sql_record_audit id e d = Ok (x, d') ->
  users d' = users d /\ account_recovery_tokens d' = account_recovery_tokens d.
Proof.
  intros H. split; [eapply (insert_row_keeps users)|eapply (insert_row_keeps account_recovery_tokens)];
    try exact H; done.
Qed.

Lemma reset_transaction_wp hash new_hash now d :
  wp (K := K) (E := AppError)
    (row <- query (sql_token_user hash now) ;;
     user <- ok_or row bad_recovery_token ;;
     execute (sql_new_password new_hash now user) ;;
     execute (sql_use_token hash now) ;;
     record_audit (audit user "user.password_recovered" "user" user json_empty now) ;;
     queue_auth_invalidation user now)
    (fun _ d' => Reset hash new_hash now d d') (fun _ => True) d.
Proof.
  apply wp_bind, wp_query; [done|]. apply wp_bind, wp_ok_or; [done|]. intros user Hu.
  unfold sql_token_user in Hu. destruct (first_row _ _) as [t|] eqn:Ht; [|done]. injection Hu as <-.
  apply first_row_some in Ht as [Hin Hus].
  apply wp_bind, wp_execute; [done|]. intros [] d1 [= <-]. split; [|done].
  apply wp_bind, wp_execute; [done|]. intros [] d2 [= <-]. split; [|done].
  unfold record_audit, queue_auth_invalidation.
  apply wp_bind, wp_bind. wp_silent_step. apply wp_execute; [done|].
  intros [] d3 E3. split; [|done]. destruct (sql_record_audit_same _ _ _ _ _ E3) as [Hu3 Ht3].
  apply wp_bind. wp_silent_step. apply wp_execute; [done|].
  intros [] d4 E4. split; [|done]. destruct (sql_queue_outbox_same _ _ _ _ _ _ _ E4) as [Hu4 Ht4].
  exists t. split; [done|]. split; [done|]. by rewrite Hu4, Hu3, Ht4, Ht3.
Qed.

Lemma used_token_unusable hash now later (l : list RecoveryRow) :
  exists_row (usable_token hash later)
    (update_where (fun r => rt_token_hash r ≟ hash) (set_rt_used_at (Some now)) l) = false.
Proof.
  apply exists_row_false. intros r (r0 & _ & ->)%in_update_where. unfold usable_token.
  destruct (rt_token_hash r0 ≟ hash) eqn:E; [by rewrite andb_false_r|]. by rewrite E.
Qed.

Lemma reset_recovery_inv raw password env (w w' : World K) :
  reset_recovery raw password env w = (Ok tt, w') ->
  exists (w1 : World K) new_hash, argon2_verify password new_hash = true
    /\ Reset (recovery_token_hash (trim raw)) new_hash (as_i64 (env_clock env (w_step w1))) (w_db w) (w_db w').
Proof.
  unfold reset_recovery. cbv zeta. destruct (_ || _); [done|]. intros H.
  apply bind_ok_inv in H as (new_hash & w1 & Hp & H).
  pose proof (wp_password_hash password (w_db w) env w eq_refl) as Hh. rewrite Hp in Hh.
  destruct Hh as [Hd Hv].
  apply bind_ok_inv in H as (now & w2 & [= <- <-] & H).
  apply transaction_ok_inv in H as (w3 & H & ->).
  exists w1, new_hash. split; [done|].
  pose proof (reset_transaction_wp (recovery_token_hash (trim raw)) new_hash
    (as_i64 (env_clock env (w_step w1))) (w_db w) env (tick (tick w1)) Hd) as Ht.
  rewrite H in Ht. exact Ht.
Qed.

Lemma reset_recovery_refused raw password env (w : World K) hash :
  hash = recovery_token_hash (trim raw) ->
  (forall now, exists_row (usable_token hash now) (account_recovery_tokens (w_db w)) = false) ->
  is_ok (reset_recovery raw password env w).1 = false.
Proof.
  intros -> Hno. destruct (reset_recovery raw password env w) as [[[]|e] w'] eqn:E; [|done].
  apply reset_recovery_inv in E as (w1 & h & _ & t & Hin & Hu & _).
  specialize (Hno (as_i64 (env_clock env (w_step w1)))). rewrite exists_row_false in Hno.
  by rewrite (Hno t Hin) in Hu.
Qed.
End RecoveryFacts.

(** C19. A recovery token works once: a successful [reset_recovery] found an
    unused token of that hash before its expiry and gave exactly the token's
    account (unless deleted) a hash that verifies the new password, and no
    later attempt with the same token succeeds. *)
Theorem recovery_token_single_use {K} {V : Valkey K} {T : UuidText} {C : Crypto}
    (env : Env) (w w' : World K) raw password
    (Hr : reset_recovery raw password env w = (Ok tt, w')) :
  (exists t s new_hash,
     In t (account_recovery_tokens (w_db w)) /\ rt_token_hash t = recovery_token_hash (trim raw)
     /\ rt_used_at t = None /\ as_i64 (env_clock env s) < rt_expires_at t
     /\ argon2_verify password new_hash = true
     /\ users (w_db w') = update_where (live_user (rt_user_id t))
          (new_password new_hash (as_i64 (env_clock env s))) (users (w_db w)))
  /\ (forall (env2 : Env) (w2 : World K) raw2 password2,
        trim raw2 = trim raw ->
        account_recovery_tokens (w_db w2) = account_recovery_tokens (w_db w') ->
        is_ok (reset_recovery raw2 password2 env2 w2).1 = false).
Proof.
  apply reset_recovery_inv in Hr as (w1 & new_hash & Hv & t & Hin & Hu & Hus & Ht). split.
  - exists t, (w_step w1), new_hash. unfold usable_token in Hu.
    rewrite !andb_true_iff, bool_decide_eq_true, is_none_true in Hu. destruct Hu as [[Hu1 Hu2] Hu3].
    repeat split; try done. by apply Z.ltb_lt.
  - intros env2 w2 raw2 password2 Hraw Hw2.
    apply (reset_recovery_refused _ _ _ _ (recovery_token_hash (trim raw))); [by rewrite Hraw|].
    intros later. rewrite Hw2, Ht. apply used_token_unusable.
Qed.

(** ** A deleted account that an administrator enables *)

#[local] Existing Instance hyphenated_text.
#[local] Existing Instance coded_json.
#[local] Existing Instance ascii_unicode.
#[local] Existing Instance keyspace_valkey.
#[local] Existing Instance sample_crypto.

(** [bob] was deleted at 50. *)
Definition deleted_bob : UserRow :=
  set_u_deleted_at (Some 50) (set_u_disabled_at (Some 50) (sample_user 2 "bob")).
Definition deleted_db : Db := set_users (fun _ => [sample_user 1 "alice"; deleted_bob]) sample_db.

Notation enable_then_login :=
  (conv (set_user_disabled (uuid_of 1) (uuid_of 2) false) ;;
   login (rs "dummy") false [] (rs "bob") (rs "hash"))%m (only parsing).

Lemma enable_then_login_user :
  result_map (fun r => (user_id r.2, username r.2))
    (enable_then_login (sample_env 100) (sample_world deleted_db)).1
  = Ok (uuid_of 2, rs "bob").
Proof. vm_compute. reflexivity. Qed.
Lemma enable_then_login_db :
  map (fun u => (u_id u, u_deleted_at u))
    (users (w_db (enable_then_login (sample_env 100) (sample_world deleted_db)).2))
  = [(uuid_of 1, None); (uuid_of 2, Some 50)].
Proof. vm_compute. reflexivity. Qed.

(** Enabling a deleted account revives its login: [set_user_disabled] does
    not look at [deleted_at] and neither does [login], so the account is still
    deleted in the database and logs in. *)
Theorem deleted_account_logs_in :
  exists (w : World Keyspace) response user w',
    In deleted_bob (users (w_db w)) /\ is_some (u_deleted_at deleted_bob) = true
    /\ enable_then_login (sample_env 100) w = (Ok (response, user), w')
    /\ user_id user = u_id deleted_bob
    /\ In (u_id deleted_bob, u_deleted_at deleted_bob)
         (map (fun u => (u_id u, u_deleted_at u)) (users (w_db w'))).
Proof.
  exists (sample_world deleted_db).
  pose proof enable_then_login_user as Hr. pose proof enable_then_login_db as Hd.
  destruct (enable_then_login _ _) as [[[response user]|e] w']; [|done].
  cbn [fst snd result_map] in Hr, Hd. injection Hr as Hid _.
  exists response, user, w'. split; [right; by left|]. split; [done|]. split; [done|].
  split; [by rewrite Hid|]. rewrite Hd. right. by left.
Qed.

(** ** Witnesses *)

Definition typed_email : rstr := rs " Alice@Example.com".
Notation alice_logs_in :=
  (login (rs "dummy") false [] typed_email (rs "hash")) (only parsing).
Lemma alice_logs_in_ok :
  (alice_logs_in (sample_env 100) (sample_world sample_db)).1
  = Ok (session_headers false (uuid_of 1006)
          (hex_encode (repeat 7 32)),
        user_from_row sample_db (sample_user 1 "alice")).
Proof. vm_compute. reflexivity. Qed.

Lemma login_sound_witness :
  let alice := user_from_row sample_db (sample_user 1 "alice") in
  let w' := (alice_logs_in (sample_env 100) (sample_world sample_db)).2 in
  (exists u, In u (users sample_db) /\ u_id u = uuid_of 1 /\ u_disabled_at u = None)
  /\ exists id tok e,
       session_headers false id tok = session_headers false (uuid_of 1006) (hex_encode (repeat 7 32))
       /\ cache_of w' !! session_key id = Some e /\ session_entry (mkSession id tok alice) e.
Proof.
  cbv zeta.
  destruct (login_sound (sample_env 100) (sample_world sample_db)
    (alice_logs_in (sample_env 100) (sample_world sample_db)).2
    (rs "dummy") false [] typed_email (rs "hash") _ _
    (run_split _ _ _ _ alice_logs_in_ok)) as (_ & (u & Hin & _ & Hd & _ & Hu) & id & tok & Hr & Hs & _).
  split.
  - exists u. split; [exact Hin|]. split; [|exact Hd]. by injection Hu.
  - destruct (Hs eq_refl) as (e & He & Hen & _). exists id, tok, e.
    symmetry in Hr. exact (conj Hr (conj He Hen)).
Defined.

Definition sample_token : rstr := hex_encode (repeat 171 32).
Definition recovery_db : Db :=
  set_account_recovery_tokens (fun _ =>
    [mkRecoveryRow (uuid_of 70) (uuid_of 2) (recovery_token_hash sample_token) 5000 10 None]) sample_db.
Notation bob_recovers := (reset_recovery (sample_token ++ [32]) (rs "new password 12")) (only parsing).
Lemma bob_recovers_ok : (bob_recovers (sample_env 100) (sample_world recovery_db)).1 = Ok tt.
Proof. vm_compute. reflexivity. Qed.

Lemma recovery_token_single_use_witness :
  let w' := (bob_recovers (sample_env 100) (sample_world recovery_db)).2 in
  is_ok (bob_recovers (sample_env 200) w').1 = false.
Proof.
  intros w'.
  destruct (recovery_token_single_use (sample_env 100) (sample_world recovery_db) w'
    (sample_token ++ [32]) (rs "new password 12") (run_split _ _ _ _ bob_recovers_ok)) as [_ H].
  apply H; reflexivity.
Defined.
