(* ===== verification/Admin.v ===== *)
(** * Administration

    [api/admin.rs]: users, roles, bans, channels and message moderation by the
    operators. *)
From Stdlib Require Import String.
From S2P Require Export Account History Presence.
From S2P Require Import Reference.
Open Scope m_scope.

(** ** LIKE *)

(** [%] is any text, [_] any character, and a backslash quotes the next one. *)
Fixpoint like (pattern s : rstr) : bool :=
  match pattern with
  | [] => is_empty s
  | c :: rest =>
      if c =? 37 then
        (fix any (s : rstr) : bool :=
           like rest s || match s with [] => false | _ :: s' => any s' end) s
      else if c =? 95 then match s with [] => false | _ :: s' => like rest s' end
      else if c =? 92 then
        match rest, s with
        | e :: rest', x :: s' => (x =? e) && like rest' s'
        | _, _ => false
        end
      else match s with x :: s' => (x =? c) && like rest s' | [] => false end
  end.
(** [$q = '' OR lower(column) LIKE lower('%' || $q || '%')] *)
Definition contains_text {U : Unicode} (q column : rstr) : bool :=
  is_empty q || like (pg_lower ([37] ++ q ++ [37])) (pg_lower column).

(** ** Users *)

Record AdminUserView := mkAdminUserView {
  av_user : AuthUser; av_disabled_at : option Z; av_deleted_at : option Z; av_created_at : Z; av_updated_at : Z
}.
Definition admin_user_view (d : Db) (u : UserRow) : AdminUserView :=
  mkAdminUserView (user_from_row d u) (u_disabled_at u) (u_deleted_at u) (u_created_at u) (u_updated_at u).

Definition admin_listed {U : Unicode} (search : rstr) (after : option Uuid) (u : UserRow) : bool :=
  is_none (u_deleted_at u)
  && (contains_text search (u_username u) || contains_text search (u_email u))
  && match after with None => true | Some a => uuid_ltb a (u_id u) end.
Definition sql_admin_users {U : Unicode} (search : rstr) (after : option Uuid) (limit : Z) (d : Db) :
    list AdminUserView :=
  map (admin_user_view d)
    (limit_rows limit (order_by (fun a b => uuid_leb (u_id a) (u_id b))
       (where_ (admin_listed search after) (users d)))).

Definition sql_admin_delete (now : Z) (user : Uuid) (d : Db) : Result SqlxError (Z * Db) :=
  Ok (count_rows (live_user user) (users d),
      set_users (update_where (live_user user) (fun u => touch_user now
        (set_u_deleted_at (Some now)
           (set_u_disabled_at (match u_disabled_at u with Some t => Some t | None => Some now end) u)))) d).
Definition sql_admin_password (hash : rstr) (now : Z) (user : Uuid) (d : Db) : Result SqlxError (Z * Db) :=
  Ok (count_rows (live_user user) (users d),
      set_users (update_where (live_user user) (fun u => set_u_updated_at now (set_u_password_hash hash u))) d).

(** [roles LEFT JOIN role_permissions LEFT JOIN permissions GROUP BY r.name] *)
Definition str_le (a b : rstr) : bool := str_leb a b.
Definition role_permission_names (d : Db) (role : Uuid) : list rstr :=
  order_by str_le (concat (map (fun rp =>
    map pe_name (where_ (fun p => pe_id p ≟ rp_permission_id rp) (permissions_t d)))
    (where_ (fun rp => rp_role_id rp ≟ role) (role_permissions d)))).
Definition sql_roles (d : Db) : list (rstr * list rstr) :=
  map (fun r => (ro_name r, role_permission_names d (ro_id r)))
    (order_by (fun a b => str_leb (ro_name a) (ro_name b)) (roles_t d)).

(** ** Bans *)

Record BanView := mkBanView {
  bv_id : Uuid; bv_user_id : Uuid; bv_username : rstr; bv_channel : option rstr; bv_reason : rstr;
  bv_created_by : option Uuid; bv_expires_at : option Z; bv_created_at : Z; bv_revoked_at : option Z
}.
Definition channel_name_of (d : Db) (channel : option Uuid) : option rstr :=
  channel ≫= fun id => c_name <$> first_row (fun c => c_id c ≟ id) (channels d).
(** [ORDER BY b.created_at DESC,b.id DESC] *)
Definition ban_le (a b : BanRow) : bool :=
  (ban_created_at b <? ban_created_at a)
  || ((ban_created_at b =? ban_created_at a) && uuid_leb (ban_id b) (ban_id a)).
Definition sql_bans (user : option Uuid) (limit : Z) (d : Db) : list BanView :=
  limit_rows limit (concat (map (fun b =>
    map (fun u => mkBanView (ban_id b) (ban_user_id b) (u_username u) (channel_name_of d (ban_channel_id b))
                    (ban_reason b) (ban_created_by b) (ban_expires_at b) (ban_created_at b) (ban_revoked_at b))
      (where_ (fun u => u_id u ≟ ban_user_id b) (users d)))
    (order_by ban_le (where_ (fun b => match user with None => true | Some u => ban_user_id b ≟ u end)
                        (user_bans d))))).

Definition sql_insert_ban (b : BanRow) (d : Db) : Result SqlxError (unit * Db) :=
  insert_row ban_id
    (fk_user d (ban_user_id b) && fk_user_opt d (ban_created_by b)
     && match ban_channel_id b with None => true | Some c => fk_channel d c end)
    user_bans set_user_bans b d.
(** [UPDATE user_bans ... WHERE id=$3 AND revoked_at IS NULL RETURNING user_id] *)
Definition standing_ban (id : Uuid) (b : BanRow) : bool := (ban_id b ≟ id) && is_none (ban_revoked_at b).
Definition sql_revoke_ban (now : Z) (by_ id : Uuid) (d : Db) : Result SqlxError (option Uuid * Db) :=
  if fk_user d by_ then
    Ok (ban_user_id <$> first_row (standing_ban id) (user_bans d),
        set_user_bans (update_where (standing_ban id)
          (fun b => set_ban_revoked_by (Some by_) (set_ban_revoked_at (Some now) b))) d)
  else if exists_row (standing_ban id) (user_bans d) then Err SqlxDatabase else Ok (None, d).

(** ** Channels *)

Record ChannelView := mkChannelView { chv_row : ChannelRow; chv_member_count : Z }.
Definition sql_admin_channels {U : Unicode} (search : rstr) (limit : Z) (d : Db) : list ChannelView :=
  map (fun c => mkChannelView c (count_rows (fun m => cm_channel_id m ≟ c_id c) (channel_members d)))
    (limit_rows limit (order_by channel_name_le
       (where_ (fun c => contains_text search (c_name c)) (channels d)))).

Record ChannelAdminRequest := mkChannelAdminRequest {
  req_name : option rstr; req_description : option rstr; req_retention_days : option Z;
  req_posting_restricted : option bool
}.
(** [description=COALESCE($1,description), ...] *)
Definition apply_settings (r : ChannelAdminRequest) (c : ChannelRow) : ChannelRow :=
  set_c_posting_restricted (default (c_posting_restricted c) (req_posting_restricted r))
    (set_c_retention_days (default (c_retention_days c) (req_retention_days r))
       (set_c_description (default (c_description c) (req_description r)) c)).
Definition sql_channel_settings (name : rstr) (r : ChannelAdminRequest) (d : Db) : Result SqlxError (unit * Db) :=
  Ok (tt, set_channels (update_where (fun c => c_name c ≟ name) (apply_settings r)) d).
(** Channel names are unique. *)
Definition sql_update_channel (id : Uuid) (name : option rstr) (r : ChannelAdminRequest) (d : Db) :
    Result SqlxError (unit * Db) :=
  if exists_row (fun c => negb (c_id c ≟ id) && (Some (c_name c) ≟ name)) (channels d)
     && exists_row (fun c => c_id c ≟ id) (channels d) then Err SqlxDatabase
  else Ok (tt, set_channels (update_where (fun c => c_id c ≟ id)
                 (fun c => apply_settings r (set_c_name (default (c_name c) name) c))) d).

(** The four statements of [admin_channel_state]; restoring a direct
    conversation can meet the unique index on its key. *)
Definition coalesce_now (now : Z) (o : option Z) : option Z := Some (default now o).
Definition channel_state_update (action : rstr) (now : Z) : option (ChannelRow -> ChannelRow) :=
  if action ≟ rs "archive" then Some (fun c => set_c_archived_at (coalesce_now now (c_archived_at c)) c)
  else if action ≟ rs "restore" then Some (set_c_archived_at None)
  else if action ≟ rs "delete" then Some (fun c => set_c_deleted_at (coalesce_now now (c_deleted_at c)) c)
  else if action ≟ rs "undelete" then Some (set_c_deleted_at None)
  else None.
Definition sql_channel_state (id : Uuid) (f : ChannelRow -> ChannelRow) (d : Db) : Result SqlxError (unit * Db) :=
  if exists_row (fun c => (c_id c ≟ id) && is_none (c_deleted_at (f c)) && (c_kind c ≟ Direct)
                          && channel_key_taken d (c_direct_key c) id) (channels d)
  then Err SqlxDatabase
  else Ok (tt, set_channels (update_where (fun c => c_id c ≟ id) f) d).

(** ** Messages *)

Record MessageAdminQuery := mkMessageAdminQuery {
  mq_channel : option rstr; mq_user : option Uuid; mq_from : option Z; mq_to : option Z;
  mq_deleted : option bool; mq_limit : option Z
}.
Record MessageAdminView := mkMessageAdminView { mv_row : MessageRow; mv_channel : rstr }.
Definition admin_message_match (d : Db) (q : MessageAdminQuery) (mc : MessageRow * ChannelRow) : bool :=
  match mq_channel q with None => true | Some name => c_name mc.2 ≟ name end
  && match mq_user q with
     | None => true
     | Some user => exists_row (fun u => (u_username u ≟ m_username mc.1) && (u_id u ≟ user)) (users d)
     end
  && match mq_from q with None => true | Some t => t <=? m_created_at mc.1 end
  && match mq_to q with None => true | Some t => m_created_at mc.1 <=? t end
  && Bool.eqb (default false (mq_deleted q)) (is_some (m_deleted_at mc.1)).
Definition sql_admin_messages (q : MessageAdminQuery) (d : Db) : list MessageAdminView :=
  map (fun mc => mkMessageAdminView mc.1 (c_name mc.2))
    (limit_rows (page_limit (mq_limit q)) (order_by newest_first
       (where_ (admin_message_match d q) (messages_with_channel d)))).

(** [ORDER BY created_at DESC, id DESC] *)
Definition edit_newest (a b : EditHistoryRow) : bool :=
  (eh_created_at b <? eh_created_at a) || ((eh_created_at b =? eh_created_at a) && uuid_leb (eh_id b) (eh_id a)).
Definition sql_message_history (id : Uuid) (d : Db) : list EditHistoryRow :=
  order_by edit_newest (where_ (fun h => eh_message_id h ≟ id) (message_edit_history d)).

Definition message_exists (d : Db) (id : Uuid) : bool :=
  exists_row (fun mc => m_id mc.1 ≟ id) (messages_with_channel d).
Definition moderated (now : Z) (by_ : Uuid) (reason : option rstr) (m : MessageRow) : MessageRow :=
  set_m_deletion_reason reason (set_m_deleted_by (Some by_) (set_m_deleted_at (Some now) m)).
Definition unmoderated (m : MessageRow) : MessageRow :=
  set_m_deletion_reason None (set_m_deleted_by None (set_m_deleted_at None m)).
Definition sql_moderate (delete : bool) (now : Z) (by_ : Uuid) (reason : option rstr) (id : Uuid) (d : Db) :
    Result SqlxError (unit * Db) :=
  if delete && negb (fk_user d by_) then Err SqlxDatabase
  else Ok (tt, set_messages (update_where (fun m => m_id m ≟ id)
                 (if delete then moderated now by_ reason else unmoderated)) d).
(** The bulk statements also test the state the message is in. *)
Definition bulk_target (delete : bool) (id : Uuid) (m : MessageRow) : bool :=
  (m_id m ≟ id) && Bool.eqb delete (is_none (m_deleted_at m)).
Definition sql_bulk_moderate (delete : bool) (now : Z) (by_ : Uuid) (reason : option rstr) (id : Uuid) (d : Db) :
    Result SqlxError (Z * Db) :=
  let n := count_rows (bulk_target delete id) (messages d) in
  if delete && (0 <? n) && negb (fk_user d by_) then Err SqlxDatabase
  else Ok (n, set_messages (update_where (bulk_target delete id)
                (if delete then moderated now by_ reason else unmoderated)) d).
Definition sql_moderated_message (id : Uuid) (d : Db) : option MessageSelect :=
  (fun mc => select_message d mc.2 mc.1) <$>
    first_row (fun mc => (m_id mc.1 ≟ id) && is_none (c_deleted_at mc.2)) (messages_with_channel d).

(** ** Roles and the audit log *)

Definition active_account (d : Db) (user : Uuid) : bool := exists_row (active_user user) (users d).
Definition role_row (d : Db) (name : rstr) (ur : UserRoleRow) : bool :=
  exists_row (fun r => (ro_id r ≟ ur_role_id ur) && (ro_name r ≟ name)) (roles_t d).
(** The active administrators; role identifiers and user identifiers are
    unique. *)
Definition sql_admin_count (d : Db) : Z :=
  count_rows (fun ur => role_row d (rs "admin") ur && active_account d (ur_user_id ur)) (user_roles d).
Definition held_role (d : Db) (user : Uuid) (role : rstr) (ur : UserRoleRow) : bool :=
  (ur_user_id ur ≟ user) && role_row d role ur.
Definition sql_remove_role (user : Uuid) (role : rstr) (d : Db) : Result SqlxError (Z * Db) :=
  Ok (count_rows (held_role d user role) (user_roles d),
      set_user_roles (delete_where (held_role d user role)) d).

Definition audit_match (actor : option Uuid) (action : option rstr) (target : option Uuid) (a : AuditRow) : bool :=
  match actor with None => true | Some u => au_actor_user_id a ≟ Some u end
  && match action with None => true | Some s => au_action a ≟ s end
  && match target with None => true | Some t => au_target_id a ≟ t end.
Definition audit_le (a b : AuditRow) : bool :=
  (au_created_at b <? au_created_at a)
  || ((au_created_at b =? au_created_at a) && uuid_leb (au_id b) (au_id a)).
Definition sql_audit (actor : option Uuid) (action : option rstr) (target : option Uuid) (limit : Z) (d : Db) :
    list AuditRow :=
  limit_rows limit (order_by audit_le (where_ (audit_match actor action target) (audit_events d))).

(** ** Handlers *)

Record OperationsView := mkOperationsView {
  op_websockets : Z; op_outbox_pending : Z; op_deliveries_pending : Z; op_active_users : Z
}.

Section Admin.
Context {K : Type} {V : Valkey K} {T : UuidText} {J : JsonText} {U : Unicode} {C : Crypto}.
Notation M := (M K AppError).

Definition admin_users (headers : HeaderMap) (q : option rstr) (after : option Uuid) (limit : option Z) :
    M (list AdminUserView * option Uuid) :=
  privileged_read headers "users:read" ;;
  let limit := page_limit limit in
  let search := default [] q in
  rows <- query (sql_admin_users search after (limit + 1)) ;;
  let has_more := limit <? Z.of_nat (length rows) in
  let users := if limit <? Z.of_nat (length rows) then truncate (Z.to_nat limit) rows else rows in
  let next := if has_more then (fun v => user_id (av_user v)) <$> last users else None in
  ret (users, next).

Definition admin_disable_user (headers : HeaderMap) (user : Uuid) : M unit :=
  actor <- privileged headers "users:write" ;;
  conv (set_user_disabled (user_id actor) user true).
Definition admin_enable_user (headers : HeaderMap) (user : Uuid) : M unit :=
  actor <- privileged headers "users:write" ;;
  conv (set_user_disabled (user_id actor) user false).

Definition delete_user_checked (actor user : Uuid) : M unit :=
  if user ≟ actor then throw (bad_request "you cannot delete your own account") else
  now <- now_millis ;;
  transaction (
    affected <- execute (sql_admin_delete (as_i64 now) user) ;;
    if affected =? 0 then throw (from_err NotFound)
    else
      record_audit (audit actor "user.deleted" "user" user json_empty (as_i64 now)) ;;
      queue_auth_invalidation user (as_i64 now)).
Definition admin_delete_user (headers : HeaderMap) (user : Uuid) : M unit :=
  actor <- privileged headers "users:write" ;;
  delete_user_checked (user_id actor) user.

Definition admin_reset_password (headers : HeaderMap) (user : Uuid) (password : rstr) : M unit :=
  actor <- privileged headers "users:write" ;;
  hash <- password_hash password ;;
  now <- now_millis ;;
  transaction (
    affected <- execute (sql_admin_password hash (as_i64 now) user) ;;
    if affected =? 0 then throw (from_err NotFound)
    else
      record_audit (audit (user_id actor) "user.password_reset" "user" user json_empty (as_i64 now)) ;;
      queue_auth_invalidation user (as_i64 now)).

Definition admin_invalidate_sessions (headers : HeaderMap) (user : Uuid) : M unit :=
  actor <- privileged headers "users:write" ;;
  now <- now_millis ;;
  transaction (
    record_audit (audit (user_id actor) "user.sessions_invalidated" "user" user json_empty (as_i64 now)) ;;
    queue_auth_invalidation user (as_i64 now)).

Definition admin_roles (headers : HeaderMap) : M (list (rstr * list rstr)) :=
  privileged_read headers "users:read" ;;
  query sql_roles.
Definition admin_permissions (headers : HeaderMap) : M (list rstr) :=
  privileged_read headers "users:read" ;;
  query (fun d => order_by str_le (map pe_name (permissions_t d))).
Definition admin_participants (headers : HeaderMap) (channel : rstr) : M (list Participant) :=
  privileged_read headers "users:read" ;;
  list_presence channel.

(** [PING] *)
Definition ping : M unit := fun env w =>
  match env_fault env (w_step w) with
  | NoFault => (Ok tt, tick w)
  | _ => (Err (from_err RedisIo), tick w)
  end.
(** [active_websockets] is the value of the counter [ACTIVE_WEBSOCKETS]. *)
Definition admin_operations (active_websockets : Z) (headers : HeaderMap) : M OperationsView :=
  privileged_read headers "users:read" ;;
  pending <- query (fun d => count_rows (fun e => is_none (ob_published_at e)) (outbox_events d)) ;;
  pending_notifications <- query (fun d =>
    count_rows (fun x => is_none (d_sent_at x)) (notification_deliveries d)) ;;
  active <- query (fun d => count_rows (fun u => is_none (u_disabled_at u)) (users d)) ;;
  connection ;;
  ping ;;
  ret (mkOperationsView active_websockets pending pending_notifications active).

Definition admin_bans (headers : HeaderMap) (user : option Uuid) (limit : option Z) : M (list BanView) :=
  privileged_read headers "moderation:read" ;;
  query (sql_bans user (page_limit limit)).

Definition admin_create_ban (headers : HeaderMap) (user : Uuid) (channel : option rstr) (raw_reason : rstr)
    (expires_at : option Z) : M Uuid :=
  actor <- privileged headers "moderation:write" ;;
  let reason := trim raw_reason in
  if is_empty reason || (500 <? len reason) then throw (bad_request "ban reason must be 1–500 characters") else
  (match expires_at with
   | Some t => now <- now_millis ;;
       if t <=? as_i64 now then throw (bad_request "ban expiry must be in the future") else ret tt
   | None => ret tt
   end) ;;
  user_exists <- query (fun d => exists_row (live_user user) (users d)) ;;
  if negb user_exists then throw (from_err NotFound) else
  channel_id <- match channel with
                | Some name =>
                    row <- query (fun d => find_channel d name) ;;
                    c <- ok_or row (from_err NotFound) ;;
                    ret (Some (c_id c))
                | None => ret None
                end ;;
  id <- now_v7 ;;
  now <- now_millis ;;
  execute (sql_insert_ban (mkBanRow id user channel_id reason (Some (user_id actor)) expires_at
                             (as_i64 now) None None)) ;;
  record_audit_pool (audit (user_id actor) "user.banned" "user" user
    (JObj [(rs "reason", JStr reason);
           (rs "channel_id", match channel_id with Some c => json_uuid c | None => JNull end)]) (as_i64 now)) ;;
  ret id.

Definition admin_revoke_ban (headers : HeaderMap) (id : Uuid) : M unit :=
  actor <- privileged headers "moderation:write" ;;
  now <- now_millis ;;
  transaction (
    row <- execute (sql_revoke_ban (as_i64 now) (user_id actor) id) ;;
    user <- ok_or row (from_err NotFound) ;;
    record_audit (audit (user_id actor) "user.ban_revoked" "user" user
                    (JObj [(rs "ban_id", json_uuid id)]) (as_i64 now))).

Definition admin_channels (headers : HeaderMap) (q : option rstr) (limit : option Z) : M (list ChannelView) :=
  privileged_read headers "channels:read" ;;
  query (sql_admin_channels (default [] q) (page_limit limit)).

Definition admin_create_channel (headers : HeaderMap) (request : ChannelAdminRequest) : M rstr :=
  actor <- privileged headers "channels:write" ;;
  name <- lift (normalize_channel_name (default [] (req_name request))) ;;
  if name ≟ MAIN_CHANNEL then throw (bad_request "main is reserved") else
  lift (validate_retention_days (req_retention_days request)) ;;
  created <- conv (create_channel name) ;;
  if negb created then throw (bad_request "channel already exists") else
  execute (sql_channel_settings name request) ;;
  row <- query (fun d => first_row (fun c => c_name c ≟ name) (channels d)) ;;
  c <- ok_or row (from_err SqlxRowNotFound) ;;
  now <- now_millis ;;
  record_audit_pool (audit (user_id actor) "channel.created" "channel" (c_id c) json_empty (as_i64 now)) ;;
  publish_system_message name (username actor ++ rs " created this channel") ;;
  ret name.

Definition renamed (current : rstr) (raw : option rstr) : Result AppError (option rstr) :=
  match raw with
  | None => Ok None
  | Some raw =>
      match normalize_channel_name raw with
      | Err e => Err e
      | Ok n =>
          if (current ≟ MAIN_CHANNEL) && negb (n ≟ MAIN_CHANNEL) then Err (bad_request "main cannot be renamed")
          else Ok (Some n)
      end
  end.
Definition update_channel_transaction (actor id : Uuid) (request : ChannelAdminRequest) : M unit :=
  transaction (
    row <- query (fun d => first_row (fun c => (c_id c ≟ id) && is_none (c_deleted_at c)) (channels d)) ;;
    c <- ok_or row (from_err NotFound) ;;
    name <- lift (renamed (c_name c) (req_name request)) ;;
    lift (validate_retention_days (req_retention_days request)) ;;
    execute (sql_update_channel id name request) ;;
    now <- now_millis ;;
    record_audit (audit actor "channel.updated" "channel" id json_empty (as_i64 now))).
Definition admin_update_channel (headers : HeaderMap) (id : Uuid) (request : ChannelAdminRequest) : M unit :=
  actor <- privileged headers "channels:write" ;;
  update_channel_transaction (user_id actor) id request.

Definition channel_state_transaction (actor id : Uuid) (action : rstr) : M rstr :=
  transaction (
    row <- query (fun d => first_row (fun c => c_id c ≟ id) (channels d)) ;;
    c <- ok_or row (from_err NotFound) ;;
    if c_name c ≟ MAIN_CHANNEL then throw (bad_request "main cannot be changed") else
    now <- now_millis ;;
    f <- ok_or (channel_state_update action (as_i64 now)) (bad_request "unknown channel action") ;;
    execute (sql_channel_state id f) ;;
    record_audit (mkAuditEvent (Some actor) (rs "channel." ++ action) (rs "channel") id json_empty (as_i64 now)) ;;
    ret (c_name c)).
Definition admin_channel_state (headers : HeaderMap) (id : Uuid) (action : rstr) : M unit :=
  actor <- privileged headers "channels:write" ;;
  name <- channel_state_transaction (user_id actor) id action ;;
  if (action ≟ rs "archive") || (action ≟ rs "restore") then
    publish_system_message name
      (if action ≟ rs "archive" then rs "This channel was archived and is now read-only"
       else rs "This channel was restored")
  else ret tt.

Definition admin_messages (headers : HeaderMap) (q : MessageAdminQuery) : M (list MessageAdminView) :=
  privileged_read headers "moderation:read" ;;
  query (sql_admin_messages q).

Definition admin_message_history (headers : HeaderMap) (id : Uuid) : M (list EditHistoryRow) :=
  privileged_read headers "moderation:read" ;;
  query (sql_message_history id).

Definition refresh_moderated_message (id : Uuid) : M unit :=
  row <- attempt (E := AppError) (F := AppError) (query (sql_moderated_message id)) ;;
  match row with
  | Ok (Some row) =>
      match try_from_row row with
      | Err _ => ret tt
      | Ok message =>
          let channel := msg_channel message in
          attempt (F := AppError) (broadcast channel (SvMessageUpdated message)) ;;
          connected <- attempt (F := AppError) connection ;;
          match connected with
          | Err _ => ret tt
          | Ok _ =>
              attempt (F := AppError) (command (Del [history_key channel])) ;;
              attempt (F := AppError) (command (Del [history_order_key channel])) ;;
              ret tt
          end
      end
  | _ => ret tt
  end.

Definition reason_metadata (reason : option rstr) : list (rstr * json) :=
  [(rs "reason", match reason with Some r => JStr r | None => JNull end)].
Definition moderate_transaction (actor id : Uuid) (action : rstr) (reason : option rstr) (now : Z) : M unit :=
  transaction (
    found <- query (fun d => message_exists d id) ;;
    if negb found then throw (from_err NotFound) else
    if negb ((action ≟ rs "delete") || (action ≟ rs "restore")) then
      throw (bad_request "unknown moderation action") else
    execute (sql_moderate (action ≟ rs "delete") now actor reason id) ;;
    record_audit (mkAuditEvent (Some actor) (rs "message." ++ action) (rs "message") id
                    (JObj (reason_metadata reason)) now)).
Definition admin_moderate_message (headers : HeaderMap) (id : Uuid) (action : rstr) (reason : option rstr) :
    M unit :=
  actor <- privileged headers "moderation:write" ;;
  now <- now_millis ;;
  moderate_transaction (user_id actor) id action reason (as_i64 now) ;;
  refresh_moderated_message id.

Fixpoint bulk_each (actor : Uuid) (action : rstr) (reason : option rstr) (now : Z) (ids : list Uuid) :
    M (list (Uuid * bool)) :=
  match ids with
  | [] => ret []
  | id :: ids =>
      affected <- execute (sql_bulk_moderate (action ≟ rs "delete") now actor reason id) ;;
      (if 0 <? affected then
         record_audit (mkAuditEvent (Some actor) (rs "message." ++ action) (rs "message") id
                         (JObj (reason_metadata reason ++ [(rs "bulk", JBool true)])) now)
       else ret tt) ;;
      results <- bulk_each actor action reason now ids ;;
      ret ((id, 0 <? affected) :: results)
  end.
Definition admin_bulk_moderate (headers : HeaderMap) (ids : list Uuid) (action : rstr) (reason : option rstr) :
    M (list (Uuid * bool)) :=
  actor <- privileged headers "moderation:write" ;;
  if is_empty ids || (100 <? Z.of_nat (length ids)) then
    throw (bad_request "bulk moderation must contain 1–100 messages") else
  if negb (action ≟ rs "delete") && negb (action ≟ rs "restore") then
    throw (bad_request "unknown moderation action") else
  now <- now_millis ;;
  results <- transaction (bulk_each (user_id actor) action reason (as_i64 now) ids) ;;
  for_each (map fst (where_ (fun r => r.2) results)) refresh_moderated_message ;;
  ret results.

Definition admin_assign_role (headers : HeaderMap) (user : Uuid) (role : rstr) : M unit :=
  actor <- privileged headers "roles:write" ;;
  conv (assign_role (user_id actor) user role).

Definition remove_role_transaction (actor user : Uuid) (role : rstr) (now : Z) : M unit :=
  transaction (
    (if role ≟ rs "admin" then
       count <- query sql_admin_count ;;
       if count <=? 1 then throw (bad_request "the final administrator cannot be removed") else ret tt
     else ret tt) ;;
    affected <- execute (sql_remove_role user role) ;;
    if affected =? 0 then throw (from_err NotFound)
    else
      execute (sql_touch_user now user) ;;
      record_audit (audit actor "user.role_removed" "user" user (JObj [(rs "role", JStr role)]) now) ;;
      queue_auth_invalidation user now).
Definition admin_remove_role (headers : HeaderMap) (user : Uuid) (role : rstr) : M unit :=
  actor <- privileged headers "roles:write" ;;
  now <- now_millis ;;
  remove_role_transaction (user_id actor) user role (as_i64 now).

Definition admin_audit (headers : HeaderMap) (actor : option Uuid) (action : option rstr) (target : option Uuid)
    (limit : option Z) : M (list AuditRow) :=
  privileged_read headers "audit:read" ;;
  query (sql_audit actor action target (page_limit limit)).
End Admin.

(** ** The final administrator *)

Section FinalAdmin.
Context {K : Type} {V : Valkey K} {T : UuidText} {J : JsonText}.

Lemma role_row_true d name ur :
  role_row d name ur = true <-> exists r, In r (roles_t d) /\ ro_id r = ur_role_id ur /\ ro_name r = name.
Proof.
  unfold role_row. rewrite exists_row_true. apply exist_proper. intros r.
  by rewrite andb_true_iff, !bool_decide_eq_true.
Qed.

(** What the administrators depend on: the tables the count reads, with the
    users up to [touch_user]. *)
Definition same_admins (d d' : Db) : Prop :=
  roles_t d' = roles_t d /\ forall user, active_account d' user = active_account d user.

Lemma same_admins_count d d' :
  same_admins d d' -> user_roles d' = user_roles d -> sql_admin_count d' = sql_admin_count d.
Proof.
  intros [Hr Ha] Hu. unfold sql_admin_count. rewrite Hu. apply count_rows_ext. intros ur _.
  rewrite Ha. unfold role_row. by rewrite Hr.
Qed.

Lemma same_admins_touch now user d d' :
  sql_touch_user now user d = Ok (tt, d') -> same_admins d d' /\ user_roles d' = user_roles d.
Proof.
  intros [= <-]. split; [|done]. split; [done|]. intros u. unfold active_account. simpl.
  assert (forall r, active_user u (if u_id r ≟ user then touch_user now r else r) = active_user u r) as H
    by (intros r; by destruct (u_id r ≟ user)).
  unfold update_where, exists_row. induction (users d) as [|r t IH]; simpl; [done|]. by rewrite H, IH.
Qed.

Lemma sql_remove_role_count user role d n d' :
  unique_on ro_id (roles_t d) -> unique_on ro_name (roles_t d) -> unique_on user_role_key (user_roles d) ->
  sql_remove_role user role d = Ok (n, d') ->
  sql_admin_count d - (if role ≟ rs "admin" then 1 else 0) <= sql_admin_count d'.
Proof.
  intros Hid Hname Hkey [= _ <-]. unfold sql_admin_count. simpl.
  set (p := fun ur => role_row d (rs "admin") ur && active_account d (ur_user_id ur)).
  rewrite (count_rows_split p (held_role d user role) (user_roles d)).
  assert (count_rows (fun ur => p ur && held_role d user role ur) (user_roles d)
          <= (if role ≟ rs "admin" then 1 else 0)) as Hc.
  2:{ change (count_rows (fun ur => role_row (set_user_roles _ d) _ ur && active_account (set_user_roles _ d) _) _)
        with (count_rows p (delete_where (held_role d user role) (user_roles d))). lia. }
  destruct (role ≟ rs "admin") eqn:E.
  - apply bool_decide_eq_true in E as ->.
    destruct (first_row (fun r => ro_name r ≟ rs "admin") (roles_t d)) as [r|] eqn:Hr.
    + apply first_row_some in Hr as [Hin Hn]. apply bool_decide_eq_true in Hn.
      apply (count_rows_unique user_role_key _ (user, ro_id r)); [done|].
      intros ur _ H. unfold p, held_role in H. rewrite !andb_true_iff, bool_decide_eq_true in H.
      destruct H as [[H _] [Hu _]]. apply role_row_true in H as (r' & Hin' & Hid' & Hn').
      unfold user_role_key. rewrite Hu, <- Hid'. f_equal. f_equal.
      eapply (unique_on_eq ro_name); [exact Hname| | |by rewrite Hn']; done.
    + rewrite count_rows_none; [lia|]. apply exists_row_false. intros ur _.
      unfold p. destruct (role_row d (rs "admin") ur) eqn:H; [|done].
      apply role_row_true in H as (r' & Hin' & _ & Hn'). apply first_row_none in Hr.
      rewrite exists_row_false in Hr. specialize (Hr r' Hin'). by rewrite Hn' in Hr.
  - apply bool_decide_eq_false in E. rewrite count_rows_none; [lia|]. apply exists_row_false. intros ur _.
    unfold p, held_role. destruct (role_row d (rs "admin") ur) eqn:H1; [|done].
    destruct (role_row d role ur) eqn:H2; [|by rewrite !andb_false_r].
    apply role_row_true in H1 as (r1 & Hin1 & Hi1 & Hn1). apply role_row_true in H2 as (r2 & Hin2 & Hi2 & Hn2).
    assert (r1 = r2) as -> by (eapply (unique_on_eq ro_id); [exact Hid|done|done|by rewrite Hi1]). congruence.
Qed.

Lemma record_audit_admins id e d x d' :
  sql_record_audit id e d = Ok (x, d') -> same_admins d d' /\ user_roles d' = user_roles d.
Proof.
  unfold sql_record_audit, insert_row. destruct (_ && _); [|done]. by intros [= _ <-].
Qed.
Lemma queue_outbox_admins id topic payload now d x d' :
  sql_queue_outbox id topic payload now d = Ok (x, d') -> same_admins d d' /\ user_roles d' = user_roles d.
Proof.
  unfold sql_queue_outbox, insert_row. destruct (_ && _); [|done]. by intros [= _ <-].
Qed.

Lemma remove_role_wp actor user role now d :
  unique_on ro_id (roles_t d) -> unique_on ro_name (roles_t d) -> unique_on user_role_key (user_roles d) ->
  1 <= sql_admin_count d ->
  wp (K := K) (remove_role_transaction actor user role now)
    (fun _ d' => 1 <= sql_admin_count d') (fun d' => 1 <= sql_admin_count d') d.
Proof.
  intros Hid Hname Hkey Hd. unfold remove_role_transaction. apply wp_transaction; [done|].
  apply wp_bind.
  apply (wp_mono _ (fun _ d' => d' = d /\ 1 <= sql_admin_count d - (if role ≟ rs "admin" then 1 else 0)) _
           (fun _ => True)); [| |done].
  { destruct (role ≟ rs "admin"); [|apply wp_ret; split; [done|lia]].
    apply wp_bind, wp_query; [done|]. destruct (sql_admin_count d <=? 1) eqn:E; [by apply wp_throw|].
    apply wp_ret. split; [done|lia]. }
  intros [] d0 [-> Hlim]. apply wp_bind, wp_execute; [done|]. intros n d1 E1. split; [|done].
  apply sql_remove_role_count in E1; [|done..]. destruct (n =? 0); [by apply wp_throw|].
  apply wp_bind, wp_execute; [done|]. intros [] d2 E2. split; [|done].
  apply same_admins_touch in E2 as [Ha2 Hu2]. apply (same_admins_count _ _ Ha2) in Hu2.
  unfold record_audit, queue_auth_invalidation.
  apply wp_bind, wp_bind. wp_silent_step. apply wp_execute; [done|]. intros [] d3 E3. split; [|done].
  apply record_audit_admins in E3 as [Ha3 Hu3]. apply (same_admins_count _ _ Ha3) in Hu3.
  apply wp_bind. wp_silent_step. apply wp_execute; [done|]. intros [] d4 E4. split; [|done].
  apply queue_outbox_admins in E4 as [Ha4 Hu4]. apply (same_admins_count _ _ Ha4) in Hu4. lia.
Qed.
End FinalAdmin.

(** C23. The last active administrator cannot lose the role: if there is one
    before [admin_remove_role], there is one afterwards, whichever user and
    role are named and whatever fails. *)
Theorem final_admin_kept {K} {V : Valkey K} {T : UuidText} {J : JsonText}
    (env : Env) (w : World K) headers user role
    (Hid : unique_on ro_id (roles_t (w_db w))) (Hname : unique_on ro_name (roles_t (w_db w)))
    (Hkey : unique_on user_role_key (user_roles (w_db w)))
    (Hadmin : 1 <= sql_admin_count (w_db w)) :
  1 <= sql_admin_count (w_db (admin_remove_role headers user role env w).2).
Proof.
  assert (wp (K := K) (admin_remove_role headers user role) (fun _ d' => 1 <= sql_admin_count d')
            (fun d' => 1 <= sql_admin_count d') (w_db w)) as H.
  { unfold admin_remove_role, privileged. apply wp_bind. unfold load_session. wp_silent_step.
    apply wp_bind. wp_silent_step. by apply remove_role_wp. }
  specialize (H env w eq_refl). by destruct (admin_remove_role headers user role env w) as [[[]|e] w'].
Qed.

(** ** Witnesses *)

#[local] Existing Instance hyphenated_text.
#[local] Existing Instance coded_json.
#[local] Existing Instance keyspace_valkey.

(** [alice] and [bob] are administrators; [alice] is logged in. *)
Definition admins_db : Db :=
  set_roles_t (fun _ => [mkRoleRow (uuid_of 20) (rs "user"); mkRoleRow (uuid_of 21) (rs "admin")])
    (set_user_roles (fun _ => [mkUserRoleRow (uuid_of 1) (uuid_of 21) 0; mkUserRoleRow (uuid_of 2) (uuid_of 21) 0])
       sample_db).

Definition alice_admin : AuthUser := sample_auth 1 "alice" ["roles:write"%string].
Definition alice_session : World Keyspace :=
  (create_session alice_admin (sample_env 0) (sample_world admins_db)).2.
Definition alice_headers : HeaderMap :=
  session_cookie (uuid_of 1000) ++ [(CSRF_HEADER, hex_encode (repeat 1 32))].

Lemma alice_session_db : w_db alice_session = admins_db.
Proof. vm_compute. reflexivity. Qed.
Lemma alice_removes_bob :
  (admin_remove_role alice_headers (uuid_of 2) (rs "admin") (sample_env 5) alice_session).1 = Ok tt.
Proof. vm_compute. reflexivity. Qed.

Lemma final_admin_kept_witness :
  exists w', admin_remove_role alice_headers (uuid_of 2) (rs "admin") (sample_env 5) alice_session = (Ok tt, w')
    /\ 1 <= sql_admin_count (w_db w').
Proof.
  eexists. split; [exact (run_split _ _ _ _ alice_removes_bob)|].
  apply (final_admin_kept (sample_env 5) alice_session alice_headers (uuid_of 2) (rs "admin"));
    rewrite alice_session_db; [| | |vm_compute; discriminate];
    apply NoDup_ListNoDup, (bool_decide_unpack _); vm_compute; exact I.
Defined.
