(* ===== verification/Storage.v ===== *)
(** * Object storage

    [storage.rs] and [storage/scanner.rs]: the contract of a [BlobStore], the
    filesystem store that implements it, the requests of the S3 store, and the
    upload scanner. The file system, the [url] crate and the object service are
    interfaces with their documented behaviour; the handlers run against the
    contract itself ([put_blob], [get_stream], [delete_blob] on [w_blobs]). *)
From Stdlib Require Import String.
From S2P Require Export Repository.
Open Scope m_scope.

Notation bytes := (list Z) (only parsing).

Inductive IoKind := IoNotFound | IoOther.
Inductive StorageError :=
| Configuration (error : rstr)
| InvalidKey
| Io (error : IoKind)
| Http (error : rstr).

(** A body that arrives in chunks, any of which may fail. *)
Record BlobObject := mkBlobObject {
  content_length : option Z;
  stream : list (Result StorageError bytes)
}.
Definition received (o : BlobObject) (contents : bytes) : Prop :=
  exists chunks, stream o = map Ok chunks /\ concat chunks = contents.

(** The guard both stores put before a key. *)
Definition invalid_key (key : rstr) : bool :=
  is_empty key || existsb is_separator key || (key ≟ rs ".") || (key ≟ rs "..").

(** ** The trait and its contract *)

Class BlobStore (S : Type) := {
  blob_put : rstr -> bytes -> S -> Result StorageError unit * S;
  blob_get_stream : rstr -> S -> Result StorageError BlobObject;
  blob_delete : rstr -> S -> Result StorageError unit * S
}.

(** What a store promises for the keys it can hold. *)
Class BlobStoreLaws (S : Type) `{BlobStore S} := {
  storable : rstr -> Prop;
  blob_at : S -> rstr -> option bytes;
  storable_valid key : storable key -> invalid_key key = false;
  blob_put_ok key c s s' : storable key -> blob_put key c s = (Ok tt, s') -> blob_at s' key = Some c;
  blob_put_err key c s s' e : storable key -> blob_put key c s = (Err e, s') ->
    blob_at s' key = blob_at s key \/ exists n, blob_at s' key = Some (take n c);
  blob_put_other key other c s : storable key -> storable other -> other <> key ->
    blob_at (blob_put key c s).2 other = blob_at s other;
  blob_get_ok key s o c : storable key -> blob_get_stream key s = Ok o -> received o c ->
    blob_at s key = Some c /\ (forall n, content_length o = Some n -> n = Z.of_nat (length c));
  blob_delete_ok key s s' : storable key -> blob_delete key s = (Ok tt, s') -> blob_at s' key = None;
  blob_delete_err key s s' e : storable key -> blob_delete key s = (Err e, s') ->
    blob_at s' key = blob_at s key \/ blob_at s' key = None;
  blob_delete_other key other s : storable key -> storable other -> other <> key ->
    blob_at (blob_delete key s).2 other = blob_at s other
}.

(** ** The store the handlers run against *)

Definition store_put (f : Fault) (torn : nat) (key : rstr) (c : bytes) (b : gmap rstr bytes) :
    Result StorageError unit * gmap rstr bytes :=
  if invalid_key key then (Err InvalidKey, b)
  else match f with
       | NoFault => (Ok tt, <[key := c]> b)
       | FaultBefore => (Err (Io IoOther), b)
       | FaultAfter => (Err (Io IoOther), <[key := take torn c]> b)
       end.
Definition store_get (f : Fault) (key : rstr) (b : gmap rstr bytes) : Result StorageError BlobObject :=
  if invalid_key key then Err InvalidKey
  else match f, b !! key with
       | NoFault, Some c => Ok (mkBlobObject (Some (Z.of_nat (length c))) [Ok c])
       | _, _ => Err (Io IoNotFound)
       end.
Definition store_delete (f : Fault) (key : rstr) (b : gmap rstr bytes) :
    Result StorageError unit * gmap rstr bytes :=
  if invalid_key key then (Err InvalidKey, b)
  else match f with
       | NoFault => (Ok tt, delete key b)
       | FaultBefore => (Err (Io IoOther), b)
       | FaultAfter => (Err (Io IoOther), delete key b)
       end.

Section Blobs.
Context {K : Type}.
Notation M := (M K StorageError).

Definition put_blob (key : rstr) (c : bytes) : M unit := fun env w =>
  let '(r, b) := store_put (env_fault env (w_step w)) (env_torn env (w_step w)) key c (w_blobs w) in
  (r, with_blobs b (tick w)).
Definition get_stream (key : rstr) : M BlobObject := fun env w =>
  (store_get (env_fault env (w_step w)) key (w_blobs w), tick w).
Definition delete_blob (key : rstr) : M unit := fun env w =>
  let '(r, b) := store_delete (env_fault env (w_step w)) key (w_blobs w) in
  (r, with_blobs b (tick w)).
End Blobs.

(** ** The filesystem store *)

(** [tokio::fs] on the files of one machine. *)
Record OpenFile := mkOpenFile {
  metadata_len : Result IoKind Z;
  file_chunks : list (Result IoKind bytes)
}.
Class FileSystem (S : Type) := {
  fs_create_dir_all : rstr -> S -> Result IoKind unit * S;
  fs_write : rstr -> bytes -> S -> Result IoKind unit * S;
  fs_open : rstr -> S -> Result IoKind OpenFile;
  fs_remove_file : rstr -> S -> Result IoKind unit * S;
  fs_file : S -> rstr -> option bytes;
  fs_create_dir_files p s q : fs_file (fs_create_dir_all p s).2 q = fs_file s q;
  fs_write_ok p c s s' : fs_write p c s = (Ok tt, s') -> fs_file s' p = Some c;
  fs_write_err p c s s' e : fs_write p c s = (Err e, s') ->
    fs_file s' p = fs_file s p \/ exists n, fs_file s' p = Some (take n c);
  fs_write_other p q c s : q <> p -> fs_file (fs_write p c s).2 q = fs_file s q;
  fs_open_ok p s f chunks : fs_open p s = Ok f -> file_chunks f = map Ok chunks ->
    fs_file s p = Some (concat chunks)
    /\ (forall n, metadata_len f = Ok n -> n = Z.of_nat (length (concat chunks)));
  fs_remove_ok p s s' : fs_remove_file p s = (Ok tt, s') -> fs_file s' p = None;
  fs_remove_absent p s s' : fs_remove_file p s = (Err IoNotFound, s') -> fs_file s' p = None;
  fs_remove_err p s s' e : fs_remove_file p s = (Err e, s') ->
    fs_file s' p = fs_file s p \/ fs_file s' p = None;
  fs_remove_other p q s : q <> p -> fs_file (fs_remove_file p s).2 q = fs_file s q
}.

(** [PathBuf::join] on Unix. *)
Definition is_slash (c : Z) : bool := c =? 47.
Definition is_absolute (p : rstr) : bool := match p with c :: _ => is_slash c | [] => false end.
Definition path_join (root p : rstr) : rstr :=
  if is_absolute p then p
  else match last root with
       | Some c => if is_slash c then root ++ p else root ++ 47 :: p
       | None => p
       end.

(** [FilesystemBlobStore::path] *)
Definition fs_path (root key : rstr) : Result StorageError rstr :=
  if invalid_key key then Err InvalidKey else Ok (path_join root key).

Definition map_io {A} (r : Result IoKind A) : Result StorageError A :=
  match r with Ok a => Ok a | Err e => Err (Io e) end.

Section Filesystem.
Context {S : Type} {FS : FileSystem S} (root : rstr).

Definition fs_put (key : rstr) (c : bytes) (s : S) : Result StorageError unit * S :=
  match fs_path root key with
  | Err e => (Err e, s)
  | Ok path =>
      match fs_create_dir_all root s with
      | (Err e, s1) => (Err (Io e), s1)
      | (Ok _, s1) => let '(r, s2) := fs_write path c s1 in (map_io r, s2)
      end
  end.

Definition map_chunk (r : Result IoKind bytes) : Result StorageError bytes := map_io r.
Definition fs_get_stream (key : rstr) (s : S) : Result StorageError BlobObject :=
  match fs_path root key with
  | Err e => Err e
  | Ok path =>
      match fs_open path s with
      | Err e => Err (Io e)
      | Ok file =>
          match metadata_len file with
          | Err e => Err (Io e)
          | Ok n => Ok (mkBlobObject (Some n) (map map_chunk (file_chunks file)))
          end
      end
  end.

Definition fs_delete (key : rstr) (s : S) : Result StorageError unit * S :=
  match fs_path root key with
  | Err e => (Err e, s)
  | Ok path =>
      match fs_remove_file path s with
      | (Ok _, s') => (Ok tt, s')
      | (Err IoNotFound, s') => (Ok tt, s')
      | (Err e, s') => (Err (Io e), s')
      end
  end.
End Filesystem.

(** ** Where a key leads *)

(** [Path::components] on Unix. *)
Inductive Component := RootDir | CurDir | ParentDir | Normal (s : rstr).
Definition segment (s : rstr) : option Component :=
  if is_empty s || (s ≟ rs ".") then None
  else if s ≟ rs ".." then Some ParentDir else Some (Normal s).
Definition leading (p : rstr) : list Component :=
  if is_absolute p then [RootDir]
  else match split_on is_slash p with
       | s :: _ => if s ≟ rs "." then [CurDir] else []
       | [] => []
       end.
Definition components (p : rstr) : list Component := leading p ++ omap segment (split_on is_slash p).

Section PathFacts.
Lemma split_on_some (p : Z -> bool) s : exists w ws, split_on p s = w :: ws.
Proof.
  induction s as [|c s (w & ws & IH)]; simpl; [eauto|]. rewrite IH. destruct (p c); eauto.
Qed.

Lemma split_on_sep (p : Z -> bool) a c b :
  p c = true -> split_on p (a ++ c :: b) = split_on p a ++ split_on p b.
Proof.
  intros Hc. induction a as [|x a IH]; simpl; [by rewrite Hc|].
  destruct (p x); [by rewrite IH|]. rewrite IH. by destruct (split_on_some p a) as (w & ws & ->).
Qed.

Lemma valid_key_chars key :
  invalid_key key = false ->
  key <> [] /\ Forall (fun c => is_slash c = false) key /\ key <> rs "." /\ key <> rs "..".
Proof.
  unfold invalid_key. rewrite !orb_false_iff, !bool_decide_eq_false.
  intros (((He & Hs) & Hd) & Hdd). split; [by destruct key|]. split; [|done].
  apply List.Forall_forall. intros c Hin. destruct (is_slash c) eqn:E; [|done].
  assert (existsb is_separator key = true) as Ht; [|congruence].
  apply existsb_exists. exists c. split; [done|]. unfold is_separator. unfold is_slash in E. by rewrite E.
Qed.

Lemma valid_key_relative key : invalid_key key = false -> is_absolute key = false.
Proof. intros (_ & H & _)%valid_key_chars. by destruct H. Qed.

Lemma fs_path_inj root k1 k2 p : fs_path root k1 = Ok p -> fs_path root k2 = Ok p -> k1 = k2.
Proof.
  unfold fs_path. destruct (invalid_key k1) eqn:E1; [done|]. destruct (invalid_key k2) eqn:E2; [done|].
  intros [= <-] [= E]. unfold path_join in E. rewrite !valid_key_relative in E by done.
  destruct (last root) as [c|]; [|done].
  destruct (is_slash c); apply app_inv_head in E; [done|]. by injection E.
Qed.

Lemma split_on_key key : invalid_key key = false -> split_on is_slash key = [key].
Proof. intros (_ & H & _)%valid_key_chars. by apply split_on_none. Qed.
Lemma segment_key key : invalid_key key = false -> segment key = Some (Normal key).
Proof.
  intros (Hn & _ & Hd & Hdd)%valid_key_chars. unfold segment.
  rewrite !bool_decide_eq_false_2 by done. by destruct key.
Qed.

(** A separator and a key at the end add one component. *)
Lemma components_snoc root key :
  invalid_key key = false -> root <> [] -> components (root ++ 47 :: key) = components root ++ [Normal key].
Proof.
  intros Hk Hr. unfold components, leading.
  rewrite split_on_sep, (split_on_key key), omap_app by done. simpl. rewrite segment_key by done.
  rewrite app_assoc. f_equal. f_equal. destruct root as [|c root]; [done|]. simpl.
  destruct (is_slash c); [done|]. by destruct (split_on_some is_slash root) as (w & ws & ->).
Qed.

Lemma components_trailing root : root <> [] -> components (root ++ [47]) = components root.
Proof.
  intros Hr. unfold components, leading. rewrite split_on_sep, omap_app by done. simpl.
  rewrite app_nil_r. f_equal. destruct root as [|c root]; [done|]. simpl.
  destruct (is_slash c); [done|]. by destruct (split_on_some is_slash root) as (w & ws & ->).
Qed.
End PathFacts.

(** A storage key cannot leave the directory of the store: a key is refused,
    or its path has exactly the components of the root and one more, which is
    the key. *)
Theorem storage_key_confined (root key : rstr) :
  match fs_path root key with
  | Ok p => components p = components root ++ [Normal key]
  | Err e => e = InvalidKey /\ (is_empty key = true \/ existsb is_separator key = true
                               \/ key = rs "." \/ key = rs "..")
  end.
Proof.
  unfold fs_path. destruct (invalid_key key) eqn:E.
  - split; [done|]. unfold invalid_key in E. rewrite !orb_true_iff, !bool_decide_eq_true in E. tauto.
  - unfold path_join. rewrite valid_key_relative by done.
    destruct root as [|c root _] using rev_ind.
    + unfold components, leading. simpl. rewrite valid_key_relative, split_on_key by done. simpl.
      rewrite segment_key by done. apply valid_key_chars in E as (_ & _ & Hd & _).
      by rewrite bool_decide_eq_false_2.
    + rewrite last_snoc. destruct (is_slash c) eqn:Es.
      * unfold is_slash in Es. apply Z.eqb_eq in Es as ->. rewrite <- app_assoc. simpl.
        destruct root as [|c root]; [|by rewrite components_snoc, components_trailing].
        unfold components, leading. simpl. rewrite split_on_key by done. simpl. by rewrite segment_key.
      * apply components_snoc; [done|]. by destruct root.
Qed.

(** ** The filesystem store keeps the contract *)

Section FilesystemLaws.
Context {S : Type} {FS : FileSystem S} (root : rstr).

#[local] Instance filesystem_store : BlobStore S := {|
  blob_put := fs_put root;
  blob_get_stream := fs_get_stream root;
  blob_delete := fs_delete root
|}.

Definition fs_blob (s : S) (key : rstr) : option bytes :=
  match fs_path root key with Ok p => fs_file s p | Err _ => None end.

Lemma fs_path_some key : invalid_key key = false -> exists p, fs_path root key = Ok p.
Proof. unfold fs_path. intros ->. eauto. Qed.
Lemma fs_path_ne k1 k2 p1 p2 :
  fs_path root k1 = Ok p1 -> fs_path root k2 = Ok p2 -> k2 <> k1 -> p2 <> p1.
Proof. intros H1 H2 Hne ->. apply Hne. by eapply fs_path_inj. Qed.

(** What a write leaves, once the directory was made or not. *)
Lemma fs_put_cases key c s p :
  fs_path root key = Ok p ->
  exists s1, (forall q, fs_file s1 q = fs_file s q)
    /\ ((exists e, fs_put root key c s = (Err e, s1))
        \/ fs_put root key c s = (map_io (fs_write p c s1).1, (fs_write p c s1).2)).
Proof.
  unfold fs_put. intros ->. pose proof (fs_create_dir_files root s) as Hd.
  destruct (fs_create_dir_all root s) as [[u|e] s1]; exists s1; (split; [exact Hd|]); [|by eauto].
  right. by destruct (fs_write p c s1).
Qed.

Lemma map_chunks_ok file chunks :
  map map_chunk (file_chunks file) = map Ok chunks -> file_chunks file = map Ok chunks.
Proof.
  generalize (file_chunks file). intros l. revert l. induction chunks as [|c chunks IH]; intros [|r l];
    simpl; try done. intros [= Hr Hl]. f_equal; [by destruct r; simplify_eq/=|by apply IH].
Qed.

#[local] Program Instance filesystem_laws : BlobStoreLaws S := {|
  storable key := invalid_key key = false;
  blob_at := fs_blob
|}.
Next Obligation. done. Qed.
Next Obligation.
  intros key c s s' (p & Hp)%fs_path_some H. unfold fs_blob. rewrite Hp.
  change (fs_put root key c s = (Ok tt, s')) in H.
  destruct (fs_put_cases key c s p Hp) as (s1 & _ & [[e E]|E]); rewrite E in H; [done|].
  injection H as Hr <-. eapply (fs_write_ok _ _ s1), injective_projections; [|done].
  simpl. by destruct (fs_write p c s1).1 as [[]|].
Qed.
Next Obligation.
  intros key c s s' e (p & Hp)%fs_path_some H. unfold fs_blob. rewrite Hp.
  change (fs_put root key c s = (Err e, s')) in H.
  destruct (fs_put_cases key c s p Hp) as (s1 & Hs & [[e' E]|E]); rewrite E in H.
  - injection H as _ <-. rewrite Hs. by left.
  - injection H as Hr <-. rewrite <- Hs. destruct (fs_write p c s1) as [[u|k] s2] eqn:Ew; [done|].
    by eapply fs_write_err.
Qed.
Next Obligation.
  intros key other c s (p & Hp)%fs_path_some (q & Hq)%fs_path_some Hne. unfold fs_blob. rewrite Hq.
  change (blob_put key c s) with (fs_put root key c s).
  destruct (fs_put_cases key c s p Hp) as (s1 & Hs & [[e' E]|E]); rewrite E; simpl; [done|].
  rewrite fs_write_other; [done|]. by eapply fs_path_ne.
Qed.
Next Obligation.
  intros key s o c (p & Hp)%fs_path_some H (chunks & Hc & <-). unfold fs_blob. rewrite Hp.
  simpl in H. unfold fs_get_stream in H. rewrite Hp in H.
  destruct (fs_open p s) as [file|] eqn:Eo; [|done]. destruct (metadata_len file) as [n|] eqn:En; [|done].
  injection H as <-. simpl in *. apply map_chunks_ok in Hc.
  destruct (fs_open_ok _ _ _ _ Eo Hc) as [Hf Hn]. split; [done|]. intros ? [= <-]. by apply Hn.
Qed.
Next Obligation.
  intros key s s' (p & Hp)%fs_path_some H. unfold fs_blob. rewrite Hp. simpl in H. unfold fs_delete in H.
  rewrite Hp in H. destruct (fs_remove_file p s) as [[[]|[|]] s2] eqn:E; simplify_eq.
  - by eapply fs_remove_ok.
  - by eapply fs_remove_absent.
Qed.
Next Obligation.
  intros key s s' e (p & Hp)%fs_path_some H. unfold fs_blob. rewrite Hp. simpl in H. unfold fs_delete in H.
  rewrite Hp in H. destruct (fs_remove_file p s) as [[[]|[|]] s2] eqn:E; simplify_eq.
  by eapply fs_remove_err.
Qed.
Next Obligation.
  intros key other s (p & Hp)%fs_path_some (q & Hq)%fs_path_some Hne. unfold fs_blob. rewrite Hq.
  simpl. unfold fs_delete. rewrite Hp.
  rewrite <- (fs_remove_other p q s) by (by eapply fs_path_ne).
  by destruct (fs_remove_file p s) as [[[]|[|]] s2].
Qed.
End FilesystemLaws.

(** ** A store with the contract is the store of the handlers *)

(** The keys a store can hold are where the handlers' store says. *)
Definition stores {S} `{BlobStoreLaws S} (s : S) (b : gmap rstr bytes) : Prop :=
  forall key, storable key -> blob_at s key = b !! key.

Section Refinement.
Context {S : Type} `{L : BlobStoreLaws S}.
Implicit Types (s : S) (b : gmap rstr bytes).

Lemma stores_update s s' b b' key :
  stores s b -> (forall other, storable other -> other <> key -> blob_at s' other = blob_at s other) ->
  (forall other, other <> key -> b' !! other = b !! other) -> blob_at s' key = b' !! key -> stores s' b'.
Proof.
  intros Hs Hi Hb Hk other Ho. destruct (decide (other = key)) as [->|Hne]; [done|].
  by rewrite Hi, Hb, Hs.
Qed.

Lemma put_refines s b key c :
  stores s b -> storable key ->
  exists f torn, is_ok (blob_put key c s).1 = is_ok (store_put f torn key c b).1
    /\ stores (blob_put key c s).2 (store_put f torn key c b).2.
Proof.
  intros Hs Hk. pose proof (storable_valid key Hk) as Hv. unfold store_put. rewrite Hv.
  assert (forall o, storable o -> o <> key -> blob_at (blob_put key c s).2 o = blob_at s o) as Ho
    by (intros; by apply blob_put_other).
  destruct (blob_put key c s) as [[[]|e] s'] eqn:E; simpl in *.
  - exists NoFault, 0%nat. split; [done|]. simpl. eapply stores_update; [exact Hs|exact Ho| |].
    + intros o Hne. by apply lookup_insert_ne.
    + rewrite lookup_insert_eq. by eapply blob_put_ok.
  - destruct (blob_put_err _ _ _ _ _ Hk E) as [Hsame|[n Hn]].
    + exists FaultBefore, 0%nat. split; [done|]. simpl. eapply stores_update; [exact Hs|exact Ho|done|].
      rewrite Hsame. by apply Hs.
    + exists FaultAfter, n. split; [done|]. simpl. eapply stores_update; [exact Hs|exact Ho| |].
      * intros o Hne. by apply lookup_insert_ne.
      * by rewrite lookup_insert_eq.
Qed.

Lemma delete_refines s b key :
  stores s b -> storable key ->
  exists f, is_ok (blob_delete key s).1 = is_ok (store_delete f key b).1
    /\ stores (blob_delete key s).2 (store_delete f key b).2.
Proof.
  intros Hs Hk. pose proof (storable_valid key Hk) as Hv. unfold store_delete. rewrite Hv.
  assert (forall o, storable o -> o <> key -> blob_at (blob_delete key s).2 o = blob_at s o) as Ho
    by (intros; by apply blob_delete_other).
  assert (forall o, o <> key -> delete key b !! o = b !! o) as Hd by (intros; by apply lookup_delete_ne).
  destruct (blob_delete key s) as [[[]|e] s'] eqn:E; simpl in *.
  - exists NoFault. split; [done|]. simpl. eapply stores_update; [exact Hs|exact Ho|exact Hd|].
    rewrite lookup_delete_eq. by eapply blob_delete_ok.
  - destruct (blob_delete_err _ _ _ _ Hk E) as [Hsame|Hn].
    + exists FaultBefore. split; [done|]. simpl. eapply stores_update; [exact Hs|exact Ho|done|].
      rewrite Hsame. by apply Hs.
    + exists FaultAfter. split; [done|]. simpl. eapply stores_update; [exact Hs|exact Ho|exact Hd|].
      by rewrite lookup_delete_eq.
Qed.

Lemma get_refines s b key o c :
  stores s b -> storable key -> blob_get_stream key s = Ok o -> received o c ->
  b !! key = Some c /\ forall n, content_length o = Some n -> n = Z.of_nat (length c).
Proof. intros Hs Hk Hg Hc. rewrite <- (Hs key Hk). by eapply blob_get_ok. Qed.
End Refinement.

(** C30. The filesystem store is the store the handlers are written against:
    each of its operations has the result of an operation of that store under
    some fault (none, lost before it acted, lost after part of the contents
    arrived), and leaves files that are that store's; a body received to its end
    is the contents that were stored, with their length. *)
Theorem filesystem_store_refines {S} {FS : FileSystem S} (root : rstr) (s : S)
    (b : gmap rstr bytes) (key : rstr) (c : bytes)
    (Hs : forall k, invalid_key k = false -> fs_blob root s k = b !! k) :
  let agrees s' b' := forall k, invalid_key k = false -> fs_blob root s' k = b' !! k in
  (exists f torn, is_ok (fs_put root key c s).1 = is_ok (store_put f torn key c b).1
     /\ agrees (fs_put root key c s).2 (store_put f torn key c b).2)
  /\ (exists f, is_ok (fs_delete root key s).1 = is_ok (store_delete f key b).1
     /\ agrees (fs_delete root key s).2 (store_delete f key b).2)
  /\ (forall o, fs_get_stream root key s = Ok o -> received o c ->
        b !! key = Some c /\ forall n, content_length o = Some n -> n = Z.of_nat (length c)).
Proof.
  cbv zeta. destruct (invalid_key key) eqn:Ek.
  - unfold store_put, store_delete, fs_put, fs_delete, fs_get_stream, fs_path. rewrite Ek.
    split; [by exists NoFault, 0%nat|]. split; [by exists NoFault|done].
  - pose (filesystem_store root) as B. pose (filesystem_laws root) as L.
    change (stores (H0 := L) s b) in Hs. split; [|split].
    + exact (put_refines (L := L) s b key c Hs Ek).
    + exact (delete_refines (L := L) s b key Hs Ek).
    + intros o. exact (get_refines (L := L) s b key o c Hs Ek).
Qed.

(** ** The upload scanner *)

Inductive ScanError := Rejected | Unavailable (error : rstr).

(** [FileScanner]: the name, the declared type and the contents of an upload. *)
Record FileScanner := mkFileScanner { scan : rstr -> rstr -> bytes -> Result ScanError unit }.
Definition NoopFileScanner : FileScanner := mkFileScanner (fun _ _ _ => Ok tt).

Definition is_success (status : Z) : bool := (200 <=? status) && (status <? 300).

(** [HttpFileScanner]: [post] is the request to the scanning service, which
    fails or answers with a status; [show] writes a status. *)
Definition HttpFileScanner (post : rstr -> rstr -> bytes -> Result rstr Z) (show : Z -> rstr) : FileScanner :=
  mkFileScanner (fun file_name content_type contents =>
    match post file_name content_type contents with
    | Err error => Err (Unavailable error)
    | Ok status =>
        if is_success status then Ok tt
        else if status =? 422 then Err Rejected
        else Err (Unavailable (show status))
    end).

(** ** Witnesses *)

(** A disk that is a map from paths to contents. *)
#[local] Program Instance map_disk : FileSystem (gmap rstr bytes) := {|
  fs_create_dir_all _ s := (Ok tt, s);
  fs_write p c s := (Ok tt, <[p := c]> s);
  fs_open p s := match s !! p with
                 | Some c => Ok (mkOpenFile (Ok (Z.of_nat (length c))) [Ok c])
                 | None => Err IoNotFound end;
  fs_remove_file p s := match s !! p with Some _ => (Ok tt, delete p s) | None => (Err IoNotFound, s) end;
  fs_file s p := s !! p
|}.
Next Obligation. done. Qed.
Next Obligation. intros p c s s' [= <-]. apply lookup_insert_eq. Qed.
Next Obligation. done. Qed.
Next Obligation. intros p q c s Hne. by apply lookup_insert_ne. Qed.
Next Obligation.
  intros p s f chunks H Hc. simpl in *. destruct (s !! p) as [c|]; [|done]. injection H as <-.
  destruct chunks as [|c' [|]]; try done. injection Hc as <-. simpl. rewrite app_nil_r.
  split; [done|]. by intros n [= <-].
Qed.
Next Obligation.
  intros p s s' H. simpl in *. destruct (s !! p); [|done]. injection H as <-. apply lookup_delete_eq.
Qed.
Next Obligation. intros p s s' H. simpl in *. destruct (s !! p) eqn:E; [done|]. by injection H as <-. Qed.
Next Obligation.
  intros p s s' e H. simpl in *. destruct (s !! p) eqn:E; [done|]. injection H as _ <-. by left.
Qed.
Next Obligation. intros p q s Hne. simpl. destruct (s !! p); [by apply lookup_delete_ne|done]. Qed.

Lemma filesystem_store_refines_witness :
  fs_put (rs "/uploads") (rs "a.bin") [7; 8] (∅ : gmap rstr bytes)
  = (Ok tt, {[rs "/uploads/a.bin" := [7; 8]]})
  /\ exists f torn, is_ok (store_put f torn (rs "a.bin") [7; 8] ∅).1 = true
       /\ fs_blob (rs "/uploads") ({[rs "/uploads/a.bin" := [7; 8]]} : gmap rstr bytes) (rs "a.bin")
          = (store_put f torn (rs "a.bin") [7; 8] ∅).2 !! rs "a.bin".
Proof.
  split; [reflexivity|].
  destruct (proj1 (filesystem_store_refines (rs "/uploads") (∅ : gmap rstr bytes) ∅ (rs "a.bin") [7; 8]
    ltac:(intros k Hk; unfold fs_blob; destruct (fs_path _ k); reflexivity))) as (f & torn & Hok & Hk).
  exists f, torn. split; [symmetry; exact Hok|]. exact (Hk (rs "a.bin") eq_refl).
Defined.
