(* ===== verification/S3.v ===== *)
(** * The S3 store

    [S3BlobStore] of [storage.rs]: the signed requests and the outcomes of the
    three operations. The [url] crate, the HTTP client with the object service
    behind it and the date formats of [chrono] are interfaces. *)
From Stdlib Require Import String.
From S2P Require Export Storage.

(** ** Interfaces *)

(** The text from which a URL path is built, where it needs no escapes. *)
Definition plain_char (c : Z) : bool :=
  is_ascii_alphanumeric c || (c =? 45) || (c =? 46) || (c =? 95).
Definition plain_segment (s : rstr) : bool := negb (invalid_key s) && forallb plain_char s.

(** The [url] crate. *)
Class UrlCrate := {
  Url : Type;
  url_parse : rstr -> option Url;
  url_as_str : Url -> rstr;
  url_scheme : Url -> rstr;
  url_host_str : Url -> option rstr;
  url_username : Url -> rstr;
  url_password : Url -> option rstr;
  url_port_or_known_default : Url -> option Z;
  url_path : Url -> rstr;
  url_set_path : rstr -> Url -> Url;
  url_join : Url -> rstr -> option Url;
  url_set_path_plain u a b : url_scheme u = rs "http" \/ url_scheme u = rs "https" ->
    plain_segment a = true -> plain_segment b = true ->
    url_path (url_set_path (rs "/" ++ a ++ rs "/" ++ b) u) = rs "/" ++ a ++ rs "/" ++ b;
  url_set_path_host u p : url_host_str (url_set_path p u) = url_host_str u
}.

Record SignedRequest {U : UrlCrate} := mkSignedRequest {
  rq_method : rstr; rq_url : Url; rq_body : bytes; rq_headers : list (rstr * rstr)
}.
Record HttpResponse := mkHttpResponse {
  http_status : Z; http_content_length : option Z; http_chunks : list (Result rstr bytes)
}.
Definition PUT : rstr := rs "PUT".
Definition GET : rstr := rs "GET".
Definition DELETE : rstr := rs "DELETE".

(** The object service: a successful answer means the request was done, any
    other outcome leaves it done or not. *)
Class ObjectService (S : Type) `{UrlCrate} := {
  http_send : SignedRequest -> S -> Result rstr HttpResponse * S;
  show_status : Z -> rstr;
  object_at : S -> rstr -> option bytes;
  object_other r s p : p <> url_path (rq_url r) -> object_at (http_send r s).2 p = object_at s p;
  object_put r s s' a : rq_method r = PUT -> http_send r s = (Ok a, s') ->
    is_success (http_status a) = true -> object_at s' (url_path (rq_url r)) = Some (rq_body r);
  object_put_lost r s : rq_method r = PUT ->
    object_at (http_send r s).2 (url_path (rq_url r)) = object_at s (url_path (rq_url r))
    \/ object_at (http_send r s).2 (url_path (rq_url r)) = Some (rq_body r);
  object_get r s s' a chunks : rq_method r = GET -> http_send r s = (Ok a, s') ->
    is_success (http_status a) = true -> http_chunks a = map Ok chunks ->
    object_at s (url_path (rq_url r)) = Some (concat chunks)
    /\ (forall n, http_content_length a = Some n -> n = Z.of_nat (length (concat chunks)));
  object_delete r s s' a : rq_method r = DELETE -> http_send r s = (Ok a, s') ->
    is_success (http_status a) = true \/ http_status a = 404 ->
    object_at s' (url_path (rq_url r)) = None;
  object_delete_lost r s : rq_method r = DELETE ->
    object_at (http_send r s).2 (url_path (rq_url r)) = object_at s (url_path (rq_url r))
    \/ object_at (http_send r s).2 (url_path (rq_url r)) = None
}.

(** ** HMAC and the signature *)

Section Signature.
Context {C : Crypto}.

Definition BLOCK_SIZE : nat := 64.
Definition hmac_normalized (key : bytes) : bytes :=
  if (BLOCK_SIZE <? length key)%nat then sha256 key ++ repeat 0 32
  else key ++ repeat 0 (BLOCK_SIZE - length key).
Definition hmac_bytes (key value : bytes) : bytes :=
  let normalized := hmac_normalized key in
  let inner := map (fun byte => Z.lxor byte 54) normalized ++ value in
  let outer := map (fun byte => Z.lxor byte 92) normalized ++ sha256 inner in
  sha256 outer.

Definition signing_key (secret date region : rstr) : bytes :=
  let date_key := hmac_bytes (as_bytes (rs "AWS4" ++ secret)) (as_bytes date) in
  let region_key := hmac_bytes date_key (as_bytes region) in
  let service_key := hmac_bytes region_key (as_bytes (rs "s3")) in
  hmac_bytes service_key (as_bytes (rs "aws4_request")).

Lemma hmac_normalized_length key : length (hmac_normalized key) = BLOCK_SIZE.
Proof.
  unfold hmac_normalized, BLOCK_SIZE. destruct (_ <? _)%nat eqn:E; rewrite length_app, repeat_length.
  - by rewrite sha256_length.
  - apply Nat.ltb_ge in E. lia.
Qed.
Lemma hmac_bytes_length key value : length (hmac_bytes key value) = 32%nat.
Proof. apply sha256_length. Qed.
End Signature.

(** ** The store *)

Record S3BlobStore {U : UrlCrate} := mkS3BlobStore {
  endpoint : Url; bucket : rstr; region : rstr; access_key : rstr; secret_key : rstr
}.

Arguments mkS3BlobStore {U}. Arguments endpoint {U}. Arguments bucket {U}. Arguments region {U}.
Arguments access_key {U}. Arguments secret_key {U}. Arguments mkSignedRequest {U}.
Arguments rq_method {U}. Arguments rq_url {U}. Arguments rq_body {U}. Arguments rq_headers {U}.

Section Store.
Context {C : Crypto} {U : UrlCrate}.
Context (amz_format date_format : Z -> rstr).

(** [S3BlobStore::from_env]: the variables of the process, and the HTTP client
    the builder makes. *)
Definition required (env_var : rstr -> option rstr) (name : string) : Result StorageError rstr :=
  match env_var (rs name) with
  | Some v => Ok v
  | None => Err (Configuration (rs name ++ rs " is required"))
  end.
Definition from_env (env_var : rstr -> option rstr) (client : Result rstr unit) :
    Result StorageError S3BlobStore :=
  match required env_var "STORAGE_ENDPOINT" with
  | Err e => Err e
  | Ok text =>
      match url_parse text with
      | None => Err (Configuration (rs "STORAGE_ENDPOINT is invalid"))
      | Some endpoint =>
          match required env_var "STORAGE_BUCKET", required env_var "STORAGE_ACCESS_KEY",
                required env_var "STORAGE_SECRET_KEY", client with
          | Err e, _, _, _ | Ok _, Err e, _, _ | Ok _, Ok _, Err e, _ => Err e
          | Ok _, Ok _, Ok _, Err e => Err (Configuration e)
          | Ok bucket, Ok access_key, Ok secret_key, Ok _ =>
              let region := match env_var (rs "STORAGE_REGION") with
                            | Some r => r | None => rs "us-east-1" end in
              Ok (mkS3BlobStore endpoint bucket region access_key secret_key)
          end
      end
  end.

Context (store : S3BlobStore).

Definition request_url (key : rstr) : Result StorageError Url :=
  if invalid_key key then Err InvalidKey
  else Ok (url_set_path (rs "/" ++ bucket store ++ rs "/" ++ key) (endpoint store)).

Definition nl : rstr := [10].
Definition signed_request (method key : rstr) (body : bytes) (now : Z) :
    Result StorageError SignedRequest :=
  match request_url key with
  | Err e => Err e
  | Ok url =>
      match url_host_str url with
      | None => Err (Configuration (rs "STORAGE_ENDPOINT has no host"))
      | Some host =>
          let amz_date := amz_format now in
          let date := date_format now in
          let payload_hash := hex_encode (sha256 body) in
          let canonical_uri := url_path url in
          let canonical_headers :=
            rs "host:" ++ host ++ nl ++ rs "x-amz-content-sha256:" ++ payload_hash ++ nl
            ++ rs "x-amz-date:" ++ amz_date ++ nl in
          let signed_headers := rs "host;x-amz-content-sha256;x-amz-date" in
          let canonical_request :=
            method ++ nl ++ canonical_uri ++ nl ++ nl ++ canonical_headers ++ nl
            ++ signed_headers ++ nl ++ payload_hash in
          let scope := date ++ rs "/" ++ region store ++ rs "/s3/aws4_request" in
          let string_to_sign :=
            rs "AWS4-HMAC-SHA256" ++ nl ++ amz_date ++ nl ++ scope ++ nl
            ++ hex_encode (sha256 (as_bytes canonical_request)) in
          let key := signing_key (secret_key store) date (region store) in
          let signature := hex_encode (hmac_bytes key (as_bytes string_to_sign)) in
          let authorization :=
            rs "AWS4-HMAC-SHA256 Credential=" ++ access_key store ++ rs "/" ++ scope
            ++ rs ", SignedHeaders=" ++ signed_headers ++ rs ", Signature=" ++ signature in
          Ok (mkSignedRequest method url body
                [(rs "host", host); (rs "x-amz-content-sha256", payload_hash);
                 (rs "x-amz-date", amz_date); (rs "authorization", authorization)])
      end
  end.
End Store.

(** ** Operations *)

Section Operations.
Context {C : Crypto} {U : UrlCrate} {S : Type} {O : ObjectService S}.
Context (amz_format date_format : Z -> rstr) (store : S3BlobStore).
(** [Utc::now()] when a request is made. *)
Context (clock : S -> Z).

Definition signed (method key : rstr) (body : bytes) (s : S) : Result StorageError SignedRequest :=
  signed_request amz_format date_format store method key body (clock s).

Definition s3_put (key : rstr) (contents : bytes) (s : S) : Result StorageError unit * S :=
  match signed PUT key contents s with
  | Err e => (Err e, s)
  | Ok request =>
      let '(response, s') := http_send request s in
      (match response with
       | Err e => Err (Http e)
       | Ok response => if is_success (http_status response) then Ok tt
                        else Err (Http (show_status (http_status response)))
       end, s')
  end.

Definition http_chunk (r : Result rstr bytes) : Result StorageError bytes :=
  match r with Ok c => Ok c | Err e => Err (Http e) end.
Definition s3_get_stream (key : rstr) (s : S) : Result StorageError BlobObject :=
  match signed GET key [] s with
  | Err e => Err e
  | Ok request =>
      match (http_send request s).1 with
      | Err e => Err (Http e)
      | Ok response =>
          if is_success (http_status response) then
            Ok (mkBlobObject (http_content_length response) (map http_chunk (http_chunks response)))
          else Err (Http (show_status (http_status response)))
      end
  end.

Definition s3_delete (key : rstr) (s : S) : Result StorageError unit * S :=
  match signed DELETE key [] s with
  | Err e => (Err e, s)
  | Ok request =>
      let '(response, s') := http_send request s in
      (match response with
       | Err e => Err (Http e)
       | Ok response =>
           if is_success (http_status response) || (http_status response =? 404) then Ok tt
           else Err (Http (show_status (http_status response)))
       end, s')
  end.

#[local] Instance s3_store : BlobStore S := {|
  blob_put := s3_put; blob_get_stream := s3_get_stream; blob_delete := s3_delete
|}.

(** ** The store keeps the contract *)

Definition object_path (key : rstr) : rstr := rs "/" ++ bucket store ++ rs "/" ++ key.
Context (Hscheme : url_scheme (endpoint store) = rs "http" \/ url_scheme (endpoint store) = rs "https")
  (Hbucket : plain_segment (bucket store) = true).

Lemma plain_segment_valid key : plain_segment key = true -> invalid_key key = false.
Proof. unfold plain_segment. by intros [H%negb_true_iff _]%andb_true_iff. Qed.

(** A request that could be signed names its method, its body and its object. *)
Lemma signed_ok method key body s r :
  plain_segment key = true -> signed method key body s = Ok r ->
  rq_method r = method /\ rq_body r = body /\ url_path (rq_url r) = object_path key.
Proof.
  intros Hk. unfold signed, signed_request, request_url. rewrite plain_segment_valid by done.
  destruct (url_host_str _); [|done]. intros [= <-]. split; [done|]. split; [done|].
  by apply url_set_path_plain.
Qed.

Lemma object_path_ne k1 k2 : k2 <> k1 -> object_path k2 <> object_path k1.
Proof. unfold object_path. intros Hne E. do 3 apply app_inv_head in E. done. Qed.

Lemma http_chunks_ok l chunks : map http_chunk l = map Ok chunks -> l = map Ok chunks.
Proof.
  revert l. induction chunks as [|c chunks IH]; intros [|r l]; simpl; try done.
  intros [= Hr Hl]. f_equal; [by destruct r; simplify_eq/=|by apply IH].
Qed.

#[local] Program Instance s3_laws : BlobStoreLaws S := {|
  storable key := plain_segment key = true;
  blob_at s key := object_at s (object_path key)
|}.
Next Obligation. intros key. apply plain_segment_valid. Qed.
Next Obligation.
  intros key c s s' Hk H. simpl in H. unfold s3_put in H.
  destruct (signed PUT key c s) as [r|] eqn:Er; [|done].
  destruct (signed_ok _ _ _ _ _ Hk Er) as (Hm & <- & <-).
  destruct (http_send r s) as [[a|] s2] eqn:E; [|done].
  destruct (is_success _) eqn:Ea; [|done]. injection H as <-. by eapply object_put.
Qed.
Next Obligation.
  intros key c s s' e Hk H. simpl in H. unfold s3_put in H.
  destruct (signed PUT key c s) as [r|] eqn:Er; [|injection H as _ <-; by left].
  destruct (signed_ok _ _ _ _ _ Hk Er) as (Hm & <- & <-).
  assert (s' = (http_send r s).2) as -> by (destruct (http_send r s); by injection H).
  destruct (object_put_lost r s Hm) as [Hl|Hl]; [by left|right].
  exists (length (rq_body r)). by rewrite firstn_all.
Qed.
Next Obligation.
  intros key other c s Hk Ho Hne. simpl. unfold s3_put.
  destruct (signed PUT key c s) as [r|] eqn:Er; [|done].
  destruct (signed_ok _ _ _ _ _ Hk Er) as (_ & _ & Hp).
  rewrite <- (object_other r s (object_path other)) by (rewrite Hp; by apply object_path_ne).
  by destruct (http_send r s).
Qed.
Next Obligation.
  intros key s o c Hk H (chunks & Hc & <-). simpl in H. unfold s3_get_stream in H.
  destruct (signed GET key [] s) as [r|] eqn:Er; [|done].
  destruct (signed_ok _ _ _ _ _ Hk Er) as (Hm & _ & <-).
  destruct (http_send r s) as [[a|] s2] eqn:E; [|done]. simpl in H.
  destruct (is_success _) eqn:Ea; [|done]. injection H as <-. simpl in *.
  apply http_chunks_ok in Hc. by eapply object_get.
Qed.
Next Obligation.
  intros key s s' Hk H. simpl in H. unfold s3_delete in H.
  destruct (signed DELETE key [] s) as [r|] eqn:Er; [|done].
  destruct (signed_ok _ _ _ _ _ Hk Er) as (Hm & _ & <-).
  destruct (http_send r s) as [[a|] s2] eqn:E; [|done].
  destruct (is_success _ || _) eqn:Ea; [|done]. injection H as <-.
  apply orb_true_iff in Ea. eapply object_delete; [done|exact E|].
  destruct Ea as [Ea|Ea%Z.eqb_eq]; [by left|by right].
Qed.
Next Obligation.
  intros key s s' e Hk H. simpl in H. unfold s3_delete in H.
  destruct (signed DELETE key [] s) as [r|] eqn:Er; [|injection H as _ <-; by left].
  destruct (signed_ok _ _ _ _ _ Hk Er) as (Hm & _ & <-).
  assert (s' = (http_send r s).2) as -> by (destruct (http_send r s); by injection H).
  by apply object_delete_lost.
Qed.
Next Obligation.
  intros key other s Hk Ho Hne. simpl. unfold s3_delete.
  destruct (signed DELETE key [] s) as [r|] eqn:Er; [|done].
  destruct (signed_ok _ _ _ _ _ Hk Er) as (_ & _ & Hp).
  rewrite <- (object_other r s (object_path other)) by (rewrite Hp; by apply object_path_ne).
  by destruct (http_send r s).
Qed.
End Operations.

(** ** The keys the backend makes *)

(** The key of an upload: [format!("{id}.bin")]. *)
Definition storage_key {T : UuidText} (id : Uuid) : rstr := uuid_to_string id ++ rs ".bin".

(** They are plain, so both stores hold them. *)
Lemma storage_key_plain {T : UuidText} id : plain_segment (storage_key id) = true.
Proof.
  pose proof (uuid_text_class id) as Hc. unfold storage_key.
  assert (forall s, Forall (fun c => plain_char c = true) s -> existsb is_separator s = false) as Hsep.
  { intros s Hs. apply not_true_is_false. intros (c & Hin & Hp)%existsb_exists.
    apply (Forall_In _ _ _ Hs) in Hin. revert Hin Hp.
    unfold plain_char, is_separator, is_ascii_alphanumeric, is_ascii_digit, is_ascii_upper,
      is_ascii_lower, in_range. lia. }
  assert (Forall (fun c => plain_char c = true) (uuid_to_string id ++ rs ".bin")) as Hp.
  { apply Forall_app. split; [|repeat constructor]. eapply List.Forall_impl; [|exact Hc].
    unfold plain_char, is_ascii_alphanumeric, is_ascii_digit, is_ascii_upper, is_ascii_lower, in_range.
    intros c. lia. }
  assert (forall s d, length d <= 3 -> s ++ rs ".bin" <> d)%nat as Hlen.
  { intros s d Hd <-. rewrite length_app in Hd. simpl in Hd. lia. }
  unfold plain_segment, invalid_key. rewrite Hsep by done.
  rewrite !bool_decide_eq_false_2 by (apply Hlen; simpl; lia).
  rewrite andb_true_iff, forallb_forall. split; [by destruct (uuid_to_string id)|].
  intros c. by apply (Forall_In _ _ _ Hp).
Qed.

Lemma storage_key_inj {T : UuidText} a b : storage_key a = storage_key b -> a = b.
Proof. unfold storage_key. intros H%app_inv_tail. by apply uuid_to_string_inj. Qed.

(** The S3 store, too, is the store of the handlers, for the keys they make. *)
Lemma s3_store_refines {C : Crypto} {U : UrlCrate} {T : UuidText} {S : Type} {O : ObjectService S}
    (amz_format date_format : Z -> rstr) (store : S3BlobStore) (clock : S -> Z)
    (s : S) (b : gmap rstr bytes) (id : Uuid) (c : bytes) :
  url_scheme (endpoint store) = rs "http" \/ url_scheme (endpoint store) = rs "https" ->
  plain_segment (bucket store) = true ->
  (forall key, plain_segment key = true -> object_at s (object_path store key) = b !! key) ->
  (exists f torn, is_ok (s3_put amz_format date_format store clock (storage_key id) c s).1
                  = is_ok (store_put f torn (storage_key id) c b).1)
  /\ (exists f, is_ok (s3_delete amz_format date_format store clock (storage_key id) s).1
                = is_ok (store_delete f (storage_key id) b).1)
  /\ (forall o, s3_get_stream amz_format date_format store clock (storage_key id) s = Ok o ->
        received o c -> b !! storage_key id = Some c).
Proof.
  intros Hs Hb Hst. pose proof (storage_key_plain id) as Hk.
  pose (s3_store amz_format date_format store clock) as B.
  pose (s3_laws amz_format date_format store clock Hs Hb) as L.
  split; [|split].
  - destruct (put_refines (L := L) s b _ c Hst Hk) as (f & torn & H & _). by exists f, torn.
  - destruct (delete_refines (L := L) s b _ Hst Hk) as (f & H & _). by exists f.
  - intros o Ho Hc. by destruct (get_refines (L := L) s b _ o c Hst Hk Ho Hc).
Qed.

(** [HttpFileScanner::new]: the endpoint, when the URL and the client are good. *)
Definition scanner_new {U : UrlCrate} (endpoint : rstr) (client : Result rstr unit) : Result ScanError rstr :=
  match url_parse endpoint with
  | None => Err (Unavailable (rs "scanner URL is invalid"))
  | Some url =>
      if (url_scheme url ≟ rs "http") || (url_scheme url ≟ rs "https") then
        match client with Ok _ => Ok endpoint | Err error => Err (Unavailable error) end
      else Err (Unavailable (rs "scanner URL must use HTTP or HTTPS"))
  end.
