(* ===== verification/Media.v ===== *)
(** * Single messages, saved messages and reports

    The message half of [api/media.rs]: reading one message, permalinks, saving
    and listing saved messages, and the reports moderators work through. *)
From Stdlib Require Import String.
From S2P Require Export Repository.
From S2P Require Import Reference.
Open Scope m_scope.

(** ** Statements *)

(** [c.deleted_at IS NULL AND (c.kind='public' OR EXISTS (...))] *)
Definition readable (d : Db) (user : Uuid) (mc : MessageRow * ChannelRow) : bool :=
  is_none (c_deleted_at mc.2) && ((c_kind mc.2 ≟ Public) || is_member d (c_id mc.2) user).

Definition sql_readable (id user : Uuid) (d : Db) : option (MessageRow * ChannelRow) :=
  first_row (fun mc => (m_id mc.1 ≟ id) && readable d user mc) (messages_with_channel d).
Definition sql_get_message (id user : Uuid) (d : Db) : option MessageSelect :=
  (fun mc => select_message d mc.2 mc.1) <$> sql_readable id user d.

Definition saved_key (s : SavedRow) : Uuid * Uuid := (sv_user_id s, sv_message_id s).
(** [INSERT ... ON CONFLICT DO NOTHING] *)
Definition sql_save (user message : Uuid) (now : Z) (d : Db) : Result SqlxError (unit * Db) :=
  if exists_row (fun s => saved_key s ≟ (user, message)) (saved_messages d) then Ok (tt, d)
  else insert_row saved_key (fk_user d user && exists_row (fun m => m_id m ≟ message) (messages d))
         saved_messages set_saved_messages (mkSavedRow user message now) d.
Definition sql_unsave (user message : Uuid) (d : Db) : Result SqlxError (unit * Db) :=
  Ok (tt, set_saved_messages (delete_where (fun s => saved_key s ≟ (user, message))) d).

(** The list of saved messages selects [m.text] as it is. *)
Definition select_saved (d : Db) (c : ChannelRow) (m : MessageRow) : MessageSelect :=
  mkMessageSelect (m_id m) (c_name c) (m_username m) (m_text m) (m_created_at m) (m_edited m)
    (is_some (m_deleted_at m)) (m_root_message_id m) (reply_count_of d (m_id m)) (m_metadata m)
    (m_mentions m) (m_client_id m) (file_ids_of d (m_id m)).
(** [ORDER BY s.created_at DESC, s.message_id DESC] *)
Definition saved_le (a b : SavedRow * (MessageRow * ChannelRow)) : bool :=
  (sv_created_at b.1 <? sv_created_at a.1)
  || ((sv_created_at a.1 =? sv_created_at b.1) && uuid_leb (sv_message_id b.1) (sv_message_id a.1)).
Definition sql_saved (user : Uuid) (now limit : Z) (d : Db) : list MessageSelect :=
  map (fun '(_, (m, c)) => select_saved d c m)
    (limit_rows limit (order_by saved_le
       (concat (map (fun s =>
          map (fun mc => (s, mc))
            (where_ (fun mc => (m_id mc.1 ≟ sv_message_id s) && readable d user mc
                               && negb (channel_banned d now user (c_id mc.2)))
               (messages_with_channel d)))
          (where_ (fun s => sv_user_id s ≟ user) (saved_messages d)))))).

Definition report_key (r : ReportRow) : Uuid * Uuid := (rep_message_id r, rep_reporter_user_id r).
Definition reopened (reason : rstr) (r : ReportRow) : ReportRow :=
  mkReportRow (rep_id r) (rep_message_id r) (rep_reporter_user_id r) reason (rs "open")
    (rep_created_at r) None None.
(** [INSERT ... ON CONFLICT (message_id,reporter_user_id) DO UPDATE ... RETURNING id] *)
Definition sql_report (id message user : Uuid) (reason : rstr) (now : Z) (d : Db) :
    Result SqlxError (Uuid * Db) :=
  match first_row (fun r => report_key r ≟ (message, user)) (message_reports d) with
  | Some r =>
      Ok (rep_id r, set_message_reports
                      (update_where (fun r => report_key r ≟ (message, user)) (reopened reason)) d)
  | None =>
      match insert_row rep_id (fk_user d user && exists_row (fun m => m_id m ≟ message) (messages d))
              message_reports set_message_reports
              (mkReportRow id message user reason (rs "open") now None None) d with
      | Ok (_, d') => Ok (id, d')
      | Err e => Err e
      end
  end.

Record ReportView := mkReportView {
  rv_report : ReportRow; rv_text : rstr; rv_channel : rstr; rv_username : rstr
}.
Definition report_le (a b : ReportRow * (MessageRow * ChannelRow)) : bool :=
  (rep_created_at b.1 <? rep_created_at a.1)
  || ((rep_created_at a.1 =? rep_created_at b.1) && uuid_leb (rep_id b.1) (rep_id a.1)).
Definition sql_reports (status : option rstr) (limit : Z) (d : Db) : list ReportView :=
  map (fun '(r, (m, c)) => mkReportView r (m_text m) (c_name c) (m_username m))
    (limit_rows limit (order_by report_le
       (concat (map (fun r =>
          map (fun mc => (r, mc)) (where_ (fun mc => m_id mc.1 ≟ rep_message_id r) (messages_with_channel d)))
          (where_ (fun r => match status with None => true | Some s => rep_status r ≟ s end)
             (message_reports d)))))).

Definition settled (status : rstr) (at_ : option Z) (by_ : option Uuid) (r : ReportRow) : ReportRow :=
  mkReportRow (rep_id r) (rep_message_id r) (rep_reporter_user_id r) (rep_reason r) status
    (rep_created_at r) at_ by_.
Definition sql_update_report (status : rstr) (at_ : option Z) (by_ : option Uuid) (id : Uuid) (d : Db) :
    Result SqlxError (Z * Db) :=
  Ok (count_rows (fun r => rep_id r ≟ id) (message_reports d),
      set_message_reports (update_where (fun r => rep_id r ≟ id) (settled status at_ by_)) d).

(** ** Handlers *)

Definition permalink_url {T : UuidText} (origin : rstr) (id : Uuid) : rstr :=
  origin ++ rs "/?message=" ++ uuid_to_string id.

Section Media.
Context {K : Type} {V : Valkey K} {T : UuidText} {J : JsonText}.
Notation M := (M K AppError).

Definition get_message (headers : HeaderMap) (id : Uuid) : M ChatMessage :=
  session <- load_session headers ;;
  let user := user_id (session_user session) in
  found <- query (sql_get_message id user) ;;
  row <- ok_or found (from_err NotFound) ;;
  ensure_channel_access (sel_channel row) user ;;
  lift (try_from_row row).

Definition ensure_message_access (message user : Uuid) : M unit :=
  found <- query (fun d => (fun mc => c_name mc.2) <$> sql_readable message user d) ;;
  channel <- ok_or found (from_err NotFound) ;;
  ensure_channel_access channel user.

Definition web_origin (headers : HeaderMap) : rstr :=
  match header_str headers (rs "origin") with
  | Some value => if starts_with (rs "http://") value || starts_with (rs "https://") value then value else []
  | None => []
  end.
Definition message_permalink (headers : HeaderMap) (id : Uuid) : M rstr :=
  session <- load_session headers ;;
  ensure_message_access id (user_id (session_user session)) ;;
  ret (permalink_url (web_origin headers) id).

(** The HTTP handler [save_message]. *)
Definition save_message_handler (headers : HeaderMap) (id : Uuid) : M unit :=
  session <- csrf_session headers ;;
  ensure_message_access id (user_id (session_user session)) ;;
  now <- now_millis ;;
  execute (sql_save (user_id (session_user session)) id (as_i64 now)).

Definition unsave_message (headers : HeaderMap) (id : Uuid) : M unit :=
  session <- csrf_session headers ;;
  execute (sql_unsave (user_id (session_user session)) id).

Definition list_saved_messages (headers : HeaderMap) (limit : option Z) : M (list ChatMessage) :=
  session <- load_session headers ;;
  now <- now_millis ;;
  rows <- query (sql_saved (user_id (session_user session)) (as_i64 now) (page_limit limit)) ;;
  lift (collect_results (map try_from_row rows)).

Definition report_message (headers : HeaderMap) (message : Uuid) (raw_reason : rstr) : M unit :=
  session <- csrf_session headers ;;
  let user := user_id (session_user session) in
  let reason := trim raw_reason in
  if is_empty reason || (500 <? len reason) then
    throw (bad_request "report reason must be 1–500 characters")
  else
    ensure_message_access message user ;;
    now <- now_millis ;;
    id <- now_v7 ;;
    report_id <- execute (sql_report id message user reason (as_i64 now)) ;;
    record_audit_pool (mkAuditEvent (Some user) (rs "report.created") (rs "message_report") report_id
      (JObj [(rs "message_id", json_uuid message); (rs "reason", JStr reason)]) (as_i64 now)).

Definition list_message_reports (headers : HeaderMap) (status : option rstr) (limit : option Z) :
    M (list ReportView) :=
  privileged_read headers "moderation:read" ;;
  query (sql_reports status (page_limit limit)).

Definition report_action (action : rstr) (now : Z) (user : Uuid) :
    option (rstr * option Z * option Uuid) :=
  if action ≟ rs "resolve" then Some (rs "resolved", Some now, Some user)
  else if action ≟ rs "reopen" then Some (rs "open", None, None)
  else None.
Definition update_message_report (headers : HeaderMap) (id : Uuid) (action : rstr) : M unit :=
  user <- privileged headers "moderation:write" ;;
  now <- now_millis ;;
  change <- ok_or (report_action action (as_i64 now) (user_id user)) (bad_request "unknown report action") ;;
  let '(status, resolved_at, resolved_by) := change in
  affected <- execute (sql_update_report status resolved_at resolved_by id) ;;
  if affected =? 0 then throw (from_err NotFound)
  else
    record_audit_pool (mkAuditEvent (Some (user_id user)) (rs "report." ++ action) (rs "message_report") id
      (JObj [(rs "status", JStr status)]) (as_i64 now)).
End Media.

(** ** Facts *)

Section MediaFacts.
Context {K : Type} {V : Valkey K} {T : UuidText} {J : JsonText}.
Implicit Types (w : World K).

Lemma sql_readable_some id user d m c :
  sql_readable id user d = Some (m, c) ->
  In m (messages d) /\ m_id m = id /\ In c (channels d) /\ c_id c = m_channel_id m
  /\ readable d user (m, c) = true.
Proof.
  intros [(Hm & Hc & E)%in_messages_with_channel Hp]%first_row_some. simpl in Hp.
  apply andb_true_iff in Hp as [Hi Hr]. apply bool_decide_eq_true in Hi. done.
Qed.

Lemma unique_name_channel d c1 c2 :
  unique_on c_name (channels d) -> In c1 (channels d) -> In c2 (channels d) ->
  c_name c1 = c_name c2 -> c1 = c2.
Proof. intros Hu H1 H2 E. by apply (unique_on_eq c_name (channels d)). Qed.
End MediaFacts.

(** One report per message and reporter: a second one reopens the first. *)
Lemma sql_report_unique id message user reason now d r d' :
  unique_on report_key (message_reports d) -> sql_report id message user reason now d = Ok (r, d') ->
  unique_on report_key (message_reports d')
  /\ exists row, In row (message_reports d') /\ rep_id row = r /\ report_key row = (message, user)
       /\ rep_reason row = reason /\ rep_status row = rs "open".
Proof.
  unfold sql_report, insert_row. intros Hu.
  destruct (first_row _ _) as [row|] eqn:Ef.
  - apply first_row_some in Ef as [Hin Hk]. intros [= <- <-]. simpl. split; [by apply unique_on_update|].
    exists (reopened reason row). split; [|by apply bool_decide_eq_true in Hk].
    apply in_update_where. exists row. by rewrite Hk.
  - apply first_row_none in Ef. destruct (_ && _); [|done]. intros [= <- <-]. simpl. split.
    + apply unique_on_snoc; [done|]. intros row Hin E. rewrite exists_row_false in Ef.
      specialize (Ef row Hin). apply bool_decide_eq_false in Ef. by apply Ef.
    + eexists. split; [apply in_app_iff; right; by left|done].
Qed.

(** A message is read only by those who may read its channel: what
    [get_message] returns is the row of that identifier, in a live channel the
    caller of the session sees and is not banned from, with the text blanked
    when the message is deleted. *)
Theorem get_message_authorised {K} {V : Valkey K} {T : UuidText} {J : JsonText}
    (env : Env) (w w1 w' : World K) headers session id x
    (Hu : unique_on c_name (channels (w_db w)))
    (Hs : load_session headers env w = (Ok session, w1))
    (Hr : get_message headers id env w = (Ok x, w')) :
  exists m c now, In m (messages (w_db w)) /\ m_id m = id /\ c_id c = m_channel_id m
    /\ CanSee (w_db w) now (user_id (session_user session)) c
    /\ msg_id x = id /\ msg_channel x = c_name c
    /\ (m_deleted_at m = None -> msg_text x = m_text m) /\ (m_deleted_at m <> None -> msg_text x = []).
Proof.
  pose proof (frame_load_session (DbRel eq) headers env w) as Hw1. rewrite Hs in Hw1.
  unfold DbRel in Hw1. simpl in Hw1.
  unfold get_message in Hr. rewrite (run_bind_ok _ _ _ _ _ _ Hs) in Hr.
  apply bind_ok_inv in Hr as (found & w2 & [-> ->]%query_ok_inv & Hr). rewrite <- Hw1 in Hr.
  unfold sql_get_message in Hr.
  destruct (sql_readable id _ (w_db w)) as [[m c]|] eqn:Ef; [|done].
  apply sql_readable_some in Ef as (Hm & Hid & Hc & Ec & _).
  apply bind_ok_inv in Hr as (row & w3 & [= <- <-] & Hr).
  apply bind_ok_inv in Hr as (u & w4 & [_ (now & c' & En & Hsee)]%channel_access_ok & Hr).
  simpl in En, Hsee. rewrite <- Hw1 in Hsee.
  assert (c' = c) as -> by (eapply unique_name_channel; try done; apply Hsee).
  exists m, c, now. unfold lift in Hr.
  destruct (try_from_row _) as [y|] eqn:Et; [|done]. injection Hr as <- _.
  unfold try_from_row in Et. destruct (checked_unsigned u64_max _); [|done].
  destruct (checked_unsigned u32_max _); [|done]. injection Et as <-. simpl.
  split; [done|]. split; [done|]. split; [done|]. split; [done|]. split; [done|]. split; [done|].
  by destruct (m_deleted_at m).
Qed.

(** The list of saved messages keeps to what the user saved and can see, but
    it shows the text of deleted messages: what it returns for a message
    carries the text of the row whether or not the message is deleted, where
    every other listing blanks it. *)
Theorem saved_list_shows_deleted_text {K} {V : Valkey K} {T : UuidText} {J : JsonText}
    (env : Env) (w w1 w' : World K) headers session limit page x
    (Hs : load_session headers env w = (Ok session, w1))
    (Hr : list_saved_messages headers limit env w = (Ok page, w')) (Hx : In x page) :
  exists s m c now, In s (saved_messages (w_db w)) /\ sv_user_id s = user_id (session_user session)
    /\ In m (messages (w_db w)) /\ m_id m = sv_message_id s /\ c_id c = m_channel_id m
    /\ CanSee (w_db w) now (user_id (session_user session)) c
    /\ msg_id x = m_id m /\ msg_text x = m_text m
    /\ (msg_deleted x = true <-> m_deleted_at m <> None).
Proof.
  pose proof (frame_load_session (DbRel eq) headers env w) as Hw1. rewrite Hs in Hw1.
  unfold DbRel in Hw1. simpl in Hw1.
  unfold list_saved_messages in Hr. rewrite (run_bind_ok _ _ _ _ _ _ Hs) in Hr.
  apply bind_ok_inv in Hr as (now & w2 & [= <- <-] & Hr).
  apply bind_ok_inv in Hr as (rows & w3 & [-> ->]%query_ok_inv & Hr). simpl in Hr.
  rewrite <- Hw1 in Hr. unfold lift in Hr.
  destruct (collect_results _) as [out|] eqn:Ec; [|done]. injection Hr as <- _.
  apply collect_results_ok in Ec.
  assert (In (Ok x) (map try_from_row (sql_saved (user_id (session_user session))
    (as_i64 (env_clock env (w_step w1))) (page_limit limit) (w_db w)))) as Hin
    by (rewrite Ec; by apply in_map).
  apply in_map_iff in Hin as (row & Et & Hrow). unfold sql_saved in Hrow.
  apply in_map_iff in Hrow as ([s [m c]] & <- & Hrow%in_take%in_order_by).
  apply in_concat in Hrow as (l & (s' & <- & [Hsv Hu]%in_where)%in_map_iff & Hrow).
  apply in_map_iff in Hrow as ([m' c'] & [= -> -> ->] & [(Hm & Hc & Ech)%in_messages_with_channel Hp]%in_where).
  cbn [fst snd] in Hp. apply andb_true_iff in Hp as [Hp Hb]. apply andb_true_iff in Hp as [Hi Hrd].
  apply bool_decide_eq_true in Hi, Hu.
  exists s, m, c, (as_i64 (env_clock env (w_step w1))).
  unfold try_from_row in Et. destruct (checked_unsigned u64_max _); [|done].
  destruct (checked_unsigned u32_max _); [|done]. injection Et as <-. simpl.
  assert (c_deleted_at c = None) as Hd.
  { unfold readable in Hrd. cbn [fst snd] in Hrd. apply andb_true_iff in Hrd as [Hrd _].
    by apply is_none_true in Hrd. }
  assert (CanSee (w_db w) (as_i64 (env_clock env (w_step w1))) (user_id (session_user session)) c) as Hsee.
  { apply visible_to_spec; [done|done|]. unfold visible_to. rewrite Hb, andb_true_r.
    unfold readable in Hrd. cbn [fst snd] in Hrd. by apply andb_true_iff in Hrd as [_ Hrd]. }
  do 8 (split; [done|]). by destruct (m_deleted_at m).
Qed.

(** ** Witnesses *)

(** The user of [sample_session] saved a message that was deleted later. *)
Definition deleted_row : MessageRow := set_m_deleted_at (Some 9) (sample_message 54 8000000001 None).
Definition media_db : Db :=
  set_saved_messages (fun _ => [mkSavedRow (uuid_of 1) (uuid_of 54) 7])
    (set_messages (fun t => t ++ [deleted_row]) chat_db).
Definition media_world : World Keyspace := (sample_create (sample_env 5) (sample_world media_db)).2.
Definition media_headers : HeaderMap := session_cookie (T := hyphenated_text) (uuid_of 1000).
Notation media_session :=
  (load_session (V := keyspace_valkey) (T := hyphenated_text) (J := coded_json) media_headers) (only parsing).
Notation read_deleted :=
  (get_message (V := keyspace_valkey) (T := hyphenated_text) (J := coded_json) media_headers (uuid_of 54))
  (only parsing).
Notation list_saved :=
  (list_saved_messages (V := keyspace_valkey) (T := hyphenated_text) (J := coded_json) media_headers None)
  (only parsing).
Definition shown_row (text : string) : ChatMessage :=
  mkChatMessage (uuid_of 54) (rs "main") (rs "alice") (rs text) 8000000001 false true None 0
    json_empty [] None [].

Lemma media_session_ok :
  media_session (sample_env 900) media_world = (Ok sample_session, (media_session (sample_env 900) media_world).2).
Proof. apply (run_split media_session). vm_compute. reflexivity. Qed.
Lemma read_deleted_ok :
  read_deleted (sample_env 900) media_world = (Ok (shown_row ""), (read_deleted (sample_env 900) media_world).2).
Proof. apply (run_split read_deleted). vm_compute. reflexivity. Qed.
Lemma list_saved_ok :
  list_saved (sample_env 900) media_world = (Ok [shown_row "hello"], (list_saved (sample_env 900) media_world).2).
Proof. apply (run_split list_saved). vm_compute. reflexivity. Qed.
Lemma media_db_names : unique_on c_name (channels (w_db media_world)).
Proof. apply NoDup_ListNoDup, (bool_decide_unpack _). vm_compute. exact I. Qed.

Lemma get_message_authorised_witness :
  exists m c now, In m (messages (w_db media_world)) /\ m_id m = uuid_of 54 /\ c_id c = m_channel_id m
    /\ CanSee (w_db media_world) now (uuid_of 1) c
    /\ uuid_of 54 = uuid_of 54 /\ rs "main" = c_name c
    /\ (m_deleted_at m = None -> [] = m_text m) /\ (m_deleted_at m <> None -> (@nil Z) = []).
Proof.
  exact (get_message_authorised (sample_env 900) media_world _ _ media_headers sample_session (uuid_of 54)
    (shown_row "") media_db_names media_session_ok read_deleted_ok).
Defined.

Lemma saved_list_shows_deleted_text_witness :
  exists s m c now, In s (saved_messages (w_db media_world)) /\ sv_user_id s = uuid_of 1
    /\ In m (messages (w_db media_world)) /\ m_id m = sv_message_id s /\ c_id c = m_channel_id m
    /\ CanSee (w_db media_world) now (uuid_of 1) c
    /\ uuid_of 54 = m_id m /\ rs "hello" = m_text m /\ (true = true <-> m_deleted_at m <> None).
Proof.
  exact (saved_list_shows_deleted_text (sample_env 900) media_world _ _ media_headers sample_session None
    [shown_row "hello"] (shown_row "hello") media_session_ok list_saved_ok (or_introl eq_refl)).
Defined.
