(* ===== verification/Files.v ===== *)
(** * Files

    The file half of [api/media.rs] and the collector started by
    [bootstrap.rs]: uploads (read, scanned, stored, recorded), downloads, and
    the hourly round that deletes what no message links. *)
From Stdlib Require Import String.
From S2P Require Export S3 Auth.
From S2P Require Import Reference.
Open Scope m_scope.

Definition MAX_FILE_BYTES : Z := 25 * 1024 * 1024.

(** ** Reading an upload *)

(** A part of a multipart body: [None] among the chunks, or in place of a part,
    is a body that breaks off. *)
Record Field := mkField {
  field_name : option rstr; field_file_name : option rstr; field_content_type : option rstr;
  field_chunks : list (option bytes)
}.
Notation Multipart := (list (option Field)) (only parsing).

Fixpoint read_chunks (data : bytes) (chunks : list (option bytes)) : Result AppError bytes :=
  match chunks with
  | [] => Ok data
  | None :: _ => Err (bad_request "could not read upload")
  | Some chunk :: rest =>
      if MAX_FILE_BYTES <? Z.of_nat (length data) + Z.of_nat (length chunk)
      then Err (bad_request "file exceeds the 25 MiB limit")
      else read_chunks (data ++ chunk) rest
  end.

Record Upload := mkUpload { up_name : rstr; up_content_type : rstr; up_bytes : bytes }.
(** The loop over the parts stops at the first one named [file]. *)
Fixpoint read_upload (multipart : Multipart) : Result AppError Upload :=
  match multipart with
  | [] => Err (bad_request "multipart field 'file' is required")
  | None :: _ => Err (bad_request "invalid multipart body")
  | Some field :: rest =>
      if field_name field ≟ Some (rs "file") then
        let original_name := match field_file_name field with
                             | Some name => sanitize_upload_name name | None => rs "upload.bin" end in
        let content_type := default (rs "application/octet-stream") (field_content_type field) in
        match read_chunks [] (field_chunks field) with
        | Ok data => Ok (mkUpload original_name content_type data)
        | Err e => Err e
        end
      else read_upload rest
  end.

(** ** Statements *)

Definition sql_insert_file (f : FileRow) (d : Db) : Result SqlxError (unit * Db) :=
  insert_row f_id
    (fk_user d (f_uploader_user_id f)
     && negb (exists_row (fun f' => f_storage_key f' ≟ f_storage_key f) (files d)))
    files set_files f d.

(** The uploader, or a reader of a live message that links the file. *)
Definition linked_for (d : Db) (now : Z) (user : Uuid) (f : FileRow) : bool :=
  exists_row (fun mf => (mf_file_id mf ≟ f_id f)
    && exists_row (fun mc => (m_id mc.1 ≟ mf_message_id mf) && is_none (m_deleted_at mc.1)
                             && is_none (c_deleted_at mc.2) && visible_to d now user mc.2)
         (messages_with_channel d)) (message_files d).
Definition downloadable (d : Db) (now : Z) (user : Uuid) (f : FileRow) : bool :=
  is_none (f_deleted_at f) && negb (globally_banned d now user)
  && (((f_uploader_user_id f ≟ user) && negb (exists_row (ban_in_force now user) (user_bans d)))
      || linked_for d now user f).
Definition sql_download (id user : Uuid) (now : Z) (d : Db) : option FileRow :=
  first_row (fun f => (f_id f ≟ id) && downloadable d now user f) (files d).

(** ** Handlers *)

Record FileUploadResponse := mkFileUploadResponse {
  fu_id : Uuid; fu_name : rstr; fu_content_type : rstr; fu_size_bytes : Z; fu_download_url : rstr
}.
Record FileResponse := mkFileResponse { resp_headers : list (rstr * rstr); resp_body : BlobObject }.

Section Files.
Context {K : Type} {V : Valkey K} {T : UuidText} {J : JsonText} {C : Crypto}.
Notation M := (M K AppError).

(** [call.await.map_err(|_| error)?] *)
Definition map_err {E A} (m : Effects.M K E A) (error : AppError) : M A :=
  result <- attempt m ;;
  match result with Ok a => ret a | Err _ => throw error end.

Definition scan_upload (scanner : FileScanner) (upload : Upload) : M unit :=
  match scan scanner (up_name upload) (up_content_type upload) (up_bytes upload) with
  | Ok _ => ret tt
  | Err Rejected => throw (bad_request "file rejected by scanner")
  | Err (Storage.Unavailable _) => throw (service_unavailable "file scanner unavailable")
  end.

(** The row of an upload. *)
Definition file_row (id user : Uuid) (upload : Upload) (now : Z) : FileRow :=
  mkFileRow id user (storage_key id) (up_name upload) (up_content_type upload)
    (Z.of_nat (length (up_bytes upload))) (hex_encode (sha256 (up_bytes upload))) now None.

(** Storing and recording a scanned upload. *)
Definition store_upload (user : Uuid) (upload : Upload) : M Uuid :=
  id <- now_v7 ;;
  map_err (put_blob (storage_key id) (up_bytes upload)) (service_unavailable "file storage unavailable") ;;
  now <- now_millis ;;
  inserted <- attempt (E := SqlxError) (F := AppError)
                (execute (sql_insert_file (file_row id user upload (as_i64 now)))) ;;
  match inserted with
  | Ok _ => ret id
  | Err error =>
      attempt (F := AppError) (delete_blob (storage_key id)) ;;
      throw (from_err error)
  end.

Definition upload_file (scanner : FileScanner) (headers : HeaderMap) (multipart : Multipart) :
    M FileUploadResponse :=
  user <- privileged headers "chat:write" ;;
  ensure_not_globally_banned (user_id user) ;;
  enforce_rate_limit (rs "chat:rate:upload:" ++ uuid_to_string (user_id user)) 30 60 ;;
  upload <- lift (read_upload multipart) ;;
  scan_upload scanner upload ;;
  id <- store_upload (user_id user) upload ;;
  ret (mkFileUploadResponse id (up_name upload) (up_content_type upload)
         (Z.of_nat (length (up_bytes upload))) (rs "/api/v1/files/" ++ uuid_to_string id)).

(** [valid_header] is the test of the [http] crate on a header value. *)
Definition download_file (valid_header : rstr -> bool) (decimal : Z -> rstr) (headers : HeaderMap) (id : Uuid) :
    M FileResponse :=
  session <- load_session headers ;;
  now <- now_millis ;;
  found <- query (sql_download id (user_id (session_user session)) (as_i64 now)) ;;
  row <- ok_or found (from_err NotFound) ;;
  object <- map_err (get_stream (f_storage_key row)) (service_unavailable "file storage unavailable") ;;
  let disposition := content_disposition (f_original_name row) in
  if valid_header (f_content_type row) && valid_header disposition then
    ret (mkFileResponse
           ([(rs "content-type", f_content_type row); (rs "content-disposition", disposition)]
            ++ match content_length object with
               | Some n => [(rs "content-length", decimal n)] | None => [] end) object)
  else throw (service_unavailable "could not construct file response").

(** ** The collector *)

(** One file of a round: its blob, then its row. Failures are logged. *)
Definition collect_file (f : Uuid * rstr) : M unit :=
  deleted <- attempt (F := AppError) (delete_blob f.2) ;;
  match deleted with
  | Ok _ => attempt (F := AppError) (delete_file_metadata f.1) ;; ret tt
  | Err _ => ret tt
  end.
(** One turn of the task [run] spawns every hour. *)
Definition cleanup_round : M unit :=
  now <- now_millis ;;
  let cutoff := as_i64 now - 60 * 60 * 1000 in
  claimed <- attempt (F := AppError) (claim_orphan_files cutoff) ;;
  match claimed with
  | Ok files => for_each files collect_file
  | Err _ => ret tt
  end.
End Files.

(** ** What every stored file is *)

(** A row that is not marked deleted has its contents in the store, with the
    recorded size and checksum. *)
Definition file_stored {C : Crypto} (b : gmap rstr bytes) (f : FileRow) : Prop :=
  exists c, b !! f_storage_key f = Some c /\ f_size_bytes f = Z.of_nat (length c)
    /\ f_checksum f = hex_encode (sha256 c).

Record files_ok {C : Crypto} {T : UuidText} (d : Db) (b : gmap rstr bytes) : Prop := {
  fok_unique : unique_on f_id (files d);
  fok_key f : In f (files d) -> f_storage_key f = storage_key (f_id f);
  fok_stored f : In f (files d) -> f_deleted_at f = None -> file_stored b f
}.

Section FilesFacts.
Context {K : Type} {V : Valkey K} {T : UuidText} {J : JsonText} {C : Crypto}.
Implicit Types (w : World K) (d : Db) (b : gmap rstr bytes).

Definition all_files_ok (w : World K) : Prop := files_ok (w_db w) (w_blobs w).

(** The uploads of a run get identifiers no file has. *)
Definition fresh_files (env : Env) (d : Db) : Prop :=
  forall n f, In f (files d) -> f_id f <> env_uuid env n.

Lemma read_chunks_ok data chunks out :
  read_chunks data chunks = Ok out ->
  Z.of_nat (length data) <= MAX_FILE_BYTES ->
  Z.of_nat (length out) <= MAX_FILE_BYTES /\ exists l, chunks = map Some l /\ out = data ++ concat l.
Proof.
  revert data. induction chunks as [|[chunk|] chunks IH]; intros data; simpl; [| |done].
  - intros [= <-] Hd. split; [done|]. exists []. by rewrite app_nil_r.
  - destruct (_ <? _) eqn:E; [done|]. intros H Hd. destruct (IH _ H) as (Hl & l & -> & ->).
    { rewrite length_app. lia. }
    split; [done|]. exists (chunk :: l). simpl. by rewrite app_assoc.
Qed.

Lemma read_upload_ok multipart upload :
  read_upload multipart = Ok upload ->
  Z.of_nat (length (up_bytes upload)) <= MAX_FILE_BYTES
  /\ exists field l, In (Some field) multipart /\ field_name field = Some (rs "file")
       /\ field_chunks field = map Some l /\ up_bytes upload = concat l.
Proof.
  induction multipart as [|[field|] rest IH]; simpl; [done| |done].
  destruct (_ ≟ _) eqn:E; [|intros H; destruct (IH H) as (? & field' & l & Hin & ?); eauto 10].
  apply bool_decide_eq_true in E. destruct (read_chunks [] _) as [data|] eqn:Er; [|done].
  intros [= <-]. simpl. destruct (read_chunks_ok _ _ _ Er) as (? & l & ? & ->); [done|].
  split; [done|]. exists field, l. auto.
Qed.

(** Another key's contents are not touched. *)
Lemma file_stored_insert b key c f :
  file_stored b f -> f_storage_key f <> key -> file_stored (<[key := c]> b) f.
Proof. intros (c' & Hc & H) Hne. exists c'. by rewrite lookup_insert_ne. Qed.
Lemma file_stored_delete b key f :
  file_stored b f -> f_storage_key f <> key -> file_stored (delete key b) f.
Proof. intros (c' & Hc & H) Hne. exists c'. by rewrite lookup_delete_ne. Qed.

Lemma files_ok_insert_blob d b key c :
  files_ok d b -> (forall f, In f (files d) -> f_storage_key f <> key) -> files_ok d (<[key := c]> b).
Proof.
  intros [Hu Hk Hs] Hne. split; [done|done|]. intros f Hin Hd. apply file_stored_insert; auto.
Qed.
Lemma files_ok_delete_blob d b key :
  files_ok d b -> (forall f, In f (files d) -> f_storage_key f = key -> f_deleted_at f <> None) ->
  files_ok d (delete key b).
Proof.
  intros [Hu Hk Hs] Hdel. split; [done|done|]. intros f Hin Hd. apply file_stored_delete; auto.
  intros E. by apply (Hdel f Hin E).
Qed.
Lemma files_ok_delete_rows d b p d' :
  files_ok d b -> files d' = delete_where p (files d) -> files_ok d' b.
Proof.
  intros [Hu Hk Hs] E. split; rewrite E.
  - by apply unique_on_filter.
  - intros f [Hin _]%in_delete_where. by apply Hk.
  - intros f [Hin _]%in_delete_where. by apply Hs.
Qed.

Lemma storage_key_valid id : invalid_key (storage_key id) = false.
Proof. apply plain_segment_valid, storage_key_plain. Qed.

(** What a put and a deletion do to the world. *)
Lemma run_put_blob id c env w :
  exists f, f = env_fault env (w_step w)
  /\ put_blob (storage_key id) c env w
     = (match f with NoFault => Ok tt | _ => Err (Io IoOther) end,
        with_blobs (match f with NoFault => <[storage_key id := c]> (w_blobs w)
                    | FaultBefore => w_blobs w
                    | FaultAfter => <[storage_key id := take (env_torn env (w_step w)) c]> (w_blobs w) end)
          (tick w)).
Proof.
  exists (env_fault env (w_step w)). split; [done|]. unfold put_blob, store_put.
  rewrite storage_key_valid. by destruct (env_fault _ _).
Qed.
Lemma run_delete_blob id env w :
  exists f, f = env_fault env (w_step w)
  /\ delete_blob (storage_key id) env w
     = (match f with NoFault => Ok tt | _ => Err (Io IoOther) end,
        with_blobs (match f with FaultBefore => w_blobs w | _ => delete (storage_key id) (w_blobs w) end)
          (tick w)).
Proof.
  exists (env_fault env (w_step w)). split; [done|]. unfold delete_blob, store_delete.
  rewrite storage_key_valid. by destruct (env_fault _ _).
Qed.

Lemma sql_insert_file_ok f d x d' :
  sql_insert_file f d = Ok (x, d') -> d' = set_files (fun t => t ++ [f]) d.
Proof. unfold sql_insert_file, insert_row. destruct (_ && _); [by intros [= _ <-]|done]. Qed.

(** A recorded upload: a live row whose contents are those of the upload. *)
Definition recorded (user : Uuid) (upload : Upload) (id : Uuid) (w : World K) : Prop :=
  exists f, In f (files (w_db w)) /\ f_id f = id /\ f_uploader_user_id f = user
    /\ f_original_name f = up_name upload /\ f_content_type f = up_content_type upload
    /\ f_deleted_at f = None /\ w_blobs w !! f_storage_key f = Some (up_bytes upload).

Lemma files_ok_record d b user upload id now :
  files_ok d b -> (forall f, In f (files d) -> f_id f <> id) ->
  b !! storage_key id = Some (up_bytes upload) ->
  files_ok (set_files (fun t => t ++ [file_row id user upload now]) d) b.
Proof.
  intros [Hu Hk Hs] Hf Hb. split; simpl.
  - by apply unique_on_snoc.
  - intros f [Hin|[<-|[]]]%in_app_iff; [by apply Hk|done].
  - intros f [Hin|[<-|[]]]%in_app_iff Hd; [by apply Hs|]. exists (up_bytes upload). done.
Qed.

(** The failure path: the blob is removed, or stays without a row. *)
Lemma abandon_upload_ok d b id :
  files_ok d b -> (forall f, In f (files d) -> f_id f <> id) -> files_ok d (delete (storage_key id) b).
Proof.
  intros Hok Hf. apply files_ok_delete_blob; [done|]. intros f Hin E _. rewrite (fok_key _ _ Hok) in E by done.
  by apply storage_key_inj in E; apply (Hf f).
Qed.

Lemma store_upload_ok user upload env w r w' :
  no_lost_ack env -> fresh_files env (w_db w) -> all_files_ok w ->
  store_upload user upload env w = (r, w') ->
  all_files_ok w' /\ forall id, r = Ok id -> recorded user upload id w'.
Proof.
  intros Hn Hfresh Hok. unfold store_upload. rewrite run_bind. set (id := env_uuid env (w_step w)).
  unfold now_v7 at 1. fold id.
  assert (forall f, In f (files (w_db w)) -> f_id f <> id) as Hf by (intros f; apply Hfresh).
  unfold map_err. rewrite run_bind, run_bind. unfold attempt at 1.
  destruct (run_put_blob id (up_bytes upload) env (tick w)) as (f & Hfault & ->).
  pose proof (Hn (w_step (tick w))) as Hna. rewrite <- Hfault in Hna.
  destruct f; [|by intros [= <- <-]|done]. cbn [ret]. unfold ret at 1.
  set (w1 := with_blobs _ _). rewrite run_bind. unfold now_millis at 1.
  set (row := file_row _ _ _ _). rewrite run_bind. unfold attempt at 1, execute.
  assert (files_ok (w_db w) (<[storage_key id := up_bytes upload]> (w_blobs w))) as Hok1.
  { apply files_ok_insert_blob; [done|]. intros g Hin E. rewrite (fok_key _ _ Hok) in E by done.
    by apply storage_key_inj in E; apply (Hf g). }
  assert (forall w2 e, w_db w2 = w_db w -> w_blobs w2 = w_blobs w1 ->
    (attempt (F := AppError) (delete_blob (storage_key id)) ;; (throw e : M K AppError Uuid)) env w2 = (r, w') ->
    all_files_ok w' /\ forall id, r = Ok id -> recorded user upload id w') as Habandon.
  { intros w2 e Ed Eb. rewrite run_bind. unfold attempt at 1.
    destruct (run_delete_blob id env w2) as (g & _ & ->). intros [= <- <-]. split; [|done].
    unfold all_files_ok. simpl. rewrite Ed. destruct g; rewrite Eb; simpl; [| done |];
      by apply abandon_upload_ok. }
  pose proof (Hn (w_step (tick w1))) as Hna2.
  destruct (env_fault env (w_step (tick w1))); [|by apply Habandon|done].
  destruct (sql_insert_file row _) as [[x d']|e] eqn:Ei; [|by apply Habandon].
  apply sql_insert_file_ok in Ei as ->. intros [= <- <-]. split.
  - apply files_ok_record; [done..|]. simpl. apply lookup_insert_eq.
  - intros ? [= <-]. exists row. simpl. split; [apply in_app_iff; right; by left|].
    repeat split. apply lookup_insert_eq.
Qed.
End FilesFacts.

Section CollectorFacts.
Context {K : Type} {V : Valkey K} {T : UuidText} {J : JsonText} {C : Crypto}.
Implicit Types (w : World K) (d : Db).

(** A claimed file: its key, and every row of its identifier marked deleted. *)
Definition marked (d : Db) (p : Uuid * rstr) : Prop :=
  p.2 = storage_key p.1 /\ forall f, In f (files d) -> f_id f = p.1 -> f_deleted_at f <> None.

Lemma marked_subset d d' p :
  (forall f, In f (files d') -> In f (files d)) -> marked d p -> marked d' p.
Proof. intros Hs [Hk Hm]. split; [done|]. auto. Qed.

(** Deleting the metadata removes rows marked deleted, and nothing else. *)
Lemma sql_delete_file_rows id d x d' :
  sql_delete_file id d = Ok (x, d') ->
  files d' = delete_where (fun f => (f_id f ≟ id) && is_some (f_deleted_at f)) (files d).
Proof.
  unfold sql_delete_file. destruct (exists_row _ _) eqn:E; intros [= _ <-]; [done|].
  by rewrite delete_where_none.
Qed.

(** A collected file leaves the other files stored, whatever fails. *)
Lemma collect_file_ok p env w r w' :
  all_files_ok w -> marked (w_db w) p -> collect_file p env w = (r, w') ->
  all_files_ok w' /\ forall f, In f (files (w_db w')) -> In f (files (w_db w)).
Proof.
  intros Hok [Hk Hm]. destruct p as [id key]. simpl in *. subst key.
  unfold collect_file. rewrite run_bind. unfold attempt at 1. cbn [fst snd].
  destruct (run_delete_blob id env w) as (f & _ & ->).
  assert (files_ok (w_db w) (delete (storage_key id) (w_blobs w))) as Hok1.
  { apply files_ok_delete_blob; [done|]. intros g Hin E. apply Hm; [done|].
    rewrite (fok_key _ _ Hok) in E by done. by apply storage_key_inj. }
  destruct f; [|by intros [= <- <-]|by intros [= <- <-]].
  set (w1 := with_blobs _ _). rewrite run_bind. unfold attempt, delete_file_metadata, execute.
  assert (forall x d', sql_delete_file id (w_db w1) = Ok (x, d') ->
    files_ok d' (w_blobs w1) /\ forall f, In f (files d') -> In f (files (w_db w))) as Hd.
  { intros x d' E%sql_delete_file_rows. split; [by eapply files_ok_delete_rows|].
    rewrite E. intros g [Hin _]%in_delete_where. exact Hin. }
  destruct (env_fault _ _); simpl; [|by intros [= <- <-]|];
    destruct (sql_delete_file id (w_db w)) as [[x d']|] eqn:E; intros [= <- <-];
    first [by apply (Hd x)|done].
Qed.

Lemma collect_files_ok l env w :
  all_files_ok w -> Forall (marked (w_db w)) l -> all_files_ok (for_each l collect_file env w).2.
Proof.
  revert w. induction l as [|p l IH]; intros w Hok Hl; simpl; [done|].
  inversion Hl as [|? ? Hp Hl']; subst. unfold bind.
  destruct (collect_file p env w) as [r w1] eqn:E.
  destruct (collect_file_ok p env w r w1 Hok Hp E) as [Hok1 Hsub]. destruct r as [x|e]; [|done].
  apply IH; [done|]. eapply List.Forall_impl; [|exact Hl']. intros q. by apply marked_subset.
Qed.

(** Claiming marks the orphans and keeps what is stored. *)
Lemma claim_marks now cutoff d l d' :
  sql_claim_orphans now cutoff d = Ok (l, d') ->
  files d' = update_where (orphan d cutoff) (claim_file now) (files d).
Proof. by intros [= _ <-]. Qed.

Lemma claim_ok now cutoff d b l d' :
  files_ok d b -> sql_claim_orphans now cutoff d = Ok (l, d') ->
  files_ok d' b /\ Forall (marked d') l
  /\ forall id, In id (map fst l) <-> exists f, In f (files d) /\ f_id f = id /\ orphan d cutoff f = true.
Proof.
  intros [Hu Hk Hs] E. pose proof (claim_marks _ _ _ _ _ E) as Ef.
  assert (forall f, In f (files d') ->
    exists f0, In f0 (files d) /\ f_id f = f_id f0 /\ f_storage_key f = f_storage_key f0
      /\ ((orphan d cutoff f0 = true /\ f_deleted_at f <> None) \/ (orphan d cutoff f0 = false /\ f = f0))) as Hrow.
  { rewrite Ef. intros f (f0 & Hin & ->)%in_update_where. exists f0. split; [done|].
    destruct (orphan d cutoff f0); [|by auto]. unfold claim_file. simpl. split; [done|]. split; [done|].
    left. split; [done|]. by destruct (f_deleted_at f0). }
  split; [split|split].
  - rewrite Ef. by apply unique_on_update.
  - intros f Hin. destruct (Hrow f Hin) as (f0 & Hin0 & -> & -> & _). by apply Hk.
  - intros f Hin Hd. destruct (Hrow f Hin) as (f0 & Hin0 & _ & _ & [[_ Hn]|[_ ->]]); [done|]. by apply Hs.
  - injection E as <- _. apply List.Forall_forall. intros p (f & <- & [Hin Ho]%in_where)%in_map_iff.
    split; [by apply Hk|]. simpl. intros g Hg Eg. destruct (Hrow g Hg) as (g0 & Hg0 & Ei & _ & Hc).
    assert (g0 = f) as -> by (eapply (unique_on_eq f_id); eauto; congruence).
    destruct Hc as [[_ Hd]|[Hf _]]; [done|congruence].
  - injection E as <- _. intros id. rewrite map_map, in_map_iff. simpl. split.
    + intros (f & <- & [Hin Ho]%in_where). eauto.
    + intros (f & Hin & <- & Ho). exists f. split; [done|]. by apply in_where.
Qed.

(** The collector keeps every live file, whatever fails. *)
Lemma cleanup_round_ok env w : all_files_ok w -> all_files_ok (cleanup_round env w).2.
Proof.
  intros Hok. unfold cleanup_round. rewrite run_bind. unfold now_millis at 1.
  set (cutoff := _ - _). rewrite run_bind. unfold attempt at 1, claim_orphan_files.
  rewrite run_bind. unfold now_millis at 1. unfold execute.
  set (w1 := tick (tick w)). set (now := as_i64 (env_clock env (w_step (tick w)))).
  assert (forall l d', sql_claim_orphans now cutoff (w_db w1) = Ok (l, d') ->
    files_ok d' (w_blobs w) /\ Forall (marked d') l) as Hc.
  { intros l d' E. destruct (claim_ok _ _ _ _ _ _ Hok E) as (? & ? & _). done. }
  destruct (env_fault _ _); [|exact Hok|];
    destruct (sql_claim_orphans _ _ _) as [[l d']|] eqn:E; try exact Hok; destruct (Hc l d' eq_refl).
  - by apply collect_files_ok.
  - done.
Qed.

(** ** A round in which nothing fails *)

Lemma collect_file_healthy id env w :
  healthy env -> marked (w_db w) (id, storage_key id) ->
  exists w', collect_file (id, storage_key id) env w = (Ok tt, w')
    /\ (forall f, In f (files (w_db w')) <-> In f (files (w_db w)) /\ f_id f <> id)
    /\ w_blobs w' = delete (storage_key id) (w_blobs w).
Proof.
  intros Hh [_ Hm]. simpl in Hm. unfold collect_file. rewrite run_bind. unfold attempt at 1. cbn [fst snd].
  destruct (run_delete_blob id env w) as (f & Ef & ->). rewrite Hh in Ef. subst f.
  rewrite run_bind. unfold attempt, delete_file_metadata. rewrite run_execute by done.
  set (w1 := with_blobs _ _). destruct (sql_delete_file id (w_db w1)) as [[x d']|] eqn:E.
  2:{ unfold sql_delete_file in E. by destruct (exists_row _ _). }
  eexists. split; [reflexivity|]. split; [|done]. apply sql_delete_file_rows in E. simpl. rewrite E.
  intros f. rewrite in_delete_where. split; intros [Hin Hf]; (split; [done|]).
  - intros Eid. pose proof (Hm f Hin Eid) as Hd. rewrite bool_decide_eq_true_2 in Hf by done.
    simpl in Hf. by destruct (f_deleted_at f).
  - by rewrite bool_decide_eq_false_2.
Qed.

Lemma collect_files_healthy l env w :
  healthy env -> Forall (marked (w_db w)) l ->
  exists w', for_each l collect_file env w = (Ok tt, w')
    /\ (forall f, In f (files (w_db w')) <-> In f (files (w_db w)) /\ ~ In (f_id f) (map fst l))
    /\ (forall k, w_blobs w' !! k = if bool_decide (k ∈ map snd l) then None else w_blobs w !! k).
Proof.
  intros Hh. revert w. induction l as [|[id key] l IH]; intros w Hl; simpl.
  { exists w. split; [done|]. split; [|done]. intros f. tauto. }
  inversion Hl as [|? ? Hp Hl']; subst. pose proof Hp as [Hk _]. simpl in Hk. subst key.
  destruct (collect_file_healthy id env w Hh Hp) as (w1 & E & Hf & Hb).
  rewrite (run_bind_ok _ _ _ _ _ _ E).
  destruct (IH w1) as (w2 & E2 & Hf2 & Hb2).
  { eapply List.Forall_impl; [|exact Hl']. intros q. apply marked_subset. intros f. rewrite Hf. tauto. }
  exists w2. split; [done|]. split.
  - intros f. rewrite Hf2, Hf. split.
    + intros [[? Hne] ?]. split; [done|]. intros [E'|?]; [by apply Hne|done].
    + intros [? Hn]. split; [split; [done|intros ?; apply Hn; by left]|intros ?; apply Hn; by right].
  - intros k. rewrite Hb2, Hb. destruct (decide (k = storage_key id)) as [->|Hne].
    + rewrite lookup_delete_eq, (bool_decide_eq_true_2 (_ ∈ storage_key id :: _)) by apply list_elem_of_here.
      by destruct (bool_decide _).
    + rewrite lookup_delete_ne by done.
      assert (bool_decide (k ∈ storage_key id :: map snd l) = bool_decide (k ∈ map snd l)) as ->; [|done].
      apply bool_decide_ext. rewrite elem_of_cons. tauto.
Qed.
End CollectorFacts.

Section UploadFacts.
Context {K : Type} {V : Valkey K} {T : UuidText} {J : JsonText} {C : Crypto}.
Implicit Types (w : World K).

Lemma quiet_files_ok w w' : Quiet w w' -> all_files_ok w -> all_files_ok w'.
Proof. unfold all_files_ok. by intros [-> ->]. Qed.

(** Who passes [privileged]: the user of the session loaded, with the token of
    that session and the permission. *)
Lemma privileged_inv headers p env w user w' :
  privileged headers p env w = (Ok user, w') ->
  exists session token, load_session headers env w = (Ok session, w') /\ user = session_user session
    /\ header_str headers CSRF_HEADER = Some token /\ as_bytes token = as_bytes (csrf session)
    /\ In (rs p) (permissions user).
Proof.
  unfold privileged. intros H. apply bind_ok_inv in H as (s & w1 & Hs & H).
  apply bind_ok_inv in H as ([] & w2 & Hc & H). apply bind_ok_inv in H as (u2 & w3 & Hp & H).
  injection H as <- <-. unfold require_csrf in Hc.
  apply bind_ok_inv in Hc as (token & w4 & Ht & Hc). unfold ok_or in Ht.
  destruct (header_str headers CSRF_HEADER) as [t|]; [|done]. injection Ht as -> ->.
  destruct (constant_time_compare _ _) eqn:Ec; [|done]. injection Hc as <-.
  apply constant_time_compare_correct in Ec.
  unfold require_permission in Hp. destruct (has_permission _ _) eqn:E; [|done]. injection Hp as <- <-.
  unfold has_permission in E. apply existsb_exists in E as (q & Hin & Hq). apply bool_decide_eq_true in Hq.
  subst q. by exists s, token.
Qed.

Lemma ensure_not_globally_banned_inv user env w w' :
  ensure_not_globally_banned user env w = (Ok tt, w') ->
  globally_banned (w_db w) (as_i64 (env_clock env (w_step w))) user = false.
Proof.
  unfold ensure_not_globally_banned. intros H. apply bind_ok_inv in H as (now & w1 & [= <- <-] & H).
  apply bind_ok_inv in H as (b & w2 & [-> ->]%query_ok_inv & H). cbn [w_db tick] in H.
  by destruct (globally_banned _ _ _).
Qed.

(** What [upload_file] leaves, and what its success means. *)
Lemma upload_file_ok scanner headers multipart env w :
  no_lost_ack env -> fresh_files env (w_db w) -> all_files_ok w ->
  run_wp (upload_file scanner headers multipart)
    (fun response w' => all_files_ok w'
       /\ exists session token w1 upload, load_session headers env w = (Ok session, w1)
          /\ header_str headers CSRF_HEADER = Some token /\ as_bytes token = as_bytes (csrf session)
          /\ In (rs "chat:write") (permissions (session_user session))
          /\ globally_banned (w_db w) (as_i64 (env_clock env (w_step w1)))
               (user_id (session_user session)) = false
          /\ read_upload multipart = Ok upload
          /\ Z.of_nat (length (up_bytes upload)) <= MAX_FILE_BYTES
          /\ scan scanner (up_name upload) (up_content_type upload) (up_bytes upload) = Ok tt
          /\ recorded (user_id (session_user session)) upload (fu_id response) w'
          /\ response = mkFileUploadResponse (fu_id response) (up_name upload) (up_content_type upload)
               (Z.of_nat (length (up_bytes upload))) (rs "/api/v1/files/" ++ uuid_to_string (fu_id response)))
    all_files_ok env w.
Proof.
  intros Hack Hfresh Hok. unfold upload_file.
  assert (forall w', Quiet w w' -> all_files_ok w') as Hq by (intros w' Hw; by apply (quiet_files_ok w)).
  apply run_wp_bind, (run_wp_frame Quiet); [by frame_auto|done|]. intros user w1 Hu Hw1.
  apply privileged_inv in Hu as (session & token & Hl & -> & Ht & Htok & Hperm).
  apply run_wp_bind, (run_wp_frame Quiet); [by frame_auto|intros; eapply Hq, frame_trans; eauto|].
  intros [] w2 Hb Hw2. assert (Quiet w w2) as Hw by (by eapply frame_trans).
  apply ensure_not_globally_banned_inv in Hb. pose proof Hw1 as [Hdb _]. rewrite Hdb in Hb.
  apply run_wp_bind, (run_wp_frame Quiet); [by frame_auto|intros; eapply Hq, frame_trans; eauto|].
  intros [] w3 _ Hw3. assert (Quiet w w3) as Hw' by (by eapply frame_trans).
  apply run_wp_bind, run_wp_lift; [by apply Hq|]. intros upload Hup.
  destruct (read_upload_ok _ _ Hup) as [Hmax _].
  apply run_wp_bind, (run_wp_frame Quiet).
  { unfold scan_upload. frame_auto. }
  { intros; eapply Hq, frame_trans; eauto. }
  intros [] w4 Hscan Hw4. assert (Quiet w w4) as Hw'' by (by eapply frame_trans).
  assert (scan scanner (up_name upload) (up_content_type upload) (up_bytes upload) = Ok tt) as Hs.
  { unfold scan_upload in Hscan. by destruct (scan _ _ _ _) as [[]|[]]. }
  apply run_wp_bind. unfold run_wp at 1.
  destruct (store_upload (user_id (session_user session)) upload env w4) as [r w5] eqn:E.
  apply store_upload_ok in E as [Hok5 Hrec]; [|done|by destruct Hw'' as [-> _]|by apply Hq].
  destruct r as [id|e]; [|done]. apply run_wp_ret. split; [done|]. exists session, token, w1, upload.
  repeat (split; [done|]). split; [by apply Hrec|done].
Qed.
End UploadFacts.

(** C27. Every file on record has its contents: when no acknowledgement is lost
    and identifiers are fresh, [upload_file] keeps every live file row backed by
    a blob of the recorded size and checksum; a successful upload is by the user
    of the session its cookie names, who gave that session's token, may write and
    is not banned from everywhere by the clock of the request; it was passed by
    the scanner, is the [file] part of the request within 25 MiB, is recorded
    for that user with its contents, and is what the answer describes; and a
    round of the collector keeps the invariant whatever fails. *)
Theorem files_stored {K} {V : Valkey K} {T : UuidText} {J : JsonText} {C : Crypto}
    (env : Env) (w : World K) scanner headers multipart
    (Hack : no_lost_ack env) (Hfresh : fresh_files env (w_db w))
    (Hok : files_ok (w_db w) (w_blobs w)) :
  run_wp (upload_file scanner headers multipart)
    (fun response w' => files_ok (w_db w') (w_blobs w')
       /\ exists session token w1 upload, load_session headers env w = (Ok session, w1)
          /\ header_str headers CSRF_HEADER = Some token /\ as_bytes token = as_bytes (csrf session)
          /\ In (rs "chat:write") (permissions (session_user session))
          /\ globally_banned (w_db w) (as_i64 (env_clock env (w_step w1)))
               (user_id (session_user session)) = false
          /\ read_upload multipart = Ok upload
          /\ Z.of_nat (length (up_bytes upload)) <= MAX_FILE_BYTES
          /\ scan scanner (up_name upload) (up_content_type upload) (up_bytes upload) = Ok tt
          /\ recorded (user_id (session_user session)) upload (fu_id response) w'
          /\ response = mkFileUploadResponse (fu_id response) (up_name upload) (up_content_type upload)
               (Z.of_nat (length (up_bytes upload))) (rs "/api/v1/files/" ++ uuid_to_string (fu_id response)))
    (fun w' => files_ok (w_db w') (w_blobs w')) env w
  /\ forall env', let w' := (cleanup_round env' w).2 in files_ok (w_db w') (w_blobs w').
Proof. split; [by apply upload_file_ok|]. intros env'. by apply cleanup_round_ok. Qed.

(** C28. The collector makes progress: when nothing fails, one round ends, and
    after it no orphan of an hour ago is left on record or in the store, while
    every other file and every other blob is as before. *)
Theorem cleanup_collects {K} {V : Valkey K} {T : UuidText} {J : JsonText} {C : Crypto}
    (env : Env) (w : World K) (Hh : healthy env) (Hok : files_ok (w_db w) (w_blobs w)) :
  let cutoff := as_i64 (env_clock env (w_step w)) - 3600000 in
  exists w', cleanup_round env w = (Ok tt, w')
    /\ (forall f, In f (files (w_db w')) <-> In f (files (w_db w)) /\ orphan (w_db w) cutoff f = false)
    /\ (forall f, In f (files (w_db w)) -> orphan (w_db w) cutoff f = true ->
          w_blobs w' !! f_storage_key f = None)
    /\ (forall k, (forall f, In f (files (w_db w)) -> orphan (w_db w) cutoff f = true ->
                     f_storage_key f <> k) -> w_blobs w' !! k = w_blobs w !! k).
Proof.
  cbv zeta. unfold cleanup_round. rewrite run_bind. unfold now_millis at 1.
  set (cutoff := as_i64 _ - _). change (as_i64 _ - 3600000) with cutoff.
  rewrite run_bind. unfold attempt at 1, claim_orphan_files. rewrite run_bind. unfold now_millis at 1.
  rewrite run_execute by done. set (now := as_i64 _). set (d := w_db w) in *. cbn [w_db tick]. fold d.
  destruct (sql_claim_orphans now cutoff d) as [[l d']|] eqn:E; [|done].
  destruct (claim_ok _ _ _ _ _ _ Hok E) as ([Hu' Hk' _] & Hm & Hl).
  pose proof (claim_marks _ _ _ _ _ E) as Ef.
  match goal with |- context[for_each _ _ _ ?w0] => set (w1 := w0) end.
  destruct (collect_files_healthy l env w1 Hh Hm) as (w' & -> & Hf & Hb).
  exists w'. split; [done|].
  assert (forall k, k ∈ map snd l <->
    exists f, In f (files d) /\ orphan d cutoff f = true /\ f_storage_key f = k) as Hkeys.
  { injection E as <- _. intros k. rewrite list_elem_of_In, map_map, in_map_iff. simpl. split.
    - intros (f & <- & [Hin Ho]%in_where). eauto.
    - intros (f & Hin & Ho & <-). exists f. split; [done|]. by apply in_where. }
  split; [|split].
  - intros f. rewrite Hf, Hl. simpl. fold d. rewrite Ef, in_update_where. split.
    + intros [(f0 & Hin & ->) Hn]. destruct (orphan d cutoff f0) eqn:Eo; [|done].
      exfalso. apply Hn. by exists f0.
    + intros [Hin Ho]. split; [exists f; by rewrite Ho|]. intros (g & Hg & Eg & Hgo).
      assert (g = f) as -> by (by eapply (unique_on_eq f_id); [apply Hok| | |]). congruence.
  - intros f Hin Ho. rewrite Hb, bool_decide_eq_true_2; [done|]. apply Hkeys. eauto.
  - intros k Hk. rewrite Hb, bool_decide_eq_false_2; [done|]. intros (f & Hin & Ho & <-)%Hkeys.
    by apply (Hk f).
Qed.

Section DownloadFacts.
Context {K : Type} {V : Valkey K} {T : UuidText} {J : JsonText} {C : Crypto}.
Implicit Types (w : World K) (d : Db).

(** Who may have a file: its uploader without any ban in force, or whoever sees
    a channel where a live message links it. *)
Definition MayDownload d (now : Z) (user : Uuid) (f : FileRow) : Prop :=
  (f_uploader_user_id f = user /\ forall b, In b (user_bans d) -> ~ BanActive now user b)
  \/ exists mf m c, In mf (message_files d) /\ mf_file_id mf = f_id f
       /\ In m (messages d) /\ m_id m = mf_message_id mf /\ m_deleted_at m = None
       /\ c_id c = m_channel_id m /\ CanSee d now user c.

Lemma downloadable_may d now user f :
  downloadable d now user f = true ->
  f_deleted_at f = None /\ globally_banned d now user = false /\ MayDownload d now user f.
Proof.
  unfold downloadable. intros [[Hd%is_none_true Hg%negb_true_iff]%andb_true_iff H]%andb_true_iff.
  split; [done|]. split; [done|].
  apply orb_true_iff in H as [[Hu Hb%negb_true_iff]%andb_true_iff|H]; [left|right].
  - apply bool_decide_eq_true in Hu. split; [done|]. intros b Hin Ha%ban_in_force_spec.
    rewrite exists_row_false in Hb. rewrite (Hb b Hin) in Ha. done.
  - unfold linked_for in H. apply exists_row_true in H as (mf & Hmf & H).
    apply andb_true_iff in H as [Hf H]. apply bool_decide_eq_true in Hf.
    apply exists_row_true in H as ([m c] & (Hm & Hc & Ec)%in_messages_with_channel & H).
    cbn [fst snd] in H. apply andb_true_iff in H as [H Hv]. apply andb_true_iff in H as [H Hcd].
    apply andb_true_iff in H as [Hid Hmd]. apply bool_decide_eq_true in Hid. apply is_none_true in Hmd, Hcd.
    exists mf, m, c. repeat (split; [done|]). by apply visible_to_spec.
Qed.

Lemma map_err_ok {E A} (m : Effects.M K E A) error env w a w' :
  map_err m error env w = (Ok a, w') -> m env w = (Ok a, w').
Proof.
  unfold map_err. rewrite run_bind. unfold attempt. destruct (m env w) as [[x|e] w1]; [|done].
  by intros [= <- <-].
Qed.
End DownloadFacts.

(** C29. A download gives a file only to those who may have it, and gives the
    file: the row is live, the caller is not banned from everywhere and is the
    uploader or a reader of a message that links it, and the body is the stored
    contents, of the recorded size and checksum. The bans are those in force at
    the clock of the request, read after its session was loaded. *)
Theorem download_authorised {K} {V : Valkey K} {T : UuidText} {J : JsonText} {C : Crypto}
    (env : Env) (w w1 w' : World K) valid_header decimal headers session id response
    (Hok : files_ok (w_db w) (w_blobs w))
    (Hs : load_session headers env w = (Ok session, w1))
    (Hr : download_file valid_header decimal headers id env w = (Ok response, w')) :
  let now := as_i64 (env_clock env (w_step w1)) in
  exists f c, In f (files (w_db w)) /\ f_id f = id /\ f_deleted_at f = None
    /\ globally_banned (w_db w) now (user_id (session_user session)) = false
    /\ MayDownload (w_db w) now (user_id (session_user session)) f
    /\ received (resp_body response) c
    /\ f_size_bytes f = Z.of_nat (length c) /\ f_checksum f = hex_encode (sha256 c).
Proof.
  intros now0. pose proof (frame_load_session Quiet headers env w) as Hq. rewrite Hs in Hq. destruct Hq as [Hdb Hbl].
  simpl in Hdb, Hbl. unfold download_file in Hr. rewrite (run_bind_ok _ _ _ _ _ _ Hs) in Hr.
  apply bind_ok_inv in Hr as (now & w2 & [= <- <-] & Hr).
  apply bind_ok_inv in Hr as (found & w3 & [-> ->]%query_ok_inv & Hr). cbn [w_db tick] in Hr.
  rewrite Hdb in Hr. destruct (sql_download _ _ _ _) as [f|] eqn:Ef; [|done].
  apply bind_ok_inv in Hr as (row & w4 & [= <- <-] & Hr).
  apply bind_ok_inv in Hr as (object & w5 & Hg%map_err_ok & Hr).
  apply first_row_some in Ef as [Hin Hp]. apply andb_true_iff in Hp as [Hid Hp].
  apply bool_decide_eq_true in Hid. apply downloadable_may in Hp as (Hd & Hgb & Hmay).
  destruct (fok_stored _ _ Hok f Hin Hd) as (c & Hc & Hsize & Hsum).
  exists f, c. repeat (split; [done|]).
  unfold get_stream, store_get in Hg. rewrite (fok_key _ _ Hok f Hin), storage_key_valid in Hg.
  rewrite <- (fok_key _ _ Hok f Hin) in Hg. cbn [w_blobs tick] in Hg. rewrite Hbl, Hc in Hg.
  destruct (env_fault _ _); [|done..]. injection Hg as <- _.
  destruct (_ && _); [|done]. injection Hr as <- _. simpl. split; [|done].
  exists [c]. simpl. by rewrite app_nil_r.
Qed.

(** The rollback of an upload trusts the error: when the acknowledgement of
    the INSERT is lost, the row is on record, [upload_file] removes the contents
    and answers with an error, and the live row that stays has none. *)
Theorem upload_lost_ack {K} {V : Valkey K} {T : UuidText} {J : JsonText} {C : Crypto}
    (env : Env) (w : World K) user upload
    (Hfault : forall n, env_fault env n = if (n =? 3 + w_step w)%nat then FaultAfter else NoFault)
    (Huser : fk_user (w_db w) user = true) (Hfresh : fresh_files env (w_db w))
    (Hok : files_ok (w_db w) (w_blobs w)) :
  exists e w' f, store_upload user upload env w = (Err e, w')
    /\ In f (files (w_db w')) /\ f_id f = env_uuid env (w_step w) /\ f_deleted_at f = None
    /\ w_blobs w' !! f_storage_key f = None.
Proof.
  set (id := env_uuid env (w_step w)).
  assert (forall k (w0 : World K), w_step w0 = (k + w_step w)%nat -> k <> 3%nat -> env_fault env (w_step w0) = NoFault) as Hno.
  { intros k w0 -> Hk. rewrite Hfault. destruct (_ =? _)%nat eqn:E; [apply Nat.eqb_eq in E; lia|done]. }
  unfold store_upload. rewrite run_bind. unfold now_v7 at 1. fold id.
  unfold map_err. rewrite run_bind, run_bind. unfold attempt at 1.
  destruct (run_put_blob id (up_bytes upload) env (tick w)) as (f & Ef & ->).
  rewrite (Hno 1%nat) in Ef by done. subst f. unfold ret at 1. set (w1 := with_blobs _ _).
  rewrite run_bind. unfold now_millis at 1. set (row := file_row _ _ _ _).
  rewrite run_bind. unfold attempt at 1, execute.
  change (w_step (tick w1)) with (3 + w_step w)%nat. rewrite Hfault, Nat.eqb_refl.
  assert (sql_insert_file row (w_db (tick w1)) = Ok (tt, set_files (fun t => t ++ [row]) (w_db w))) as ->.
  { assert (forall f, In f (files (w_db w)) -> f_id f <> id) as Hf by (intros f; apply Hfresh).
    unfold sql_insert_file, insert_row. change (f_uploader_user_id row) with user.
    change (w_db (tick w1)) with (w_db w). rewrite Huser. cbn [andb].
    rewrite !(proj2 (exists_row_false _ _)); [done| |]; intros f Hin; apply bool_decide_eq_false_2.
    - by apply Hf.
    - rewrite (fok_key _ _ Hok f Hin). intros E%storage_key_inj. by apply (Hf f). }
  rewrite run_bind. unfold attempt.
  match goal with |- context[delete_blob _ env ?w0] => set (w2 := w0) end.
  destruct (run_delete_blob id env w2) as (f & Ef & ->).
  rewrite (Hno 4%nat) in Ef by done. subst f.
  eexists _, _, row. split; [reflexivity|]. simpl.
  split; [apply in_app_iff; right; by left|]. split; [done|]. split; [done|]. apply lookup_delete_eq.
Qed.

(** ** Witnesses *)

Definition sample_upload : Upload := mkUpload (rs "a.txt") (rs "text/plain") [1; 2; 3].
Definition disk_file (n : N) (at_ : Z) : FileRow :=
  file_row (T := hyphenated_text) (C := sample_crypto) (uuid_of n) (uuid_of 1) sample_upload at_.
Definition disk_key (n : N) : rstr := storage_key (T := hyphenated_text) (uuid_of n).
(** Two files; a message of [main] links the second. *)
Definition files_db : Db := set_files (fun _ => [disk_file 70 5; disk_file 71 6]) chat_db.
Definition files_world : World Keyspace :=
  with_blobs {[disk_key 70 := [1; 2; 3]; disk_key 71 := [1; 2; 3]]}
    (sample_create (sample_env 5) (sample_world files_db)).2.
(** Every request answers, and the next identifier is 2000. *)
Definition upload_env (start : Z) (f : nat -> Fault) : Env :=
  mkEnv (fun n => start + Z.of_nat n) (fun _ => uuid_of 2000) (fun _ => repeat 0 32) f (fun n => n).
Definition upload_headers : HeaderMap :=
  session_cookie (T := hyphenated_text) (uuid_of 1000) ++ [(CSRF_HEADER, csrf sample_session)].
Definition upload_parts : list (option Field) :=
  [Some (mkField (Some (rs "note")) None None []);
   Some (mkField (Some (rs "file")) (Some (rs "../b.txt")) None [Some [4]; Some [5; 6]])].

Lemma files_world_ok :
  files_ok (T := hyphenated_text) (C := sample_crypto) (w_db files_world) (w_blobs files_world).
Proof.
  split.
  - apply NoDup_ListNoDup, (bool_decide_unpack _). vm_compute. exact I.
  - intros f [<-|[<-|[]]]; reflexivity.
  - intros f [<-|[<-|[]]] _; exists [1; 2; 3]; split; try reflexivity; split; reflexivity.
Qed.
Lemma files_world_fresh start f : fresh_files (upload_env start f) (w_db files_world).
Proof. intros n g [<-|[<-|[]]] E; discriminate E. Qed.

Notation sample_upload_run :=
  (upload_file (V := keyspace_valkey) (T := hyphenated_text) (J := coded_json) (C := sample_crypto)
     NoopFileScanner upload_headers upload_parts) (only parsing).
Definition upload_response : FileUploadResponse :=
  mkFileUploadResponse (uuid_of 2000) (rs "b.txt") (rs "application/octet-stream") 3
    (rs "/api/v1/files/" ++ hyphenated (uuid_of 2000)).
Lemma sample_upload_ok :
  sample_upload_run (upload_env 900 (fun _ => NoFault)) files_world
  = (Ok upload_response, (sample_upload_run (upload_env 900 (fun _ => NoFault)) files_world).2).
Proof. apply (run_split sample_upload_run). vm_compute. reflexivity. Qed.

Lemma files_stored_witness :
  exists w', sample_upload_run (upload_env 900 (fun _ => NoFault)) files_world = (Ok upload_response, w')
    /\ files_ok (T := hyphenated_text) (C := sample_crypto) (w_db w') (w_blobs w')
    /\ exists session w1 upload,
         load_session (V := keyspace_valkey) (T := hyphenated_text) (J := coded_json) upload_headers
           (upload_env 900 (fun _ => NoFault)) files_world = (Ok session, w1)
         /\ In (rs "chat:write") (permissions (session_user session)) /\ read_upload upload_parts = Ok upload
         /\ recorded (user_id (session_user session)) upload (uuid_of 2000) w'.
Proof.
  exists (sample_upload_run (upload_env 900 (fun _ => NoFault)) files_world).2.
  split; [exact sample_upload_ok|].
  pose proof (proj1 (files_stored (V := keyspace_valkey) (T := hyphenated_text) (J := coded_json)
    (C := sample_crypto) (upload_env 900 (fun _ => NoFault)) files_world NoopFileScanner upload_headers
    upload_parts ltac:(intros n; discriminate) (files_world_fresh _ _) files_world_ok)) as H.
  unfold run_wp in H. rewrite sample_upload_ok in H. destruct H as (Hok & session & token & w1 & upload & Hs & _ & _ & Hp & _ & Hr & _ & _ & H & _).
  split; [exact Hok|]. exists session, w1, upload. exact (conj Hs (conj Hp (conj Hr H))).
Defined.

Lemma cleanup_collects_witness :
  exists w', cleanup_round (K := Keyspace) (upload_env 8000000000 (fun _ => NoFault)) files_world = (Ok tt, w')
    /\ ~ In (disk_file 70 5) (files (w_db w')) /\ In (disk_file 71 6) (files (w_db w'))
    /\ w_blobs w' !! disk_key 70 = None.
Proof.
  destruct (cleanup_collects (V := keyspace_valkey) (T := hyphenated_text) (J := coded_json)
    (C := sample_crypto) (upload_env 8000000000 (fun _ => NoFault)) files_world ltac:(intros n; reflexivity)
    files_world_ok) as (w' & E & Hf & Hb & _).
  exists w'. split; [exact E|]. split; [|split].
  - intros [_ Ho]%Hf. vm_compute in Ho. discriminate Ho.
  - apply Hf. split; [right; left; reflexivity|vm_compute; reflexivity].
  - apply (Hb (disk_file 70 5)); [left; reflexivity|vm_compute; reflexivity].
Defined.

Notation sample_download_run :=
  (download_file (V := keyspace_valkey) (T := hyphenated_text) (J := coded_json)
     (fun _ => true) (fun _ => rs "3") (session_cookie (T := hyphenated_text) (uuid_of 1000)) (uuid_of 71))
  (only parsing).
Notation download_session :=
  (load_session (V := keyspace_valkey) (T := hyphenated_text) (J := coded_json)
     (session_cookie (T := hyphenated_text) (uuid_of 1000))) (only parsing).
Definition download_response : FileResponse :=
  mkFileResponse
    [(rs "content-type", rs "text/plain"); (rs "content-disposition", content_disposition (rs "a.txt"));
     (rs "content-length", rs "3")] (mkBlobObject (Some 3) [Ok [1; 2; 3]]).
Lemma sample_download_ok :
  sample_download_run (sample_env 900) files_world
  = (Ok download_response, (sample_download_run (sample_env 900) files_world).2).
Proof. apply (run_split sample_download_run). vm_compute. reflexivity. Qed.
Lemma download_session_ok :
  download_session (sample_env 900) files_world
  = (Ok sample_session, (download_session (sample_env 900) files_world).2).
Proof. apply (run_split download_session). vm_compute. reflexivity. Qed.

Lemma download_authorised_witness :
  let w1 := (download_session (sample_env 900) files_world).2 in
  let now := as_i64 (env_clock (sample_env 900) (w_step w1)) in
  exists f c, In f (files (w_db files_world)) /\ f_id f = uuid_of 71 /\ f_deleted_at f = None
    /\ globally_banned (w_db files_world) now (uuid_of 1) = false
    /\ MayDownload (w_db files_world) now (uuid_of 1) f
    /\ received (mkBlobObject (Some 3) [Ok [1; 2; 3]]) c
    /\ f_size_bytes f = Z.of_nat (length c) /\ f_checksum f = hex_encode (sha256 (Crypto := sample_crypto) c).
Proof.
  exact (download_authorised (V := keyspace_valkey) (T := hyphenated_text) (J := coded_json)
    (C := sample_crypto) (sample_env 900) files_world _ _ (fun _ => true) (fun _ => rs "3") _ sample_session
    (uuid_of 71) download_response files_world_ok download_session_ok sample_download_ok).
Defined.

Definition lost_insert (n : nat) : Fault :=
  if (n =? 3 + w_step files_world)%nat then FaultAfter else NoFault.
Lemma upload_lost_ack_witness :
  exists e w' f, store_upload (T := hyphenated_text) (C := sample_crypto) (uuid_of 1) sample_upload
      (upload_env 900 lost_insert) files_world = (Err e, w')
    /\ In f (files (w_db w')) /\ f_id f = uuid_of 2000 /\ f_deleted_at f = None
    /\ w_blobs w' !! f_storage_key f = None.
Proof.
  exact (upload_lost_ack (V := keyspace_valkey) (T := hyphenated_text) (J := coded_json)
    (C := sample_crypto) (upload_env 900 lost_insert) files_world (uuid_of 1) sample_upload
    (fun n => eq_refl) eq_refl (files_world_fresh _ _) files_world_ok).
Defined.
