(* ===== verification/Discovery.v ===== *)
(** * Discovery and search

    [api/discovery.rs]: the unread counters, the user search and the message
    search with its cursor. PostgreSQL's text search is the interface
    [TextSearch]. Link previews are in [Preview]. *)
From Stdlib Require Import String.
From S2P Require Export Channels Admin.
From S2P Require Import Reference.
Open Scope m_scope.

(** [search_vector @@ plainto_tsquery('simple',q)], where the vector is computed
    from the text, and [ts_headline]. *)
Class TextSearch := {
  ts_match : rstr -> rstr -> bool;
  ts_headline : rstr -> rstr -> rstr
}.

(** ** Unread counters *)

Record UnreadView := mkUnreadView {
  ur_channel : rstr; ur_unread_count : Z; ur_latest_created_at : option Z
}.

(** [COALESCE(cr.last_read_created_at,0)] *)
Definition last_read (d : Db) (user channel : Uuid) : Z :=
  match first_row (fun r => (rd_user_id r ≟ user) && (rd_channel_id r ≟ channel)) (channel_reads d) with
  | Some r => rd_last_read_created_at r
  | None => 0
  end.
Definition unread (d : Db) (user : Uuid) (c : ChannelRow) (m : MessageRow) : bool :=
  (m_channel_id m ≟ c_id c) && is_none (m_deleted_at m) && (last_read d user (c_id c) <? m_created_at m)
  && match m_owner_user_id m with None => true | Some owner => negb (owner ≟ user) end.
(** [MAX(m.created_at)] *)
Definition max_of (l : list Z) : option Z :=
  match l with [] => None | z :: l => Some (fold_left Z.max l z) end.
Definition open_channel (d : Db) (now : Z) (user : Uuid) (c : ChannelRow) : bool :=
  is_none (c_deleted_at c) && is_none (c_archived_at c) && visible_to d now user c.
Definition name_le (a b : ChannelRow) : bool := str_leb (c_name a) (c_name b).
Definition sql_unread (user : Uuid) (now : Z) (d : Db) : list UnreadView :=
  map (fun c => let ms := where_ (unread d user c) (messages d) in
                mkUnreadView (c_name c) (Z.of_nat (length ms)) (max_of (map m_created_at ms)))
    (order_by name_le (where_ (open_channel d now user) (channels d))).

(** ** Users *)

Record UserSearchResult := mkUserSearchResult { us_id : Uuid; us_username : rstr }.
Definition username_le (a b : UserRow) : bool := str_leb (u_username a) (u_username b).
Definition found_user {U : Unicode} (user : Uuid) (search : rstr) (u : UserRow) : bool :=
  negb (u_id u ≟ user) && is_none (u_disabled_at u) && is_none (u_deleted_at u)
  && (contains_text search (u_username u) || contains_text search (u_email u)).
Definition sql_search_users {U : Unicode} (user : Uuid) (search : rstr) (d : Db) : list UserSearchResult :=
  map (fun u => mkUserSearchResult (u_id u) (u_username u))
    (limit_rows 20 (order_by username_le (where_ (found_user user search) (users d)))).

(** ** Messages *)

Record MessageSearchQuery := mkMessageSearchQuery {
  q_text : option rstr; q_channel : option rstr; q_from : option Z; q_to : option Z;
  q_before_created_at : option Z; q_before_id : option Uuid; q_limit : option Z
}.
Record MessageSearchResult := mkMessageSearchResult {
  sr_message : ChatMessage; sr_snippet : rstr; sr_highlighted : rstr
}.

(** [$6 IS NULL OR ($7 IS NOT NULL AND (m.created_at,m.id) < ($6,$7))] *)
Definition search_cursor (q : MessageSearchQuery) (m : MessageRow) : bool :=
  match q_before_created_at q, q_before_id q with
  | None, _ => true
  | Some at_, Some id => before_cursor (Some (at_, id)) m
  | Some _, None => false
  end.
(** What is searched for, whatever the cursor. *)
Definition search_match {U : Unicode} {S : TextSearch} (d : Db) (user : Uuid) (now : Z) (term : rstr)
    (q : MessageSearchQuery) (mc : MessageRow * ChannelRow) : bool :=
  open_channel d now user mc.2 && is_none (m_deleted_at mc.1)
  && match q_channel q with None => true | Some name => c_name mc.2 ≟ name end
  && match q_from q with None => true | Some t => t <=? m_created_at mc.1 end
  && match q_to q with None => true | Some t => m_created_at mc.1 <=? t end
  && (ts_match (m_text mc.1) term || like (pg_lower ([37] ++ term ++ [37])) (pg_lower (m_text mc.1))).
Definition sql_search {U : Unicode} {S : TextSearch} (user : Uuid) (now : Z) (term : rstr)
    (q : MessageSearchQuery) (limit : Z) (d : Db) : list (MessageSelect * rstr) :=
  map (fun '(m, c) => (select_message d c m, ts_headline (m_text m) term))
    (limit_rows limit (order_by newest_first
       (where_ (fun mc => search_match d user now term q mc && search_cursor q mc.1)
          (messages_with_channel d)))).

Definition search_result (row : MessageSelect * rstr) : Result SqlxError MessageSearchResult :=
  match try_from_row row.1 with
  | Ok m => Ok (mkMessageSearchResult m (msg_text m) row.2)
  | Err e => Err e
  end.
(** The page and the cursor of the next one. *)
Definition search_page (limit : Z) (rows : list (MessageSelect * rstr)) :
    Result SqlxError (list MessageSearchResult * option (Z * Uuid)) :=
  let has_more := limit <? Z.of_nat (length rows) in
  match collect_results (map search_result rows) with
  | Err e => Err e
  | Ok items =>
      let items := limit_rows limit items in
      let next := if has_more then
                    (fun item => (msg_created_at (sr_message item), msg_id (sr_message item))) <$> last items
                  else None in
      Ok (items, next)
  end.

Definition search_limit (q : MessageSearchQuery) : Z := clamp 1 100 (default 50 (q_limit q)).

(** ** Handlers *)

Section Discovery.
Context {K : Type} {V : Valkey K} {T : UuidText} {J : JsonText} {U : Unicode} {S : TextSearch}.
Notation M := (M K AppError).

(** The HTTP handler [list_channels]. *)
Definition list_channels_handler (headers : HeaderMap) : M (list rstr) :=
  session <- load_session headers ;;
  conv (list_channels (user_id (session_user session))).

Definition list_unread (headers : HeaderMap) : M (list UnreadView) :=
  session <- load_session headers ;;
  now <- now_millis ;;
  query (sql_unread (user_id (session_user session)) (as_i64 now)).

Definition list_conversations (headers : HeaderMap) : M (list ConversationSummary) :=
  session <- load_session headers ;;
  list_visible_conversations (user_id (session_user session)).

Definition search_users (headers : HeaderMap) (q : option rstr) : M (list UserSearchResult) :=
  session <- load_session headers ;;
  query (sql_search_users (user_id (session_user session)) (default [] q)).

Definition search_messages (headers : HeaderMap) (q : MessageSearchQuery) :
    M (list MessageSearchResult * option (Z * Uuid)) :=
  session <- load_session headers ;;
  let term := trim (default [] (q_text q)) in
  if is_empty term || (200 <? len term) then ret ([], None)
  else
    let limit := search_limit q in
    now <- now_millis ;;
    rows <- query (sql_search (user_id (session_user session)) (as_i64 now) term q (limit + 1)) ;;
    lift (search_page limit rows).

(** [metrics]: a count that cannot be read leaves its gauge as it was; the page
    is rendered by the exporter from the gauges. *)
Definition metrics (active_websockets : Z) (render : Z -> option Z -> option Z -> rstr) :
    M (list (rstr * rstr) * rstr) :=
  outbox <- attempt (E := SqlxError) (query (E := SqlxError) (fun d => count_rows (fun e => is_none (ob_published_at e)) (outbox_events d))) ;;
  deliveries <- attempt (E := SqlxError) (query (E := SqlxError) (fun d => count_rows (fun x => is_none (d_sent_at x)) (notification_deliveries d))) ;;
  let gauge := fun r : Result SqlxError Z => match r with Ok n => Some n | Err _ => None end in
  ret ([(rs "content-type", rs "text/plain; version=0.0.4")],
       render active_websockets (gauge outbox) (gauge deliveries)).

(** [ready]: whether the process takes traffic. *)
Definition ready (shutting_down : bool) (cache_ping : Effects.M K RedisError unit) : Effects.M K StatusCode unit :=
  if shutting_down then throw 503
  else
    cache <- attempt cache_ping ;;
    match cache with
    | Err _ => throw 503
    | Ok _ =>
        database <- attempt (query (E := SqlxError) (fun _ => tt)) ;;
        match database with Ok _ => ret tt | Err _ => throw 503 end
    end.
End Discovery.

(** ** Following the cursor *)

Definition with_cursor (q : MessageSearchQuery) (cursor : option (Z * Uuid)) : MessageSearchQuery :=
  mkMessageSearchQuery (q_text q) (q_channel q) (q_from q) (q_to q) (fst <$> cursor) (snd <$> cursor) (q_limit q).

(** A client that asks for page after page until no cursor comes back; [page n]
    answers its n-th request. *)
Fixpoint follow {E} (fuel n : nat)
    (page : nat -> option (Z * Uuid) -> Result E (list MessageSearchResult * option (Z * Uuid)))
    (cursor : option (Z * Uuid)) : option (list MessageSearchResult) :=
  match fuel with
  | O => None
  | S fuel' =>
      match page n cursor with
      | Err _ => None
      | Ok (items, None) => Some items
      | Ok (items, Some next) => app items <$> follow fuel' (Datatypes.S n) page (Some next)
      end
  end.

(** The n-th request is answered by the handler, at its own time and in the state
    the server is in by then. *)
Definition search_turn {K} {V : Valkey K} {T : UuidText} {J : JsonText} {U : Unicode} {S : TextSearch}
    (turns : nat -> Env * World K) (headers : HeaderMap) (q : MessageSearchQuery) (n : nat)
    (cursor : option (Z * Uuid)) : Result AppError (list MessageSearchResult * option (Z * Uuid)) :=
  (search_messages headers (with_cursor q cursor) (turns n).1 (turns n).2).1.

Section PagingFacts.
Context {U : Unicode} {S : TextSearch}.
Implicit Types (rows : list (MessageRow * ChannelRow)).

Lemma StronglySorted_filter {A} (R : A -> A -> Prop) p (l : list A) :
  StronglySorted R l -> StronglySorted R (List.filter p l).
Proof.
  induction 1 as [|a l Hs IH Ha]; simpl; [constructor|]. destruct (p a); [|done]. constructor; [done|].
  apply List.Forall_forall. intros b [Hin _]%filter_In. exact (Forall_In _ _ _ Ha Hin).
Qed.

Lemma filter_permutation {A} (p : A -> bool) (l l' : list A) :
  Permutation l l' -> Permutation (List.filter p l) (List.filter p l').
Proof.
  induction 1 as [|x l l' H IH|x y l|l1 l2 l3 H1 IH1 H2 IH2]; simpl; [done| | |by etransitivity].
  - destruct (p x); [by constructor|done].
  - destruct (p x), (p y); first [apply perm_swap|reflexivity].
Qed.

(** Rows with distinct identifiers are ordered strictly. *)
Definition distinct rows : Prop := List.NoDup (map (fun mc => m_id mc.1) rows).
Definition strictly_newer (a b : MessageRow * ChannelRow) : Prop :=
  before_cursor (Some (m_created_at a.1, m_id a.1)) b.1 = true.

Lemma newest_first_antisym rows x y :
  distinct rows -> In x rows -> In y rows ->
  rel_of newest_first x y -> rel_of newest_first y x -> x = y.
Proof.
  intros Hn Hx Hy Hxy Hyx. unfold rel_of, newest_first in Hxy, Hyx.
  apply (unique_on_eq (fun mc : MessageRow * ChannelRow => m_id mc.1) rows); [done..|].
  apply uuid_leb_antisym; lia.
Qed.

Lemma order_by_where rows p :
  distinct rows -> order_by newest_first (where_ p rows) = where_ p (order_by newest_first rows).
Proof.
  intros Hn.
  assert (forall l, StronglySorted (rel_of newest_first) (order_by newest_first l)) as Hs
    by (intros l; apply order_by_sorted; [apply newest_first_total|apply newest_first_trans]).
  apply (StronglySorted_unique_strong (rel_of newest_first)).
  - intros x y Hx%list_elem_of_In%in_order_by%in_where Hy%list_elem_of_In%in_where.
    apply (newest_first_antisym rows); [done|tauto|].
    apply (in_order_by newest_first). tauto.
  - apply Hs.
  - by apply StronglySorted_filter.
  - etransitivity; [apply order_by_permutation|]. apply filter_permutation. symmetry. apply order_by_permutation.
Qed.

Lemma distinct_order_by rows : distinct rows -> distinct (order_by newest_first rows).
Proof.
  unfold distinct. apply Permutation_NoDup, Permutation_map. symmetry. apply order_by_permutation.
Qed.

(** In a sorted list, what is before the last row of a prefix is the rest. *)
Lemma where_before_last pre x rest :
  StronglySorted (rel_of newest_first) (pre ++ x :: rest) -> distinct (pre ++ x :: rest) ->
  where_ (fun mc => before_cursor (Some (m_created_at x.1, m_id x.1)) mc.1) (pre ++ x :: rest) = rest.
Proof.
  intros Hs Hn. unfold where_. rewrite List.filter_app. cbn [List.filter].
  assert (forall y, In y pre \/ y = x ->
    before_cursor (Some (m_created_at x.1, m_id x.1)) y.1 = false) as Hpre.
  { intros y [Hin| ->].
    - apply StronglySorted_app_iff in Hs as (_ & _ & Hb).
      specialize (Hb y x Hin (or_introl eq_refl)). unfold rel_of, newest_first, uuid_leb in Hb.
      unfold before_cursor, uuid_ltb. lia.
    - unfold before_cursor, uuid_ltb. lia. }
  rewrite (Hpre x) by auto.
  replace (List.filter _ pre) with (@nil (MessageRow * ChannelRow)).
  2:{ symmetry. apply where_nil_exists, exists_row_false. intros y Hin. apply Hpre. by left. }
  cbn [app]. apply forallb_filter_id, forallb_forall. intros y Hin.
  assert (m_id y.1 <> m_id x.1) as Hne.
  { unfold distinct in Hn. rewrite map_app in Hn. apply NoDup_remove_2 in Hn. intros E. apply Hn.
    apply in_app_iff. right. rewrite <- E. by apply (in_map (fun mc : MessageRow * ChannelRow => m_id mc.1)). }
  apply StronglySorted_app_iff in Hs as (_ & Hs & _). inversion Hs as [|? ? _ Hx]; subst.
  apply (Forall_In _ _ _ Hx) in Hin. unfold rel_of, newest_first, uuid_leb in Hin.
  assert (uuid_val (m_id y.1) <> uuid_val (m_id x.1)) as Hv.
  { intros E. apply Hne. apply uuid_leb_antisym; unfold uuid_leb; lia. }
  unfold before_cursor, uuid_ltb. lia.
Qed.
End PagingFacts.

(** One page, as [search_messages] computes it from a cursor. *)
Definition search_at {U : Unicode} {S : TextSearch} (d : Db) (user : Uuid) (now : Z) (term : rstr)
    (q : MessageSearchQuery) (limit : Z) (cursor : option (Z * Uuid)) :
    Result SqlxError (list MessageSearchResult * option (Z * Uuid)) :=
  search_page limit (sql_search user now term (with_cursor q cursor) (limit + 1) d).

Section PagingRuns.
Context {U : Unicode} {S : TextSearch} (d : Db) (user : Uuid) (now : Z) (term : rstr).
Context (q : MessageSearchQuery) (limit : Z).

Definition row_key (mc : MessageRow * ChannelRow) : Z * Uuid := (m_created_at mc.1, m_id mc.1).
Definition search_all : list (MessageRow * ChannelRow) :=
  order_by newest_first (where_ (search_match d user now term q) (messages_with_channel d)).
Definition selected (mc : MessageRow * ChannelRow) : MessageSelect * rstr :=
  (select_message d mc.2 mc.1, ts_headline (m_text mc.1) term).
(** A result: the message as a reader is shown it, its text, and the headline. *)
Definition found (mc : MessageRow * ChannelRow) (r : MessageSearchResult) : Prop :=
  shows d mc (sr_message r) /\ sr_snippet r = msg_text (sr_message r)
  /\ sr_highlighted r = ts_headline (m_text mc.1) term.

Context (Hm : unique_on m_id (messages d)) (Hc : unique_on c_id (channels d)) (Hlimit : 1 <= limit).
Context (Hrows : forall m c, In m (messages d) -> is_ok (try_from_row (select_message d c m)) = true).

Lemma search_all_sorted : StronglySorted (rel_of newest_first) search_all.
Proof. apply order_by_sorted; [apply newest_first_total|apply newest_first_trans]. Qed.
Lemma search_matches_distinct : distinct (where_ (search_match d user now term q) (messages_with_channel d)).
Proof.
  apply (unique_on_filter (fun mc : MessageRow * ChannelRow => m_id mc.1)).
  exact (messages_with_channel_nodup d Hm Hc).
Qed.
Lemma search_all_distinct : distinct search_all.
Proof. apply distinct_order_by, search_matches_distinct. Qed.
Lemma in_search_all mc : In mc search_all -> In mc.1 (messages d).
Proof.
  destruct mc as [m c]. intros [Hin _]%in_order_by%in_where.
  by apply in_messages_with_channel in Hin as [? _].
Qed.

(** The rows after a prefix of all matches. *)
Lemma search_rows_after pre rest n :
  search_all = pre ++ rest ->
  sql_search user now term (with_cursor q (row_key <$> last pre)) n d = map selected (limit_rows n rest).
Proof.
  intros E. unfold sql_search.
  rewrite (map_ext (fun '(m, c) => _) selected) by (by intros []). f_equal. f_equal.
  replace (where_ _ (messages_with_channel d))
    with (where_ (fun mc => search_cursor (with_cursor q (row_key <$> last pre)) mc.1)
            (where_ (search_match d user now term q) (messages_with_channel d))).
  2:{ unfold where_. induction (messages_with_channel d) as [|mc l IH]; simpl; [done|].
      destruct (search_match d user now term q mc) eqn:Em; cbn [List.filter];
        change (search_match d user now term (with_cursor q _) mc) with (search_match d user now term q mc);
        rewrite Em, IH; done. }
  rewrite order_by_where by apply search_matches_distinct. fold search_all.
  pose proof search_all_sorted as Hs. pose proof search_all_distinct as Hd. rewrite E in Hs, Hd |- *.
  destruct pre as [|x pre _] using rev_ind; simpl.
  - apply forallb_filter_id, forallb_forall. done.
  - rewrite last_snoc. simpl. rewrite <- app_assoc in Hs, Hd |- *.
    apply (where_before_last pre x rest Hs Hd).
Qed.

Lemma collect_selected l :
  (forall mc, In mc l -> In mc.1 (messages d)) ->
  exists items, collect_results (map search_result (map selected l)) = Ok items /\ Forall2 found l items.
Proof.
  induction l as [|mc l IH]; intros Hin; simpl; [by exists []|].
  destruct IH as (items & E & Hf); [intros; apply Hin; by right|].
  unfold search_result at 1. simpl.
  pose proof (Hrows mc.1 mc.2 (Hin mc (or_introl eq_refl))) as Hok.
  destruct (try_from_row _) as [x|] eqn:Ex; [|done]. rewrite E. simpl. eexists. split; [reflexivity|].
  constructor; [|done]. destruct mc as [m c]. by apply select_shows in Ex.
Qed.

(** A page holds the next rows, and its cursor is the last of them when more
    are left. *)
Lemma search_page_spec rest :
  (forall mc, In mc rest -> In mc.1 (messages d)) ->
  exists items, search_page limit (map selected (limit_rows (limit + 1) rest))
    = Ok (items, if (Z.to_nat limit <? length rest)%nat
                 then row_key <$> last (take (Z.to_nat limit) rest) else None)
    /\ Forall2 found (take (Z.to_nat limit) rest) items.
Proof.
  intros Hin. destruct (collect_selected (limit_rows (limit + 1) rest)) as (items & E & Hf).
  { intros mc Hmc. apply Hin. by eapply in_take. }
  unfold search_page. rewrite E, length_map. unfold limit_rows in Hf |- *.
  replace (Z.to_nat (limit + 1)) with (Datatypes.S (Z.to_nat limit)) in Hf |- * by lia.
  set (n := Z.to_nat limit) in *.
  exists (take n items).
  assert (Forall2 found (take n rest) (take n items)) as Hf'.
  { replace (take n rest) with (take n (take (Datatypes.S n) rest)); [by apply Forall2_take|].
    rewrite take_take. f_equal. lia. }
  split; [|done]. f_equal. f_equal. rewrite length_take.
  destruct (Nat.ltb_spec n (length rest)) as [Hl|Hl].
  - replace (limit <? _) with true by lia. destruct (take n rest) as [|x l _] eqn:Et using rev_ind.
    + exfalso. apply (f_equal length) in Et. rewrite length_take in Et. simpl in Et. lia.
    + apply Forall2_app_inv_l in Hf' as (i1 & i2 & _ & H2 & ->).
      inversion H2 as [|? r ? ? [[Hid [Hat _]] _] Hnil]; subst. inversion Hnil; subst.
      rewrite !last_snoc. simpl. unfold row_key. by rewrite Hid, Hat.
  - by replace (limit <? _) with false by lia.
Qed.

(** Whoever answers as the query does is followed to the end. *)
Context {Er : Type} (page : nat -> option (Z * Uuid) -> Result Er (list MessageSearchResult * option (Z * Uuid))).
Context (Hpage : forall n cursor p, search_at d user now term q limit cursor = Ok p -> page n cursor = Ok p).

Lemma follow_rest fuel n0 pre rest :
  search_all = pre ++ rest -> (length rest < fuel)%nat ->
  exists items, follow fuel n0 page (row_key <$> last pre) = Some items
    /\ Forall2 found rest items.
Proof.
  revert n0 pre rest. induction fuel as [|fuel IH]; intros n0 pre rest E Hl; [lia|]. cbn [follow].
  destruct (search_page_spec rest) as (items & Ep & Hf).
  { intros mc Hin. apply in_search_all. rewrite E. apply in_app_iff. by right. }
  rewrite (Hpage n0 _ (items, _)) by (unfold search_at; rewrite (search_rows_after pre rest) by done; exact Ep).
  clear Ep.
  set (n := Z.to_nat limit) in *. assert (1 <= n)%nat as Hn by lia.
  destruct (Nat.ltb_spec n (length rest)) as [Hlt|Hge].
  - destruct (last (take n rest)) as [x|] eqn:El.
    2:{ apply last_None in El. apply (f_equal length) in El. rewrite length_take in El. simpl in El. lia. }
    simpl. destruct (IH (Datatypes.S n0) (pre ++ take n rest) (drop n rest)) as (more & Em & Hm').
    + by rewrite <- app_assoc, take_drop.
    + rewrite length_drop. lia.
    + rewrite last_app, El in Em. simpl in Em. rewrite Em. simpl. eexists. split; [reflexivity|].
      rewrite <- (take_drop n rest). by apply Forall2_app.
  - exists items. split; [done|]. by rewrite take_ge in Hf by lia.
Qed.
End PagingRuns.

(** Nothing the search depends on changes while a request is served: no request
    of it fails, the database is [d], the session is of [user], and its clock
    shows the same matches as the time [now]. *)
Definition undisturbed {K} {V : Valkey K} {T : UuidText} {J : JsonText} {U : Unicode} {S : TextSearch}
    (headers : HeaderMap) (d : Db) (user : Uuid) (now : Z) (q : MessageSearchQuery)
    (turn : Env * World K) : Prop :=
  let '(env, w) := turn in
  healthy env /\ w_db w = d
  /\ exists session w1, load_session headers env w = (Ok session, w1)
       /\ user_id (session_user session) = user
       /\ forall mc, In mc (messages_with_channel d) ->
            search_match d user (as_i64 (env_clock env (w_step w1))) (trim (default [] (q_text q))) q mc
            = search_match d user now (trim (default [] (q_text q))) q mc.

Section SearchRuns.
Context {K : Type} {V : Valkey K} {T : UuidText} {J : JsonText} {U : Unicode} {S : TextSearch}.

Lemma search_at_time d user now now' term q limit cursor :
  (forall mc, In mc (messages_with_channel d) ->
     search_match d user now term q mc = search_match d user now' term q mc) ->
  search_at d user now term q limit cursor = search_at d user now' term q limit cursor.
Proof.
  intros H. unfold search_at, sql_search, where_. do 4 f_equal. apply filter_ext_in. intros mc Hin.
  f_equal. exact (H mc Hin).
Qed.

(** A page of the handler is the page of the query. *)
Lemma search_turn_at (turns : nat -> Env * World K) headers d user now q n cursor page :
  let term := trim (default [] (q_text q)) in
  is_empty term = false -> len term <= 200 -> undisturbed headers d user now q (turns n) ->
  search_at d user now term q (search_limit q) cursor = Ok page ->
  search_turn turns headers q n cursor = Ok page.
Proof.
  intros term He Hlen Hu Hp. unfold search_turn. destruct (turns n) as [env w].
  destruct Hu as (Hh & Hd & session & w1 & Hs & Hid & Hsame). cbn [fst snd].
  pose proof (frame_load_session (DbRel eq) headers env w) as Hw. rewrite Hs in Hw.
  unfold DbRel in Hw. simpl in Hw.
  unfold search_messages. rewrite (run_bind_ok _ _ _ _ _ _ Hs). cbn [with_cursor q_text]. fold term. rewrite He.
  replace (200 <? len term) with false by lia. cbn [orb].
  rewrite run_bind. unfold now_millis at 1. rewrite run_bind, run_query by done. cbn [w_db tick].
  rewrite <- Hw, Hd, Hid. rewrite <- (search_at_time _ _ _ _ _ _ _ _ Hsame) in Hp.
  unfold search_at in Hp. fold term in Hp. change (search_limit (with_cursor q cursor)) with (search_limit q).
  unfold lift. by rewrite Hp.
Qed.
End SearchRuns.

(** C35. Search results page to the end: a client that follows the cursor of
    [search_messages], request after request, while the database and what the
    user may see stay as they are, comes to a page without a cursor after at most
    as many requests as there are matches and one more, and has then received
    every match exactly once, newest first, each as its reader is shown it, with
    its headline. *)
Theorem search_pages_complete {K} {V : Valkey K} {T : UuidText} {J : JsonText} {U : Unicode} {S : TextSearch}
    (turns : nat -> Env * World K) headers (d : Db) user now q fuel
    (Hterm : is_empty (trim (default [] (q_text q))) = false)
    (Hlen : len (trim (default [] (q_text q))) <= 200)
    (Hturns : forall n, undisturbed headers d user now q (turns n))
    (Hm : unique_on m_id (messages d)) (Hc : unique_on c_id (channels d))
    (Hrows : forall m c, In m (messages d) -> is_ok (try_from_row (select_message d c m)) = true) :
  let term := trim (default [] (q_text q)) in
  let matches := order_by newest_first (where_ (search_match d user now term q) (messages_with_channel d)) in
  (length matches < fuel)%nat ->
  exists items, follow fuel 0 (search_turn turns headers q) None = Some items
    /\ List.NoDup (map (fun r => msg_id (sr_message r)) items)
    /\ Forall2 (found d term) matches items.
Proof.
  intros term matches Hfuel.
  assert (1 <= search_limit q) as Hlimit by (unfold search_limit; apply clamp_range; lia).
  destruct (follow_rest d user now term q (search_limit q) Hm Hc Hlimit Hrows (search_turn turns headers q)) with
    (fuel := fuel) (n0 := O) (pre := @nil (MessageRow * ChannelRow)) (rest := matches)
    as (items & E & Hf); [|done..|].
  { intros n cursor p. by apply search_turn_at. }
  exists items. split; [exact E|]. split; [|exact Hf].
  assert (map (fun r => msg_id (sr_message r)) items = map (fun mc => m_id mc.1) matches) as ->.
  { clear -Hf. induction Hf as [|mc r l items [[H _] _] Hf IH]; simpl; [done|]. by rewrite H, IH. }
  exact (search_all_distinct d user now term q Hm Hc).
Qed.

(** ** Witnesses *)

#[local] Instance sample_search : TextSearch := {|
  ts_match := fun _ _ => false; ts_headline := fun text _ => text
|}.
#[local] Existing Instance ascii_unicode.
Definition hello_query : MessageSearchQuery :=
  mkMessageSearchQuery (Some (rs "hell")) None None None None None (Some 3).

(** Alice is logged in and asks at the same time of day, over and over. *)
Definition search_turns (n : nat) : Env * World Keyspace :=
  (sample_env 900, (sample_create (sample_env 5) (sample_world chat_db)).2).
Notation alice_searches :=
  (search_turn (V := keyspace_valkey) (T := hyphenated_text) (J := coded_json) search_turns
     (session_cookie (T := hyphenated_text) (uuid_of 1000)) hello_query) (only parsing).

Lemma search_session_ok :
  load_session (V := keyspace_valkey) (T := hyphenated_text) (J := coded_json)
    (session_cookie (T := hyphenated_text) (uuid_of 1000)) (sample_env 900) (search_turns 0).2
  = (Ok sample_session, (load_session (V := keyspace_valkey) (T := hyphenated_text) (J := coded_json)
       (session_cookie (T := hyphenated_text) (uuid_of 1000)) (sample_env 900) (search_turns 0).2).2).
Proof. apply run_split. vm_compute. reflexivity. Qed.

Lemma search_pages_complete_witness :
  exists items, follow 5 0 alice_searches None = Some items
    /\ map (fun r => msg_id (sr_message r)) items = [uuid_of 53; uuid_of 52; uuid_of 51; uuid_of 50].
Proof.
  destruct (search_pages_complete (V := keyspace_valkey) (T := hyphenated_text) (J := coded_json) search_turns
    (session_cookie (T := hyphenated_text) (uuid_of 1000)) chat_db (uuid_of 1)
    (as_i64 (env_clock (sample_env 900) (w_step (load_session (V := keyspace_valkey) (T := hyphenated_text)
       (J := coded_json) (session_cookie (T := hyphenated_text) (uuid_of 1000)) (sample_env 900)
       (search_turns 0).2).2))) hello_query 5) as (items & E & _ & Hf).
  - vm_compute. reflexivity.
  - apply Z.leb_le. vm_compute. reflexivity.
  - intros n. split; [apply sample_env_healthy|]. split; [vm_compute; reflexivity|].
    eexists. eexists. split; [exact search_session_ok|]. split; reflexivity.
  - exact chat_db_messages.
  - exact chat_db_channels.
  - intros m c Hin. vm_compute in Hin. repeat destruct Hin as [<-|Hin]; [vm_compute; reflexivity..|destruct Hin].
  - apply Nat.ltb_lt. vm_compute. reflexivity.
  - exists items. split; [exact E|].
    transitivity (map (fun mc : MessageRow * ChannelRow => m_id mc.1)
      (order_by newest_first (where_ (search_match chat_db (uuid_of 1)
        (as_i64 (env_clock (sample_env 900) (w_step (load_session (V := keyspace_valkey) (T := hyphenated_text)
           (J := coded_json) (session_cookie (T := hyphenated_text) (uuid_of 1000)) (sample_env 900)
           (search_turns 0).2).2))) (trim (default [] (q_text hello_query))) hello_query)
        (messages_with_channel chat_db)))); [|vm_compute; reflexivity].
    clear E. induction Hf as [|mc r l items [[H _] _] Hf IH]; [reflexivity|].
    cbn [map]. rewrite H, IH. reflexivity.
Defined.
