(* ===== verification/Preview.v ===== *)
(** * Link previews

    [link_preview] of [api/discovery.rs]: the check of the URL, the check of the
    addresses its host resolves to, the bounded fetch and the metadata. The
    [url] crate, the resolver, the HTTP client and the HTML parser are
    parameters; the address classes are those of [std::net]. *)
From Stdlib Require Import String.
From S2P Require Export S3 Auth.
From S2P Require Import Reference.
Open Scope m_scope.

(** ** Addresses *)

(** Octets, and 16-bit segments. *)
Inductive IpAddr :=
| V4 (a b c d : Z)
| V6 (s0 s1 s2 s3 s4 s5 s6 s7 : Z).

Definition v4_is_loopback (a b c d : Z) : bool := a =? 127.
Definition v4_is_private (a b c d : Z) : bool :=
  (a =? 10) || ((a =? 172) && (16 <=? b) && (b <=? 31)) || ((a =? 192) && (b =? 168)).
Definition v4_is_link_local (a b c d : Z) : bool := (a =? 169) && (b =? 254).
Definition v4_is_unspecified (a b c d : Z) : bool := (a =? 0) && (b =? 0) && (c =? 0) && (d =? 0).
Definition v4_is_multicast (a b c d : Z) : bool := (224 <=? a) && (a <=? 239).
Definition v4_is_public (a b c d : Z) : bool :=
  negb (v4_is_loopback a b c d) && negb (v4_is_private a b c d) && negb (v4_is_link_local a b c d)
  && negb (v4_is_unspecified a b c d) && negb (v4_is_multicast a b c d).

(** [Ipv6Addr::to_ipv4]: the mapped and the compatible addresses. *)
Definition to_ipv4 (s0 s1 s2 s3 s4 s5 s6 s7 : Z) : option (Z * Z * Z * Z) :=
  if (s0 =? 0) && (s1 =? 0) && (s2 =? 0) && (s3 =? 0) && (s4 =? 0) && ((s5 =? 0) || (s5 =? 65535))
  then Some (s6 / 256, s6 mod 256, s7 / 256, s7 mod 256) else None.
Definition v6_is_loopback (s0 s1 s2 s3 s4 s5 s6 s7 : Z) : bool :=
  (s0 =? 0) && (s1 =? 0) && (s2 =? 0) && (s3 =? 0) && (s4 =? 0) && (s5 =? 0) && (s6 =? 0) && (s7 =? 1).
Definition v6_is_unspecified (s0 s1 s2 s3 s4 s5 s6 s7 : Z) : bool :=
  (s0 =? 0) && (s1 =? 0) && (s2 =? 0) && (s3 =? 0) && (s4 =? 0) && (s5 =? 0) && (s6 =? 0) && (s7 =? 0).
Definition v6_is_unique_local (s0 : Z) : bool := Z.land s0 65024 =? 64512.
Definition v6_is_unicast_link_local (s0 : Z) : bool := Z.land s0 65472 =? 65152.
Definition v6_is_multicast (s0 : Z) : bool := Z.land s0 65280 =? 65280.

Definition is_public_ip (ip : IpAddr) : bool :=
  match ip with
  | V4 a b c d => v4_is_public a b c d
  | V6 s0 s1 s2 s3 s4 s5 s6 s7 =>
      match to_ipv4 s0 s1 s2 s3 s4 s5 s6 s7 with
      | Some (a, b, c, d) => v4_is_public a b c d
      | None =>
          negb (v6_is_loopback s0 s1 s2 s3 s4 s5 s6 s7) && negb (v6_is_unique_local s0)
          && negb (v6_is_unicast_link_local s0) && negb (v6_is_unspecified s0 s1 s2 s3 s4 s5 s6 s7)
          && negb (v6_is_multicast s0)
      end
  end.

(** ** The host *)

Notation SocketAddr := (IpAddr * Z)%type.

Definition ends_with (suffix s : rstr) : bool := starts_with (reverse suffix) (reverse s).

Section Preview.
Context {U : UrlCrate}.
(** [tokio::net::lookup_host] *)
Context (lookup_host : rstr -> Z -> option (list SocketAddr)).

Definition validate_preview_url (raw : rstr) : Result AppError Url :=
  if 2048 <? len raw then Err (bad_request "preview URL is too long")
  else match url_parse raw with
       | None => Err (bad_request "invalid preview URL")
       | Some url =>
           if negb ((url_scheme url ≟ rs "http") || (url_scheme url ≟ rs "https"))
              || is_none (url_host_str url)
              || (is_empty (url_username url) && is_some (url_password url))
              || negb (is_empty (url_username url))
           then Err (bad_request "preview URL must be a public HTTP URL")
           else Ok url
       end.

(** The loop over the addresses: the first one, if all are public. *)
Fixpoint select_public (selected : option SocketAddr) (addresses : list SocketAddr) :
    Result AppError (option SocketAddr) :=
  match addresses with
  | [] => Ok selected
  | address :: rest =>
      if negb (is_public_ip address.1) then Err (forbidden "preview host is not public")
      else select_public (Some (default address selected)) rest
  end.

Definition ensure_public_preview_host (url : Url) : Result AppError SocketAddr :=
  match url_host_str url with
  | None => Err (bad_request "preview URL has no host")
  | Some host =>
      if eq_ignore_ascii_case host (rs "localhost") || ends_with (rs ".localhost") host then
        Err (forbidden "preview host is not public")
      else
        let port := default 80 (url_port_or_known_default url) in
        match lookup_host host port with
        | None => Err (bad_request "preview host could not be resolved")
        | Some addresses =>
            match select_public None addresses with
            | Err e => Err e
            | Ok None => Err (bad_request "preview host could not be resolved")
            | Ok (Some address) => Ok address
            end
        end
  end.
End Preview.

(** ** The page *)

(** What the [scraper] crate selects: the text nodes of the first [title], and
    the attributes of every [meta]. *)
Class HtmlCrate := {
  html_title : rstr -> option (list rstr);
  html_metas : rstr -> list (list (rstr * rstr))
}.
Definition attr (attributes : list (rstr * rstr)) (name : rstr) : option rstr :=
  snd <$> first_row (fun a => a.1 ≟ name) attributes.

Record PreviewMetadata := mkPreviewMetadata {
  title : option rstr; description : option rstr; image_url : option rstr
}.

Fixpoint join_with (sep : rstr) (words : list rstr) : rstr :=
  match words with
  | [] => []
  | [w] => w
  | w :: ws => w ++ sep ++ join_with sep ws
  end.

Definition to_ascii_lowercase (s : rstr) : rstr := map ascii_lower s.

Section Metadata.
Context {U : UrlCrate} {H : HtmlCrate}.

Definition absolute_image (base_url : Url) (content : rstr) : option rstr :=
  match url_join base_url (trim content) with
  | Some url => if (url_scheme url ≟ rs "http") || (url_scheme url ≟ rs "https")
                then Some (url_as_str url) else None
  | None => None
  end.
(** One turn of the loop over the [meta] elements. *)
Definition meta_step (base_url : Url) (found : option rstr * option rstr) (attributes : list (rstr * rstr)) :
    option rstr * option rstr :=
  let key := to_ascii_lowercase
               (match attr attributes (rs "property") with
                | Some k => k | None => default [] (attr attributes (rs "name")) end) in
  match attr attributes (rs "content") with
  | None => found
  | Some content =>
      let '(description, image) := found in
      (if is_none description && ((key ≟ rs "description") || (key ≟ rs "og:description"))
       then bounded_text content 500 else description,
       if is_none image && (key ≟ rs "og:image") then absolute_image base_url content else image)
  end.
Definition preview_metadata (html : rstr) (base_url : Url) : PreviewMetadata :=
  let title := match html_title html with
               | Some texts => bounded_text (join_with (rs " ") texts) 300 | None => None end in
  let '(description, image) := fold_left (meta_step base_url) (html_metas html) (None, None) in
  mkPreviewMetadata title description image.
End Metadata.

(** ** The handler *)

Definition PREVIEW_BYTES : Z := 256 * 1024.

Fixpoint read_preview (data : bytes) (chunks : list (Result rstr bytes)) : Result AppError bytes :=
  match chunks with
  | [] => Ok data
  | Err _ :: _ => Err (service_unavailable "preview fetch failed")
  | Ok chunk :: rest =>
      if PREVIEW_BYTES <? Z.of_nat (length data) + Z.of_nat (length chunk)
      then Err (bad_request "preview target is too large")
      else read_preview (data ++ chunk) rest
  end.

Record PreviewResponse := mkPreviewResponse { pv_url : rstr; pv_metadata : PreviewMetadata }.

Section Handler.
Context {K : Type} {V : Valkey K} {T : UuidText} {J : JsonText} {U : UrlCrate} {H : HtmlCrate}.
Context (lookup_host : rstr -> Z -> option (list SocketAddr)).
(** The client built for one address, and [String::from_utf8_lossy]. *)
Context (fetch : Url -> SocketAddr -> Result rstr HttpResponse) (from_utf8_lossy : bytes -> rstr).
Context (client : Result rstr unit).

Definition fetch_preview (url : Url) (address : SocketAddr) : Result AppError PreviewResponse :=
  match client, fetch url address with
  | Err _, _ => Err (service_unavailable "preview client unavailable")
  | Ok _, Err _ => Err (service_unavailable "preview fetch failed")
  | Ok _, Ok response =>
      if negb (is_success (http_status response)) then
        Err (bad_request "preview target was not successful")
      else if PREVIEW_BYTES <? default 0 (http_content_length response) then
        Err (bad_request "preview target is too large")
      else match read_preview [] (http_chunks response) with
           | Err e => Err e
           | Ok body => Ok (mkPreviewResponse (url_as_str url) (preview_metadata (from_utf8_lossy body) url))
           end
  end.

Definition link_preview (headers : HeaderMap) (raw : rstr) : M K AppError PreviewResponse :=
  load_session headers ;;
  url <- lift (validate_preview_url raw) ;;
  preview_address <- lift (ensure_public_preview_host lookup_host url) ;;
  lift (fetch_preview url preview_address).
End Handler.

(** ** Facts *)

Section PreviewFacts.
Lemma select_public_ok selected addresses r :
  select_public selected addresses = Ok r ->
  (forall address, In address addresses -> is_public_ip address.1 = true)
  /\ r = match selected with Some a => Some a | None => head addresses end.
Proof.
  revert selected. induction addresses as [|a rest IH]; intros selected; simpl.
  - intros [= <-]. split; [done|]. by destruct selected.
  - destruct (is_public_ip a.1) eqn:E; simpl; [|done]. intros H. apply IH in H as [Hp ->].
    split; [by intros b [<-|Hin]; auto|]. by destruct selected.
Qed.

Lemma read_preview_ok data chunks out :
  read_preview data chunks = Ok out -> Z.of_nat (length data) <= PREVIEW_BYTES ->
  Z.of_nat (length out) <= PREVIEW_BYTES.
Proof.
  revert data. induction chunks as [|[chunk|] chunks IH]; intros data; simpl; [by intros [= <-]| |done].
  destruct (_ <? _) eqn:E; [done|]. intros H Hd. apply (IH _ H). rewrite length_app. lia.
Qed.
End PreviewFacts.

(** ** What may be fetched *)

(** The addresses the check means to keep out, written as blocks. *)
Definition v4_special (a b c d : Z) : Prop :=
  a = 127 \/ a = 10 \/ (a = 172 /\ 16 <= b <= 31) \/ (a = 192 /\ b = 168) \/ (a = 169 /\ b = 254)
  \/ (a = 0 /\ b = 0 /\ c = 0 /\ d = 0) \/ 224 <= a <= 239.
(** [fc00::/7], [fe80::/10] and [ff00::/8] *)
Definition v6_special (s0 : Z) : Prop :=
  64512 <= s0 <= 65023 \/ 65152 <= s0 <= 65215 \/ 65280 <= s0 <= 65535.
(** An IPv4 address counts however it is written: alone, as [::ffff:a.b.c.d] or
    as [::a.b.c.d]. *)
Definition Unspecial (ip : IpAddr) : Prop :=
  match ip with
  | V4 a b c d => ~ v4_special a b c d
  | V6 s0 s1 s2 s3 s4 s5 s6 s7 =>
      (forall a b c d, 0 <= a < 256 -> 0 <= b < 256 -> 0 <= c < 256 -> 0 <= d < 256 ->
         s0 = 0 -> s1 = 0 -> s2 = 0 -> s3 = 0 -> s4 = 0 -> s5 = 0 \/ s5 = 65535 ->
         s6 = 256 * a + b -> s7 = 256 * c + d -> ~ v4_special a b c d)
      /\ (0 <= s0 < 65536 -> ~ v6_special s0)
  end.

(** What a request for [raw] may fetch: an HTTP URL without credentials, whose
    host is not this machine by name, at the first address the host resolves to,
    none of its addresses being special. *)
Definition PreviewTarget {U : UrlCrate} (lookup_host : rstr -> Z -> option (list SocketAddr))
    (raw : rstr) (url : Url) (address : SocketAddr) : Prop :=
  url_parse raw = Some url /\ len raw <= 2048
  /\ (url_scheme url = rs "http" \/ url_scheme url = rs "https")
  /\ url_username url = [] /\ url_password url = None
  /\ exists host addresses, url_host_str url = Some host
       /\ eq_ignore_ascii_case host (rs "localhost") = false /\ ends_with (rs ".localhost") host = false
       /\ lookup_host host (default 80 (url_port_or_known_default url)) = Some addresses
       /\ head addresses = Some address
       /\ forall a, In a addresses -> Unspecial a.1.

Section Targets.
Lemma v4_is_public_spec a b c d : v4_is_public a b c d = true <-> ~ v4_special a b c d.
Proof.
  unfold v4_is_public, v4_is_loopback, v4_is_private, v4_is_link_local, v4_is_unspecified,
    v4_is_multicast, v4_special. lia.
Qed.

(** The masks of the 16-bit first segment are the blocks. *)
Definition masked (s0 : Z) : bool :=
  v6_is_unique_local s0 || v6_is_unicast_link_local s0 || v6_is_multicast s0.
Definition in_blocks (s0 : Z) : bool :=
  ((64512 <=? s0) && (s0 <=? 65023)) || ((65152 <=? s0) && (s0 <=? 65215)) || (65280 <=? s0).
Lemma land_block s n k :
  0 <= n -> 0 <= k -> 0 <= s < 2 ^ (n + k) -> Z.land s (Z.shiftl (Z.ones k) n) = 2 ^ n * (s / 2 ^ n).
Proof.
  intros Hn Hk Hs. rewrite Z.mul_comm, <- Z.shiftl_mul_pow2, <- Z.shiftr_div_pow2 by done.
  apply Z.bits_inj'. intros i Hi. rewrite Z.land_spec, !Z.shiftl_spec by done.
  destruct (Z.ltb_spec i n); [by rewrite !(Z.testbit_neg_r _ (i - n)), andb_false_r by lia|].
  rewrite Z.shiftr_spec by lia. replace (i - n + n) with i by lia. rewrite Z.testbit_ones by done.
  destruct (Z.ltb_spec (i - n) k); [rewrite (proj2 (Z.leb_le 0 (i - n))) by lia; by rewrite andb_true_r|].
  rewrite andb_false_r, andb_false_r. symmetry. destruct (decide (s = 0)) as [->|]; [apply Z.testbit_0_l|].
  apply Z.bits_above_log2; [lia|]. apply Z.log2_lt_pow2; [lia|].
  apply (Z.lt_le_trans _ (2 ^ (n + k))); [lia|]. apply Z.pow_le_mono_r; lia.
Qed.
Lemma masked_blocks s0 : 0 <= s0 < 65536 -> masked s0 = in_blocks s0.
Proof.
  intros Hs. unfold masked, v6_is_unique_local, v6_is_unicast_link_local, v6_is_multicast.
  change 65024 with (Z.shiftl (Z.ones 7) 9). change 65472 with (Z.shiftl (Z.ones 10) 6).
  change 65280 with (Z.shiftl (Z.ones 8) 8) at 1. rewrite !land_block by (simpl; lia).
  change (Z.shiftl (Z.ones 8) 8) with 65280. unfold in_blocks. simpl Z.pow.
  Z.to_euclidean_division_equations; lia.
Qed.

Lemma is_public_unspecial ip : is_public_ip ip = true -> Unspecial ip.
Proof.
  destruct ip as [a b c d|s0 s1 s2 s3 s4 s5 s6 s7]; simpl; [apply v4_is_public_spec|]. intros H. split.
  - intros a b c d Ha Hb Hc Hd -> -> -> -> -> H5 -> ->. apply v4_is_public_spec.
    unfold to_ipv4 in H. replace (_ && _) with true in H by (destruct H5 as [->| ->]; reflexivity).
    replace ((256 * a + b) / 256) with a in H by (Z.to_euclidean_division_equations; lia).
    replace ((256 * a + b) mod 256) with b in H by (Z.to_euclidean_division_equations; lia).
    replace ((256 * c + d) / 256) with c in H by (Z.to_euclidean_division_equations; lia).
    by replace ((256 * c + d) mod 256) with d in H by (Z.to_euclidean_division_equations; lia).
  - intros Hs Hx. assert (in_blocks s0 = true) as Hb by (unfold in_blocks, v6_special in *; lia).
    unfold to_ipv4 in H. destruct (s0 =? 0) eqn:E0; [unfold v6_special in Hx; lia|]. cbn [andb] in H.
    rewrite <- masked_blocks in Hb by done. unfold masked in Hb.
    destruct (v6_is_unique_local s0), (v6_is_unicast_link_local s0), (v6_is_multicast s0),
      (v6_is_loopback _ _ _ _ _ _ _ _), (v6_is_unspecified _ _ _ _ _ _ _ _); done.
Qed.

Lemma preview_target_checked {U : UrlCrate} lookup_host raw url address :
  validate_preview_url raw = Ok url -> ensure_public_preview_host lookup_host url = Ok address ->
  PreviewTarget lookup_host raw url address.
Proof.
  unfold validate_preview_url, PreviewTarget. intros Hv Hr. destruct (2048 <? len raw) eqn:El; [done|].
  destruct (url_parse raw) as [u|]; [|done].
  destruct (_ || _) eqn:E in Hv; [done|]. injection Hv as ->.
  rewrite !orb_false_iff in E. destruct E as (((Hs & _) & Hp) & Hu).
  apply negb_false_iff, orb_true_iff in Hs. rewrite !bool_decide_eq_true in Hs.
  apply negb_false_iff in Hu. rewrite Hu in Hp. simpl in Hp.
  split; [done|]. split; [lia|]. split; [done|].
  split; [by destruct (url_username url)|]. split; [by destruct (url_password url)|].
  unfold ensure_public_preview_host in Hr. destruct (url_host_str url) as [host|]; [|done].
  destruct (_ || _) eqn:Eh in Hr; [done|]. apply orb_false_iff in Eh as [Eh1 Eh2].
  destruct (lookup_host _ _) as [addresses|] eqn:Ea; [|done].
  destruct (select_public None addresses) as [[r|]|] eqn:Es; [|done..]. injection Hr as ->.
  apply select_public_ok in Es as [Hpub Hh]. exists host, addresses.
  repeat (split; [done|]). intros a Hin. by apply is_public_unspecial, Hpub.
Qed.

(** A body read in full is the chunks, one after the other. *)
Lemma read_preview_chunks data chunks out :
  read_preview data chunks = Ok out -> exists bodies, chunks = map Ok bodies /\ out = data ++ concat bodies.
Proof.
  revert data. induction chunks as [|[chunk|] chunks IH]; intros data; simpl; [|destruct (_ <? _); [done|]|done].
  - intros [= <-]. exists []. by rewrite app_nil_r.
  - intros H. apply IH in H as (bodies & -> & ->). exists (chunk :: bodies). by rewrite <- app_assoc.
Qed.
End Targets.


(** The check lets the IPv6 loopback address through: [::1] is read as the
    compatible address 0.0.0.1 before it is tested, so a host that resolves to
    [::1] alone is accepted and fetched. *)
Theorem preview_reaches_loopback {U : UrlCrate} lookup_host url host port
    (Hhost : url_host_str url = Some host) (Hport : url_port_or_known_default url = Some port)
    (Hname : eq_ignore_ascii_case host (rs "localhost") || ends_with (rs ".localhost") host = false)
    (Hdns : lookup_host host port = Some [(V6 0 0 0 0 0 0 0 1, port)]) :
  v6_is_loopback 0 0 0 0 0 0 0 1 = true
  /\ ensure_public_preview_host lookup_host url = Ok (V6 0 0 0 0 0 0 0 1, port).
Proof.
  split; [done|]. unfold ensure_public_preview_host. rewrite Hhost, Hname, Hport. simpl. by rewrite Hdns.
Qed.

(** ** Witnesses *)

(** A URL as scheme, host and path; everything parses to [http://example]. *)
Definition sample_set_path (p : rstr) (u : rstr * rstr * rstr) : rstr * rstr * rstr := (u.1, p).
#[local] Program Instance sample_urls : UrlCrate := {|
  Url := (rstr * rstr * rstr)%type;
  url_parse s := Some (rs "http", rs "example", s);
  url_as_str u := u.1.1 ++ u.1.2 ++ u.2;
  url_scheme u := u.1.1;
  url_host_str u := Some u.1.2;
  url_username u := [];
  url_password u := None;
  url_port_or_known_default u := Some 80;
  url_path u := u.2;
  url_set_path := sample_set_path;
  url_join u s := Some (u.1, s)
|}.
Solve All Obligations with done.

Definition sample_url (path : string) : @Url sample_urls := (rs "http", rs "example", rs path).
Definition sample_lookup (ip : IpAddr) (host : rstr) (port : Z) : option (list (IpAddr * Z)) :=
  Some [(ip, port)].

(** A page; every element of it is left out. *)
#[local] Instance sample_html : HtmlCrate := {| html_title s := Some [s]; html_metas s := [] |}.
Definition preview_world : World Keyspace := (sample_create (sample_env 5) (sample_world sample_db)).2.
(** The network: what answers at an address, and what answers at the others. *)
Definition sample_fetch (others : rstr) (u : @Url sample_urls) (address : SocketAddr) : Result rstr HttpResponse :=
  if (match address.1 with V4 93 184 216 34 => true | _ => false end)
  then Ok (mkHttpResponse 200 None [Ok [104; 105]])
  else Err others.
Notation preview_run ip others :=
  (link_preview (V := keyspace_valkey) (T := hyphenated_text) (J := coded_json) (U := sample_urls)
     (sample_lookup ip) (sample_fetch others) (fun body => body) (Ok tt)
     (session_cookie (T := hyphenated_text) (uuid_of 1000)) (rs "/page") (sample_env 900) preview_world)
  (only parsing).

Lemma preview_run_ok :
  (preview_run (V4 93 184 216 34) []).1
  = Ok (mkPreviewResponse (rs "httpexample/page") (mkPreviewMetadata (Some (rs "hi")) None None)).
Proof. vm_compute. reflexivity. Qed.


Lemma preview_reaches_loopback_witness :
  ensure_public_preview_host (sample_lookup (V6 0 0 0 0 0 0 0 1)) (sample_url "/")
  = Ok (V6 0 0 0 0 0 0 0 1, 80).
Proof.
  exact (proj2 (preview_reaches_loopback (U := sample_urls) (sample_lookup (V6 0 0 0 0 0 0 0 1))
    (sample_url "/") (rs "example") 80 eq_refl eq_refl eq_refl eq_refl)).
Defined.
