(* ===== verification/Routes.v ===== *)
(** * The HTTP surface

    [routes.rs] and [api/types.rs]: the requests the server takes, the handler
    each one reaches, and what holds of all of them. The extractors of axum are
    not modelled: a request carries its path segments, its query and its body
    already decoded, in the records of [api/types.rs]. *)
From Stdlib Require Import String.
From S2P Require Export Handler Admin NotifyApi Channels Members Media Files Discovery Preview.
From S2P Require Import Reference.
Open Scope m_scope.

(** ** Bodies and queries *)

Record CreateChannelRequest := mkCreateChannelRequest { cc_name : rstr }.
Record DirectConversationRequest := mkDirectConversationRequest { dc_user_id : Uuid }.
Record MemberRequest := mkMemberRequest { mr_user_id : Uuid }.
Record NotificationSubscriptionRequest := mkSubscriptionRequest {
  nr_endpoint : rstr; nr_p256dh : rstr; nr_auth : rstr
}.
Record ProfileUpdateRequest := mkProfileUpdateRequest {
  pr_display_name : option rstr; pr_custom_status : option rstr; pr_status_expires_at : option Z
}.
Record DraftUpdateRequest := mkDraftUpdateRequest { du_body : rstr }.
Record MessageReportRequest := mkMessageReportRequest { mrr_message_id : Uuid; mrr_reason : rstr }.
Record RegisterRequest := mkRegisterRequest { rg_email : rstr; rg_username : rstr; rg_password : rstr }.
Record LoginRequest := mkLoginRequest { lg_email : rstr; lg_password : rstr }.
Record RecoveryRequest := mkRecoveryRequest { rr_email : rstr }.
Record RecoveryResetRequest := mkRecoveryResetRequest { rs_token : rstr; rs_password : rstr }.
Record AccountUpdateRequest := mkAccountUpdateRequest { au_username : rstr }.
Record PasswordChangeRequest := mkPasswordChangeRequest {
  pc_current_password : rstr; pc_new_password : rstr
}.
Record UserListQuery := mkUserListQuery { ul_q : option rstr; ul_after : option Uuid; ul_limit : option Z }.
Record LimitQuery := mkLimitQuery { lq_limit : option Z }.
Record BanListQuery := mkBanListQuery { bl_user : option Uuid; bl_limit : option Z }.
Record ChannelListQuery := mkChannelListQuery { cl_q : option rstr; cl_limit : option Z }.
Record AuditListQuery := mkAuditListQuery {
  al_actor : option Uuid; al_action : option rstr; al_target : option Uuid; al_limit : option Z
}.
Record ReportListQuery := mkReportListQuery { rl_status : option rstr; rl_limit : option Z }.
Record UserSearchQuery := mkUserSearchQuery { usq_q : option rstr }.
Record LinkPreviewQuery := mkLinkPreviewQuery { lp_url : rstr }.
Record PasswordResetRequest := mkPasswordResetRequest { prr_password : rstr }.
Record ModerationRequest := mkModerationRequest { mo_reason : option rstr }.
Record BulkModerationRequest := mkBulkModerationRequest {
  bm_ids : list Uuid; bm_action : rstr; bm_reason : option rstr
}.
Record InviteLinkRequest := mkInviteLinkRequest { ir_expires_at : option Z; ir_max_uses : option Z }.
Record BanRequest := mkBanRequest {
  br_user_id : Uuid; br_channel : option rstr; br_reason : rstr; br_expires_at : option Z
}.

(** ** Requests *)

Variant Method := GET | POST | PATCH | PUT | DELETE.

(** One constructor per route and method, in the order of [routes::build]. *)
Inductive Request :=
  | GetHealth | GetLive | GetReady | GetStartup | GetMetrics
  | PostRegister (body : RegisterRequest)
  | PostLogin (body : LoginRequest)
  | PostRecoveryRequest (body : RecoveryRequest)
  | PostRecoveryReset (body : RecoveryResetRequest)
  | PostLogout | GetMe
  | PatchAccount (body : AccountUpdateRequest)
  | DeleteAccount | GetAccountExport
  | PatchPassword (body : PasswordChangeRequest)
  | GetSessions
  | DeleteSession (id : Uuid)
  | GetProfile
  | PatchProfile (body : ProfileUpdateRequest)
  | GetAdminUsers (query : UserListQuery)
  | PostAdminDisable (user : Uuid)
  | PostAdminEnable (user : Uuid)
  | DeleteAdminUser (user : Uuid)
  | PostAdminPasswordReset (user : Uuid) (body : PasswordResetRequest)
  | PostAdminInvalidateSessions (user : Uuid)
  | PostAdminRole (user : Uuid) (role : rstr)
  | DeleteAdminRole (user : Uuid) (role : rstr)
  | GetAdminAudit (query : AuditListQuery)
  | GetAdminRoles | GetAdminPermissions
  | GetAdminParticipants (channel : rstr)
  | GetAdminOperations
  | GetAdminBans (query : BanListQuery)
  | PostAdminBan (body : BanRequest)
  | DeleteAdminBan (id : Uuid)
  | GetAdminChannels (query : ChannelListQuery)
  | PostAdminChannel (body : ChannelAdminRequest)
  | PatchAdminChannel (id : Uuid) (body : ChannelAdminRequest)
  | PostAdminChannelState (id : Uuid) (action : rstr)
  | GetAdminMessages (query : MessageAdminQuery)
  | PostAdminBulkModerate (body : BulkModerationRequest)
  | GetAdminMessageHistory (id : Uuid)
  | PostAdminModerate (id : Uuid) (action : rstr) (body : ModerationRequest)
  | GetChannels
  | PostChannel (body : CreateChannelRequest)
  | GetUnread
  | GetUserSearch (query : UserSearchQuery)
  | GetMessageSearch (query : MessageSearchQuery)
  | GetLinkPreview (query : LinkPreviewQuery)
  | GetSavedMessages (query : LimitQuery)
  | GetMessage (id : Uuid)
  | GetPermalink (id : Uuid)
  | PostSave (id : Uuid)
  | DeleteSave (id : Uuid)
  | PostReport (body : MessageReportRequest)
  | GetReports (query : ReportListQuery)
  | PostReportAction (id : Uuid) (action : rstr)
  | PostFile (body : Multipart)
  | GetFile (id : Uuid)
  | GetNotifications (query : LimitQuery)
  | GetNotificationPreferences
  | PatchNotificationPreferences (body : NotificationPreferencesUpdate)
  | GetNotificationConfig
  | GetSubscriptions
  | PostSubscription (body : NotificationSubscriptionRequest)
  | DeleteSubscription (id : Uuid)
  | PostNotificationRead (id : Uuid)
  | GetConversations
  | PostDirectConversation (body : DirectConversationRequest)
  | PostPrivateChannel (body : CreateChannelRequest)
  | GetMembers (name : rstr)
  | PostMember (name : rstr) (body : MemberRequest)
  | DeleteMember (name : rstr) (user_id : Uuid)
  | DeleteMembership (name : rstr)
  | PostOwner (name : rstr) (body : MemberRequest)
  | PostModerator (name : rstr) (user_id : Uuid)
  | DeleteModerator (name : rstr) (user_id : Uuid)
  | PostFavorite (name : rstr)
  | DeleteFavorite (name : rstr)
  | GetFavorites
  | GetDraft (channel : rstr)
  | PutDraft (channel : rstr) (body : DraftUpdateRequest)
  | DeleteDraft (channel : rstr)
  | PostInviteLink (name : rstr) (body : InviteLinkRequest)
  | PostAcceptInvite (token : rstr)
  | GetWebsocket.

(** The route of a request under [/api/v1]. *)
Definition endpoint (r : Request) : Method * string :=
  match r with
  | GetHealth => (GET, "/health") | GetLive => (GET, "/health/live")
  | GetReady => (GET, "/health/ready") | GetStartup => (GET, "/health/startup")
  | GetMetrics => (GET, "/metrics")
  | PostRegister _ => (POST, "/auth/register") | PostLogin _ => (POST, "/auth/login")
  | PostRecoveryRequest _ => (POST, "/auth/recovery/request")
  | PostRecoveryReset _ => (POST, "/auth/recovery/reset")
  | PostLogout => (POST, "/auth/logout") | GetMe => (GET, "/auth/me")
  | PatchAccount _ => (PATCH, "/account") | DeleteAccount => (DELETE, "/account")
  | GetAccountExport => (GET, "/account/export") | PatchPassword _ => (PATCH, "/account/password")
  | GetSessions => (GET, "/account/sessions") | DeleteSession _ => (DELETE, "/account/sessions/{id}")
  | GetProfile => (GET, "/profile") | PatchProfile _ => (PATCH, "/profile")
  | GetAdminUsers _ => (GET, "/admin/users")
  | PostAdminDisable _ => (POST, "/admin/users/{user}/disable")
  | PostAdminEnable _ => (POST, "/admin/users/{user}/enable")
  | DeleteAdminUser _ => (DELETE, "/admin/users/{user}")
  | PostAdminPasswordReset _ _ => (POST, "/admin/users/{user}/password-reset")
  | PostAdminInvalidateSessions _ => (POST, "/admin/users/{user}/invalidate-sessions")
  | PostAdminRole _ _ => (POST, "/admin/users/{user}/roles/{role}")
  | DeleteAdminRole _ _ => (DELETE, "/admin/users/{user}/roles/{role}")
  | GetAdminAudit _ => (GET, "/admin/audit") | GetAdminRoles => (GET, "/admin/roles")
  | GetAdminPermissions => (GET, "/admin/permissions")
  | GetAdminParticipants _ => (GET, "/admin/participants/{channel}")
  | GetAdminOperations => (GET, "/admin/operations")
  | GetAdminBans _ => (GET, "/admin/bans") | PostAdminBan _ => (POST, "/admin/bans")
  | DeleteAdminBan _ => (DELETE, "/admin/bans/{id}")
  | GetAdminChannels _ => (GET, "/admin/channels") | PostAdminChannel _ => (POST, "/admin/channels")
  | PatchAdminChannel _ _ => (PATCH, "/admin/channels/{id}")
  | PostAdminChannelState _ _ => (POST, "/admin/channels/{id}/{action}")
  | GetAdminMessages _ => (GET, "/admin/messages")
  | PostAdminBulkModerate _ => (POST, "/admin/messages/bulk-moderate")
  | GetAdminMessageHistory _ => (GET, "/admin/messages/{id}/history")
  | PostAdminModerate _ _ _ => (POST, "/admin/messages/{id}/{action}")
  | GetChannels => (GET, "/channels") | PostChannel _ => (POST, "/channels")
  | GetUnread => (GET, "/unread") | GetUserSearch _ => (GET, "/users/search")
  | GetMessageSearch _ => (GET, "/messages/search") | GetLinkPreview _ => (GET, "/link-preview")
  | GetSavedMessages _ => (GET, "/messages/saved") | GetMessage _ => (GET, "/messages/{id}")
  | GetPermalink _ => (GET, "/messages/{id}/permalink")
  | PostSave _ => (POST, "/messages/{id}/save") | DeleteSave _ => (DELETE, "/messages/{id}/save")
  | PostReport _ => (POST, "/reports") | GetReports _ => (GET, "/moderation/reports")
  | PostReportAction _ _ => (POST, "/moderation/reports/{id}/{action}")
  | PostFile _ => (POST, "/files") | GetFile _ => (GET, "/files/{id}")
  | GetNotifications _ => (GET, "/notifications")
  | GetNotificationPreferences => (GET, "/notifications/preferences")
  | PatchNotificationPreferences _ => (PATCH, "/notifications/preferences")
  | GetNotificationConfig => (GET, "/notifications/config")
  | GetSubscriptions => (GET, "/notifications/subscriptions")
  | PostSubscription _ => (POST, "/notifications/subscriptions")
  | DeleteSubscription _ => (DELETE, "/notifications/subscriptions/{id}")
  | PostNotificationRead _ => (POST, "/notifications/{id}/read")
  | GetConversations => (GET, "/conversations")
  | PostDirectConversation _ => (POST, "/conversations/direct")
  | PostPrivateChannel _ => (POST, "/channels/private")
  | GetMembers _ => (GET, "/channels/{name}/members")
  | PostMember _ _ => (POST, "/channels/{name}/members")
  | DeleteMember _ _ => (DELETE, "/channels/{name}/members/{user_id}")
  | DeleteMembership _ => (DELETE, "/channels/{name}/membership")
  | PostOwner _ _ => (POST, "/channels/{name}/owner")
  | PostModerator _ _ => (POST, "/channels/{name}/members/{user_id}/moderator")
  | DeleteModerator _ _ => (DELETE, "/channels/{name}/members/{user_id}/moderator")
  | PostFavorite _ => (POST, "/channels/{name}/favorite")
  | DeleteFavorite _ => (DELETE, "/channels/{name}/favorite")
  | GetFavorites => (GET, "/favorites")
  | GetDraft _ => (GET, "/drafts/{channel}") | PutDraft _ _ => (PUT, "/drafts/{channel}")
  | DeleteDraft _ => (DELETE, "/drafts/{channel}")
  | PostInviteLink _ _ => (POST, "/channels/{name}/invite-links")
  | PostAcceptInvite _ => (POST, "/invite-links/{token}/accept")
  | GetWebsocket => (GET, "/ws")
  end%string.

(** ** Dispatch *)

(** What a handler has of the process besides the world: its environment
    variables, its counters, and the services that answer by themselves. *)
Record AppState {U : UrlCrate} (K : Type) := mkAppState {
  st_dummy_hash : rstr;
  st_cookie_secure : bool;
  st_cors_origin : option rstr;
  st_vapid_public_key : option rstr;
  st_recovery_notifier : RecoveryNotifier;
  st_scanner : FileScanner;
  st_shutting_down : bool;
  st_active_websockets : Z;
  st_prometheus : Z -> option Z -> option Z -> rstr;
  st_cache_health : M K RedisError unit;
  st_valid_header : rstr -> bool;
  st_decimal : Z -> rstr;
  st_lookup_host : rstr -> Z -> option (list SocketAddr);
  st_fetch : Url -> SocketAddr -> Result rstr HttpResponse;
  st_from_utf8_lossy : list Z -> rstr;
  st_client : Result rstr unit
}.
Arguments mkAppState {U K}. Arguments st_dummy_hash {U K}. Arguments st_cookie_secure {U K}.
Arguments st_cors_origin {U K}. Arguments st_vapid_public_key {U K}.
Arguments st_recovery_notifier {U K}. Arguments st_scanner {U K}. Arguments st_shutting_down {U K}.
Arguments st_active_websockets {U K}. Arguments st_prometheus {U K}. Arguments st_cache_health {U K}.
Arguments st_valid_header {U K}. Arguments st_decimal {U K}. Arguments st_lookup_host {U K}.
Arguments st_fetch {U K}. Arguments st_from_utf8_lossy {U K}. Arguments st_client {U K}.

(** The body of an answer, whatever its type. *)
Inductive Reply : Type := mkReply : forall A : Type, A -> Reply.
Arguments mkReply {A}.

Section Routes.
Context {K : Type} {V : Valkey K} {T : UuidText} {J : JsonText} {U : Unicode} {C : Crypto}.
Context {L : UrlText} {X : UrlCrate} {H : HtmlCrate} {S : TextSearch}.
Implicit Types (w : World K).

Definition reply {A} (m : M K AppError A) : M K AppError Reply := a <- m ;; ret (mkReply a).

Definition serve (st : AppState K) (headers : HeaderMap) (r : Request) : M K AppError Reply :=
  match r with
  | GetHealth | GetLive | GetStartup => ret (mkReply (rs "ok"))
  | GetReady => reply (attempt (ready (st_shutting_down st) (st_cache_health st)))
  | GetMetrics => reply (metrics (st_active_websockets st) (st_prometheus st))
  | PostRegister b => reply (register (st_cookie_secure st) headers (rg_email b) (rg_username b) (rg_password b))
  | PostLogin b => reply (login (st_dummy_hash st) (st_cookie_secure st) headers (lg_email b) (lg_password b))
  | PostRecoveryRequest b => reply (request_recovery (st_recovery_notifier st) (rr_email b))
  | PostRecoveryReset b => reply (reset_recovery (rs_token b) (rs_password b))
  | PostLogout => reply (logout headers)
  | GetMe => reply (me headers)
  | PatchAccount b => reply (update_account headers (au_username b))
  | DeleteAccount => reply (delete_account headers)
  | GetAccountExport => reply (export_account headers)
  | PatchPassword b => reply (change_password headers (pc_current_password b) (pc_new_password b))
  | GetSessions => reply (list_sessions headers)
  | DeleteSession id => reply (revoke_session headers id)
  | GetProfile => reply (profile headers)
  | PatchProfile b =>
      reply (update_profile headers (pr_display_name b) (pr_custom_status b) (pr_status_expires_at b))
  | GetAdminUsers q => reply (admin_users headers (ul_q q) (ul_after q) (ul_limit q))
  | PostAdminDisable user => reply (admin_disable_user headers user)
  | PostAdminEnable user => reply (admin_enable_user headers user)
  | DeleteAdminUser user => reply (admin_delete_user headers user)
  | PostAdminPasswordReset user b => reply (admin_reset_password headers user (prr_password b))
  | PostAdminInvalidateSessions user => reply (admin_invalidate_sessions headers user)
  | PostAdminRole user role => reply (admin_assign_role headers user role)
  | DeleteAdminRole user role => reply (admin_remove_role headers user role)
  | GetAdminAudit q => reply (admin_audit headers (al_actor q) (al_action q) (al_target q) (al_limit q))
  | GetAdminRoles => reply (admin_roles headers)
  | GetAdminPermissions => reply (admin_permissions headers)
  | GetAdminParticipants channel => reply (admin_participants headers channel)
  | GetAdminOperations => reply (admin_operations (st_active_websockets st) headers)
  | GetAdminBans q => reply (admin_bans headers (bl_user q) (bl_limit q))
  | PostAdminBan b =>
      reply (admin_create_ban headers (br_user_id b) (br_channel b) (br_reason b) (br_expires_at b))
  | DeleteAdminBan id => reply (admin_revoke_ban headers id)
  | GetAdminChannels q => reply (admin_channels headers (cl_q q) (cl_limit q))
  | PostAdminChannel b => reply (admin_create_channel headers b)
  | PatchAdminChannel id b => reply (admin_update_channel headers id b)
  | PostAdminChannelState id action => reply (admin_channel_state headers id action)
  | GetAdminMessages q => reply (admin_messages headers q)
  | PostAdminBulkModerate b => reply (admin_bulk_moderate headers (bm_ids b) (bm_action b) (bm_reason b))
  | GetAdminMessageHistory id => reply (admin_message_history headers id)
  | PostAdminModerate id action b => reply (admin_moderate_message headers id action (mo_reason b))
  | GetChannels => reply (list_channels_handler headers)
  | PostChannel b => reply (create_channel_handler headers (cc_name b))
  | GetUnread => reply (list_unread headers)
  | GetUserSearch q => reply (search_users headers (usq_q q))
  | GetMessageSearch q => reply (search_messages headers q)
  | GetLinkPreview q =>
      reply (link_preview (st_lookup_host st) (st_fetch st) (st_from_utf8_lossy st) (st_client st)
               headers (lp_url q))
  | GetSavedMessages q => reply (list_saved_messages headers (lq_limit q))
  | GetMessage id => reply (get_message headers id)
  | GetPermalink id => reply (message_permalink headers id)
  | PostSave id => reply (save_message_handler headers id)
  | DeleteSave id => reply (unsave_message headers id)
  | PostReport b => reply (report_message headers (mrr_message_id b) (mrr_reason b))
  | GetReports q => reply (list_message_reports headers (rl_status q) (rl_limit q))
  | PostReportAction id action => reply (update_message_report headers id action)
  | PostFile b => reply (upload_file (st_scanner st) headers b)
  | GetFile id => reply (download_file (st_valid_header st) (st_decimal st) headers id)
  | GetNotifications q => reply (list_notifications headers (lq_limit q))
  | GetNotificationPreferences => reply (notification_preferences_view headers)
  | PatchNotificationPreferences b => reply (update_notification_preferences headers b)
  | GetNotificationConfig => reply (notification_config (st_vapid_public_key st) headers)
  | GetSubscriptions => reply (notification_subscriptions_view headers)
  | PostSubscription b =>
      reply (save_notification_subscription headers (nr_endpoint b) (nr_p256dh b) (nr_auth b))
  | DeleteSubscription id => reply (delete_notification_subscription headers id)
  | PostNotificationRead id => reply (mark_notification_read headers id)
  | GetConversations => reply (list_conversations headers)
  | PostDirectConversation b => reply (open_direct_conversation headers (dc_user_id b))
  | PostPrivateChannel b => reply (create_private_channel headers (cc_name b))
  | GetMembers name => reply (list_channel_members headers name)
  | PostMember name b => reply (invite_channel_member headers name (mr_user_id b))
  | DeleteMember name user => reply (remove_channel_member headers name user)
  | DeleteMembership name => reply (leave_channel headers name)
  | PostOwner name b => reply (transfer_channel_ownership headers name (mr_user_id b))
  | PostModerator name user => reply (promote_channel_moderator headers name user)
  | DeleteModerator name user => reply (demote_channel_moderator headers name user)
  | PostFavorite name => reply (favorite_channel headers name)
  | DeleteFavorite name => reply (unfavorite_channel headers name)
  | GetFavorites => reply (list_favorite_channels headers)
  | GetDraft channel => reply (get_draft headers channel)
  | PutDraft channel b => reply (update_draft headers channel (du_body b))
  | DeleteDraft channel => reply (delete_draft headers channel)
  | PostInviteLink name b => reply (create_invite_link headers name (ir_expires_at b) (ir_max_uses b))
  | PostAcceptInvite token => reply (accept_invite_link headers token)
  | GetWebsocket => reply (websocket headers (st_cors_origin st))
  end.
End Routes.

(** ** Cross-origin requests *)

(** [CorsLayer]: [None] is [Any]. *)
Record CorsLayer := mkCorsLayer {
  allow_origin : option rstr; allow_methods : option rstr; allow_headers : option rstr;
  allow_credentials : bool
}.
Definition any_origin : CorsLayer := mkCorsLayer None None None false.
(** [parse] says whether the text is a header value. *)
Definition cors (parse : rstr -> bool) (cors_origin : option rstr) : CorsLayer :=
  match cors_origin with
  | Some origin => if parse origin then mkCorsLayer (Some origin) None None true else any_origin
  | None => any_origin
  end.

(** Credentials are allowed together with any header and any method, which the
    CORS protocol does not let a server combine. *)
Lemma cors_credentials_with_wildcards parse origin :
  parse origin = true ->
  allow_credentials (cors parse (Some origin)) = true
  /\ allow_headers (cors parse (Some origin)) = None /\ allow_methods (cors parse (Some origin)) = None.
Proof. unfold cors. by intros ->. Qed.

(** ** Guards

    How a handler starts decides what it does with a request that has no
    session, no token or no permission. *)

Section Guards.
Context {K : Type} {V : Valkey K} {T : UuidText} {J : JsonText}.
Implicit Types (w : World K).

Definition starts_session (headers : HeaderMap) {A} (m : M K AppError A) : Prop :=
  forall env w e w1, load_session headers env w = (Err e, w1) -> m env w = (Err e, w1).
Definition starts_csrf (headers : HeaderMap) {A} (m : M K AppError A) : Prop :=
  forall env w s w1, load_session headers env w = (Ok s, w1) ->
    is_ok (require_csrf headers s env w1).1 = false -> m env w = (Err (bad_request "invalid csrf token"), w1).
Definition starts_permission (headers : HeaderMap) (p : string) {A} (m : M K AppError A) : Prop :=
  forall env w s w1, load_session headers env w = (Ok s, w1) ->
    has_permission (permissions (session_user s)) (rs p) = false ->
    m env w = (Err (forbidden "permission denied"), w1)
    \/ m env w = (Err (bad_request "invalid csrf token"), w1).

Lemma require_csrf_cases headers s env w :
  require_csrf headers s env w = (Ok tt, w)
  \/ require_csrf headers s env w = (Err (bad_request "invalid csrf token"), w).
Proof.
  unfold require_csrf, bind, ok_or. destruct (header_str headers CSRF_HEADER); [|by right].
  cbn [ret]. unfold ret at 1. destruct (constant_time_compare _ _); [by left|by right].
Qed.

Lemma require_permission_refuses user p env w :
  has_permission (permissions user) p = false ->
  require_permission user p env w = (Err (forbidden "permission denied"), w).
Proof. unfold require_permission. by intros ->. Qed.

Lemma starts_session_load headers : starts_session headers (load_session headers).
Proof. by intros env w e w1. Qed.
Lemma starts_session_bind headers {A B} (m : M K AppError A) (k : A -> M K AppError B) :
  starts_session headers m -> starts_session headers (bind m k).
Proof. intros Hm env w e w1 Hl. apply run_bind_err. by apply Hm. Qed.

Lemma starts_csrf_here headers {B} (k : Session -> unit -> M K AppError B) :
  starts_csrf headers (s <- load_session headers ;; bind (require_csrf headers s) (k s)).
Proof.
  intros env w s w1 Hl Hc. rewrite (run_bind_ok _ _ _ _ _ _ Hl). apply run_bind_err.
  destruct (require_csrf_cases headers s env w1) as [E|E]; [by rewrite E in Hc|done].
Qed.
Lemma starts_csrf_bind headers {A B} (m : M K AppError A) (k : A -> M K AppError B) :
  starts_csrf headers m -> starts_csrf headers (bind m k).
Proof. intros Hm env w s w1 Hl Hc. apply run_bind_err. by eapply Hm. Qed.

Lemma starts_permission_here headers p {B} (k : Session -> unit -> M K AppError B) :
  starts_permission headers p
    (s <- load_session headers ;; bind (require_permission (session_user s) (rs p)) (k s)).
Proof.
  intros env w s w1 Hl Hp. left. rewrite (run_bind_ok _ _ _ _ _ _ Hl). apply run_bind_err.
  by apply require_permission_refuses.
Qed.
Lemma starts_permission_read headers p :
  starts_permission headers p (s <- load_session headers ;; require_permission (session_user s) (rs p)).
Proof.
  intros env w s w1 Hl Hp. left. rewrite (run_bind_ok _ _ _ _ _ _ Hl). by apply require_permission_refuses.
Qed.
Lemma starts_permission_csrf headers p {B} (k : Session -> unit -> M K AppError B) :
  starts_permission headers p
    (s <- load_session headers ;; require_csrf headers s ;;
     bind (require_permission (session_user s) (rs p)) (k s)).
Proof.
  intros env w s w1 Hl Hp. rewrite !(run_bind_ok _ _ _ _ _ _ Hl).
  destruct (require_csrf_cases headers s env w1) as [E|E].
  - left. rewrite (run_bind_ok _ _ _ _ _ _ E). apply run_bind_err. by apply require_permission_refuses.
  - right. by apply run_bind_err.
Qed.
Lemma starts_permission_bind headers p {A B} (m : M K AppError A) (k : A -> M K AppError B) :
  starts_permission headers p m -> starts_permission headers p (bind m k).
Proof.
  intros Hm env w s w1 Hl Hp. destruct (Hm env w s w1 Hl Hp); [left|right]; by apply run_bind_err.
Qed.
End Guards.

Ltac head_of m := lazymatch m with ?f _ => head_of f | _ => m end.
(** Unfold handlers until their first steps show. *)
Ltac guard_step :=
  first
    [ apply starts_session_load | apply starts_session_bind
    | apply starts_csrf_here | apply starts_csrf_bind
    | apply starts_permission_here | apply starts_permission_read | apply starts_permission_csrf
    | apply starts_permission_bind
    | match goal with
      | |- starts_session _ ?m => let h := head_of m in unfold h
      | |- starts_csrf _ ?m => let h := head_of m in unfold h
      | |- starts_permission _ _ ?m => let h := head_of m in unfold h
      end ].
Ltac guard_auto := repeat (cbv zeta; guard_step).

(** ** What a request needs *)

(** The requests that anyone may make. *)
Definition public (r : Request) : bool :=
  match r with
  | GetHealth | GetLive | GetReady | GetStartup | GetMetrics
  | PostRegister _ | PostLogin _ | PostRecoveryRequest _ | PostRecoveryReset _ => true
  | _ => false
  end.

(** The permission an operator needs. *)
Definition required (r : Request) : option string :=
  match r with
  | GetAdminUsers _ | GetAdminRoles | GetAdminPermissions | GetAdminParticipants _
  | GetAdminOperations => Some "users:read"
  | PostAdminDisable _ | PostAdminEnable _ | DeleteAdminUser _ | PostAdminPasswordReset _ _
  | PostAdminInvalidateSessions _ => Some "users:write"
  | PostAdminRole _ _ | DeleteAdminRole _ _ => Some "roles:write"
  | GetAdminAudit _ => Some "audit:read"
  | GetAdminChannels _ => Some "channels:read"
  | PostAdminChannel _ | PatchAdminChannel _ _ | PostAdminChannelState _ _ => Some "channels:write"
  | GetAdminBans _ | GetAdminMessages _ | GetAdminMessageHistory _ | GetReports _ => Some "moderation:read"
  | PostAdminBan _ | DeleteAdminBan _ | PostAdminBulkModerate _ | PostAdminModerate _ _ _
  | PostReportAction _ _ => Some "moderation:write"
  | PostFile _ => Some "chat:write"
  | _ => None
  end%string.

#[export] Instance is_websocket r : Decision (r = GetWebsocket).
Proof. destruct r; first [by left|by right]. Defined.
#[export] Instance is_preferences r : Decision (r = GetNotificationPreferences).
Proof. destruct r; first [by left|by right]. Defined.

Section Requirements.
Context {K : Type} {V : Valkey K} {T : UuidText} {J : JsonText} {U : Unicode} {C : Crypto}.
Context {L : UrlText} {X : UrlCrate} {H : HtmlCrate} {S : TextSearch}.
Implicit Types (w : World K) (st : AppState K).

Lemma serve_starts_session st headers r :
  public r = false -> r <> GetWebsocket -> starts_session headers (serve st headers r).
Proof. intros Hp Hw. destruct r; try discriminate Hp; try done; cbn [serve]; guard_auto. Qed.

Lemma serve_starts_csrf st headers r :
  public r = false -> (endpoint r).1 <> GET -> starts_csrf headers (serve st headers r).
Proof. intros Hp Hw. destruct r; try discriminate Hp; try done; cbn [serve]; guard_auto. Qed.

Lemma serve_starts_permission st headers r p :
  required r = Some p -> starts_permission headers p (serve st headers r).
Proof. intros Hp. destruct r; try discriminate Hp; injection Hp as <-; cbn [serve]; guard_auto. Qed.
End Requirements.

(** ** Reads *)

(** What a refused request leaves: only the cache, for the session that was
    looked up, may differ. *)
Definition CacheOnly {K} (w w' : World K) : Prop :=
  w_db w' = w_db w /\ w_blobs w' = w_blobs w /\ w_published w' = w_published w /\ w_sent w' = w_sent w.
#[export] Instance cache_only_frame {K} : FrameRel (@CacheOnly K).
Proof.
  split; unfold CacheOnly; simpl; try done.
  - intros w1 w2 w3 (?&?&?&?) (?&?&?&?). repeat split; congruence.
  - intros w w1 (?&?&?&?). done.
Qed.
#[export] Instance cache_only_cache {K} : FrameCacheFree (@CacheOnly K).
Proof. by intros w k. Qed.

Section Reads.
Context {K : Type} {V : Valkey K} {T : UuidText} {J : JsonText} {U : Unicode} {C : Crypto}.
Context {L : UrlText} {X : UrlCrate} {H : HtmlCrate} {S : TextSearch}.
Implicit Types (w : World K) (st : AppState K).

Lemma frame_session_views (R : World K -> World K -> Prop) `{!FrameRel R, !FrameCacheFree R} key current ids :
  Frame R (session_views key current ids).
Proof.
  induction ids as [|id ids IH]; cbn [session_views]; [frame_auto|].
  destruct (uuid_parse id); [|done]. frame_auto; done.
Qed.
Lemma frame_ping (R : World K -> World K -> Prop) `{!FrameRel R} : Frame R ping.
Proof. intros env w. unfold ping. destruct (env_fault _ _); apply frame_tick. Qed.

Lemma load_session_cache_only headers env w r w1 :
  load_session headers env w = (r, w1) -> CacheOnly w w1.
Proof. intros E. pose proof (frame_load_session CacheOnly headers env w) as F. by rewrite E in F. Qed.

Ltac read_step :=
  first [ apply frame_session_views; exact _ | apply frame_ping; exact _ | frame_step
        | match goal with |- Frame _ ?m => let h := head_of m in unfold h end ].

Lemma serve_reads st headers r :
  Frame Quiet (st_cache_health st) -> (endpoint r).1 = GET -> r <> GetNotificationPreferences ->
  Frame Quiet (serve st headers r).
Proof.
  intros Hh Hg Hr. destruct r; try discriminate Hg; try done; cbn [serve]; repeat read_step; done.
Qed.
(** The only read that writes: it inserts the default preferences. *)
Definition default_preferences (user : Uuid) (now : Z) : PreferenceRow :=
  mkPreferenceRow user true true false false false now.
Definition PreferencesAdded (d d' : Db) : Prop :=
  exists rows, Forall (fun p => exists user now, p = default_preferences user now) rows
    /\ d' = set_notification_preferences (fun t => t ++ rows) d.

#[export] Instance preferences_added_preorder : PreOrder PreferencesAdded.
Proof.
  split.
  - intros d. exists []. split; [constructor|]. destruct d. unfold set_notification_preferences. simpl.
    by rewrite app_nil_r.
  - intros d1 d2 d3 (r1 & H1 & ->) (r2 & H2 & ->). exists (r1 ++ r2). split; [by apply Forall_app|].
    unfold set_notification_preferences. simpl. by rewrite app_assoc.
Qed.

Lemma sql_default_preferences_ok user now d x d' :
  sql_default_preferences user now d = Ok (x, d') -> PreferencesAdded d d'.
Proof.
  unfold sql_default_preferences. destruct (preference_of d user); [intros [= _ <-]; reflexivity|].
  destruct (insert_row _ _ _ _ _ _) as [[y d1]|] eqn:Ei; [|done]. intros [= _ <-].
  apply insert_row_ok in Ei as (_ & _ & ->). exists [default_preferences user now]. split; [|done].
  repeat constructor. by exists user, now.
Qed.

(** The frame of the reads: no stored file, and no table but the preferences. *)
Definition Reading w w' : Prop :=
  PreferencesAdded (w_db w) (w_db w') /\ w_blobs w' = w_blobs w.
#[export] Instance reading_frame : FrameRel Reading.
Proof.
  split; unfold Reading; simpl.
  - done.
  - intros w1 w2 w3 [H1 H2] [H3 H4]. split; [by etransitivity|congruence].
  - done.
  - done.
  - intros w w1 [_ H1]. done.
Qed.
#[export] Instance reading_cache : FrameCacheFree Reading.
Proof. by intros w k. Qed.

Lemma preferences_read headers : Frame Reading (notification_preferences_view headers).
Proof.
  unfold notification_preferences_view, fetch_one. frame_auto.
  apply frame_execute; [exact _|]. intros w x d Hd. split; [|done]. by eapply sql_default_preferences_ok.
Qed.
End Reads.

(** C12. No request acts without its session and its token: when the session of
    a request that is not public does not load, the request is answered with
    that error; when it loads but the request, not a [GET], lacks the CSRF
    token of the session, it is answered with that; in both cases the handler
    has done nothing else. A socket may be refused for its origin before. *)
Theorem requests_guarded {K} {V : Valkey K} {T : UuidText} {J : JsonText} {U : Unicode} {C : Crypto}
    {L : UrlText} {X : UrlCrate} {H : HtmlCrate} {S : TextSearch}
    (st : AppState K) headers r env (w : World K) :
  public r = false ->
  (forall e w1, load_session headers env w = (Err e, w1) ->
     CacheOnly w w1
     /\ (serve st headers r env w = (Err e, w1)
         \/ r = GetWebsocket
            /\ serve st headers r env w = (Err (forbidden "websocket origin is not allowed"), w)))
  /\ (forall s w1, (endpoint r).1 <> GET -> load_session headers env w = (Ok s, w1) ->
       is_ok (require_csrf headers s env w1).1 = false ->
       CacheOnly w w1 /\ serve st headers r env w = (Err (bad_request "invalid csrf token"), w1)).
Proof.
  intros Hp. split.
  - intros e w1 Hl. split; [by eapply load_session_cache_only|].
    destruct (decide (r = GetWebsocket)) as [->|Hw].
    + cbn [serve]. unfold reply, websocket. destruct (negb _); [by right|left].
      by apply run_bind_err, run_bind_err.
    + left. by apply serve_starts_session.
  - intros s w1 Hg Hl Hc. split; [by eapply load_session_cache_only|]. by eapply serve_starts_csrf.
Qed.

(** C13. An operator's request needs its permission: a request of the
    administration, of the moderation queue or an upload, made with a session
    whose user lacks the permission named for it, is refused and leaves the
    database, the stored files and the published events as they were. *)
Theorem permission_required {K} {V : Valkey K} {T : UuidText} {J : JsonText} {U : Unicode} {C : Crypto}
    {L : UrlText} {X : UrlCrate} {H : HtmlCrate} {S : TextSearch}
    (st : AppState K) headers r p env (w : World K) s w1 :
  required r = Some p -> load_session headers env w = (Ok s, w1) ->
  ~ In (rs p) (permissions (session_user s)) ->
  CacheOnly w w1
  /\ (serve st headers r env w = (Err (forbidden "permission denied"), w1)
      \/ serve st headers r env w = (Err (bad_request "invalid csrf token"), w1)).
Proof.
  intros Hr Hl Hp. split; [by eapply load_session_cache_only|].
  eapply serve_starts_permission; [done|done|].
  destruct (has_permission _ _) eqn:E; [|done]. destruct Hp. unfold has_permission in E.
  apply existsb_exists in E as (v & Hin & ->%bool_decide_eq_true). done.
Qed.

(** C14. Reading changes nothing: a [GET] request leaves the database and the
    stored files as they were, whatever fails, except that reading the
    notification preferences adds default ones. *)
Theorem reads_change_nothing {K} {V : Valkey K} {T : UuidText} {J : JsonText} {U : Unicode} {C : Crypto}
    {L : UrlText} {X : UrlCrate} {H : HtmlCrate} {S : TextSearch}
    (st : AppState K) headers r env (w : World K) :
  Frame Quiet (st_cache_health st) -> (endpoint r).1 = GET ->
  let w' := (serve st headers r env w).2 in
  w_blobs w' = w_blobs w
  /\ (w_db w' = w_db w \/ r = GetNotificationPreferences /\ PreferencesAdded (w_db w) (w_db w')).
Proof.
  intros Hh Hg. cbv zeta. destruct (decide (r = GetNotificationPreferences)) as [->|Hr].
  - cbn [serve]. assert (Frame Reading (reply (notification_preferences_view headers))) as F
      by (unfold reply; apply frame_bind; [exact _|apply preferences_read|intros ?; frame_auto]).
    destruct (F env w) as [F1 F2]. auto.
  - destruct (serve_reads st headers r Hh Hg Hr env w) as [F1 F2]. auto.
Qed.

(** ** Witnesses *)

#[local] Instance sample_url_text : UrlText := {| NotifyApi.url_parse := fun _ => None |}.
#[local] Instance sample_html : HtmlCrate := {| html_title := fun _ => None; html_metas := fun _ => [] |}.
#[local] Existing Instance hyphenated_text.
#[local] Existing Instance coded_json.
#[local] Existing Instance ascii_unicode.
#[local] Existing Instance keyspace_valkey.
#[local] Existing Instance sample_crypto.
#[local] Existing Instance sample_search.
#[local] Existing Instance sample_urls.

Definition sample_state : AppState Keyspace :=
  mkAppState [] false None None DisabledRecoveryNotifier NoopFileScanner false 0 (fun _ _ _ => [])
    (ret tt) (fun _ => true) (fun _ => []) (fun _ _ => None) (fun _ _ => Err []) (fun _ => [])
    (Err []).

(** A session of alice, who has no role, and her requests without the token. *)
Definition plain_headers : HeaderMap := session_cookie (uuid_of 1000).
Definition favorite_main : Request := PostFavorite (rs "main").

Lemma plain_session_ok :
  load_session plain_headers (sample_env 900) media_world
  = (Ok sample_session, (load_session plain_headers (sample_env 900) media_world).2).
Proof. apply (run_split (load_session plain_headers)). vm_compute. reflexivity. Qed.
Lemma no_session_refused :
  load_session [] (sample_env 900) media_world = (Err (unauthorized "authentication required"), media_world).
Proof. reflexivity. Qed.

Lemma requests_guarded_witness :
  serve sample_state [] favorite_main (sample_env 900) media_world
    = (Err (unauthorized "authentication required"), media_world)
  /\ exists w1, CacheOnly media_world w1
       /\ serve sample_state plain_headers favorite_main (sample_env 900) media_world
          = (Err (bad_request "invalid csrf token"), w1).
Proof.
  split.
  - destruct (requests_guarded sample_state [] favorite_main (sample_env 900) media_world eq_refl) as [Hs _].
    destruct (Hs _ _ no_session_refused) as [_ [E|[E _]]]; [exact E|discriminate E].
  - destruct (requests_guarded sample_state plain_headers favorite_main (sample_env 900) media_world eq_refl)
      as [_ Hc].
    eexists. apply (Hc sample_session); [discriminate|exact plain_session_ok|reflexivity].
Defined.

Lemma permission_required_witness :
  exists w1, serve sample_state plain_headers GetAdminRoles (sample_env 900) media_world
      = (Err (forbidden "permission denied"), w1)
    \/ serve sample_state plain_headers GetAdminRoles (sample_env 900) media_world
      = (Err (bad_request "invalid csrf token"), w1).
Proof.
  eexists. refine (proj2 (permission_required sample_state plain_headers GetAdminRoles "users:read"
    (sample_env 900) media_world _ _ eq_refl plain_session_ok _)).
  intros Hin. vm_compute in Hin. repeat destruct Hin as [Hin|Hin]; try discriminate Hin. exact Hin.
Defined.

Lemma reads_change_nothing_witness :
  w_db (serve sample_state plain_headers GetUnread (sample_env 900) media_world).2 = w_db media_world.
Proof.
  destruct (reads_change_nothing sample_state plain_headers GetUnread (sample_env 900) media_world
    (frame_ret Quiet tt) eq_refl) as [_ [E|[E _]]]; [exact E|discriminate E].
Defined.
