(* ===== verification/Delivery.v ===== *)
(** * Delivery over webhooks, and the queue drains

    The notifiers of [auth/recovery.rs] and [notifications/delivery.rs] that
    post to a configured address, how [bootstrap.rs] chooses them, and the
    theorem that the delivery worker of [Outbox] empties its queue. *)
From Stdlib Require Import String.
From S2P Require Export Outbox Account S3.
From S2P Require Import Reference.
Open Scope m_scope.

(** ** Errors *)

Inductive NotificationDeliveryError :=
  | DeliveryConfiguration (message : rstr)
  | DeliveryNetwork (message : rstr).
Definition show_delivery_error (e : NotificationDeliveryError) : rstr :=
  match e with
  | DeliveryConfiguration message => rs "notification configuration: " ++ message
  | DeliveryNetwork message => rs "notification delivery: " ++ message
  end.

Inductive RecoveryDeliveryError :=
  | RecoveryConfiguration (message : rstr)
  | RecoveryNetwork (message : rstr).
Definition show_recovery_error (e : RecoveryDeliveryError) : rstr :=
  match e with
  | RecoveryConfiguration message => rs "recovery configuration: " ++ message
  | RecoveryNetwork message => rs "recovery delivery: " ++ message
  end.

(** ** Webhooks *)

Section Webhooks.
Context {X : UrlCrate} {T : UuidText}.
(** [var] reads an environment variable; [client] is what building the HTTP
    client answers; [post] posts a document at a step, and fails or answers with
    a status; [show] writes a status. *)
Context (var : rstr -> option rstr) (client : Result rstr unit).
Context (post : nat -> rstr -> json -> Result rstr Z) (show : Z -> rstr).

Definition http_url (url : Url) : bool := (url_scheme url ≟ rs "http") || (url_scheme url ≟ rs "https").

Record WebhookNotificationSink := mkWebhookSink { ws_endpoint : rstr; ws_channel : rstr }.
Definition webhook_sink_new (endpoint channel : rstr) :
    Result NotificationDeliveryError WebhookNotificationSink :=
  match url_parse endpoint with
  | None => Err (DeliveryConfiguration (rs "notification URL is invalid"))
  | Some url =>
      if negb (http_url url) then Err (DeliveryConfiguration (rs "notification URL must use HTTP or HTTPS"))
      else match client with
           | Err error => Err (DeliveryConfiguration error)
           | Ok _ => Ok (mkWebhookSink endpoint channel)
           end
  end.
Definition webhook_sink_from_env (variable channel : rstr) :
    Result NotificationDeliveryError WebhookNotificationSink :=
  match var variable with
  | None => Err (DeliveryConfiguration (variable ++ rs " is not configured"))
  | Some endpoint => webhook_sink_new endpoint channel
  end.

Definition json_opt (o : option rstr) : json := match o with Some s => JStr s | None => JNull end.
Definition delivery_payload (channel : rstr) (target : NotificationTarget) (kind body : rstr) : json :=
  JObj [(rs "channel", JStr channel); (rs "user_id", json_uuid (t_user_id target));
        (rs "email", JStr (t_email target));
        (rs "subscription", JObj [(rs "endpoint", json_opt (t_endpoint target));
                                  (rs "p256dh", json_opt (t_p256dh target));
                                  (rs "auth", json_opt (t_auth target))]);
        (rs "kind", JStr kind); (rs "body", JStr body)].
(** [deliver], its error as the worker records it. *)
Definition webhook_deliver (sink : WebhookNotificationSink) (step : nat) (target : NotificationTarget)
    (kind body : rstr) : Result NotificationDeliveryError unit :=
  match post step (ws_endpoint sink) (delivery_payload (ws_channel sink) target kind body) with
  | Err error => Err (DeliveryNetwork error)
  | Ok status => if is_success status then Ok tt else Err (DeliveryNetwork (show status))
  end.
Definition webhook_sink (sink : WebhookNotificationSink) : NotificationSink :=
  mkSink (fun step target kind body =>
    match webhook_deliver sink step target kind body with
    | Ok _ => Ok tt | Err e => Err (show_delivery_error e) end).

(** [notification_sink] of [bootstrap.rs] *)
Definition notification_sink (variable kind context : rstr) : Result rstr NotificationSink :=
  match var variable with
  | None => Ok DisabledNotificationSink
  | Some _ =>
      match webhook_sink_from_env variable kind with
      | Ok sink => Ok (webhook_sink sink)
      | Err error => Err (context ++ rs ": " ++ show_delivery_error error)
      end
  end.

Record WebhookRecoveryNotifier := mkWebhookNotifier { wr_endpoint : rstr }.
Definition webhook_notifier_new (endpoint : rstr) : Result RecoveryDeliveryError WebhookRecoveryNotifier :=
  match url_parse endpoint with
  | None => Err (RecoveryConfiguration (rs "recovery URL is invalid"))
  | Some url =>
      if negb (http_url url) then Err (RecoveryConfiguration (rs "recovery URL must use HTTP or HTTPS"))
      else match client with
           | Err error => Err (RecoveryConfiguration error)
           | Ok _ => Ok (mkWebhookNotifier endpoint)
           end
  end.
Definition webhook_notifier_from_env : Result RecoveryDeliveryError WebhookRecoveryNotifier :=
  match var (rs "RECOVERY_WEBHOOK_URL") with
  | None => Err (RecoveryConfiguration (rs "RECOVERY_WEBHOOK_URL is required"))
  | Some endpoint => webhook_notifier_new endpoint
  end.
Definition webhook_notify (notifier : WebhookRecoveryNotifier) (step : nat) (email token : rstr) :
    Result RecoveryDeliveryError unit :=
  match post step (wr_endpoint notifier)
          (JObj [(rs "email", JStr email); (rs "token", JStr token); (rs "expires_in_seconds", JNum 1800)]) with
  | Err error => Err (RecoveryNetwork error)
  | Ok status => if is_success status then Ok tt else Err (RecoveryNetwork (show status))
  end.
Definition webhook_notifier (notifier : WebhookRecoveryNotifier) : RecoveryNotifier :=
  mkNotifier (fun step email token =>
    match webhook_notify notifier step email token with
    | Ok _ => Ok tt | Err e => Err (show_recovery_error e) end).

(** The choice of [bootstrap::run]; [debug] writes an error for the log. *)
Definition recovery_notifier (debug : RecoveryDeliveryError -> rstr) : Result rstr RecoveryNotifier :=
  match var (rs "RECOVERY_WEBHOOK_URL") with
  | None => Ok DisabledRecoveryNotifier
  | Some _ =>
      match webhook_notifier_from_env with
      | Ok notifier => Ok (webhook_notifier notifier)
      | Err error => Err (rs "recovery delivery configuration failed: " ++ debug error)
      end
  end.

(** A configured sink posts where it was told to, over HTTP. *)
Lemma webhook_sink_new_ok endpoint channel sink :
  webhook_sink_new endpoint channel = Ok sink ->
  ws_endpoint sink = endpoint /\ ws_channel sink = channel
  /\ exists url, url_parse endpoint = Some url
       /\ (url_scheme url = rs "http" \/ url_scheme url = rs "https").
Proof.
  unfold webhook_sink_new, http_url. destruct (url_parse endpoint) as [url|]; [|done].
  destruct (_ || _) eqn:E; [|done]. destruct client; [|done]. intros [= <-].
  apply orb_true_iff in E. rewrite !bool_decide_eq_true in E. eauto 6.
Qed.
Lemma webhook_deliver_ok sink step target kind body :
  webhook_deliver sink step target kind body = Ok tt <->
  exists status, post step (ws_endpoint sink) (delivery_payload (ws_channel sink) target kind body) = Ok status
    /\ 200 <= status < 300.
Proof.
  unfold webhook_deliver, is_success. destruct (post _ _ _) as [status|error].
  - destruct (_ && _) eqn:E; split; [intros _; exists status; split; [done|lia]|done|done|].
    intros (s & [= <-] & Hs). lia.
  - split; [done|]. by intros (s & ? & _).
Qed.
End Webhooks.

(** ** The queue drains *)

(** A sink that takes everything. *)
Definition reliable (sink : NotificationSink) : Prop :=
  forall step target kind body, deliver sink step target kind body = Ok tt.

(** [n] turns of the worker. *)
Definition delivery_rounds {K} (email_sink browser_sink : NotificationSink) (n : nat) : M K SqlxError unit :=
  for_each (repeat tt n) (fun _ => delivery_round email_sink browser_sink).

Definition sent (x : DeliveryRow) : bool := is_some (d_sent_at x).

(** A change of rows that keeps their identity, loses no delivery, completes
    those chosen and leaves the others alone. *)
Record Completes (chosen : DeliveryRow -> bool) (g : DeliveryRow -> DeliveryRow) : Prop := {
  completes_id x : d_id (g x) = d_id x;
  completes_sent x : sent x = true -> sent (g x) = true;
  completes_chosen x : chosen x = true -> sent (g x) = true;
  completes_others x : chosen x = false -> g x = x
}.

Section Drain.
Context {K : Type}.
Implicit Types (w : World K).
Notation table w := (notification_deliveries (w_db w)).

Definition id_among (ids : list Uuid) (x : DeliveryRow) : bool := existsb (fun i => i ≟ d_id x) ids.

Lemma deliver_job_sends e b job env w :
  healthy env -> reliable e -> reliable b ->
  exists at_ w', deliver_job e b job env w = (Ok tt, w')
    /\ table w' = update_where (pending_delivery (j_id job))
                    (fun x => set_d_sent_at (Some at_) (set_d_claimed_at None x)) (table w).
Proof.
  intros Hh He Hb. unfold deliver_job, bind, call_sink. cbv beta iota.
  assert (deliver (if j_channel job ≟ rs "email" then e else b) (w_step w) (j_target job) (j_kind job)
            (j_body job) = Ok tt) as -> by (destruct (_ ≟ _); auto).
  unfold now_millis, attempt. rewrite run_execute by done. unfold sql_sent, ret.
  eexists _, _. split; [done|]. reflexivity.
Qed.

Definition mark_sent (id : Uuid) (at_ : Z) (x : DeliveryRow) : DeliveryRow :=
  if pending_delivery id x then set_d_sent_at (Some at_) (set_d_claimed_at None x) else x.

Lemma mark_sent_facts id at_ x :
  d_id (mark_sent id at_ x) = d_id x
  /\ (sent x = true -> mark_sent id at_ x = x)
  /\ (d_id x = id -> sent (mark_sent id at_ x) = true)
  /\ (d_id x <> id -> mark_sent id at_ x = x).
Proof.
  unfold mark_sent, pending_delivery, sent.
  destruct (d_id x ≟ id) eqn:Ei, (d_sent_at x) eqn:Es; simpl; rewrite ?Es;
    first [apply bool_decide_eq_true in Ei | apply bool_decide_eq_false in Ei]; done.
Qed.

Lemma deliver_jobs_complete e b jobs env w :
  healthy env -> reliable e -> reliable b ->
  exists g w', for_each jobs (deliver_job e b) env w = (Ok tt, w')
    /\ table w' = map g (table w) /\ Completes (id_among (map j_id jobs)) g.
Proof.
  intros Hh He Hb. revert w. induction jobs as [|job jobs IH]; intros w; simpl.
  - exists (fun x => x), w. split; [done|]. split; [by rewrite map_id|]. by split.
  - destruct (deliver_job_sends e b job env w Hh He Hb) as (at_ & w1 & E1 & T1).
    destruct (IH w1) as (g & w2 & E2 & T2 & Hg). rewrite (run_bind_ok _ _ _ _ _ _ E1).
    exists (fun x => g (mark_sent (j_id job) at_ x)), w2. split; [done|]. split.
    { rewrite T2, T1. unfold update_where. by rewrite map_map. }
    destruct Hg as [Hid Hs Hc Ho].
    split; intros x; destruct (mark_sent_facts (j_id job) at_ x) as (Mi & Ms & Mc & Mo).
    + by rewrite Hid.
    + intros Hx. apply Hs. by rewrite Ms.
    + unfold id_among. simpl. intros [Hx%bool_decide_eq_true|Hx]%orb_true_iff; [apply Hs; by apply Mc|].
      apply Hc. unfold id_among. by rewrite Mi.
    + unfold id_among. simpl. intros [Hx%bool_decide_eq_false Hx']%orb_false_iff.
      rewrite Mo by congruence. by apply Ho.
Qed.

(** A turn sends exactly the rows it claims. *)
Lemma delivery_round_completes e b env w :
  healthy env -> reliable e -> reliable b ->
  exists g w', delivery_round e b env w = (Ok tt, w')
    /\ table w' = map g (table w)
    /\ Completes (id_among (map d_id (next_deliveries (as_i64 (env_clock env (w_step w))) (w_db w)))) g.
Proof.
  intros Hh He Hb. set (now := as_i64 (env_clock env (w_step w))).
  set (next := next_deliveries now (w_db w)).
  unfold delivery_round, bind, now_millis, attempt. cbv beta iota. rewrite run_execute by done.
  unfold sql_claim_deliveries. cbv beta iota zeta. change (w_db (tick w)) with (w_db w). fold now. fold next.
  match goal with |- context [for_each ?l _ env ?w1] =>
    destruct (deliver_jobs_complete e b l env w1 Hh He Hb) as (g & w2 & E & Tb & Hg) end.
  set (claim := fun x => if exists_row (fun y => d_id y ≟ d_id x) next then claim_delivery now x else x).
  assert (forall x, d_id (claim x) = d_id x /\ sent (claim x) = sent x) as Hclaim
    by (intros x; unfold claim; by destruct (exists_row _ _)).
  exists (fun x => g (claim x)), w2. split; [exact E|]. split.
  { rewrite Tb. simpl. unfold update_where. by rewrite map_map. }
  rewrite map_map in Hg. cbn [j_id job_of] in Hg. destruct Hg as [Hid Hs Hc Ho].
  split; intros x; destruct (Hclaim x) as [Ci Cs].
  - by rewrite Hid.
  - intros Hx. apply Hs. by rewrite Cs.
  - intros Hx. apply Hc. unfold id_among in *. by rewrite Ci.
  - intros Hx. assert (claim x = x) as ->; [|by apply Ho].
    unfold claim. destruct (exists_row _ _) eqn:Er; [|done]. exfalso.
    apply exists_row_true in Er as (y & Hy & Hyx%bool_decide_eq_true).
    apply not_true_iff_false in Hx. apply Hx. unfold id_among. apply existsb_exists. exists (d_id y).
    split; [by apply in_map|]. by apply bool_decide_eq_true.
Qed.
(** ** Progress *)

(** The rows a turn at [now] or later may take before those due at [now]. *)
Definition waiting (now : Z) (x : DeliveryRow) : bool := negb (sent x) && (d_next_attempt_at x <=? now).

Lemma deliverable_later now later x :
  now <= later -> deliverable now x = true -> deliverable later x = true.
Proof.
  unfold deliverable, claim_expired. intros Hl [[Hs Hn]%andb_true_iff Hc]%andb_true_iff.
  rewrite Hs. destruct (d_claimed_at x); lia.
Qed.
Lemma deliverable_waiting now x : deliverable now x = true -> waiting now x = true.
Proof.
  unfold deliverable, waiting, sent. intros [[Hs Hn]%andb_true_iff _]%andb_true_iff.
  rewrite Hn, andb_true_r. by destruct (d_sent_at x).
Qed.

Lemma delivery_le_total a b : delivery_le a b = true \/ delivery_le b a = true.
Proof. unfold delivery_le, uuid_leb. lia. Qed.
Lemma delivery_le_trans a b c : delivery_le a b = true -> delivery_le b c = true -> delivery_le a c = true.
Proof. unfold delivery_le, uuid_leb. lia. Qed.

(** A turn takes every row due, or 32 that were due before. *)
Lemma next_deliveries_progress now later d :
  now <= later ->
  let next := next_deliveries later d in
  (forall x, In x (notification_deliveries d) -> deliverable now x = true -> id_among (map d_id next) x = true)
  \/ length next = 32%nat /\ forall x, In x next -> waiting now x = true.
Proof.
  intros Hl. unfold next_deliveries, limit_rows. cbv zeta.
  set (due := order_by delivery_le (where_ (deliverable later) (notification_deliveries d))).
  set (next := take (Z.to_nat CLAIM_LIMIT) due).
  assert (StronglySorted (rel_of delivery_le) due) as Hs
    by (apply order_by_sorted; [apply delivery_le_total|apply delivery_le_trans]).
  assert (forall x, In x due <-> In x (notification_deliveries d) /\ deliverable later x = true) as Hdue
    by (intros x; unfold due; by rewrite in_order_by, in_where).
  destruct (existsb (fun x => deliverable now x && negb (id_among (map d_id next) x)) due) eqn:Ee.
  - right. apply existsb_exists in Ee as (x & Hx & [Hd Hnot%negb_true_iff]%andb_true_iff).
    destruct (sorted_take_spec _ (Z.to_nat CLAIM_LIMIT) _ _ Hs Hx) as [Ht|[Hlen Hle]].
    { apply not_true_iff_false in Hnot. destruct Hnot. apply existsb_exists. exists (d_id x).
      split; [by apply in_map|by apply bool_decide_eq_true]. }
    split; [exact Hlen|]. intros y Hy. specialize (Hle y Hy). unfold rel_of, delivery_le in Hle.
    apply in_take, Hdue in Hy as [_ Hdy]. apply deliverable_waiting in Hd, Hdy.
    unfold waiting in *. lia.
  - left. intros x Hin Hd. destruct (id_among (map d_id next) x) eqn:En; [done|].
    apply not_true_iff_false in Ee. destruct Ee. apply existsb_exists. exists x. rewrite Hd, En. split; [|done].
    apply Hdue. split; [done|]. by eapply deliverable_later.
Qed.

(** A change that completes 32 waiting rows leaves 32 fewer. *)
Lemma completes_waiting now next t g :
  unique_on d_id t -> List.NoDup (map d_id next) -> incl next t ->
  (forall x, In x next -> waiting now x = true) -> Completes (id_among (map d_id next)) g ->
  (length (where_ (waiting now) (map g t)) + length next <= length (where_ (waiting now) t))%nat.
Proof.
  intros Hu Hnd Hin Hw Hg. rewrite <- length_app.
  assert (forall x, In x t -> waiting now (g x) = true ->
            waiting now x = true /\ g x = x /\ ~ In (d_id x) (map d_id next)) as Hkeep.
  { intros x Hx Hwx. destruct (id_among (map d_id next) x) eqn:E.
    - apply (completes_chosen _ _ Hg) in E. unfold waiting in Hwx. by rewrite E in Hwx.
    - rewrite (completes_others _ _ Hg _ E) in *. split; [done|]. split; [done|]. intros H.
      apply not_true_iff_false in E. destruct E. apply existsb_exists. exists (d_id x).
      split; [done|]. by apply bool_decide_eq_true. }
  rewrite <- (length_map d_id (where_ (waiting now) t)).
  rewrite <- (length_map d_id (where_ (waiting now) (map g t) ++ next)).
  apply NoDup_incl_length.
  - rewrite map_app. apply NoDup_ListNoDup, NoDup_app. split; [|split].
    + apply NoDup_ListNoDup. apply unique_on_filter. unfold unique_on. rewrite map_map.
      rewrite (map_ext _ d_id) by apply (completes_id _ _ Hg). exact Hu.
    + intros u (y & <- & [(x & <- & Hx)%in_map_iff Hwy]%in_where)%list_elem_of_In%in_map_iff Hu'%list_elem_of_In.
      destruct (Hkeep x Hx Hwy) as (_ & _ & Hnot). rewrite (completes_id _ _ Hg) in Hu'. done.
    + by apply NoDup_ListNoDup.
  - intros u (y & <- & [[(x & <- & Hx)%in_map_iff Hwy]%in_where|Hy]%in_app_iff)%in_map_iff.
    + destruct (Hkeep x Hx Hwy) as (Hwx & -> & _). apply in_map, in_where. auto.
    + apply in_map, in_where. auto.
Qed.
Lemma next_deliveries_sub later d :
  unique_on d_id (notification_deliveries d) ->
  List.NoDup (map d_id (next_deliveries later d)) /\ incl (next_deliveries later d) (notification_deliveries d).
Proof.
  intros Hu. unfold next_deliveries, limit_rows. split.
  - apply unique_on_take. unfold unique_on. eapply Permutation_NoDup.
    + apply Permutation_map. symmetry. apply order_by_permutation.
    + by apply unique_on_filter.
  - intros x Hx%in_take. rewrite in_order_by, in_where in Hx. by destruct Hx.
Qed.

Lemma completes_compose c1 c2 g1 g2 :
  Completes c1 g1 -> Completes c2 g2 ->
  Completes (fun x => c1 x || c2 (g1 x)) (fun x => g2 (g1 x)).
Proof.
  intros [I1 S1 C1 O1] [I2 S2 C2 O2]. split; intros x.
  - by rewrite I2.
  - intros Hx. by apply S2, S1.
  - intros [Hx|Hx]%orb_true_iff; [by apply S2, C1|by apply C2].
  - intros [Hx Hy]%orb_false_iff. rewrite (O1 x Hx) in *. by apply O2.
Qed.

Lemma delivery_rounds_drain e b n env w now :
  healthy env -> reliable e -> reliable b -> unique_on d_id (table w) ->
  (forall i, now <= as_i64 (env_clock env i)) ->
  exists g c w', delivery_rounds e b n env w = (Ok tt, w') /\ table w' = map g (table w) /\ Completes c g
    /\ ((length (where_ (waiting now) (table w)) <= 32 * n)%nat ->
        forall x, In x (table w) -> deliverable now x = true -> sent (g x) = true).
Proof.
  intros Hh He Hb. revert w. induction n as [|n IH]; intros w Hu Hclock.
  - exists (fun x => x), (fun _ => false), w. split; [done|]. split; [by rewrite map_id|]. split; [by split|].
    intros Hlen x Hx Hd%deliverable_waiting.
    assert (In x (where_ (waiting now) (table w))) as Hin by (by apply in_where).
    destruct (where_ _ _); [done|simpl in Hlen; lia].
  - set (later := as_i64 (env_clock env (w_step w))).
    destruct (delivery_round_completes e b env w Hh He Hb) as (g1 & w1 & E1 & T1 & H1). fold later in H1.
    assert (unique_on d_id (table w1)) as Hu1.
    { unfold unique_on. rewrite T1, map_map, (map_ext _ d_id) by apply (completes_id _ _ H1). exact Hu. }
    destruct (IH w1 Hu1 Hclock) as (g2 & c2 & w2 & E2 & T2 & H2 & Hdrain).
    exists (fun x => g2 (g1 x)), (fun x => id_among (map d_id (next_deliveries later (w_db w))) x || c2 (g1 x)), w2.
    split; [unfold delivery_rounds; simpl; by rewrite (run_bind_ok _ _ _ _ _ _ E1)|].
    split; [by rewrite T2, T1, map_map|]. split; [by apply completes_compose|].
    intros Hlen x Hx Hd.
    destruct (id_among (map d_id (next_deliveries later (w_db w))) x) eqn:En.
    { by apply (completes_sent _ _ H2), (completes_chosen _ _ H1). }
    destruct (next_deliveries_progress now later (w_db w) (Hclock _)) as [Hall|[H32 Hw]].
    { by rewrite (Hall x Hx Hd) in En. }
    destruct (next_deliveries_sub later (w_db w) Hu) as [Hnd Hincl].
    pose proof (completes_waiting now _ (table w) g1 Hu Hnd Hincl Hw H1) as Hless.
    rewrite (completes_others _ _ H1 _ En). apply Hdrain; [rewrite T1; lia| |done].
    rewrite T1, <- (completes_others _ _ H1 _ En). by apply in_map.
Qed.
End Drain.

(** C16. The delivery queue drains: when no request fails and both sinks take
    what they are given, then after a turn of the worker for every 32 rows
    unsent and due at some time, each row due and unclaimed at that time is
    still on record and sent, and a row that is still unsent is as it was. *)
Theorem deliveries_drain {K} e b n env (w : World K) now :
  healthy env -> reliable e -> reliable b -> unique_on d_id (notification_deliveries (w_db w)) ->
  (forall i, now <= as_i64 (env_clock env i)) ->
  (length (where_ (waiting now) (notification_deliveries (w_db w))) <= 32 * n)%nat ->
  exists w', delivery_rounds e b n env w = (Ok tt, w')
    /\ (forall x, In x (notification_deliveries (w_db w)) -> deliverable now x = true ->
         exists x', In x' (notification_deliveries (w_db w')) /\ d_id x' = d_id x /\ sent x' = true)
    /\ (forall x', In x' (notification_deliveries (w_db w')) -> sent x' = false ->
         In x' (notification_deliveries (w_db w))).
Proof.
  intros Hh He Hb Hu Hclock Hlen.
  destruct (delivery_rounds_drain e b n env w now Hh He Hb Hu Hclock) as (g & c & w' & E & Tb & Hg & Hdrain).
  exists w'. split; [done|]. rewrite Tb. split.
  - intros x Hx Hd. exists (g x). split; [by apply in_map|]. split; [apply (completes_id _ _ Hg)|].
    by apply Hdrain.
  - intros x' (x & <- & Hx)%in_map_iff Hs. destruct (c x) eqn:Ec.
    + by rewrite (completes_chosen _ _ Hg x Ec) in Hs.
    + by rewrite (completes_others _ _ Hg x Ec).
Qed.

(** ** Witnesses *)

Definition sample_delivery (n : N) (at_ : Z) : DeliveryRow :=
  mkDeliveryRow (uuid_of n) (uuid_of 1) (uuid_of 1) (rs "email") (rs "alice@example.com") (rs "mention")
    (rs "hello") 0 at_ None None None.
Definition deliveries_db : Db :=
  set_notification_deliveries (fun _ => [sample_delivery 90 7; sample_delivery 91 6; sample_delivery 92 200]) sample_db.
Definition still_env : Env := mkEnv (fun _ => 100) (fun _ => uuid_of 1) (fun _ => []) (fun _ => NoFault) (fun _ => O).

Lemma deliveries_drain_witness :
  exists w', delivery_rounds DisabledNotificationSink DisabledNotificationSink 1 still_env (sample_world deliveries_db)
      = (Ok tt, w')
    /\ exists x', In x' (notification_deliveries (w_db w')) /\ d_id x' = uuid_of 91 /\ sent x' = true.
Proof.
  destruct (deliveries_drain DisabledNotificationSink DisabledNotificationSink 1 still_env
    (sample_world deliveries_db) 100) as (w' & E & Hsent & _).
  - intros i. reflexivity.
  - intros s t k b. reflexivity.
  - intros s t k b. reflexivity.
  - apply NoDup_ListNoDup, (bool_decide_unpack _). vm_compute. exact I.
  - intros i. vm_compute. discriminate.
  - vm_compute. lia.
  - exists w'. split; [exact E|]. apply (Hsent (sample_delivery 91 6)); [right; left; reflexivity|reflexivity].
Defined.
