(* ===== verification/CacheTypes.v ===== *)
(** * The types of the cache

    Valkey keys have no schema: a command on a key that holds a value of
    another type is an error. Here every key the program builds is given the
    type of its family, and what the program does is proved to keep every key
    at its type, so that no command of it is ever answered with [WRONGTYPE]. *)
From Stdlib Require Import String.
From S2P Require Export Routes Outbox.
From S2P Require Import Reference.
Open Scope m_scope.

(** ** Families of keys *)

Variant VType := TStr | TInt | THash | TZset | TSet.

Definition type_of (v : VValue) : VType :=
  match v with VStr _ => TStr | VInt _ => TInt | VHash _ => THash | VZset _ => TZset | VSet _ => TSet end.

(** The families of keys and the type each is used at: sessions, the sessions of
    a user, rate counters, the messages and the order of a cached history, the
    users present in a channel and the presence of one of them. *)
Definition key_type (key : rstr) : option VType :=
  if starts_with (rs "vussa:session:") key then Some THash
  else if starts_with (rs "vussa:user_sessions:") key then Some TSet
  else if starts_with (rs "chat:rate:") key then Some TInt
  else if starts_with (rs "chat:history:") key then
    if ends_with (rs ":messages") key then Some THash
    else if ends_with (rs ":order") key then Some TZset else None
  else if starts_with (rs "chat:presence:") key then
    if ends_with (rs ":users") key then Some TSet else Some TStr
  else None.

Definition entry_typed (key : rstr) (e : VEntry) : Prop :=
  match key_type key with Some t => type_of (ve_value e) = t | None => False end.
(** Every key belongs to a family and holds a value of its type. *)
Definition well_typed (ks : Keyspace) : Prop := map_Forall entry_typed ks.

(** The type a command needs its key to have. *)
Definition cmd_typed {A} (c : VCmd A) : Prop :=
  match c with
  | Hset key _ | Hmget key _ | Hdel key _ => key_type key = Some THash
  | Zadd key _ _ | Zrem key _ | Zrange key _ _ | Zrevrangebyscore key _ _ => key_type key = Some TZset
  | Sadd key _ | Srem key _ | Smembers key => key_type key = Some TSet
  | Incr key => key_type key = Some TInt
  | Setex key _ _ => key_type key = Some TStr
  | Expire _ _ | Ttl _ | Exists _ | Del _ | Mget _ => True
  end.
Definition action_typed (a : VAction) : Prop := match a with act c => cmd_typed c end.

Section Execution.
Implicit Types (ks : Keyspace).

Lemma live_typed now ks key e t :
  well_typed ks -> key_type key = Some t -> live now ks key = Some e -> type_of (ve_value e) = t.
Proof.
  intros Hw Ht [He _]%live_some. specialize (Hw key e He). unfold entry_typed in Hw. by rewrite Ht in Hw.
Qed.
Lemma well_typed_insert ks key v expire t :
  well_typed ks -> key_type key = Some t -> type_of v = t -> well_typed (<[key := mkVEntry v expire]> ks).
Proof.
  intros Hw Ht Hv. apply map_Forall_insert_2; [|done]. unfold entry_typed. by rewrite Ht.
Qed.
Lemma well_typed_put ks key v empty expire t :
  well_typed ks -> key_type key = Some t -> type_of v = t -> well_typed (put key v empty expire ks).
Proof.
  intros Hw Ht Hv. unfold put. destruct empty; [by apply map_Forall_delete|by eapply well_typed_insert].
Qed.
Lemma well_typed_delete ks key : well_typed ks -> well_typed (delete key ks).
Proof. apply map_Forall_delete. Qed.
Lemma well_typed_delete_all keys ks : well_typed ks -> well_typed (fold_left (fun ks k => delete k ks) keys ks).
Proof. revert ks. induction keys; simpl; [done|]. intros ks Hw. by apply IHkeys, well_typed_delete. Qed.
Lemma well_typed_expire now ks key e t :
  well_typed ks -> live now ks key = Some e ->
  well_typed (<[key := mkVEntry (ve_value e) t]> ks).
Proof.
  intros Hw [He _]%live_some. apply map_Forall_insert_2; [|done]. exact (Hw key e He).
Qed.

(** A view of a typed key answers. *)
Lemma view_typed {A} (view : option VEntry -> Result RedisError A) t :
  (forall o, (forall e, o = Some e -> type_of (ve_value e) = t) -> exists a, view o = Ok a) ->
  forall now ks key, well_typed ks -> key_type key = Some t -> exists a, view (live now ks key) = Ok a.
Proof. intros Hv now ks key Hw Ht. apply Hv. intros e He. by eapply live_typed. Qed.

Lemma hash_view_typed now ks key :
  well_typed ks -> key_type key = Some THash -> exists h, hash_view (live now ks key) = Ok h.
Proof.
  apply (view_typed hash_view). intros [e|] H; simpl; [|eauto].
  specialize (H e eq_refl). destruct (ve_value e); simpl in *; eauto; discriminate.
Qed.
Lemma zset_view_typed now ks key :
  well_typed ks -> key_type key = Some TZset -> exists z, zset_view (live now ks key) = Ok z.
Proof.
  apply (view_typed zset_view). intros [e|] H; simpl; [|eauto].
  specialize (H e eq_refl). destruct (ve_value e); simpl in *; eauto; discriminate.
Qed.
Lemma set_view_typed now ks key :
  well_typed ks -> key_type key = Some TSet -> exists s, set_view (live now ks key) = Ok s.
Proof.
  apply (view_typed set_view). intros [e|] H; simpl; [|eauto].
  specialize (H e eq_refl). destruct (ve_value e); simpl in *; eauto; discriminate.
Qed.
Lemma int_view_typed now ks key :
  well_typed ks -> key_type key = Some TInt -> exists z, int_view (live now ks key) = Ok z.
Proof.
  apply (view_typed int_view). intros [e|] H; simpl; [|eauto].
  specialize (H e eq_refl). destruct (ve_value e); simpl in *; eauto; discriminate.
Qed.

(** A typed command on a typed cache is answered and leaves it typed. *)
Lemma exec_typed {A} now (c : VCmd A) ks :
  well_typed ks -> cmd_typed c ->
  is_ok (keyspace_exec now c ks).1 = true /\ well_typed (keyspace_exec now c ks).2.
Proof.
  intros Hw Hc. destruct c; simpl in *; unfold run_view;
    try (destruct (hash_view_typed now ks key Hw Hc) as (v & ->));
    try (destruct (zset_view_typed now ks key Hw Hc) as (v & ->));
    try (destruct (set_view_typed now ks key Hw Hc) as (v & ->));
    try (destruct (int_view_typed now ks key Hw Hc) as (v & ->));
    simpl; try (split; [done|]; solve [done|by eapply well_typed_put|by eapply well_typed_insert|by apply well_typed_delete_all]).
  - destruct (live now ks key) eqn:El; [|done]. split; [done|]. by eapply well_typed_expire.
  - destruct (live now ks key) as [e|]; [|done]. by destruct (ve_expire e).
Qed.
End Execution.

(** ** A server that keeps watch

    The cache with a flag that goes up when a command is answered with an
    error. *)
Definition watched_exec {A} (now : Z) (c : VCmd A) (k : Keyspace * bool) :
    Result RedisError A * (Keyspace * bool) :=
  let '(r, ks) := keyspace_exec now c k.1 in (r, (ks, k.2 || negb (is_ok r))).
#[export] Program Instance watched_valkey : Valkey (Keyspace * bool) := {|
  vk_exec := @watched_exec; vk_view k := k.1
|}.
Next Obligation. intros A now c k. unfold watched_exec. by destruct (keyspace_exec now c k.1). Qed.

Notation Watched := (World (Keyspace * bool)) (only parsing).
Definition sound_cache (k : Keyspace * bool) : Prop := well_typed k.1 /\ k.2 = false.
(** The frame of "the cache stays typed and nothing went wrong". *)
Definition Sound (w w' : Watched) : Prop := sound_cache (w_cache w) -> sound_cache (w_cache w').

#[export] Instance sound_frame : FrameRel Sound.
Proof. split; unfold Sound; simpl; try done. intros w1 w2 w3 H1 H2 H. auto. Qed.
#[export] Instance sound_db : FrameDbFree Sound.
Proof. by intros w d H. Qed.
#[export] Instance sound_pub : FramePubFree Sound.
Proof. by intros w e H. Qed.
#[export] Instance sound_sent : FrameSentFree Sound.
Proof. by intros w e H. Qed.

Section Sound.
Lemma watched_exec_sound {A} now (c : VCmd A) k :
  cmd_typed c -> sound_cache k -> sound_cache (watched_exec now c k).2.
Proof.
  intros Hc [Hw Hb]. unfold watched_exec. destruct (exec_typed now c k.1 Hw Hc) as [Hok Hw'].
  destruct (keyspace_exec now c k.1) as [r ks]. simpl in *. rewrite Hb, Hok. done.
Qed.
Lemma sound_command {A} (c : VCmd A) : cmd_typed c -> Frame Sound (command c).
Proof.
  intros Hc env w Hw. unfold command. pose proof (watched_exec_sound (env_clock env (w_step w)) c (w_cache w) Hc Hw) as Hx.
  destruct (env_fault _ _); simpl; [|done|exact Hx].
  change (vk_exec (env_clock env (w_step w)) c (w_cache w)) with (watched_exec (env_clock env (w_step w)) c (w_cache w)).
  by destruct (watched_exec _ _ _).
Qed.
Lemma sound_actions now cs k :
  Forall action_typed cs -> sound_cache k -> sound_cache (exec_actions now cs k).
Proof.
  revert k. unfold exec_actions. induction cs as [|[A c] cs IH]; simpl; [done|].
  intros k [Hc Hcs]%Forall_cons Hk. apply IH; [done|]. by apply watched_exec_sound.
Qed.
Lemma sound_pipe_atomic cs : Forall action_typed cs -> Frame Sound (pipe_atomic cs).
Proof.
  intros Hc env w Hw. unfold pipe_atomic.
  destruct (env_fault _ _); simpl; [|done|]; by apply sound_actions.
Qed.
Lemma sound_execute {E A} `{From SqlxError E} (f : Db -> Result SqlxError (A * Db)) :
  Frame (E := E) Sound (execute f).
Proof. apply frame_execute; [exact _|]. by intros w a d _ Hs. Qed.
End Sound.

(** ** The keys of the program *)

Section Keys.
Context {T : UuidText}.

Lemma ends_with_app suffix s : ends_with suffix (s ++ suffix) = true.
Proof.
  unfold ends_with. rewrite reverse_app. induction (reverse suffix) as [|c l IH]; simpl; [done|].
  by rewrite Z.eqb_refl.
Qed.
Lemma key_type_session id : key_type (session_key id) = Some THash.
Proof. reflexivity. Qed.
Lemma key_type_user_sessions id : key_type (user_sessions_key id) = Some TSet.
Proof. reflexivity. Qed.
Lemma key_type_rate s : key_type (rs "chat:rate:" ++ s) = Some TInt.
Proof. reflexivity. Qed.
Lemma key_type_history channel : key_type (history_key channel) = Some THash.
Proof. unfold key_type, history_key. rewrite app_assoc, ends_with_app. reflexivity. Qed.
Lemma key_type_history_order channel : key_type (history_order_key channel) = Some TZset.
Proof.
  unfold key_type, history_order_key. rewrite app_assoc, ends_with_app.
  unfold ends_with at 1. rewrite reverse_app. reflexivity.
Qed.
Lemma key_type_presence_set channel : key_type (presence_set_key channel) = Some TSet.
Proof. unfold key_type, presence_set_key. rewrite app_assoc, ends_with_app. reflexivity. Qed.
(** No identifier ends like the key of the set. *)
Lemma key_type_presence channel user : key_type (presence_key channel user) = Some TStr.
Proof.
  unfold key_type, presence_key, presence_key_of.
  assert (ends_with (rs ":users") (rs "chat:presence:" ++ channel ++ rs ":" ++ uuid_to_string user) = false) as ->.
  { unfold ends_with. rewrite !app_assoc, reverse_app. pose proof (uuid_text_class user) as Hc.
    apply Forall_reverse in Hc. destruct (reverse (uuid_to_string user)) as [|c l].
    - rewrite reverse_app. reflexivity.
    - apply Forall_cons in Hc as [Hc _]. change (reverse (rs ":users")) with (115 :: reverse (rs ":user")).
      cbn [app starts_with]. destruct (Z.eqb_spec 115 c) as [<-|]; [discriminate Hc|reflexivity]. }
  reflexivity.
Qed.
End Keys.

Create HintDb cache_types.
#[export] Hint Resolve key_type_session key_type_user_sessions key_type_rate key_type_history
  key_type_history_order key_type_presence_set key_type_presence : cache_types.
Ltac typed :=
  solve [simpl; eauto with cache_types | repeat (constructor; [simpl; eauto with cache_types|]); constructor].

(** ** What the program does keeps the types *)

Create HintDb sound.
Ltac sound_step :=
  lazymatch goal with
  | |- Frame _ (bind _ _) => apply frame_bind; [exact _| |intros ?]
  | |- Frame _ (command _) => apply sound_command; typed
  | |- Frame _ (pipe_atomic _) => apply sound_pipe_atomic; typed
  | |- Frame _ (execute _) => apply sound_execute
  | |- Frame _ (query _) => apply frame_query; exact _
  | |- Frame _ (ret _) => apply frame_ret; exact _
  | |- Frame _ (if _ then _ else _) => frame_step
  | |- Frame _ (match _ with _ => _ end) => frame_step
  | |- Frame _ (let _ := _ in _) => cbv zeta
  | |- Frame _ (transaction _) => frame_step
  | |- Frame _ (conv _) => frame_step
  | |- Frame _ (attempt _) => frame_step
  | |- Frame _ (for_each _ _) => frame_step
  | |- Frame _ (collect _ _) => apply frame_collect; [exact _|intros ?]
  | |- Frame _ ?m =>
      first [ solve [auto with sound] | solve [auto with frame typeclass_instances]
            | let h := head_of m in unfold h ]
  end.
Ltac sound_auto := repeat sound_step.

Section Leaves.
Context {T : UuidText} {J : JsonText} {B : Bitcode} {U : Unicode} {C : Crypto}.
Notation Sounds m := (Frame (K := Keyspace * bool) Sound m).

Lemma sound_load_session headers : Sounds (load_session headers).
Proof. sound_auto. Qed.
Lemma sound_require_csrf headers s : Sounds (require_csrf headers s).
Proof. sound_auto. Qed.
Lemma sound_enforce_rate_limit s limit window : Sounds (enforce_rate_limit (rs "chat:rate:" ++ s) limit window).
Proof. sound_auto. Qed.
Lemma sound_ping : Sounds ping.
Proof. apply frame_ping. exact _. Qed.
Lemma sound_notifier notifier email token : Sounds (call_notifier notifier email token).
Proof. by intros env w Hw. Qed.
Lemma sound_put key c : Sounds (put_blob key c).
Proof. intros env w Hw. unfold put_blob. by destruct (store_put _ _ _ _ _). Qed.
Lemma sound_get key : Sounds (get_stream key).
Proof. by intros env w Hw. Qed.
Lemma sound_delete key : Sounds (delete_blob key).
Proof. intros env w Hw. unfold delete_blob. by destruct (store_delete _ _ _). Qed.
Lemma sound_publish_unheard : Sounds publish_unheard.
Proof. intros env w Hw. unfold publish_unheard. by destruct (env_fault _ _). Qed.
Lemma sound_session_views user current ids : Sounds (session_views (user_sessions_key user) current ids).
Proof.
  induction ids as [|id ids IH]; cbn [session_views]; [sound_auto|].
  destruct (uuid_parse id); [|done]. sound_auto; done.
Qed.
Lemma sound_record_audit e : Sounds (record_audit e).
Proof. sound_auto. Qed.
Lemma sound_bulk_each actor action reason now ids : Sounds (bulk_each actor action reason now ids).
Proof.
  induction ids as [|id ids IH]; cbn [bulk_each]; [sound_auto|].
  apply frame_bind; [exact _|apply sound_execute|]. intros n.
  apply frame_bind; [exact _|destruct (_ <? _); [apply sound_record_audit|sound_auto]|]. intros _.
  apply frame_bind; [exact _|exact IH|]. intros l. sound_auto.
Qed.
End Leaves.
#[export] Hint Resolve sound_load_session sound_require_csrf sound_enforce_rate_limit sound_ping
  sound_notifier sound_put sound_get sound_delete sound_publish_unheard sound_session_views
  sound_record_audit sound_bulk_each : sound.

Section Shared.
Context {T : UuidText} {J : JsonText} {B : Bitcode} {U : Unicode} {C : Crypto}.
Notation Sounds m := (Frame (K := Keyspace * bool) Sound m).

Lemma sound_csrf_session headers : Sounds (csrf_session headers).
Proof. sound_auto. Qed.
Lemma sound_privileged headers p : Sounds (privileged headers p).
Proof. sound_auto. Qed.
Lemma sound_privileged_read headers p : Sounds (privileged_read headers p).
Proof. sound_auto. Qed.
Lemma sound_list_presence channel : Sounds (list_presence channel).
Proof. sound_auto. Qed.
Lemma typed_record_message channel m session : Forall action_typed (record_message channel m session).
Proof. unfold record_message. typed. Qed.
Lemma sound_pipe cs : Forall action_typed cs -> Sounds (pipe cs).
Proof.
  unfold pipe. induction 1 as [|c cs Hc _ IH]; simpl; [sound_auto|].
  apply frame_bind; [exact _|by apply sound_pipe_atomic, Forall_cons|]. by intros _.
Qed.
Lemma sound_store_message m session : Sounds (store_message m session).
Proof.
  unfold store_message. apply frame_bind; [exact _|sound_auto|]. intros _.
  apply frame_bind; [exact _|apply sound_pipe_atomic, typed_record_message|]. intros _.
  apply frame_bind; [exact _|sound_auto|]. intros ids. destruct (is_empty ids); [sound_auto|].
  apply sound_pipe. typed.
Qed.
Lemma sound_hydrate channel l : Sounds (hydrate_hot_history channel l).
Proof.
  unfold hydrate_hot_history. destruct (is_empty l); [sound_auto|].
  apply frame_bind; [exact _|sound_auto|]. intros _. apply sound_pipe_atomic.
  induction l as [|m l IH]; cbn [map concat]; [constructor|]. apply Forall_app. split; [apply typed_record_message|exact IH].
Qed.
Lemma sound_publish_system_message channel text : Sounds (publish_system_message channel text).
Proof. sound_auto. Qed.
Lemma sound_create_session user : Sounds (create_session user).
Proof. sound_auto. Qed.
End Shared.
#[export] Hint Resolve sound_csrf_session sound_privileged sound_privileged_read sound_list_presence
  sound_store_message sound_hydrate sound_publish_system_message sound_create_session : sound.

Section Operations.
Context {T : UuidText} {J : JsonText} {B : Bitcode} {U : Unicode} {C : Crypto}.
Context {L : UrlText} {X : UrlCrate} {H : HtmlCrate} {S : TextSearch}.
Notation Sounds m := (Frame (K := Keyspace * bool) Sound m).

Lemma sound_serve st headers r : Sounds (st_cache_health st) -> Sounds (serve st headers r).
Proof. intros Hh. destruct r; cbn [serve]; sound_auto; done. Qed.
Lemma sound_socket_open user : Sounds (socket_open user).
Proof. sound_auto. Qed.
Lemma sound_socket_text s event subscribed : Sounds (socket_text s event subscribed).
Proof. sound_auto. Qed.
Lemma sound_socket_close user channel : Sounds (socket_close user channel).
Proof. sound_auto. Qed.
Lemma sound_outbox_round : Sounds outbox_round.
Proof. sound_auto. Qed.
End Operations.

(** ** The operations of the process *)

(** What runs against the cache: a request, the life of a socket, and the worker
    of the outbox. *)
Inductive Operation :=
  | Requested (headers : HeaderMap) (r : Request)
  | SocketOpened (user : AuthUser)
  | SocketSaid (s : Client) (event : option ClientEvent) (subscribed : Result AppError unit)
  | SocketClosed (user : AuthUser) (channel : rstr)
  | OutboxTurn.

Section Perform.
Context {K : Type} {V : Valkey K} {T : UuidText} {J : JsonText} {B : Bitcode} {U : Unicode} {C : Crypto}.
Context {L : UrlText} {X : UrlCrate} {H : HtmlCrate} {S : TextSearch}.

Definition discard {E A} (m : M K E A) : M K AppError unit :=
  attempt m ;; ret tt.
Definition perform (st : AppState K) (op : Operation) : M K AppError unit :=
  match op with
  | Requested headers r => discard (serve st headers r)
  | SocketOpened user => discard (socket_open user)
  | SocketSaid s event subscribed => discard (socket_text s event subscribed)
  | SocketClosed user channel => discard (socket_close user channel)
  | OutboxTurn => discard outbox_round
  end.
End Perform.

(** C15. The cache is well typed: starting from a cache whose keys hold the types
    of their families, any sequence of requests, socket messages and outbox
    turns, whatever is lost, leaves it so, and none of the commands they send
    is answered with [WRONGTYPE]: the flag the watching server raises on the
    first such answer stays down. *)
Theorem cache_type_safe {T : UuidText} {J : JsonText} {B : Bitcode} {U : Unicode} {C : Crypto}
    {L : UrlText} {X : UrlCrate} {H : HtmlCrate} {S : TextSearch}
    (st : AppState (Keyspace * bool)) (ops : list Operation) (env : Env) (w : World (Keyspace * bool)) :
  Frame Sound (st_cache_health st) -> well_typed (w_cache w).1 -> (w_cache w).2 = false ->
  let w' := (for_each ops (perform st) env w).2 in
  well_typed (w_cache w').1 /\ (w_cache w').2 = false.
Proof.
  intros Hh Hw Hb. cbv zeta.
  refine (frame_for_each Sound ops (perform st) _ env w (conj Hw Hb)).
  intros op. unfold perform, discard.
  destruct op; (apply frame_bind; [exact _|apply frame_attempt|intros ?; apply frame_ret; exact _]).
  - by apply sound_serve.
  - apply sound_socket_open.
  - apply sound_socket_text.
  - apply sound_socket_close.
  - apply sound_outbox_round.
Qed.

(** ** Witnesses *)

#[local] Existing Instance sample_url_text.
#[local] Existing Instance sample_html.
#[local] Existing Instance hyphenated_text.
#[local] Existing Instance coded_json.
#[local] Existing Instance coded_bitcode.
#[local] Existing Instance ascii_unicode.
#[local] Existing Instance sample_crypto.
#[local] Existing Instance sample_search.
#[local] Existing Instance sample_urls.

Definition watched_state : AppState (Keyspace * bool) :=
  mkAppState [] false None None DisabledRecoveryNotifier NoopFileScanner false 0 (fun _ _ _ => [])
    (ret tt) (fun _ => true) (fun _ => []) (fun _ _ => None) (fun _ _ => Err []) (fun _ => [])
    (Err []).
Definition watched_world : World (Keyspace * bool) :=
  mkWorld 0 media_db (∅, false) (mkPool 1 0 false) [] [] ∅.
(** Someone registers, opens a socket, and the outbox worker takes a turn. *)
Definition sample_operations : list Operation :=
  [Requested [] (PostRegister (mkRegisterRequest (rs "dave@example.com") (rs "dave") (rs "password 1")));
   SocketOpened (sample_auth 1 "alice" ["chat:write"%string]); OutboxTurn].

Lemma cache_type_safe_witness :
  (w_cache (for_each sample_operations (perform watched_state) (sample_env 900) watched_world).2).2 = false.
Proof.
  destruct (cache_type_safe watched_state sample_operations (sample_env 900) watched_world
    (frame_ret Sound tt) (map_Forall_empty _) eq_refl) as [_ E]. exact E.
Defined.
