(* ===== verification/Startup.v ===== *)
(** * Startup

    What [bootstrap.rs] and [repository/postgres.rs] do before the server
    listens: the roles and permissions, the test accounts, the administrator of
    the environment, and the choices read from the environment; with the pool of
    [cache.rs], the probe of [database.rs] and the retention timer. *)
From Stdlib Require Import String.
From S2P Require Export Account Repository S3.
From S2P Require Import Reference.
Open Scope m_scope.

(** ** Roles and permissions *)

Definition PERMISSIONS : list rstr :=
  map rs ["chat:write"; "chat:moderate"; "users:read"; "users:write"; "roles:write"; "audit:read";
          "channels:read"; "channels:write"; "moderation:read"; "moderation:write";
          "operations:read"]%string.
Definition ROLES : list rstr := map rs ["user"; "moderator"; "admin"]%string.

(** [INSERT ... ON CONFLICT (name) DO NOTHING] *)
Definition sql_seed_permission (id : Uuid) (name : rstr) (d : Db) : Result SqlxError (unit * Db) :=
  if exists_row (fun p => pe_name p ≟ name) (permissions_t d) then Ok (tt, d)
  else insert_row pe_id true permissions_t set_permissions_t (mkPermissionRow id name) d.
Definition sql_seed_role (id : Uuid) (name : rstr) (d : Db) : Result SqlxError (unit * Db) :=
  if exists_row (fun r => ro_name r ≟ name) (roles_t d) then Ok (tt, d)
  else insert_row ro_id true roles_t set_roles_t (mkRoleRow id name) d.

(** [INSERT INTO role_permissions SELECT ... CROSS JOIN ... ON CONFLICT DO
    NOTHING] *)
Definition grant_key (g : RolePermissionRow) : Uuid * Uuid := (rp_role_id g, rp_permission_id g).
Definition add_grant (t : list RolePermissionRow) (g : RolePermissionRow) : list RolePermissionRow :=
  if exists_row (fun g' => grant_key g' ≟ grant_key g) t then t else t ++ [g].
Definition grants (role : rstr) (allowed : rstr -> bool) (d : Db) : list RolePermissionRow :=
  concat (map (fun r => map (fun p => mkRolePermissionRow (ro_id r) (pe_id p))
                          (where_ (fun p => allowed (pe_name p)) (permissions_t d)))
            (where_ (fun r => ro_name r ≟ role) (roles_t d))).
Definition sql_grant (role : rstr) (allowed : rstr -> bool) (d : Db) : Result SqlxError (unit * Db) :=
  Ok (tt, set_role_permissions (fold_left add_grant (grants role allowed d)) d).

Definition one_of (names : list string) (name : rstr) : bool := existsb (fun n => rs n ≟ name) names.
(** The four grants, in order. *)
Definition GRANTS : list (rstr * (rstr -> bool)) :=
  [(rs "user", one_of ["chat:write"]); (rs "moderator", one_of ["chat:write"; "chat:moderate"]);
   (rs "admin", fun _ => true);
   (rs "moderator", one_of ["moderation:read"; "moderation:write"; "channels:read"])]%string.

Section Seed.
Context {K : Type}.
Notation M := (M K RepositoryError).

Definition seed_permission (name : rstr) : M unit :=
  id <- now_v7 ;; execute (sql_seed_permission id name).
Definition seed_role (name : rstr) : M unit :=
  id <- now_v7 ;; now <- now_millis (E := RepositoryError) ;; execute (sql_seed_role id name).
Definition seed_authorization : M unit :=
  for_each PERMISSIONS seed_permission ;;
  for_each ROLES seed_role ;;
  for_each GRANTS (fun g => execute (sql_grant g.1 g.2)).
End Seed.

(** ** Accounts made at startup *)

Section Accounts.
Context {T : UuidText} {U : Unicode} {C : Crypto}.

(** [INSERT INTO users ... ON CONFLICT (lower(email)) DO UPDATE SET ... RETURNING
    id]; [update] is the assignment of an existing row. The identifiers of the
    users with the updated row's username are tested by the other index. *)
Definition same_email (email : rstr) (u : UserRow) : bool := pg_lower (u_email u) ≟ pg_lower (pg_lower email).
Definition sql_upsert_user (id : Uuid) (email username hash : rstr) (now : Z) (update : UserRow -> UserRow)
    (d : Db) : Result SqlxError (Uuid * Db) :=
  match first_row (same_email email) (users d) with
  | Some u =>
      if exists_row (fun v => negb (u_id v ≟ u_id u)
                      && (pg_lower (u_username v) ≟ pg_lower (u_username (update u)))) (users d)
      then Err SqlxDatabase
      else Ok (u_id u, set_users (update_where (fun v => u_id v ≟ u_id u) update) d)
  | None =>
      match sql_insert_user id email username hash now d with
      | Ok (_, d') => Ok (id, d')
      | Err e => Err e
      end
  end.
Definition revive (hash : rstr) (now : Z) (u : UserRow) : UserRow :=
  set_u_updated_at now (set_u_disabled_at None (set_u_password_hash hash u)).

Definition sql_admin_by_username (d : Db) : option (Uuid * rstr) :=
  (fun u => (u_id u, u_email u)) <$> first_row (fun u => pg_lower (u_username u) ≟ rs "admin") (users d).
Definition sql_rename (username : rstr) (user : Uuid) (d : Db) : Result SqlxError (unit * Db) :=
  if exists_row (fun u => negb (u_id u ≟ user) && (pg_lower (u_username u) ≟ pg_lower username)) (users d)
     && fk_user d user
  then Err SqlxDatabase
  else Ok (tt, set_users (update_where (fun u => u_id u ≟ user) (set_u_username username)) d).
(** [... SELECT $1,id,$2 FROM roles WHERE name=... ON CONFLICT DO NOTHING] *)
Definition sql_hold_role (user : Uuid) (role : rstr) (now : Z) (d : Db) : Result SqlxError (unit * Db) :=
  match sql_assign_role user role now d with Ok (_, d') => Ok (tt, d') | Err e => Err e end.

Context {K : Type}.
Notation M := (M K RepositoryError).

(** [.map_err(|error| RepositoryError::Migration(error.to_string()))] *)
Definition as_migration {A} (m : Effects.M K AppError A) : M A :=
  r <- attempt m ;;
  match r with Ok a => ret a | Err e => throw (Migration (message e)) end.

Definition renamed_username (id : Uuid) : rstr := rs "admin_renamed_" ++ take 8 (uuid_to_string id).
Definition free_admin_name (email : rstr) : M unit :=
  row <- query sql_admin_by_username ;;
  match row with
  | None => ret tt
  | Some (existing_id, existing_email) =>
      if to_lowercase existing_email ≟ to_lowercase email then ret tt
      else execute (sql_rename (renamed_username existing_id) existing_id)
  end.
Definition bootstrap_admin_transaction (email hash : rstr) : M unit :=
  transaction (
    free_admin_name email ;;
    id <- now_v7 ;;
    now <- now_millis ;;
    user <- execute (sql_upsert_user id email (rs "admin") hash (as_i64 now) (revive hash (as_i64 now))) ;;
    execute (sql_hold_role user (rs "admin") (as_i64 now))).
(** The address and the password are [ADMIN_EMAIL] and [ADMIN_PASSWORD]. *)
Definition bootstrap_admin (admin_email admin_password : option rstr) : M unit :=
  match admin_email, admin_password with
  | Some email, Some password =>
      hash <- as_migration (password_hash password) ;;
      bootstrap_admin_transaction email hash
  | _, _ => ret tt
  end.

Definition test_username (number : Z) : rstr := rs "test" ++ [48 + number].
Definition seed_test_account (number : Z) : M unit :=
  let username := test_username number in
  let email := username ++ rs "@example.com" in
  hash <- as_migration (hash_password_unchecked username) ;;
  now <- now_millis ;;
  id <- now_v7 ;;
  user <- execute (sql_upsert_user id email username hash (as_i64 now)
                     (fun u => revive hash (as_i64 now) (set_u_username username u))) ;;
  execute (sql_hold_role user (if number =? 1 then rs "admin" else rs "user") (as_i64 now)).
Definition seed_test_accounts : M unit := for_each [1; 2; 3; 4; 5; 6] seed_test_account.

(** The database part of [bootstrap::run]; [seed_tests] is whether
    [SEED_TEST_ACCOUNTS] is [true]. *)
Definition prepare_database (seed_tests : bool) (admin_email admin_password : option rstr) : M unit :=
  ensure_main_channel ;;
  seed_authorization ;;
  (if seed_tests then seed_test_accounts else ret tt) ;;
  bootstrap_admin admin_email admin_password.
End Accounts.

(** ** The process *)

Section Process.
(** [var] reads an environment variable. *)
Context (var : rstr -> option rstr).

(** [.parse().ok()).filter(|value| *value > 0).unwrap_or(16).clamp(1, 64)] *)
Definition valkey_pool_size : Z :=
  clamp 1 64 (match var (rs "VALKEY_POOL_SIZE") ≫= parse_unsigned u64_max with
              | Some value => if 0 <? value then value else 16
              | None => 16 end).
Definition upload_dir : rstr := default (rs ".data/uploads") (var (rs "UPLOAD_DIR")).

(** Which store the process opens. *)
Inductive OpenedStore {X : UrlCrate} := OpenedS3 (store : S3BlobStore) | OpenedFilesystem (root : rstr).
Definition open_store {X : UrlCrate} (client : Result rstr unit) (show : StorageError -> rstr) :
    Result rstr OpenedStore :=
  let backend := default (rs "filesystem") (var (rs "STORAGE_BACKEND")) in
  if backend ≟ rs "s3" then
    match from_env var client with Ok store => Ok (OpenedS3 store) | Err e => Err (show e) end
  else if backend ≟ rs "filesystem" then Ok (OpenedFilesystem upload_dir)
  else Err (rs "unsupported STORAGE_BACKEND=" ++ backend).

Lemma valkey_pool_size_bounds : 1 <= valkey_pool_size <= 64.
Proof. unfold valkey_pool_size, clamp. lia. Qed.
End Process.

(** [ValkeyPool::new] and a pass of [recover_forever], the connections being
    opaque. *)
Section Pool.
Context {Conn : Type}.
Fixpoint pool_connections (dial : nat -> Result RedisError Conn) (size : nat) : Result RedisError (list Conn) :=
  match size with
  | O => Ok []
  | S size' =>
      match pool_connections dial size' with
      | Err e => Err e
      | Ok connections =>
          match dial size' with Ok c => Ok (connections ++ [c]) | Err e => Err e end
      end
  end.
Definition recover_pass (answers : Conn -> bool) (dial : nat -> Result RedisError Conn) (connections : list Conn) :
    list Conn :=
  imap (fun index connection =>
    if answers connection then connection
    else match dial index with Ok replacement => replacement | Err _ => connection end) connections.

Lemma pool_connections_length dial size connections :
  pool_connections dial size = Ok connections -> length connections = size.
Proof.
  revert connections. induction size as [|size IH]; simpl; intros connections; [by intros [= <-]|].
  destruct (pool_connections dial size) as [l|]; [|done]. destruct (dial size); [|done].
  intros [= <-]. rewrite length_app. simpl. rewrite (IH l eq_refl). lia.
Qed.
(** A pass keeps every connection that answers, and when the server takes new
    connections leaves only such. *)
Lemma recover_pass_heals answers dial connections :
  length (recover_pass answers dial connections) = length connections
  /\ (forall i c, connections !! i = Some c -> answers c = true ->
        recover_pass answers dial connections !! i = Some c)
  /\ ((forall i, exists c, dial i = Ok c /\ answers c = true) ->
      Forall (fun c => answers c = true) (recover_pass answers dial connections)).
Proof.
  unfold recover_pass. split; [apply length_imap|]. split.
  - intros i c Hc Ha. rewrite list_lookup_imap, Hc. simpl. by rewrite Ha.
  - intros Hd. apply Forall_lookup. intros i c Hc. rewrite list_lookup_imap in Hc.
    destruct (connections !! i) as [c0|]; [|done]. injection Hc as <-. destruct (answers c0) eqn:E; [done|].
    destruct (Hd i) as (c1 & -> & ?). done.
Qed.
End Pool.

(** The probes of [cache.rs] and [database.rs], and the daily retention. *)
Inductive CacheError := CacheConnection (message : rstr) | CacheCommand (message : rstr).
Definition redis_ping (dial pong : Result rstr unit) : Result CacheError unit :=
  match dial with
  | Err error => Err (CacheConnection error)
  | Ok _ => match pong with Ok _ => Ok tt | Err error => Err (CacheCommand error) end
  end.
Definition database_ping {K} : M K SqlxError unit := query (fun _ => tt).
Definition retention_turn {K} : M K RepositoryError unit := attempt (E := RepositoryError) prune_expired ;; ret tt.

(** ** Seeding *)

(** The authorisation tables only grow. *)
Record Grown (d d' : Db) : Prop := {
  grown_permissions : incl (permissions_t d) (permissions_t d');
  grown_roles : incl (roles_t d) (roles_t d');
  grown_grants : incl (role_permissions d) (role_permissions d')
}.
#[export] Instance grown_preorder : PreOrder Grown.
Proof.
  split; [by intros d; split; apply incl_refl|].
  intros d1 d2 d3 [] []. split; eapply incl_tran; eauto.
Qed.

Definition permission_known (d : Db) (name : rstr) : Prop := exists p, In p (permissions_t d) /\ pe_name p = name.
Definition role_known (d : Db) (name : rstr) : Prop := exists r, In r (roles_t d) /\ ro_name r = name.
Definition Granted (d : Db) (role permission : rstr) : Prop :=
  exists r p, In r (roles_t d) /\ ro_name r = role /\ In p (permissions_t d) /\ pe_name p = permission
    /\ In (mkRolePermissionRow (ro_id r) (pe_id p)) (role_permissions d).

Section SeedFacts.
Context {K : Type}.

Lemma wp_for_each_all {E A} (l : list A) (f : A -> M K E unit) (I : Db -> Prop) (P : A -> Db -> Prop) d :
  (forall a d, I d -> wp (f a) (fun _ d' => I d' /\ P a d' /\ forall b, P b d -> P b d') (fun _ => True) d) ->
  I d -> wp (for_each l f) (fun _ d' => I d' /\ (forall b, P b d -> P b d') /\ forall a, In a l -> P a d')
           (fun _ => True) d.
Proof.
  intros Hf. revert d. induction l as [|a l IH]; intros d Hd; simpl; [by apply wp_ret|].
  apply wp_bind. eapply wp_mono; [apply Hf; exact Hd| |done]. intros _ d1 (Hd1 & Ha & Hk1).
  eapply wp_mono; [apply IH; exact Hd1| |done]. intros _ d2 (Hd2 & Hk2 & Hl).
  split; [done|]. split; [auto|]. intros b [<-|Hb]; auto.
Qed.

Lemma permission_grown d d' name : Grown d d' -> permission_known d name -> permission_known d' name.
Proof. intros Hg (p & Hp & Hn). exists p. split; [by apply (grown_permissions _ _ Hg)|done]. Qed.
Lemma role_grown d d' name : Grown d d' -> role_known d name -> role_known d' name.
Proof. intros Hg (p & Hp & Hn). exists p. split; [by apply (grown_roles _ _ Hg)|done]. Qed.

Lemma sql_seed_permission_ok id name d x d' :
  sql_seed_permission id name d = Ok (x, d') ->
  Grown d d' /\ permission_known d' name /\ roles_t d' = roles_t d.
Proof.
  unfold sql_seed_permission. destruct (exists_row _ _) eqn:Ee.
  - intros [= _ <-]. apply exists_row_true in Ee as (p & Hp & Hn%bool_decide_eq_true).
    split; [reflexivity|]. split; [by exists p|done].
  - intros (_ & _ & ->)%insert_row_ok. split; [split; simpl; auto using incl_refl, incl_appl|]. split; [|done].
    exists (mkPermissionRow id name). simpl. split; [apply in_app_iff; right; by left|done].
Qed.
Lemma sql_seed_role_ok id name d x d' :
  sql_seed_role id name d = Ok (x, d') ->
  Grown d d' /\ role_known d' name.
Proof.
  unfold sql_seed_role. destruct (exists_row _ _) eqn:Ee.
  - intros [= _ <-]. apply exists_row_true in Ee as (p & Hp & Hn%bool_decide_eq_true).
    split; [reflexivity|by exists p].
  - intros (_ & _ & ->)%insert_row_ok. split; [split; simpl; auto using incl_refl, incl_appl|].
    exists (mkRoleRow id name). simpl. split; [apply in_app_iff; right; by left|done].
Qed.

Lemma grant_key_inj g g' : grant_key g = grant_key g' -> g = g'.
Proof. destruct g, g'. unfold grant_key. simpl. by intros [= -> ->]. Qed.
Lemma in_add_grants l t g : In g (fold_left add_grant l t) <-> In g t \/ In g l.
Proof.
  revert t. induction l as [|a l IH]; intros t; simpl; [tauto|]. rewrite IH. unfold add_grant.
  destruct (exists_row _ _) eqn:Ee; [|rewrite in_app_iff; simpl; tauto].
  apply exists_row_true in Ee as (g' & Hin & <-%bool_decide_eq_true%grant_key_inj).
  split; [tauto|]. intros [H|[<-|H]]; tauto.
Qed.
Lemma in_grants role allowed d g :
  In g (grants role allowed d) <->
  exists r p, In r (roles_t d) /\ ro_name r = role /\ In p (permissions_t d) /\ allowed (pe_name p) = true
    /\ g = mkRolePermissionRow (ro_id r) (pe_id p).
Proof.
  unfold grants. rewrite in_concat. split.
  - intros (l & (r & <- & [Hr Hn%bool_decide_eq_true]%in_where)%in_map_iff & (p & <- & [Hp Ha]%in_where)%in_map_iff).
    by exists r, p.
  - intros (r & p & Hr & Hn & Hp & Ha & ->). eexists. split.
    + apply in_map_iff. exists r. split; [reflexivity|]. apply in_where. split; [done|by apply bool_decide_eq_true].
    + apply in_map_iff. exists p. split; [done|]. by apply in_where.
Qed.
(** What seeding establishes. *)
Record Seeded (d d' : Db) : Prop := {
  seeded_grown : Grown d d';
  seeded_permissions p : In p PERMISSIONS -> permission_known d' p;
  seeded_roles r : In r ROLES -> role_known d' r;
  seeded_grants role permission : In role ROLES -> permission_known d' permission ->
    (exists g, In g GRANTS /\ g.1 = role /\ g.2 permission = true) -> Granted d' role permission
}.

Lemma wp_seed_tables d :
  wp (K := K) (for_each PERMISSIONS seed_permission ;; for_each ROLES seed_role)
    (fun _ d' => Grown d d' /\ (forall p, In p PERMISSIONS -> permission_known d' p)
                 /\ forall r, In r ROLES -> role_known d' r) (fun _ => True) d.
Proof.
  apply wp_bind. eapply wp_mono; [apply (wp_for_each_all _ _ (Grown d) (fun p d' => permission_known d' p))| |done].
  - intros p d1 Hd1. unfold seed_permission. apply wp_bind. wp_silent_step. apply wp_execute; [done|].
    intros x d2 (Hg & Hp & _)%sql_seed_permission_ok. split; [|done]. split; [by etransitivity|].
    split; [done|]. intros b. by apply permission_grown.
  - reflexivity.
  - intros _ d1 (Hd1 & _ & Hp).
    eapply wp_mono; [apply (wp_for_each_all _ _ (fun d' => Grown d d' /\ Grown d1 d') (fun r d' => role_known d' r))| |done].
    + intros r d2 [Hd2 Hd12]. unfold seed_role. apply wp_bind. wp_silent_step. apply wp_bind. wp_silent_step.
      apply wp_execute; [done|]. intros x d3 (Hg & Hr)%sql_seed_role_ok. split; [|done].
      split; [split; by etransitivity|]. split; [done|]. intros b. by apply role_grown.
    + by split.
    + intros _ d2 ([Hd2 Hd12] & _ & Hr). split; [done|]. split; [|done].
      intros p Hp'. eapply permission_grown; [exact Hd12|auto].
Qed.

Lemma wp_seed_authorization d :
  wp (K := K) seed_authorization (fun _ d' => Seeded d d') (fun _ => True) d.
Proof.
  unfold seed_authorization. apply wp_bind_assoc, wp_bind. eapply wp_mono; [apply wp_seed_tables| |done].
  intros _ d1 (Hd1 & Hp & Hr).
  set (I := fun d' => Grown d1 d' /\ permissions_t d' = permissions_t d1 /\ roles_t d' = roles_t d1).
  set (P := fun (g : rstr * (rstr -> bool)) d' => incl (grants g.1 g.2 d1) (role_permissions d')).
  eapply wp_mono; [apply (wp_for_each_all _ _ I P)| |done].
  - intros g d2 (Hg & Ep & Er). apply wp_execute; [done|]. intros x d3 [= _ <-]. split; [|done].
    assert (grants g.1 g.2 d2 = grants g.1 g.2 d1) as Eg by (unfold grants; by rewrite Ep, Er).
    assert (incl (role_permissions d2) (fold_left add_grant (grants g.1 g.2 d2) (role_permissions d2))) as Hkeep
      by (intros y Hy; apply in_add_grants; by left).
    split; [split; [|done]|split].
    + destruct Hg as [G1 G2 G3]. split; simpl; [done|done|]. by eapply incl_tran.
    + intros y Hy. simpl. apply in_add_grants. right. by rewrite Eg.
    + intros b Hb. simpl. by eapply incl_tran.
  - by split.
  - intros _ d2 ((Hg & Ep & Er) & _ & Hall). split.
    + by etransitivity.
    + intros p Hin. eapply permission_grown; [exact Hg|auto].
    + intros r Hin. eapply role_grown; [exact Hg|auto].
    + intros role permission Hrole (p & Hpin & Hpn) (g & Hgin & <- & Hga).
      destruct (role_grown _ _ _ Hg (Hr _ Hrole)) as (r & Hrin & Hrn).
      exists r, p. do 4 (split; [done|]). apply (Hall g Hgin). apply in_grants. rewrite Ep in Hpin. rewrite Er in Hrin.
      exists r, p. rewrite Hpn. auto 6.
Qed.
End SeedFacts.

(** ** The administrator *)

Definition same_authorization (d d' : Db) : Prop :=
  permissions_t d' = permissions_t d /\ roles_t d' = roles_t d /\ role_permissions d' = role_permissions d.
#[export] Instance same_authorization_preorder : PreOrder same_authorization.
Proof.
  split; [by intros d|]. intros d1 d2 d3 (?&?&?) (?&?&?). repeat split; congruence.
Qed.

Section AdminFacts.
Context {K : Type} {T : UuidText} {U : Unicode} {C : Crypto}.

Lemma wp_any {E A} (m : M K E A) d : wp m (fun _ _ => True) (fun _ => True) d.
Proof. intros env w _. by destruct (m env w) as [[]]. Qed.

(** An upserted account: the row of that address, with the columns the update
    sets. *)
Lemma sql_upsert_user_ok id email username hash now update d user d' :
  (forall u, u_id (update u) = u_id u /\ u_email (update u) = u_email u
             /\ u_password_hash (update u) = hash /\ u_disabled_at (update u) = None) ->
  sql_upsert_user id email username hash now update d = Ok (user, d') ->
  same_authorization d d'
  /\ exists u, In u (users d') /\ u_id u = user /\ pg_lower (u_email u) = pg_lower (pg_lower email)
       /\ u_password_hash u = hash /\ u_disabled_at u = None.
Proof.
  unfold sql_upsert_user. intros Hup. destruct (first_row _ _) as [u|] eqn:Ef.
  - apply first_row_some in Ef as [Hin He%bool_decide_eq_true]. destruct (exists_row _ _); [done|].
    intros [= <- <-]. split; [done|]. destruct (Hup u) as (Hid & Hem & Hh & Hd).
    exists (update u). split; [|by rewrite Hem].
    apply in_update_where. exists u. split; [done|]. by rewrite bool_decide_eq_true_2.
  - destruct (sql_insert_user _ _ _ _ _ _) as [[x d1]|] eqn:Ei; [|done]. intros [= <- <-].
    unfold sql_insert_user in Ei. apply insert_row_ok in Ei as (_ & _ & ->). split; [done|].
    eexists. split; [apply in_app_iff; right; by left|]. done.
Qed.

Lemma sql_hold_role_ok user role now d x d' :
  role_known d role -> sql_hold_role user role now d = Ok (x, d') ->
  same_authorization d d' /\ users d' = users d
  /\ exists r, In r (roles_t d') /\ ro_name r = role /\ role_held d' user (ro_id r) = true.
Proof.
  intros (r0 & Hr0 & Hn0). unfold sql_hold_role, sql_assign_role.
  destruct (role_named d role) as [r|] eqn:Er.
  - pose proof Er as Er'. apply first_row_some in Er' as [Hin Hn%bool_decide_eq_true].
    destruct (role_held d user (ro_id r)) eqn:Eh; [intros [= _ <-]; split; [done|]; split; [done|]; by exists r|].
    unfold sql_give_role. rewrite Er. destruct (insert_row _ _ _ _ _ _) as [[y d1]|] eqn:Ei; [|done].
    intros [= _ <-]. apply insert_row_ok in Ei as (_ & _ & ->). split; [done|]. split; [done|].
    exists r. split; [done|]. split; [done|]. unfold role_held. simpl. apply exists_row_true.
    eexists. split; [apply in_app_iff; right; by left|]. simpl. by rewrite !bool_decide_eq_true_2.
  - unfold role_named in Er. apply first_row_none in Er. rewrite exists_row_false in Er.
    specialize (Er r0 Hr0). by rewrite bool_decide_eq_true_2 in Er.
Qed.

Lemma hold_role_same user role now d x d' :
  sql_hold_role user role now d = Ok (x, d') -> same_authorization d d'.
Proof.
  unfold sql_hold_role, sql_assign_role. destruct (role_named d role) eqn:Er; [|by intros [= _ <-]].
  destruct (role_held _ _ _); [by intros [= _ <-]|]. unfold sql_give_role. rewrite Er.
  destruct (insert_row _ _ _ _ _ _) as [[y d1]|] eqn:Ei; [|done]. intros [= _ <-].
  by apply insert_row_ok in Ei as (_ & _ & ->).
Qed.

Lemma seed_test_accounts_same : Frame (K := K) (DbRel same_authorization) seed_test_accounts.
Proof.
  unfold seed_test_accounts, seed_test_account, as_migration, hash_password_unchecked. frame_auto.
  - apply frame_execute; [exact _|]. intros w user d' Hu.
    eapply sql_upsert_user_ok in Hu as [Hs _]; [exact Hs|]. done.
  - apply frame_execute; [exact _|]. intros w x d' Hr. by eapply hold_role_same.
Qed.

(** What bootstrapping establishes. *)
Definition AdminReady (email password : rstr) (d : Db) : Prop :=
  exists u r, In u (users d) /\ pg_lower (u_email u) = pg_lower (pg_lower email)
    /\ argon2_verify password (u_password_hash u) = true /\ u_disabled_at u = None
    /\ In r (roles_t d) /\ ro_name r = rs "admin" /\ role_held d (u_id u) (ro_id r) = true.

Lemma wp_free_admin_name email d :
  wp (K := K) (free_admin_name email) (fun _ d' => same_authorization d d') (fun _ => True) d.
Proof.
  unfold free_admin_name. apply wp_bind, wp_query; [done|].
  destruct (sql_admin_by_username d) as [[id e]|]; [|by apply wp_ret].
  destruct (_ ≟ _); [by apply wp_ret|]. apply wp_execute; [done|]. intros x d'. unfold sql_rename.
  destruct (_ && _); [done|]. by intros [= _ <-].
Qed.

Lemma wp_bootstrap_admin email password d :
  role_known d (rs "admin") ->
  wp (K := K) (bootstrap_admin (Some email) (Some password))
    (fun _ d' => same_authorization d d' /\ AdminReady email password d') (fun _ => True) d.
Proof.
  intros Hrole. unfold bootstrap_admin, as_migration. apply wp_bind, wp_bind, wp_attempt.
  eapply wp_mono; [apply wp_password_hash| |by intros ? _ e; apply wp_throw].
  intros hash d0 [-> Hhash]. apply wp_ret. unfold bootstrap_admin_transaction.
  apply wp_transaction; [done|]. apply wp_bind. eapply wp_mono; [apply wp_free_admin_name| |done].
  intros y d1 Hd1; cbv beta in Hd1. apply wp_bind. wp_silent_step. apply wp_bind. wp_silent_step. apply wp_bind, wp_execute; [done|].
  intros user d2 Hu. apply sql_upsert_user_ok in Hu as (Hd2 & u & Hin & Hid & Hem & Hh & Hdis); [|done].
  split; [|done]. assert (same_authorization d d2) as Hs by (by etransitivity).
  apply wp_execute; [done|]. intros x d3 Hr. apply sql_hold_role_ok in Hr as (Hd3 & Eu & r & Hrin & Hrn & Hheld).
  - split; [|done]. split; [|done]. split; [by etransitivity|]. exists u, r. rewrite Eu, Hh, Hid. auto 10.
  - destruct Hrole as (r & Hrin & Hrn). exists r. by destruct Hs as (_ & -> & _).
Qed.
Lemma granted_same d d' role permission :
  same_authorization d d' -> Granted d role permission -> Granted d' role permission.
Proof. intros (Hp & Hr & Hg). unfold Granted. by rewrite Hp, Hr, Hg. Qed.

Lemma in_permissions_of d user r role permission :
  unique_on ro_name (roles_t d) -> In r (roles_t d) -> ro_name r = role -> role_held d user (ro_id r) = true ->
  Granted d role permission -> In permission (permissions_of d user).
Proof.
  intros Hu Hr Hn Hheld (r' & p & Hr' & Hn' & Hp & <- & Hg).
  assert (r' = r) as -> by (eapply (unique_on_eq ro_name); [exact Hu|done|done|congruence]).
  unfold permissions_of. apply list_elem_of_In, elem_of_remove_dups, list_elem_of_In, in_map.
  apply in_where. split; [done|]. apply exists_row_true. eexists. split; [exact Hg|]. simpl.
  by rewrite bool_decide_eq_true_2.
Qed.

Lemma admin_ready_holds email password d0 d1 d :
  Seeded d0 d1 -> same_authorization d1 d -> AdminReady email password d ->
  (forall role permission, In role ROLES -> In permission PERMISSIONS ->
     (exists g, In g GRANTS /\ g.1 = role /\ g.2 permission = true) -> Granted d role permission)
  /\ exists u, In u (users d) /\ pg_lower (u_email u) = pg_lower (pg_lower email)
       /\ argon2_verify password (u_password_hash u) = true /\ u_disabled_at u = None
       /\ (unique_on ro_name (roles_t d) -> incl PERMISSIONS (permissions_of d (u_id u))).
Proof.
  intros Hs Ha (u & r & Hu & He & Hv & Hd & Hr & Hn & Hheld).
  assert (forall role permission, In role ROLES -> In permission PERMISSIONS ->
     (exists g, In g GRANTS /\ g.1 = role /\ g.2 permission = true) -> Granted d role permission) as Hgranted.
  { intros role permission Hrole Hperm Hg. eapply granted_same; [exact Ha|].
    apply (seeded_grants _ _ Hs); [done| |done]. by apply (seeded_permissions _ _ Hs). }
  split; [done|]. exists u. do 4 (split; [done|]). intros Huniq permission Hperm.
  apply (in_permissions_of d (u_id u) r (rs "admin")); [done..|]. apply Hgranted; [vm_compute; tauto|done|].
  exists (rs "admin", fun _ => true). split; [vm_compute; tauto|done].
Qed.
End AdminFacts.

(** C17. Startup leaves a working administrator: when the database is prepared
    with an address and a password for the administrator and nothing is
    reported wrong, the three roles and the eleven permissions exist, each role
    holds the permissions listed for it, and there is an enabled account of that
    address whose password verifies and which holds every permission. *)
Theorem startup_admin_ready {K} {T : UuidText} {U : Unicode} {C : Crypto} env (w w' : World K)
    seed_tests email password :
  prepare_database seed_tests (Some email) (Some password) env w = (Ok tt, w') ->
  (forall role permission, In role ROLES -> In permission PERMISSIONS ->
     (exists g, In g GRANTS /\ g.1 = role /\ g.2 permission = true) -> Granted (w_db w') role permission)
  /\ exists u, In u (users (w_db w')) /\ pg_lower (u_email u) = pg_lower (pg_lower email)
       /\ argon2_verify password (u_password_hash u) = true /\ u_disabled_at u = None
       /\ (unique_on ro_name (roles_t (w_db w')) ->
           incl PERMISSIONS (permissions_of (w_db w') (u_id u))).
Proof.
  intros Hrun.
  enough (wp (K := K) (prepare_database seed_tests (Some email) (Some password))
      (fun _ d' => exists d0 d1, Seeded d0 d1 /\ same_authorization d1 d' /\ AdminReady email password d')
      (fun _ => True) (w_db w)) as Hwp.
  { specialize (Hwp env w eq_refl). rewrite Hrun in Hwp. destruct Hwp as (d0 & d1 & Hs & Ha & Hr).
    by eapply admin_ready_holds. }
  unfold prepare_database. apply wp_bind. eapply wp_mono; [apply wp_any| |done]. intros x0 d0 _.
  apply wp_bind. eapply wp_mono; [apply wp_seed_authorization| |done]. intros x1 d1 Hd1.
  assert (role_known d1 (rs "admin")) as Hrole by (apply (seeded_roles _ _ Hd1); vm_compute; tauto).
  apply wp_bind. apply (wp_frame same_authorization); [|done|].
  { destruct seed_tests; [apply seed_test_accounts_same|apply frame_ret; exact _]. }
  intros x2 d2 Hd2. eapply wp_mono; [apply wp_bootstrap_admin| |done].
  - destruct Hrole as (r & Hr & Hn). exists r. by destruct Hd2 as (_ & -> & _).
  - intros x3 d3 [Hd3 Hready]. exists d0, d1. split; [done|]. split; [by etransitivity|done].
Qed.

(** ** Witnesses *)

#[local] Existing Instance hyphenated_text.
#[local] Existing Instance ascii_unicode.
#[local] Existing Instance sample_crypto.

Notation prepare_sample :=
  (prepare_database true (Some (rs "root@example.com")) (Some (rs "correct horse 1"))) (only parsing).
Definition prepared : World Keyspace := (prepare_sample (sample_env 5) (sample_world sample_db)).2.

Lemma prepare_sample_ok : (prepare_sample (sample_env 5) (sample_world sample_db)).1 = Ok tt.
Proof. vm_compute. reflexivity. Qed.

Lemma startup_admin_ready_witness :
  Granted (w_db prepared) (rs "moderator") (rs "channels:read")
  /\ exists u, In u (users (w_db prepared)) /\ u_disabled_at u = None.
Proof.
  destruct (startup_admin_ready (sample_env 5) (sample_world sample_db) prepared true
    (rs "root@example.com") (rs "correct horse 1") (run_split _ _ _ _ prepare_sample_ok))
    as (Hg & u & Hu & _ & _ & Hd & _).
  split.
  - apply Hg; [vm_compute; tauto|vm_compute; tauto|]. exists (nth 3 GRANTS (rs "user", fun _ => true)).
    split; [right; right; right; left; reflexivity|]. split; reflexivity.
  - exists u. split; [exact Hu|exact Hd].
Defined.
