(* ===== verification/Float64.v ===== *)
(** * Floating point

    The [f64] arithmetic the load generator computes with: IEEE 754 double
    precision, from the executable specification of the Standard Library. The
    second half proves what rounding to the nearest means for the comparisons
    and the roundings of this program. *)
From Stdlib Require Import SpecFloat.
From Stdlib Require Import String.
From S2P Require Export Text.
Open Scope Z_scope.

Notation f64 := spec_float.

(** [n as f64], for an unsigned integer. *)
Definition of_int (n : Z) : f64 := binary_normalize 53 1024 n 0 false.
Definition fmul : f64 -> f64 -> f64 := SFmul 53 1024.
Definition fdiv : f64 -> f64 -> f64 := SFdiv 53 1024.
(** [a < b] and [a >= b]. *)
Definition flt : f64 -> f64 -> bool := SFltb.
Definition fge (a b : f64) : bool := SFleb b a.

(** The literal [n / d] in decimal notation: both are small, so that the
    division rounds once. *)
Definition literal (n d : Z) : f64 := fdiv (of_int n) (of_int d).

Definition is_finite (x : f64) : bool :=
  match x with S754_zero _ | S754_finite _ _ _ => true | _ => false end.

(** [x.max(y)] and [x.clamp(lo, hi)], for numbers. *)
Definition fmax (x y : f64) : f64 := if flt x y then y else x.
Definition fclamp (lo hi x : f64) : f64 := if flt x lo then lo else if flt hi x then hi else x.

(** The integer nearest to [m * 2^e], halves upwards. *)
Definition round_half_up (m e : Z) : Z :=
  if 0 <=? e then Z.shiftl m e else Z.shiftr (m + Z.shiftl 1 (- e - 1)) (- e).
(** [x.round() as usize]: the cast saturates. *)
Definition round_to_usize (x : f64) : Z :=
  match x with
  | S754_finite false m e => Z.min u64_max (round_half_up (Z.pos m) e)
  | S754_infinity false => u64_max
  | _ => 0
  end.

(** ** Reading a double *)

(** [10^exponent] times [digits], rounded once. *)
Definition of_decimal (negative : bool) (digits exponent : Z) : f64 :=
  if digits =? 0 then S754_zero negative
  else if 0 <=? exponent then
    binary_normalize 53 1024 ((if negative then -1 else 1) * (digits * 10 ^ exponent)) 0 negative
  else
    let '(q, e, l) := SFdiv_core_binary 53 1024 digits 0 (10 ^ (- exponent)) 0 in
    binary_round_aux 53 1024 negative q e l.

Definition read_sign (s : rstr) : bool * rstr :=
  match s with c :: s' => if c =? 45 then (true, s') else if c =? 43 then (false, s') else (false, s)
  | [] => (false, []) end.
(** The exponent that ends a number: nothing, or [e], a sign and digits. *)
Definition read_exponent (s : rstr) : option Z :=
  match s with
  | [] => Some 0
  | c :: s' =>
      if (c =? 101) || (c =? 69) then
        let (negative, digits) := read_sign s' in
        let '(n, count, rest) := read_digits 0 0 digits in
        if (0 <? count) && is_empty rest then Some (if negative then - n else n) else None
      else None
  end.

(** [raw.parse::<f64>()]: decimal notation, [inf], [infinity] and [nan] in any
    case. *)
Definition parse_f64 (raw : rstr) : option f64 :=
  let (negative, s) := read_sign raw in
  if existsb (fun w => eq_ignore_ascii_case s (rs w)) ["inf"; "infinity"]%string then Some (S754_infinity negative)
  else if eq_ignore_ascii_case s (rs "nan") then Some S754_nan
  else
    let '(whole, wholes, rest) := read_digits 0 0 s in
    let '(digits, fractions, rest) :=
      match rest with
      | c :: rest' => if c =? 46 then read_digits whole 0 rest' else (whole, 0, rest)
      | [] => (whole, 0, [])
      end in
    if wholes + fractions =? 0 then None
    else
      exponent ← read_exponent rest;
      Some (of_decimal negative digits (exponent - fractions)).

(** [raw.parse::<u32>()] *)
Definition parse_u32 (raw : rstr) : option Z := parse_unsigned u32_max raw.

Example parse_f64_hundredth : parse_f64 (rs "0.01") = Some (literal 1 100).
Proof. by vm_compute. Qed.
Example parse_f64_forms :
  map parse_f64 [rs "1e-2"; rs ".5"; rs "5."; rs "-0"; rs "."; rs "1e"; rs "+InF"; rs "0x1"; rs "1_0"]
  = [Some (literal 1 100); Some (literal 1 2); Some (literal 5 1); Some (S754_zero true); None; None;
     Some (S754_infinity false); None; None].
Proof. by vm_compute. Qed.
Example parse_u32_forms :
  map parse_u32 [rs "137"; rs "+0"; rs "4294967295"; rs "4294967296"; rs ""; rs "-1"]
  = [Some 137; Some 0; Some 4294967295; None; None; None].
Proof. by vm_compute. Qed.

(** ** Rounding to the nearest *)

Notation two52 := 4503599627370496.
Notation two53 := 9007199254740992.

(** An exact value [X / U] seen through a mantissa, a round bit and a sticky bit:
    in units of [U], [X] is the mantissa and the fraction the bits tell. *)
Definition located (X U : Z) (r : shr_record) : Prop :=
  let d := X - shr_m r * U in
  0 <= shr_m r /\ 0 <= d < U
  /\ match shr_r r, shr_s r with
     | false, false => d = 0 | false, true => 0 < d /\ 2 * d < U
     | true, false => 2 * d = U | true, true => U < 2 * d
     end.

(** One shift, on the mantissa and on the bits. *)
Lemma shr_1_spec r :
  0 <= shr_m r ->
  shr_m r = 2 * shr_m (shr_1 r) + (if shr_r (shr_1 r) then 1 else 0)
  /\ 0 <= shr_m (shr_1 r) /\ shr_s (shr_1 r) = shr_r r || shr_s r.
Proof. destruct r as [[|[p|p|]|] b s]; cbn; intros H; repeat split; lia. Qed.

Lemma located_shr_1 X U r : 0 < U -> located X U r -> located X (2 * U) (shr_1 r).
Proof.
  intros HU (Hm & Hd & Hbits). destruct (shr_1_spec r Hm) as (Em & Hm' & Es).
  unfold located. rewrite Es. rewrite Em in Hd, Hbits. revert Hd Hbits Hm'. clear Em Es Hm.
  generalize (shr_m (shr_1 r)). intros m. replace (m * (2 * U)) with (2 * (m * U)) by ring.
  replace ((2 * m + _) * U) with (2 * (m * U) + (if shr_r (shr_1 r) then U else 0))
    by (destruct (shr_r (shr_1 r)); ring).
  generalize (m * U). intros P. destruct (shr_r (shr_1 r)), (shr_r r), (shr_s r); cbn [orb]; lia.
Qed.

Lemma iter_pos_nat {A} (f : A -> A) (p : positive) (x : A) : SpecFloat.iter_pos f p x = Nat.iter (Pos.to_nat p) f x.
Proof.
  revert x. induction p as [p IH|p IH|]; intros x; cbn [SpecFloat.iter_pos].
  - rewrite !IH, Pos2Nat.inj_xI, Nat.iter_succ_r, <- Nat.iter_add. do 2 f_equal. lia.
  - rewrite !IH, Pos2Nat.inj_xO, <- Nat.iter_add. f_equal. lia.
  - done.
Qed.

(** Shifting by [n] bits multiplies the unit by [2^n]. *)
Lemma located_shr X U r e n :
  0 < U -> located X U r -> 0 <= n ->
  exists r', shr r e n = (r', e + n) /\ located X (U * 2 ^ n) r'.
Proof.
  intros HU Hl Hn.
  assert (forall k, located X (U * 2 ^ Z.of_nat k) (Nat.iter k shr_1 r)) as Hk.
  { induction k as [|k IH]; [by rewrite Z.mul_1_r|].
    rewrite Nat2Z.inj_succ, Z.pow_succ_r by lia.
    replace (U * (2 * 2 ^ Z.of_nat k)) with (2 * (U * 2 ^ Z.of_nat k)) by ring.
    apply located_shr_1; [|done]. apply Z.mul_pos_pos; [done|]. by apply Z.pow_pos_nonneg; lia. }
  destruct n as [|p|p]; [|..|lia]; cbn [shr].
  - exists r. rewrite Z.add_0_r, Z.mul_1_r. done.
  - eexists. split; [reflexivity|]. rewrite iter_pos_nat.
    specialize (Hk (Pos.to_nat p)). by rewrite positive_nat_Z in Hk.
Qed.

(** ** Digits and exact integers *)

Lemma digits_spec p : 2 ^ (Z.pos (digits2_pos p) - 1) <= Z.pos p < 2 ^ Z.pos (digits2_pos p).
Proof.
  induction p as [p IH|p IH|]; cbn [digits2_pos]; [| |done];
    rewrite Pos2Z.inj_succ, Z.pow_succ_r by lia;
    replace (Z.succ (Z.pos (digits2_pos p)) - 1) with (Z.succ (Z.pos (digits2_pos p) - 1)) by lia;
    rewrite Z.pow_succ_r by lia; lia.
Qed.

Lemma digits_unique m d : 0 < d -> 2 ^ (d - 1) <= m < 2 ^ d -> Zdigits2 m = d.
Proof.
  intros Hd Hm. assert (0 < 2 ^ (d - 1)) by (apply Z.pow_pos_nonneg; lia).
  destruct m as [|p|p]; [lia| |lia]. cbn [Zdigits2]. pose proof (digits_spec p) as Hp.
  destruct (Z.lt_trichotomy (Z.pos (digits2_pos p)) d) as [H1|[H1|H1]]; [|done|].
  - assert (2 ^ Z.pos (digits2_pos p) <= 2 ^ (d - 1)) by (apply Z.pow_le_mono_r; lia). lia.
  - assert (2 ^ d <= 2 ^ (Z.pos (digits2_pos p) - 1)) by (apply Z.pow_le_mono_r; lia). lia.
Qed.

Lemma digits_bounds m d : 0 < m -> m < 2 ^ d -> 0 < Zdigits2 m <= d.
Proof.
  intros Hm Hd. destruct m as [|p|p]; [lia| |lia]. cbn [Zdigits2]. split; [lia|].
  destruct (Z.le_gt_cases (Z.pos (digits2_pos p)) d) as [|H]; [done|].
  pose proof (digits_spec p). destruct (Z.le_gt_cases 0 d).
  - assert (2 ^ d <= 2 ^ (Z.pos (digits2_pos p) - 1)) by (apply Z.pow_le_mono_r; lia). lia.
  - rewrite (Z.pow_neg_r 2 d) in Hd by done. lia.
Qed.

Lemma digits_53 m : two52 <= m < two53 -> Zdigits2 m = 53.
Proof. intros H. apply digits_unique; [done|]. exact H. Qed.

(** The double with mantissa [M], which rounding may have carried to [2^53]. *)
Definition norm (M e : Z) : f64 :=
  if M =? two53 then S754_finite false (Z.to_pos two52) (e + 1) else S754_finite false (Z.to_pos M) e.

(** [x] is the double nearest to [A / B], in units of [2^-1074], the smallest
    positive double. *)
Definition nearest (A B : Z) (x : f64) : Prop :=
  exists M k, 0 <= k /\ x = norm M (k - 1074)
    /\ two52 * (2 ^ k * B) <= A < two53 * (2 ^ k * B)
    /\ 2 * Z.abs (A - M * (2 ^ k * B)) <= 2 ^ k * B /\ two52 <= M <= two53.

Lemma nearest_scale A B c x : 0 < c -> nearest (A * c) (B * c) x <-> nearest A B x.
Proof.
  intros Hc. split; intros (M & k & Hk & Hx & HA & HM & Hb); exists M, k.
  all: rewrite !(Z.mul_assoc _ _ c), <- Z.mul_sub_distr_r, Z.abs_mul, (Z.abs_eq c) in * by lia.
  all: rewrite ?(Z.mul_assoc _ _ c), <- ?Z.mul_sub_distr_r, ?Z.abs_mul, ?(Z.abs_eq c) by lia.
  all: split_and!; try done; nia.
Qed.

Lemma round_nearest_even_spec X U r :
  located X U r ->
  let M := round_nearest_even (shr_m r) (loc_of_shr_record r) in
  2 * Z.abs (X - M * U) <= U /\ shr_m r <= M <= shr_m r + 1.
Proof.
  intros (Hm & Hd & Hb). destruct r as [m [] []]; cbn [shr_m shr_r shr_s loc_of_shr_record round_nearest_even] in *;
    [| destruct (Z.even m) | |]; cbv zeta; rewrite ?Z.mul_add_distr_r, ?Z.mul_1_l; lia.
Qed.

Lemma shr_fexp_normal M e l :
  -1074 <= e -> 0 < Zdigits2 M -> 53 <= Zdigits2 M ->
  shr_fexp 53 1024 M e l = shr (shr_record_of_loc M l) e (Zdigits2 M - 53).
Proof. intros He H0 H. unfold shr_fexp, fexp, emin. f_equal. lia. Qed.

(** The second pass of the rounding only moves a carried mantissa. *)
Lemma round_carry M e :
  -1074 <= e <= 900 -> two52 <= M <= two53 ->
  (let '(r, e') := shr_fexp 53 1024 M e loc_Exact in
   match shr_m r with
   | Z0 => S754_zero false
   | Zpos m => if Z.leb e' (1024 - 53) then S754_finite false m e' else S754_infinity false
   | _ => S754_nan
   end) = norm M e.
Proof.
  intros He HM. unfold norm. destruct (M =? two53) eqn:E.
  - apply Z.eqb_eq in E as ->. rewrite shr_fexp_normal by (try lia; by vm_compute).
    change (Zdigits2 two53 - 53) with 1. cbn -[IntDef.Z.leb Z.add].
    by destruct (Z.leb_spec (e + 1) (1024 - 53)); [|lia].
  - apply Z.eqb_neq in E. rewrite shr_fexp_normal by (rewrite ?digits_53 by lia; lia).
    rewrite digits_53 by lia. change (53 - 53) with 0. cbn -[IntDef.Z.leb Z.add]. destruct M as [|p|p]; [lia| |lia].
    by destruct (Z.leb_spec e (1024 - 53)); [|lia].
Qed.

Lemma round_aux_nearest X U m e l :
  0 < U -> located X U (shr_record_of_loc m l) -> shr_m (shr_record_of_loc m l) = m ->
  two52 <= m < 2 ^ 300 -> -1074 <= e <= 500 ->
  nearest (X * 2 ^ (e + 1074)) U (binary_round_aux 53 1024 false m e l).
Proof.
  intros HU Hl Em Hm He. pose proof (digits_bounds m 300 ltac:(lia) ltac:(lia)) as Hd.
  assert (53 <= Zdigits2 m) as Hd53.
  { destruct m as [|p|p]; [lia| |lia]. cbn [Zdigits2] in *. pose proof (digits_spec p).
    destruct (Z.le_gt_cases 53 (Z.pos (digits2_pos p))) as [|Hlt]; [done|].
    assert (2 ^ Z.pos (digits2_pos p) <= 2 ^ 52) by (apply Z.pow_le_mono_r; lia).
    change (2 ^ 52) with two52 in *. lia. }
  set (n := Zdigits2 m - 53) in *.
  assert (two52 * 2 ^ n <= m < two53 * 2 ^ n) as Hmn.
  { change two52 with (2 ^ 52). change two53 with (2 ^ 53). rewrite <- !Z.pow_add_r by (unfold n; lia).
    replace (52 + n) with (Zdigits2 m - 1) by (unfold n; lia).
    replace (53 + n) with (Zdigits2 m) by (unfold n; lia).
    destruct m as [|p|p]; [lia| |lia]. apply digits_spec. }
  destruct (located_shr X U _ e n HU Hl ltac:(unfold n; lia)) as (r & Er & Hr).
  assert (0 < 2 ^ n) by (apply Z.pow_pos_nonneg; unfold n; lia).
  set (W := U * 2 ^ n) in *. assert (0 < W) by (unfold W; nia).
  assert (two52 * W <= X < two53 * W) as HX.
  { destruct Hl as (_ & Hl & _). rewrite Em in Hl. unfold W. nia. }
  assert (two52 <= shr_m r < two53) as Hmr by (destruct Hr as (_ & Hr & _); nia).
  destruct (round_nearest_even_spec X W r Hr) as [Hnear HM].
  unfold binary_round_aux. rewrite shr_fexp_normal by lia. fold n. rewrite Er.
  set (M := round_nearest_even _ _) in *. cbv beta iota.
  rewrite round_carry by (unfold n in *; lia).
  exists M, (e + n + 1074). rewrite !Z.add_simpl_r.
  replace (2 ^ (e + n + 1074) * U) with (W * 2 ^ (e + 1074)).
  2: { unfold W. replace (e + n + 1074) with (n + (e + 1074)) by lia.
       rewrite (Z.pow_add_r 2 n) by (unfold n in *; lia). ring. }
  assert (0 < 2 ^ (e + 1074)) by (apply Z.pow_pos_nonneg; lia).
  rewrite !Z.mul_assoc, <- Z.mul_sub_distr_r, Z.abs_mul, (Z.abs_eq (2 ^ _)) by lia.
  split_and!; try done; try nia; unfold n in *; lia.
Qed.

(** ** The value of a double *)

(** In units of [2^-1074]. *)
Definition value (x : f64) : Z :=
  match x with S754_finite false m e => Z.pos m * 2 ^ (e + 1074) | _ => 0 end.
Definition normal (x : f64) : Prop :=
  exists m k, x = S754_finite false m (k - 1074) /\ two52 <= Z.pos m < two53 /\ 0 <= k.

Lemma norm_spec M k :
  0 <= k -> two52 <= M <= two53 -> normal (norm M (k - 1074)) /\ value (norm M (k - 1074)) = M * 2 ^ k.
Proof.
  intros Hk HM. unfold norm. destruct (Z.eqb_spec M two53) as [->|Hne].
  - split; [exists (Z.to_pos two52), (k + 1); split_and!; try done; try lia; f_equal; lia|].
    unfold value. replace (k - 1074 + 1 + 1074) with (1 + k) by lia. rewrite Z.pow_add_r by lia. lia.
  - split; [exists (Z.to_pos M), k; split_and!; try done; lia|].
    unfold value. rewrite Z.sub_add, Z2Pos.id by lia. done.
Qed.

Lemma nearest_value A B x :
  nearest A B x ->
  normal x /\ exists M k, value x = M * 2 ^ k /\ 0 <= k /\ two52 <= M <= two53
    /\ two52 * (2 ^ k * B) <= A < two53 * (2 ^ k * B) /\ 2 * Z.abs (A - M * (2 ^ k * B)) <= 2 ^ k * B.
Proof.
  intros (M & k & Hk & -> & HA & HM & Hb). destruct (norm_spec M k Hk Hb) as [Hn Hv].
  split; [done|]. by exists M, k.
Qed.

(** Two binary scales, one a multiple of the other. *)
Lemma pow_split j k : 0 <= j <= k -> 2 ^ k = 2 ^ j * 2 ^ (k - j) /\ 0 < 2 ^ j /\ 1 <= 2 ^ (k - j).
Proof.
  intros H. assert (0 < 2 ^ j) by (apply Z.pow_pos_nonneg; lia).
  assert (0 < 2 ^ (k - j)) by (apply Z.pow_pos_nonneg; lia).
  rewrite <- Z.pow_add_r by lia. repeat split; [f_equal|..]; lia.
Qed.
Lemma pow_double j k : 0 <= j < k -> 2 ^ k = 2 * 2 ^ j * 2 ^ (k - j - 1) /\ 0 < 2 ^ j /\ 1 <= 2 ^ (k - j - 1).
Proof.
  intros H. destruct (pow_split j (k - 1)) as (E & H1 & H2); [lia|].
  replace k with (1 + (k - 1)) at 1 by lia. rewrite Z.pow_add_r, E by lia.
  replace (k - j - 1) with (k - 1 - j) by lia. repeat split; lia.
Qed.

Lemma normal_compare x y :
  normal x -> normal y -> SFcompare x y = Some (value x ?= value y).
Proof.
  intros (m & k & -> & Hm & Hk) (n & j & -> & Hn & Hj). cbn [SFcompare value]. f_equal.
  rewrite !Z.sub_add. destruct (Z.compare_spec (k - 1074) (j - 1074)) as [E|E|E]; symmetry.
  - replace j with k in * by lia. assert (0 < 2 ^ k) by (apply Z.pow_pos_nonneg; lia).
    by rewrite <- Zmult_compare_compat_r by lia.
  - apply Z.compare_lt_iff. destruct (pow_double k j) as (-> & H1 & H2); [lia|].
    assert (Z.pos m < 2 * Z.pos n * 2 ^ (j - k - 1)) by nia. nia.
  - apply Z.compare_gt_iff. destruct (pow_double j k) as (-> & H1 & H2); [lia|].
    assert (Z.pos n < 2 * Z.pos m * 2 ^ (k - j - 1)) by nia. nia.
Qed.

Lemma flt_value x y : normal x -> normal y -> flt x y = (value x <? value y).
Proof. intros Hx Hy. unfold flt, SFltb. by rewrite normal_compare. Qed.

Lemma fge_value x y : normal x -> normal y -> fge x y = (value y <=? value x).
Proof.
  intros Hx Hy. unfold fge, SFleb. rewrite normal_compare by done.
  unfold Z.leb. by destruct (value y ?= value x).
Qed.

(** ** Rounding is monotone *)

Section Monotone.
Variables (A B : Z) (x : f64).
Hypothesis positive : 0 < B.
Hypothesis rounded : nearest A B x.

Lemma half_le M Y P : 0 < P -> 2 * (M * P) <= 2 * (Y * P) + P -> M <= Y.
Proof. nia. Qed.
Lemma unit_le M Y P : 0 < P -> M * P <= Y * P -> M <= Y.
Proof. nia. Qed.
Lemma unit_lt M Y P : 0 < P -> M * P < Y * P -> M < Y.
Proof. nia. Qed.

(** A value at most a double with room for [53] bits rounds to at most it, and
    likewise from above. *)
Lemma nearest_le N j : 0 <= j -> N < two53 -> A <= N * 2 ^ j * B -> value x <= N * 2 ^ j.
Proof.
  intros Hj HN HA. destruct (nearest_value _ _ _ rounded) as (_ & M & k & -> & Hk & HM & Hr & Hd).
  destruct (Z.le_gt_cases k j) as [H|H].
  - destruct (pow_split k j) as (E & H1 & H2); [lia|]. rewrite E, (Z.mul_comm (2 ^ k)), Z.mul_assoc in *.
    apply Z.mul_le_mono_nonneg_r; [lia|]. apply (half_le _ _ (2 ^ k * B)); [nia|].
    rewrite <- (Z.mul_assoc _ (2 ^ k) B) in HA. lia.
  - destruct (pow_double j k) as (E & H1 & H2); [lia|]. exfalso.
    enough (two53 * 2 ^ (k - j - 1) <= N) by lia. apply (unit_le _ _ (2 ^ j * B)); [nia|].
    rewrite E in Hr. lia.
Qed.

Lemma nearest_ge N j : 0 <= j -> N <= two53 -> N * 2 ^ j * B <= A -> N * 2 ^ j <= value x.
Proof.
  intros Hj HN HA. destruct (nearest_value _ _ _ rounded) as (_ & M & k & -> & Hk & HM & Hr & Hd).
  destruct (Z.le_gt_cases k j) as [H|H].
  - destruct (pow_split k j) as (E & H1 & H2); [lia|]. rewrite E, (Z.mul_comm (2 ^ k)), Z.mul_assoc in *.
    apply Z.mul_le_mono_nonneg_r; [lia|]. apply (half_le _ _ (2 ^ k * B)); [nia|].
    rewrite <- (Z.mul_assoc _ (2 ^ k) B) in HA. lia.
  - destruct (pow_double j k) as (E & H1 & H2); [lia|]. rewrite E. nia.
Qed.

(** What is below the midpoint after a double rounds to at most it, and what is
    above the midpoint before it to at least it. *)
Lemma nearest_below N j :
  0 <= j -> two52 <= N < two53 -> 2 * A < (2 * N + 1) * 2 ^ j * B -> value x <= N * 2 ^ j.
Proof.
  intros Hj HN HA. destruct (Z.le_gt_cases A (N * 2 ^ j * B)) as [Hle|Hgt]; [apply nearest_le; lia|].
  destruct (nearest_value _ _ _ rounded) as (_ & M & k & -> & Hk & HM & Hr & Hd).
  assert (0 < 2 ^ j) by (apply Z.pow_pos_nonneg; lia). assert (0 < 2 ^ k) by (apply Z.pow_pos_nonneg; lia).
  assert (k = j) as ->.
  { destruct (Z.lt_trichotomy k j) as [Hkj|[Hkj|Hkj]]; [|done|]; exfalso.
    - destruct (pow_double k j) as (E & H1 & H2); [lia|]. rewrite E in Hgt.
      enough (2 * N * 2 ^ (j - k - 1) < two53) by nia. apply (unit_lt _ _ (2 ^ k * B)); lia.
    - destruct (pow_double j k) as (E & H1 & H2); [lia|]. rewrite E in Hr.
      enough (2 * (two53 * 2 ^ (k - j - 1)) < 2 * N + 1) by lia. apply (unit_lt _ _ (2 ^ j * B)); lia. }
  apply Z.mul_le_mono_nonneg_r; [lia|]. assert (M < N + 1); [|lia].
  apply (unit_lt _ _ (2 ^ j * B)); nia.
Qed.

Lemma nearest_above N j :
  0 <= j -> two52 < N <= two53 -> (2 * N - 1) * 2 ^ j * B < 2 * A -> N * 2 ^ j <= value x.
Proof.
  intros Hj HN HA. destruct (Z.le_gt_cases (N * 2 ^ j * B) A) as [Hle|Hgt]; [apply nearest_ge; lia|].
  destruct (nearest_value _ _ _ rounded) as (_ & M & k & -> & Hk & HM & Hr & Hd).
  assert (0 < 2 ^ j) by (apply Z.pow_pos_nonneg; lia). assert (0 < 2 ^ k) by (apply Z.pow_pos_nonneg; lia).
  assert (k = j) as ->.
  { destruct (Z.lt_trichotomy k j) as [Hkj|[Hkj|Hkj]]; [|done|]; exfalso.
    - destruct (pow_double k j) as (E & H1 & H2); [lia|]. rewrite E in HA.
      enough ((2 * N - 1) * 2 ^ (j - k - 1) < two53) by nia. apply (unit_lt _ _ (2 ^ k * B)); lia.
    - destruct (pow_double j k) as (E & H1 & H2); [lia|]. rewrite E in Hr.
      enough (two53 * 2 ^ (k - j - 1) < N) by lia. apply (unit_lt _ _ (2 ^ j * B)); lia. }
  apply Z.mul_le_mono_nonneg_r; [lia|]. assert (N - 1 < M); [|lia].
  apply (unit_lt _ _ (2 ^ j * B)); nia.
Qed.
End Monotone.

(** ** The operations *)

(** Doubles well inside the range, so that no product or quotient leaves it. *)
Definition moderate (x : f64) : Prop :=
  exists m k, x = S754_finite false m (k - 1074) /\ two52 <= Z.pos m < two53 /\ 900 <= k <= 1100.

Lemma moderate_normal x : moderate x -> normal x.
Proof. intros (m & k & ? & ? & ?). exists m, k. split_and!; try done; lia. Qed.

Lemma fmul_nearest x y :
  moderate x -> moderate y -> nearest (value x * value y) (2 ^ 1074) (fmul x y).
Proof.
  intros (m & k & -> & Hm & Hk) (n & j & -> & Hn & Hj). unfold fmul, SFmul, value. rewrite !Z.sub_add.
  replace (k - 1074 + (j - 1074)) with (k + j - 2148) by lia. cbn [xorb].
  assert (nearest (Z.pos (m * n) * 2 ^ (k + j - 2148 + 1074)) 1
    (binary_round_aux 53 1024 false (Z.pos (m * n)) (k + j - 2148) loc_Exact)) as H.
  { apply round_aux_nearest; cbn [shr_record_of_loc shr_m]; try lia.
    - unfold located. cbn [shr_m shr_r shr_s]. lia.
    - rewrite Pos2Z.inj_mul. assert (two53 * two53 < 2 ^ 300) by done. nia. }
  apply (nearest_scale _ _ (2 ^ 1074)) in H; [|by apply Z.pow_pos_nonneg].
  rewrite Z.mul_1_l, <- Z.mul_assoc, <- Z.pow_add_r in H by lia.
  replace (k + j - 2148 + 1074 + 1074) with (k + j) in H by lia.
  rewrite Z.pow_add_r, Pos2Z.inj_mul in H by lia.
  by replace (Z.pos m * 2 ^ k * (Z.pos n * 2 ^ j)) with (Z.pos m * Z.pos n * (2 ^ k * 2 ^ j)) by ring.
Qed.

Lemma new_location_spec X U q r :
  0 < U -> X = q * U + r -> 0 <= r < U -> 0 <= q -> located X U (shr_record_of_loc q (new_location U r)).
Proof.
  intros HU -> Hr Hq. unfold new_location, new_location_even, new_location_odd, located.
  destruct (Z.even U) eqn:E; destruct (Z.eqb_spec r 0).
  - cbn. lia.
  - destruct (Z.compare_spec (2 * r) U); cbn -[Z.mul]; lia.
  - cbn. lia.
  - assert (2 * r <> U) by (intros <-; by rewrite Z.even_mul in E).
    destruct (Z.compare_spec (2 * r + 1) U); cbn -[Z.mul]; lia.
Qed.

Lemma fdiv_nearest x y :
  moderate x -> moderate y -> nearest (value x * 2 ^ 1074) (value y) (fdiv x y).
Proof.
  intros (m & k & -> & Hm & Hk) (n & j & -> & Hn & Hj). unfold fdiv, SFdiv, SFdiv_core_binary.
  rewrite !digits_53 by done. unfold fexp, emin.
  replace (Z.min _ _) with (k - j - 53) by lia.
  replace (k - 1074 - (j - 1074) - (k - j - 53)) with 53 by lia. cbv iota.
  rewrite Z.shiftl_mul_pow2 by lia. change (2 ^ 53) with two53.
  pose proof (Z_div_mod (Z.pos m * two53) (Z.pos n) ltac:(lia)) as Hdiv.
  destruct (Z.div_eucl _ _) as [q r]. destruct Hdiv as [Hdiv Hr].
  assert (two52 <= q <= two53 * two53) as Hq by nia. cbn [xorb value]. rewrite !Z.sub_add.
  assert (two53 * two53 < 2 ^ 300) as Hbig by done.
  pose proof (round_aux_nearest (Z.pos m * two53) (Z.pos n) q (k - j - 53) (new_location (Z.pos n) r)) as H.
  rewrite <- Z.mul_assoc in H. change two53 with (2 ^ 53) in H at 1.
  change two53 with (2 ^ 53) in H at 1. rewrite <- Z.pow_add_r in H by lia.
  replace (53 + (k - j - 53 + 1074)) with (k - j + 1074) in H by lia.
  assert (0 < 2 ^ j) as H2j by (apply Z.pow_pos_nonneg; lia).
  apply (nearest_scale _ _ (2 ^ j)) in H; try lia.
  - rewrite <- !Z.mul_assoc, <- Z.pow_add_r in * by lia.
    by replace (k - j + 1074 + j) with (k + 1074) in H by lia.
  - apply new_location_spec; lia.
  - by destruct (new_location _ _) as [|[]].
Qed.

Lemma nearest_exact A B N j x :
  0 < B -> 0 <= j -> 0 <= N < two53 -> A = N * 2 ^ j * B -> nearest A B x -> value x = N * 2 ^ j.
Proof.
  intros HB Hj HN HA H. apply Z.le_antisymm.
  - eapply nearest_le; try done; lia.
  - eapply nearest_ge; try done; lia.
Qed.

(** Integers below [2^53] are doubles. *)
Lemma of_int_exact n : 0 < n < two53 -> moderate (of_int n) /\ value (of_int n) = n * 2 ^ 1074.
Proof.
  intros Hn. destruct n as [|p|p]; [lia| |lia]. unfold of_int, binary_normalize, binary_round.
  pose proof (digits_bounds (Z.pos p) 53 ltac:(lia) ltac:(apply Hn)) as Hd. cbn [Zdigits2] in Hd.
  pose proof (digits_spec p) as Hp. set (d := Z.pos (digits2_pos p)) in *.
  assert (shl_align p 0 (fexp 53 1024 (d + 0)) = (Z.to_pos (Z.pos p * 2 ^ (53 - d)), d - 53)) as ->.
  { unfold shl_align, fexp, emin. replace (Z.max _ _ - 0) with (d - 53) by lia.
    destruct (d - 53) as [|q|q] eqn:E; [|lia|].
    - replace (53 - d) with 0 by lia. by rewrite Z.mul_1_r.
    - replace (53 - d) with (Z.pos q) by lia. f_equal; [|lia]. apply Pos2Z.inj.
      rewrite Z2Pos.id by (assert (0 < 2 ^ Z.pos q) by (by apply Z.pow_pos_nonneg); lia).
      clear.
      induction q as [|q IH] using Pos.peano_ind; [cbn [Pos.iter]; change (2 ^ 1) with 2; lia|].
      rewrite Pos.iter_succ, Pos2Z.inj_succ, Z.pow_succ_r by lia. lia. }
  set (m := Z.pos p * 2 ^ (53 - d)).
  assert (two52 <= m < two53) as Hm.
  { unfold m.
    assert (2 ^ (d - 1) * 2 ^ (53 - d) = two52) by (rewrite <- Z.pow_add_r by lia; by replace (d - 1 + (53 - d)) with 52 by lia).
    assert (2 ^ d * 2 ^ (53 - d) = two53) by (rewrite <- Z.pow_add_r by lia; by replace (d + (53 - d)) with 53 by lia).
    assert (0 < 2 ^ (53 - d)) by (apply Z.pow_pos_nonneg; lia). nia. }
  assert (m * 2 ^ (d - 53 + 1074) = Z.pos p * 2 ^ 1074) as Em.
  { unfold m. rewrite <- Z.mul_assoc, <- Z.pow_add_r by lia. by replace (53 - d + (d - 53 + 1074)) with 1074 by lia. }
  clearbody m. cbv beta iota.
  assert (nearest (m * 2 ^ (d - 53 + 1074)) 1 (binary_round_aux 53 1024 false m (d - 53) loc_Exact)) as H.
  { assert (two53 < 2 ^ 300) by done. apply round_aux_nearest; cbn [shr_record_of_loc shr_m]; try lia.
    unfold located. cbn [shr_m shr_r shr_s]. lia. }
  rewrite Z2Pos.id by lia.
  pose proof (nearest_exact _ 1 m (d - 53 + 1074) _ ltac:(lia) ltac:(lia) ltac:(lia) (eq_sym (Z.mul_1_r _)) H) as Hv.
  split; [|by rewrite Hv]. destruct (nearest_value _ _ _ H) as [(m' & k & E & Hm' & Hk) _].
  exists m', k. do 2 (split; [done|]). rewrite E in Hv. cbn [value] in Hv. rewrite Z.sub_add in Hv. split.
  - destruct (Z.le_gt_cases 900 k) as [|Hlt]; [done|]. exfalso.
    destruct (pow_double k (d - 53 + 1074)) as (E2 & ? & ?); [lia|]. rewrite E2 in Hv. nia.
  - destruct (Z.le_gt_cases k 1100) as [|Hlt]; [done|]. exfalso.
    destruct (pow_double (d - 53 + 1074) k) as (E2 & ? & ?); [lia|]. rewrite E2 in Hv. nia.
Qed.

(** ** Ratios of counters *)

Lemma ratio_nearest a b :
  0 < a < two53 -> 0 < b < two53 -> nearest (a * 2 ^ 1074) b (fdiv (of_int a) (of_int b)).
Proof.
  intros Ha Hb. destruct (of_int_exact a Ha) as [Ma Va]. destruct (of_int_exact b Hb) as [Mb Vb].
  pose proof (fdiv_nearest _ _ Ma Mb) as H. rewrite Va, Vb in H.
  eapply nearest_scale; [|exact H]. by apply Z.pow_pos_nonneg.
Qed.

Lemma scale_lt P a b : 0 < P -> a < b -> a * P < b * P.
Proof. nia. Qed.

(** [1.0]. *)
Definition one : f64 := of_int 1.

(** A ratio of counters is at least [1.0] exactly when the counters say so. *)
Lemma ratio_at_least_one a u :
  0 <= a < two53 -> 0 < u < two53 -> fge (fdiv (of_int a) (of_int u)) one = (u <=? a).
Proof.
  intros Ha Hu. destruct (of_int_exact 1 ltac:(lia)) as [M1 V1].
  assert (0 < 2 ^ 1021) as HP by (by apply Z.pow_pos_nonneg).
  assert (2 ^ 1074 = two53 * 2 ^ 1021) as EP by (by vm_compute).
  destruct (decide (a = 0)) as [->|Hne].
  - destruct (of_int_exact u Hu) as [(m & k & -> & _) _]. destruct (Z.leb_spec u 0); [lia|]. done.
  - pose proof (ratio_nearest a u ltac:(lia) Hu) as Hr. pose proof (nearest_value _ _ _ Hr) as [Hn _].
    unfold one. rewrite fge_value, V1 by (done || by apply moderate_normal).
    destruct (Z.leb_spec u a).
    + apply Z.leb_le. apply (nearest_ge _ _ _ (proj1 Hu) Hr 1 1074); [lia..|]. rewrite EP. nia.
    + apply Z.leb_gt. rewrite EP, Z.mul_1_l in *.
      apply (Z.le_lt_trans _ ((two53 - 1) * 2 ^ 1021)); [|by apply scale_lt; lia].
      apply (nearest_le _ _ _ (proj1 Hu) Hr); [lia..|].
      replace (a * (two53 * 2 ^ 1021)) with (a * two53 * 2 ^ 1021) by ring.
      replace ((two53 - 1) * 2 ^ 1021 * u) with ((two53 - 1) * u * 2 ^ 1021) by ring.
      apply Z.mul_le_mono_nonneg_r; lia.
Qed.

(** [0.01]: the double just above a hundredth. *)
Definition hundredth : f64 := literal 1 100.

Lemma hundredth_value : normal hundredth /\ value hundredth = 5764607523034235 * 2 ^ 1015.
Proof. split; [|by vm_compute]. exists 5764607523034235%positive, 1015. by vm_compute. Qed.

(** A ratio of counters is below [0.01] exactly when the counters say so: no
    count is lost to rounding. *)
Lemma ratio_below_hundredth f r :
  0 <= f < two53 -> 0 < r < 2 ^ 50 -> flt (fdiv (of_int f) (of_int r)) hundredth = (100 * f <? r).
Proof.
  intros Hf Hr. change (2 ^ 50) with 1125899906842624 in Hr. destruct hundredth_value as [Nc Vc].
  assert (0 < 2 ^ 1015) as HP by (by apply Z.pow_pos_nonneg).
  assert (2 ^ 1074 = 576460752303423488 * 2 ^ 1015) as EP by (by vm_compute).
  destruct (decide (f = 0)) as [->|Hne].
  - destruct (of_int_exact r ltac:(lia)) as [(m & k & -> & _) _].
    destruct (Z.ltb_spec (100 * 0) r); [by vm_compute|lia].
  - pose proof (ratio_nearest f r ltac:(lia) ltac:(lia)) as Hq. pose proof (nearest_value _ _ _ Hq) as [Hn _].
    rewrite flt_value, Vc by done. rewrite EP in Hq.
    destruct (Z.ltb_spec (100 * f) r).
    + apply Z.ltb_lt. apply (Z.le_lt_trans _ (5764607523034234 * 2 ^ 1015)); [|by apply scale_lt; lia].
      apply (nearest_below _ _ _ (proj1 Hr) Hq); [lia..|].
      replace (2 * (f * (576460752303423488 * 2 ^ 1015))) with (1152921504606846976 * f * 2 ^ 1015) by ring.
      replace ((2 * 5764607523034234 + 1) * 2 ^ 1015 * r) with (11529215046068469 * r * 2 ^ 1015) by ring.
      apply scale_lt; lia.
    + apply Z.ltb_ge. apply (nearest_above _ _ _ (proj1 Hr) Hq); [lia..|].
      replace (2 * (f * (576460752303423488 * 2 ^ 1015))) with (1152921504606846976 * f * 2 ^ 1015) by ring.
      replace ((2 * 5764607523034235 - 1) * 2 ^ 1015 * r) with (11529215046068469 * r * 2 ^ 1015) by ring.
      apply scale_lt; lia.
Qed.

(** ** Ranks *)

(** [round] finds the integer whose half-open unit interval around it holds the
    value. *)
Lemma round_to_usize_unique x R :
  normal x -> 0 <= R <= u64_max -> (2 * R - 1) * 2 ^ 1073 <= value x < (2 * R + 1) * 2 ^ 1073 ->
  round_to_usize x = R.
Proof.
  intros (m & k & -> & Hm & Hk) HR HV. cbn [value round_to_usize] in *. rewrite Z.sub_add in HV.
  enough (round_half_up (Z.pos m) (k - 1074) = R) as -> by lia. unfold round_half_up.
  destruct (Z.leb_spec 0 (k - 1074)).
  - rewrite Z.shiftl_mul_pow2 by lia. destruct (pow_split 1073 k) as (E & HP & _); [lia|].
    rewrite E in HV. replace (k - 1073) with (1 + (k - 1074)) in HV by lia.
    rewrite (Z.pow_add_r 2 1) in HV by lia. change (2 ^ 1) with 2 in HV.
    set (Q := Z.pos m * 2 ^ (k - 1074)). assert (2 * R - 1 <= 2 * Q < 2 * R + 1); [|lia].
    split; [apply (unit_le _ _ (2 ^ 1073))|apply (unit_lt _ _ (2 ^ 1073))]; unfold Q; lia.
  - rewrite Z.shiftr_div_pow2, Z.shiftl_mul_pow2, Z.mul_1_l by lia.
    destruct (pow_split k 1073) as (E & HP & _); [lia|]. rewrite E in HV.
    replace (- (k - 1074) - 1) with (1073 - k) by lia. replace (- (k - 1074)) with (1 + (1073 - k)) by lia.
    rewrite (Z.pow_add_r 2 1) by lia. change (2 ^ 1) with 2. set (h := 2 ^ (1073 - k)) in *.
    assert (0 < h) by (apply Z.pow_pos_nonneg; lia).
    assert ((2 * R - 1) * h <= Z.pos m < (2 * R + 1) * h)
      by (split; [apply (unit_le _ _ (2 ^ k))|apply (unit_lt _ _ (2 ^ k))]; lia).
    symmetry. apply (Z.div_unique_pos _ _ _ (Z.pos m + h - 2 * h * R)); lia.
Qed.

(** What is within half a unit in the last place below a double rounds to at
    least it. *)
Lemma nearest_near A B x Y j :
  0 < B -> nearest A B x -> 53 <= j -> 0 < Y <= two53 ->
  Y * 2 ^ j * B * (2 ^ 54 - 1) < A * 2 ^ 54 -> Y * 2 ^ j <= value x.
Proof.
  intros HB Hx Hj HY HA. change (2 ^ 54) with 18014398509481984 in HA.
  set (t := 53 - Z.log2_up Y).
  assert (Z.log2_up Y <= 53) as Hlog by (apply Z.log2_up_le_pow2; lia).
  pose proof (Z.log2_up_nonneg Y). assert (two52 < Y * 2 ^ t <= two53) as Ht.
  { destruct (decide (Y = 1)) as [->|Hne]; [by vm_compute|].
    pose proof (Z.log2_up_spec Y ltac:(lia)) as [H1 H2]. pose proof (Z.log2_up_pos Y ltac:(lia)).
    assert (0 < 2 ^ t) by (apply Z.pow_pos_nonneg; lia).
    replace two52 with (2 ^ Z.pred (Z.log2_up Y) * 2 ^ t)
      by (rewrite <- Z.pow_add_r by (unfold t; lia); by replace (Z.pred (Z.log2_up Y) + t) with 52 by (unfold t; lia)).
    replace two53 with (2 ^ Z.log2_up Y * 2 ^ t)
      by (rewrite <- Z.pow_add_r by (unfold t; lia); by replace (Z.log2_up Y + t) with 53 by (unfold t; lia)). nia. }
  destruct (pow_split t j) as (E & HP & _); [lia|]. rewrite E, Z.mul_assoc in *.
  set (N := Y * 2 ^ t) in *. set (q := 2 ^ (j - t)) in *. assert (0 < q) by (apply Z.pow_pos_nonneg; lia).
  apply (nearest_above A B x HB Hx); [lia..|]. fold q.
  assert (0 < q * B) by nia. rewrite <- !(Z.mul_assoc _ q B) in *. nia.
Qed.

(** The rank of a percentile [a / b], computed through the double [p] nearest to
    it from below, is the one computed with integers: the product may only land
    on a half by rounding to it. *)
Lemma rank_exact p a b k :
  moderate p -> 0 < a < b -> b <= 100 ->
  value p * b <= a * 2 ^ 1074 -> a * 2 ^ 1074 * (2 ^ 54 - 1) < value p * b * 2 ^ 54 ->
  0 <= k < 2 ^ 44 -> round_to_usize (fmul (of_int k) p) = (2 * a * k + b) / (2 * b).
Proof.
  intros Hp Ha Hb Hle Hge Hk. change (2 ^ 44) with 17592186044416 in Hk.
  assert (0 < 2 ^ 1066) as HP by (by apply Z.pow_pos_nonneg).
  assert (2 ^ 1074 = 256 * 2 ^ 1066) as EP by (by vm_compute).
  assert (2 ^ 1073 = 128 * 2 ^ 1066) as EP' by (by vm_compute).
  set (R := (2 * a * k + b) / (2 * b)).
  assert (2 * b * R <= 2 * a * k + b < 2 * b * R + 2 * b) as HR.
  { unfold R. pose proof (Z.mul_div_le (2 * a * k + b) (2 * b)).
    pose proof (Z.mul_succ_div_gt (2 * a * k + b) (2 * b)). lia. }
  clearbody R. destruct (decide (k = 0)) as [->|Hne].
  { destruct Hp as (m & j & -> & _). replace R with 0 by nia. done. }
  destruct (of_int_exact k ltac:(lia)) as [Mk Vk].
  assert (nearest (k * value p) 1 (fmul (of_int k) p)) as Hx.
  { apply (nearest_scale _ _ (2 ^ 1074)); [by apply Z.pow_pos_nonneg|].
    pose proof (fmul_nearest _ _ Mk Hp) as Hx. rewrite Vk in Hx. rewrite Z.mul_1_l.
    by replace (k * value p * 2 ^ 1074) with (k * 2 ^ 1074 * value p) by ring. }
  assert (0 <= R <= k) as HRk by nia. set (v := value p) in *. clearbody v.
  rewrite EP in Hle, Hge. set (T := 2 ^ 1066) in *.
  apply round_to_usize_unique; [by eapply nearest_value|unfold u64_max; lia|split].
  - destruct (decide (R = 0)) as [->|HR0].
    { destruct (nearest_value _ _ _ Hx) as (_ & M & j & -> & ? & ? & _).
      assert (0 < 2 ^ j) by (by apply Z.pow_pos_nonneg). rewrite EP'. nia. }
    apply (nearest_near _ _ _ _ _ Z.lt_0_1 Hx); [lia..|]. rewrite EP', Z.mul_1_r.
    change (2 ^ 54) with 18014398509481984 in *. apply (unit_lt _ _ b); [lia|].
    apply (Z.le_lt_trans _ (a * (256 * T) * (18014398509481984 - 1) * k)); nia.
  - apply (Z.le_lt_trans _ ((256 * R + 127) * T)); [|rewrite EP'; nia].
    apply (nearest_le _ _ _ Z.lt_0_1 Hx); [lia..|]. fold T. rewrite Z.mul_1_r.
    apply (unit_le _ _ b); [lia|]. apply (Z.le_trans _ (256 * a * k * T)); nia.
Qed.
