(* ===== verification/Bench.v ===== *)
(** * The load generator: arguments, counters, verdict

    [bench/src/main.rs]: what the command line accepts, the counters the
    simulated users share, the report computed from them, and the search for the
    capacity of an environment. The traffic that moves the counters is in
    [Workload]. *)
From Stdlib Require Import String.
From Stdlib Require Import SpecFloat Btauto.
From stdpp Require Import pretty.
From S2P Require Export Float64 Models.
Open Scope Z_scope.

(** Decimal notation, as [Display] writes an integer. *)
Definition decimal (n : Z) : rstr := rs (pretty n).

(** ** Arguments *)

Variant Mode := Api | Websocket | Mixed | Readonly.

Record Args := mkArgs {
  base_url : rstr;
  ws_url_arg : option rstr;
  concurrency : option Z;
  capacity : bool;
  max_users : Z;
  mode : Mode;
  duration : Z;
  warmup : Z;
  message_rate : f64;
  api_rate : f64;
  setup_interval_ms : Z;
  setup_timeout : Z;
  nofile_limit : Z;
  admin_user : rstr;
  admin_password : rstr;
  admin_email : rstr;
  output : rstr;
  full_api : bool;
  allow_mutations : bool;
  readonly : bool
}.

Definition parse_positive (raw : rstr) : Result rstr Z :=
  match parse_u32 raw with
  | None => Err (rs "concurrency must be one positive integer")
  | Some value => if value =? 0 then Err (rs "concurrency must be greater than zero") else Ok value
  end.

Definition parse_nonnegative_rate (raw : rstr) : Result rstr f64 :=
  match parse_f64 raw with
  | None => Err (rs "message-rate must be a non-negative number")
  | Some value =>
      if negb (is_finite value) || flt value (S754_zero false) then
        Err (rs "message-rate must be a non-negative number")
      else Ok value
  end.

(** The limits of the process: the soft one and the hard one. *)
Record rlimit := mkRlimit { rlim_cur : Z; rlim_max : Z }.
Definition RLIM_INFINITY : Z := u64_max.

(** [getrlimit] answers [before] and then [effective], when it does; [setrlimit]
    says whether it accepted the limits. *)
Definition raise_nofile_limit (requested : Z) (before : option rlimit) (setrlimit : rlimit -> bool)
    (effective : option rlimit) (os_error : rstr) : Result rstr unit :=
  if requested <? 1024 then Err (rs "--nofile-limit must be at least 1024")
  else
    match before with
    | None => Err (rs "could not read the process open-file limit: " ++ os_error)%list
    | Some limits =>
        if negb (rlim_max limits =? RLIM_INFINITY) && (rlim_max limits <? requested) then
          Err (rs "benchmark needs an open-file hard limit of at least " ++ decimal requested
               ++ rs ", but it is " ++ decimal (rlim_max limits))%list
        else if negb (setrlimit (mkRlimit requested (rlim_max limits))) then
          Err (rs "could not raise the process open-file limit to " ++ decimal requested
               ++ rs ": " ++ os_error)%list
        else
          match effective with
          | None => Err (rs "could not verify the process open-file limit: " ++ os_error)%list
          | Some limits' =>
              if rlim_cur limits' <? requested then
                Err (rs "process open-file limit is " ++ decimal (rlim_cur limits')
                     ++ rs ", below requested " ++ decimal requested)%list
              else Ok tt
          end
    end.

Definition trim_end_matches (p : Z -> bool) (s : rstr) : rstr := reverse (trim_start_matches p (reverse s)).
Definition root_url (args : Args) : rstr := trim_end_matches (fun c => c =? 47) (base_url args).

(** [s.replace(from, to)] for a nonempty [from]; [skip] characters belong to the
    occurrence just replaced. *)
Fixpoint replace_from (from to : rstr) (skip : nat) (s : rstr) : rstr :=
  match s with
  | [] => []
  | c :: s' =>
      match skip with
      | S k => replace_from from to k s'
      | O => if starts_with from s then (to ++ replace_from from to (length from - 1) s')%list
             else c :: replace_from from to 0 s'
      end
  end.
Definition str_replace (from to s : rstr) : rstr := replace_from from to 0 s.

Definition ws_url (args : Args) : rstr :=
  match ws_url_arg args with
  | Some url => url
  | None =>
      let base := str_replace (rs "http://") (rs "ws://")
                    (str_replace (rs "https://") (rs "wss://") (base_url args)) in
      (trim_end_matches (fun c => c =? 47) base ++ rs "/api/v1/ws")%list
  end.

(** ** Counters *)

(** The fields of [Metrics] that are [AtomicU64]. *)
Variant Counter :=
  | requests | failures | auth_throttles | setup_failures | auth_successes | ws_attempts
  | ws_connected | ws_failures | ws_reconnects | messages | messages_acknowledged | api_requests
  | realtime_failures.
(** Those that are maps from an error to a count. *)
Variant ErrorTable := login_errors | websocket_errors | realtime_errors | http_errors.
#[export] Instance counter_eq_dec : EqDecision Counter.
Proof. solve_decision. Defined.
#[export] Instance error_table_eq_dec : EqDecision ErrorTable.
Proof. solve_decision. Defined.

Record Metrics := mkMetrics {
  counter : Counter -> Z;
  latencies : gmap rstr (list Z);
  login_statuses : gmap Z Z;
  errors : ErrorTable -> gmap rstr Z
}.
Definition metrics_default : Metrics := mkMetrics (fun _ => 0) ∅ ∅ (fun _ => ∅).

(** What a user does to the shared counters, one atomic update at a time. *)
Variant Event :=
  | FetchAdd (c : Counter) (n : Z)
  | Latency (name : rstr) (millis : Z)
  | LoginStatus (code : Z)
  | ErrorSeen (table : ErrorTable) (message : rstr) (n : Z).

(** [fetch_add] wraps around, and so does [+=] on a [u64] in a release build. *)
Definition apply (m : Metrics) (e : Event) : Metrics :=
  match e with
  | FetchAdd c n =>
      mkMetrics (fun c' => if decide (c' = c) then as_u64 (counter m c + n) else counter m c')
        (latencies m) (login_statuses m) (errors m)
  | Latency name millis =>
      mkMetrics (counter m) (<[name := (default [] (latencies m !! name) ++ [millis])%list]> (latencies m))
        (login_statuses m) (errors m)
  | LoginStatus code =>
      mkMetrics (counter m) (latencies m)
        (<[code := as_u64 (default 0 (login_statuses m !! code) + 1)]> (login_statuses m)) (errors m)
  | ErrorSeen table message n =>
      mkMetrics (counter m) (latencies m) (login_statuses m)
        (fun table' => if decide (table' = table)
           then <[message := as_u64 (default 0 (errors m table !! message) + n)]> (errors m table)
           else errors m table')
  end.
Definition metrics_after (l : list Event) : Metrics := fold_left apply l metrics_default.

Definition record_latency (name : rstr) (elapsed : Z) : list Event := [Latency name (as_u64 elapsed)].
Definition record (name : rstr) (elapsed : Z) (ok : bool) : list Event :=
  ([FetchAdd requests 1] ++ (if ok then [] else [FetchAdd failures 1]) ++ record_latency name elapsed)%list.
Definition record_realtime_error (error : rstr) : list Event :=
  [FetchAdd realtime_failures 1; ErrorSeen realtime_errors error 1].

(** ** The report *)

Record Percentiles := mkPercentiles { count : Z; p50 : Z; p95 : Z; p99 : Z; max : Z }.

Record Report := mkReport {
  r_mode : rstr;
  requested_concurrency : option Z;
  capacity_estimate : option Z;
  supported_users_lower_bound : option Z;
  duration_seconds : Z;
  r_requests : Z;
  r_failures : Z;
  r_setup_failures : Z;
  r_auth_throttles : Z;
  error_rate : f64;
  authenticated_clients : Z;
  websocket_attempts : Z;
  requests_per_second : f64;
  websocket_connections : Z;
  websocket_failures : Z;
  websocket_reconnects : Z;
  messages_sent : Z;
  r_messages_acknowledged : Z;
  messages_unacknowledged : Z;
  r_api_requests : Z;
  api_operations_exercised : Z;
  r_login_statuses : gmap Z Z;
  r_login_errors : gmap rstr Z;
  r_websocket_errors : gmap rstr Z;
  r_realtime_errors : gmap rstr Z;
  r_http_errors : gmap rstr Z;
  r_realtime_failures : Z;
  endpoint_latency_ms : gmap rstr Percentiles;
  passed : bool;
  verdict : rstr
}.

(** The index the code computes with a double, and the value there; reading past
    the end would panic ([percentile_rank] shows it is never past the end). *)
Definition percentile_index (count : Z) (p : f64) : Z := round_to_usize (fmul (of_int (count - 1)) p).
Definition percentile (values : list Z) (p : f64) : Z :=
  match values with
  | [] => 0
  | _ => order_by Z.leb values !!! Z.to_nat (percentile_index (Z.of_nat (length values)) p)
  end.
Definition percentiles (values : list Z) : Percentiles :=
  mkPercentiles (Z.of_nat (length values)) (percentile values (literal 50 100))
    (percentile values (literal 95 100)) (percentile values (literal 99 100)) (foldr Z.max 0 values).

Definition mode_name (m : Mode) : rstr :=
  rs match m with Api => "api" | Websocket => "websocket" | Mixed => "mixed" | Readonly => "readonly" end%string.

(** A [Duration] is a number of nanoseconds. *)
Definition NANOS : Z := 1000000000.
Definition as_secs (d : Z) : Z := d / NANOS.
Definition as_secs_f64 (d : Z) : f64 :=
  SFadd 53 1024 (of_int (d / NANOS)) (fdiv (of_int (d mod NANOS)) (of_int NANOS)).

Definition ratio (a b : Z) : f64 := fdiv (of_int a) (of_int b).
Definition counted_operation (name : rstr) : bool :=
  negb (name ≟ rs "POST /auth/login") && negb (starts_with (rs "WS ") name).

Definition verdict_text (passed : bool) (requested : option Z) (mode : rstr) : rstr :=
  match passed, requested with
  | true, Some users =>
      (rs "PASS: this environment supports at least " ++ decimal users ++ rs " concurrent " ++ mode ++ rs " users")%list
  | true, None => rs "PASS: capacity probe succeeded"
  | false, Some users =>
      (rs "FAIL: this environment did not sustain " ++ decimal users ++ rs " concurrent " ++ mode ++ rs " users")%list
  | false, None => rs "FAIL: environment saturated or unavailable"
  end.

Definition make_report (args : Args) (m : Metrics) (requested : option Z) (elapsed : Z) : Report :=
  let total := counter m requests in
  let throttles := counter m auth_throttles in
  let failed := saturating_sub (counter m failures) throttles in
  let authenticated := saturating_sub (counter m auth_successes) 1 in
  let attempts := counter m ws_attempts in
  let rate := if total =? 0 then one else ratio failed total in
  let websocket_rate := if attempts =? 0 then S754_zero false else ratio (counter m ws_failures) attempts in
  let setup_rate := match requested with Some users => ratio authenticated (Z.max users 1) | None => one end in
  let websocket_success :=
    match requested with
    | Some users => if 0 <? attempts then ratio (counter m ws_connected) (Z.max users 1) else one
    | None => one
    end in
  let ok := flt rate hundredth && flt websocket_rate hundredth && fge setup_rate one
            && fge websocket_success one && (counter m realtime_failures =? 0) in
  {| r_mode := mode_name (mode args);
     requested_concurrency := requested;
     capacity_estimate := None;
     supported_users_lower_bound := if ok then requested else None;
     duration_seconds := as_secs elapsed;
     r_requests := total;
     r_failures := failed;
     r_setup_failures := counter m setup_failures;
     r_auth_throttles := throttles;
     error_rate := rate;
     authenticated_clients := authenticated;
     websocket_attempts := attempts;
     requests_per_second := fdiv (of_int total) (fmax (as_secs_f64 elapsed) (literal 1 1000));
     websocket_connections := counter m ws_connected;
     websocket_failures := counter m ws_failures;
     websocket_reconnects := counter m ws_reconnects;
     messages_sent := counter m messages;
     r_messages_acknowledged := counter m messages_acknowledged;
     messages_unacknowledged := saturating_sub (counter m messages) (counter m messages_acknowledged);
     r_api_requests := counter m api_requests;
     api_operations_exercised := Z.of_nat (size (filter (fun name => counted_operation name = true) (dom (latencies m) : gset rstr)));
     r_login_statuses := login_statuses m;
     r_login_errors := errors m login_errors;
     r_websocket_errors := errors m websocket_errors;
     r_realtime_errors := errors m realtime_errors;
     r_http_errors := errors m http_errors;
     r_realtime_failures := counter m realtime_failures;
     endpoint_latency_ms := percentiles <$> latencies m;
     passed := ok;
     verdict := verdict_text ok requested (mode_name (mode args)) |}.

(** ** Running *)

(** [run i users] is the outcome of the [i]-th call of [run_once]. *)
Section Main.
Variable run : nat -> Z -> Result rstr Report.

Definition u32_saturating_mul (a b : Z) : Z := Z.min u32_max (a * b).

(** The loop of [--capacity]; [None] is a loop still running after [fuel]
    rounds. *)
Fixpoint capacity_loop (fuel : nat) (max_users level : Z) (best : option Z) (reports : list Report) :
    option (Result rstr (option Z * list Report)) :=
  match fuel with
  | O => None
  | S fuel' =>
      if level <=? max_users then
        match run (length reports) level with
        | Err e => Some (Err e)
        | Ok report =>
            let reports := (reports ++ [report])%list in
            if negb (passed report) then Some (Ok (best, reports))
            else
              let best := Some level in
              let level := u32_saturating_mul level 2 in
              if level =? 0 then Some (Ok (best, reports))
              else capacity_loop fuel' max_users level best reports
        end
      else Some (Ok (best, reports))
  end.

(** What ends in the output file. *)
Inductive Output := CapacityOutput (estimate : Z) (runs : list Report) | RunOutput (report : Report).

(** How the process ends: an error printed, or an exit code with the file
    written. *)
Inductive Exit := Bail (error : rstr) | Written (code : Z) (file : Output).

Definition arguments_refused (args : Args) : option rstr :=
  if negb (capacity args) && is_none (concurrency args) then
    Some (rs "provide exactly one --concurrency N, or use --capacity")
  else if full_api args && negb (allow_mutations args) then
    Some (rs "--full-api mutates data; add --allow-mutations or use --readonly")
  else if full_api args && readonly args then
    Some (rs "--full-api and --readonly cannot be combined")
  else if capacity args && (max_users args =? 0) then Some (rs "--max-users must be positive")
  else None.

Definition main (fuel : nat) (args : Args) (write : Result rstr unit) : option Exit :=
  match arguments_refused args with
  | Some error => Some (Bail error)
  | None =>
      let finish code file := match write with Ok _ => Written code file | Err e => Bail e end in
      if capacity args then
        outcome ← capacity_loop fuel (max_users args) 1 None [];
        Some match outcome with
             | Err e => Bail e
             | Ok (best, reports) => finish 0 (CapacityOutput (default 0 best) reports)
             end
      else
        Some match run 0 (default 0 (concurrency args)) with
             | Err e => Bail e
             | Ok report => finish (if passed report then 0 else 2) (RunOutput report)
             end
  end.
End Main.

(** ** Tallies *)

(** What a trace adds to a counter. *)
Definition added (c : Counter) (e : Event) : Z :=
  match e with FetchAdd c' n => if decide (c = c') then n else 0 | _ => 0 end.
Definition tally (c : Counter) (l : list Event) : Z := foldr (fun e acc => added c e + acc) 0 l.
Definition amounts (l : list Event) : Prop := Forall (fun e => match e with FetchAdd _ n => 0 <= n | _ => True end) l.

Lemma tally_app c l l' : tally c (l ++ l') = tally c l + tally c l'.
Proof. induction l as [|e l IH]; simpl; [done|]. rewrite IH. lia. Qed.

Lemma tally_permutation c l l' : Permutation l l' -> tally c l = tally c l'.
Proof. induction 1; simpl; lia. Qed.

Lemma tally_nonneg c l : amounts l -> 0 <= tally c l.
Proof. induction 1 as [|[c' n| | |] l He Hl IH]; simpl; try done. destruct (decide _); lia. Qed.

Lemma apply_counter m e c : counter (apply m e) c = as_u64 (counter m c + added c e) \/ counter (apply m e) c = counter m c /\ added c e = 0.
Proof. destruct e; simpl; try (right; split; [done|lia]). destruct (decide _) as [->|]; auto. Qed.

Lemma as_u64_add a b : as_u64 (as_u64 a + b) = as_u64 (a + b).
Proof. unfold as_u64. by rewrite Z.add_mod_idemp_l. Qed.

(** A counter holds what was added to it, modulo [2^64]. *)
Lemma metrics_after_counter l c : counter (metrics_after l) c = as_u64 (tally c l).
Proof.
  unfold metrics_after. assert (forall m z, counter m c = as_u64 z ->
    counter (fold_left apply l m) c = as_u64 (z + tally c l)) as H; [|by apply (H _ 0)].
  induction l as [|e l IH]; intros m z Hm; simpl; [by rewrite Z.add_0_r|].
  rewrite (IH _ (z + added c e)); [f_equal; lia|].
  destruct (apply_counter m e c) as [E|[E Ha]].
  - by rewrite E, Hm, as_u64_add.
  - by rewrite E, Ha, Z.add_0_r.
Qed.

Lemma counter_exact l c : amounts l -> tally c l <= u64_max -> counter (metrics_after l) c = tally c l.
Proof. intros Ha Hl. rewrite metrics_after_counter. apply as_u64_id. split; [by apply tally_nonneg|done]. Qed.

(** ** Percentiles *)

Lemma literal_bounds a :
  In a [50; 95; 99] ->
  moderate (literal a 100) /\ value (literal a 100) * 100 <= a * 2 ^ 1074
  /\ a * 2 ^ 1074 * (2 ^ 54 - 1) < value (literal a 100) * 100 * 2 ^ 54.
Proof.
  intros [<-|[<-|[<-|[]]]]; (split; [|by vm_compute]).
  - exists 4503599627370496%positive, 1021. by vm_compute.
  - exists 8556839292003942%positive, 1021. by vm_compute.
  - exists 8917127262193582%positive, 1021. by vm_compute.
Qed.

(** The rank of a percentile among [n] sorted values: the nearest, halves
    upwards. *)
Definition rank (a n : Z) : Z := (2 * a * (n - 1) + 100) / 200.

Lemma percentile_index_rank a n : In a [50; 95; 99] -> 1 <= n <= 2 ^ 44 -> percentile_index n (literal a 100) = rank a n.
Proof.
  intros Ha Hn. destruct (literal_bounds a Ha) as (Hp & Hle & Hge).
  apply (rank_exact _ a 100); try done; [|lia]. destruct Ha as [<-|[<-|[<-|[]]]]; lia.
Qed.

Lemma rank_range a n : In a [50; 95; 99] -> 1 <= n -> 0 <= rank a n < n.
Proof.
  intros Ha Hn. unfold rank. destruct Ha as [<-|[<-|[<-|[]]]];
    (split; [apply Z.div_pos; lia|apply Z.div_lt_upper_bound; lia]).
Qed.

(** The percentiles of a report are values of the measurements: computing the
    rank in floating point never reads past the end, and finds the same rank as
    exact arithmetic, whatever the number of measurements. *)
Theorem percentile_rank values a :
  In a [50; 95; 99] -> values <> [] -> Z.of_nat (length values) <= 2 ^ 44 ->
  order_by Z.leb values !! Z.to_nat (rank a (Z.of_nat (length values)))
  = Some (percentile values (literal a 100)).
Proof.
  intros Ha Hne Hl. unfold percentile. destruct values as [|v values]; [done|].
  set (all := v :: values) in *. assert (1 <= Z.of_nat (length all)) by (simpl; lia).
  rewrite percentile_index_rank by (done || lia). apply list_lookup_lookup_total_lt.
  rewrite length_order_by. pose proof (rank_range a _ Ha ltac:(done)). lia.
Qed.

(** ** The verdict *)

(** The verdict in exact arithmetic: some request was made and fewer than one in
    a hundred failed, throttled logins apart; every user logged in; in a run
    with sockets, as many sockets as users were connected and fewer than one
    attempt in a hundred failed; nothing went wrong in real time. *)
Definition verdict_exact (m : Metrics) (users : Z) : bool :=
  (100 * saturating_sub (counter m failures) (counter m auth_throttles) <? counter m requests)
  && ((counter m ws_attempts =? 0)
      || ((100 * counter m ws_failures <? counter m ws_attempts) && (users <=? counter m ws_connected)))
  && (users <=? saturating_sub (counter m auth_successes) 1)
  && (counter m realtime_failures =? 0).

Definition small_counters (m : Metrics) : Prop := forall c, 0 <= counter m c < 2 ^ 50.

Lemma one_below : flt one hundredth = false.
Proof. by vm_compute. Qed.
Lemma zero_below : flt (S754_zero false) hundredth = true.
Proof. by vm_compute. Qed.
Lemma one_at_least : fge one one = true.
Proof. by vm_compute. Qed.

(** C33. The verdict computed in floating point is the one of exact arithmetic
    ([verdict_exact]): no rounding error lets a run pass that failed one request
    in a hundred, or fails one that did not, for counters below [2^50]. *)
Theorem verdict_in_integers args m users elapsed :
  small_counters m -> 0 < users <= u32_max ->
  passed (make_report args m (Some users) elapsed) = verdict_exact m users.
Proof.
  intros Hm Hu. unfold u32_max in Hu. unfold verdict_exact, make_report, ratio. cbn [passed].
  pose proof (Hm requests). pose proof (Hm failures). pose proof (Hm auth_throttles).
  pose proof (Hm auth_successes). pose proof (Hm ws_attempts). pose proof (Hm ws_failures).
  pose proof (Hm ws_connected). change (2 ^ 50) with 1125899906842624 in *.
  unfold saturating_sub in *. replace (Z.max users 1) with users by lia.
  rewrite ratio_at_least_one by lia.
  destruct (counter m requests =? 0) eqn:E0; [apply Z.eqb_eq in E0|apply Z.eqb_neq in E0].
  { rewrite one_below. destruct (Z.ltb_spec (100 * Z.max 0 (counter m failures - counter m auth_throttles)) (counter m requests)); [lia|done]. }
  rewrite ratio_below_hundredth by (change (2 ^ 50) with 1125899906842624; lia).
  destruct (Z.ltb_spec 0 (counter m ws_attempts)).
  - replace (counter m ws_attempts =? 0) with false by lia.
    rewrite ratio_at_least_one, ratio_below_hundredth by (change (2 ^ 50) with 1125899906842624; lia). btauto.
  - replace (counter m ws_attempts =? 0) with true by lia. rewrite zero_below, one_at_least. btauto.
Qed.

(** ** The order of the updates *)

(** Metrics that differ in the order of the measurements. *)
Record same_metrics (m m' : Metrics) : Prop := {
  same_counter c : counter m c = counter m' c;
  same_latencies name : option_Forall2 Permutation (latencies m !! name) (latencies m' !! name);
  same_statuses : login_statuses m = login_statuses m';
  same_errors table : errors m table = errors m' table
}.
#[export] Instance same_metrics_equivalence : Equivalence same_metrics.
Proof.
  split.
  - intros m. split; done.
  - intros m m' [H1 H2 H3 H4]. split; done.
  - intros a b c [H1 H2 H3 H4] [H1' H2' H3' H4']. split; try congruence.
    intros name. specialize (H2 name). specialize (H2' name).
    destruct H2; inversion H2'; constructor; subst. by etrans.
Qed.

#[export] Instance apply_proper : Proper (same_metrics ==> eq ==> same_metrics) apply.
Proof.
  intros m m' [H1 H2 H3 H4] e ? <-. destruct e as [c n|name millis|code|table message n]; split; simpl; try done.
  - intros c'. destruct (decide _); [by rewrite H1|done].
  - intros name'. destruct (decide (name' = name)) as [->|Hne].
    + rewrite !lookup_insert_eq. constructor. specialize (H2 name). destruct H2; simpl; [|done].
      by apply Permutation_app_tail.
    + by rewrite !lookup_insert_ne.
  - by rewrite H3.
  - intros table'. destruct (decide _); [by rewrite H4|done].
Qed.

Lemma insert_add_comm `{Countable K} (t : gmap K Z) (i j : K) (a b : Z) :
  let add k n (t : gmap K Z) := <[k := as_u64 (default 0 (t !! k) + n)]> t in
  add i a (add j b t) = add j b (add i a t).
Proof.
  intros add. unfold add. destruct (decide (i = j)) as [->|Hne].
  - rewrite !lookup_insert_eq, !insert_insert_eq. simpl. f_equal. rewrite !as_u64_add. f_equal. lia.
  - rewrite !lookup_insert_ne by done. by rewrite insert_insert_ne.
Qed.

Lemma push_comm (t : gmap rstr (list Z)) (i j : rstr) (a b : Z) :
  let push k v (t : gmap rstr (list Z)) := <[k := default [] (t !! k) ++ [v]]> t in
  forall name, option_Forall2 Permutation (push i a (push j b t) !! name) (push j b (push i a t) !! name).
Proof.
  intros push name. unfold push. destruct (decide (i = j)) as [->|Hne].
  - rewrite !lookup_insert_eq, !insert_insert_eq. simpl. destruct (decide (name = j)) as [->|Hn].
    + rewrite !lookup_insert_eq. constructor. rewrite <- !app_assoc.
      apply Permutation_app_head. apply Permutation_swap.
    + by rewrite !lookup_insert_ne.
  - rewrite (lookup_insert_ne t j i), (lookup_insert_ne t i j) by done. by rewrite (insert_insert_ne _ i j).
Qed.

Lemma apply_comm m e e' : same_metrics (apply (apply m e) e') (apply (apply m e') e).
Proof.
  destruct e as [c n|name millis|code|table message n], e' as [c' n'|name' millis'|code'|table' message' n'];
    split; simpl; try done;
    try (intros name''; destruct (latencies m !! name''); by constructor);
    try (intros name''; by destruct (_ !! name''); constructor).
  - intros d. repeat (destruct (decide _)); subst; try done. rewrite !as_u64_add. f_equal. lia.
  - apply (push_comm (latencies m) name' name millis' millis).
  - apply (insert_add_comm (login_statuses m) code' code 1 1).
  - intros d. repeat (destruct (decide _)); subst; try done. apply (insert_add_comm (errors m table) message' message n' n).
Qed.

Lemma fold_apply_permutation l l' m m' :
  Permutation l l' -> same_metrics m m' -> same_metrics (fold_left apply l m) (fold_left apply l' m').
Proof.
  intros Hp. revert m m'. induction Hp as [|e l l' _ IH|e e' l|l1 l2 l3 _ IH1 _ IH2]; intros m m' Hm; simpl.
  - done.
  - apply IH. by rewrite Hm.
  - assert (same_metrics (apply (apply m e') e) (apply (apply m' e) e')) as H by (by rewrite apply_comm, Hm).
    clear Hm. revert H. generalize (apply (apply m e') e) (apply (apply m' e) e').
    induction l as [|x l IH]; intros a b Hab; simpl; [done|]. apply IH. by rewrite Hab.
  - etrans; [by apply IH1|]. by apply IH2.
Qed.

#[local] Instance leb_antisymm : AntiSymm eq (rel_of Z.leb).
Proof. unfold rel_of. intros a b. lia. Qed.

Lemma percentiles_permutation l l' : Permutation l l' -> percentiles l = percentiles l'.
Proof.
  intros Hp. assert (order_by Z.leb l = order_by Z.leb l') as Hs.
  { apply (StronglySorted_unique (rel_of Z.leb)).
    - apply order_by_sorted; lia.
    - apply order_by_sorted; lia.
    - by rewrite !order_by_permutation. }
  assert (forall p, percentile l p = percentile l' p) as Hq.
  { intros p. pose proof (Permutation_length Hp) as Hl.
    destruct l, l'; try done. unfold percentile. by rewrite Hs, Hl. }
  unfold percentiles. rewrite !Hq, (Permutation_length Hp). f_equal.
  clear Hs Hq. induction Hp; simpl; lia.
Qed.

Lemma make_report_proper args m m' users elapsed :
  same_metrics m m' -> make_report args m users elapsed = make_report args m' users elapsed.
Proof.
  intros [H1 H2 H3 H4]. unfold make_report. rewrite !H1, !H3, !H4.
  assert (dom (latencies m) = (dom (latencies m') : gset rstr)) as ->.
  { apply leibniz_equiv. intros name. rewrite !elem_of_dom. by destruct (H2 name). }
  assert (percentiles <$> latencies m = percentiles <$> latencies m') as ->; [|done].
  apply map_eq. intros name. rewrite !lookup_fmap. destruct (H2 name) as [l l' Hp|]; simpl; [|done].
  by rewrite (percentiles_permutation _ _ Hp).
Qed.

(** However the users' updates of the shared counters interleave, the report is
    the same. *)
Theorem report_order_irrelevant args l l' users elapsed :
  Permutation l l' ->
  make_report args (metrics_after l) users elapsed = make_report args (metrics_after l') users elapsed.
Proof. intros H. apply make_report_proper. by apply fold_apply_permutation. Qed.

(** ** The search for the capacity *)

Section Capacity.
Variables (run : nat -> Z -> Result rstr Report) (max_users : Z).

(** The first [n] probes, at [1], [2], [4]..., passed and were recorded. *)
Definition probes_passed (n : nat) (reports : list Report) : Prop :=
  length reports = n
  /\ forall i, (i < n)%nat -> exists r, run i (2 ^ Z.of_nat i) = Ok r /\ passed r = true /\ reports !! i = Some r.
Definition best_of (n : nat) : option Z :=
  match n with O => None | S k => Some (2 ^ Z.of_nat k) end.

(** How the search ends after [n] probes that passed: at the limit, at an
    error, or at a probe that failed. *)
Definition search_ends (n : nat) (reports : list Report)
    (result : option (Result rstr (option Z * list Report))) : Prop :=
  (max_users < 2 ^ Z.of_nat n /\ result = Some (Ok (best_of n, reports)))
  \/ 2 ^ Z.of_nat n <= max_users
     /\ ((exists e, run n (2 ^ Z.of_nat n) = Err e /\ result = Some (Err e))
         \/ exists r, run n (2 ^ Z.of_nat n) = Ok r /\ passed r = false
              /\ result = Some (Ok (best_of n, reports ++ [r]))).

Lemma probes_passed_snoc n reports r :
  probes_passed n reports -> run n (2 ^ Z.of_nat n) = Ok r -> passed r = true ->
  probes_passed (S n) (reports ++ [r]).
Proof.
  intros [Hl H] Hr Hp. split; [rewrite length_app; simpl; lia|]. intros i Hi.
  destruct (decide (i = n)) as [->|Hne].
  - exists r. split; [done|]. split; [done|]. by apply list_lookup_middle.
  - destruct (H i ltac:(lia)) as (r' & ? & ? & Hlook). exists r'. split; [done|]. split; [done|].
    apply lookup_app_Some. by left.
Qed.

Lemma capacity_loop_from k reports fuel :
  max_users < u32_max -> probes_passed k reports -> (k <= 32)%nat -> (33 - k <= fuel)%nat ->
  exists n reports', probes_passed n reports'
    /\ search_ends n reports' (capacity_loop run fuel max_users (Z.min u32_max (2 ^ Z.of_nat k)) (best_of k) reports).
Proof.
  intros Hmax. revert k reports. induction fuel as [|fuel IH]; intros k reports Hp Hk Hf; [lia|].
  cbn [capacity_loop]. destruct (decide (k = 32%nat)) as [->|Hne].
  { change (2 ^ Z.of_nat 32) with 4294967296. unfold u32_max in *. rewrite (proj2 (Z.leb_gt _ _)) by lia.
    exists 32%nat, reports. split; [done|]. left. split; [change (2 ^ Z.of_nat 32) with 4294967296; lia|done]. }
  assert (2 ^ Z.of_nat k <= 2 ^ 31) as Hpow by (apply Z.pow_le_mono_r; lia).
  assert (1 <= 2 ^ Z.of_nat k) as Hpos by (apply (Z.pow_le_mono_r 2 0); lia).
  rewrite (Z.min_r u32_max) by (unfold u32_max; lia).
  destruct (Z.leb_spec (2 ^ Z.of_nat k) max_users) as [Hle|Hgt].
  2: { exists k, reports. split; [done|]. by left. }
  rewrite (proj1 Hp). destruct (run k (2 ^ Z.of_nat k)) as [r|e] eqn:Er.
  2: { exists k, reports. split; [done|]. right. split; [done|]. left. by exists e. }
  destruct (passed r) eqn:Epass; cbn [negb].
  2: { exists k, reports. split; [done|]. right. split; [done|]. right. by exists r. }
  assert (u32_saturating_mul (2 ^ Z.of_nat k) 2 = Z.min u32_max (2 ^ Z.of_nat (S k))) as ->.
  { unfold u32_saturating_mul. rewrite Nat2Z.inj_succ, Z.pow_succ_r by lia. f_equal. lia. }
  assert (0 < 2 ^ Z.of_nat (S k)) by (apply Z.pow_pos_nonneg; lia).
  rewrite (proj2 (Z.eqb_neq _ _)) by (unfold u32_max; lia).
  apply (IH (S k)); [by apply probes_passed_snoc|lia..].
Qed.

(** The search for the capacity ends, after at most 33 rounds: it probes the
    powers of two in order, and its estimate is the last that passed before one
    failed or exceeded [--max-users]. *)
Theorem capacity_search :
  1 <= max_users < u32_max ->
  exists n reports, probes_passed n reports /\ search_ends n reports (capacity_loop run 33 max_users 1 None []).
Proof.
  intros [_ Hmax]. apply (capacity_loop_from 0 [] 33); [done| |lia..].
  split; [done|]. intros i Hi. lia.
Qed.
End Capacity.

(** With [--max-users 4294967295] a search that never fails never ends: the level
    saturates at the limit and is probed again. *)
Theorem capacity_search_stuck run fuel :
  (forall i level, exists r, run i level = Ok r /\ passed r = true) ->
  capacity_loop run fuel u32_max 1 None [] = None.
Proof.
  intros Hrun. assert (forall fuel level best reports, 1 <= level <= u32_max ->
    capacity_loop run fuel u32_max level best reports = None) as H.
  2: { apply H. unfold u32_max. lia. }
  clear fuel. induction fuel as [|fuel IH]; intros level best reports Hl; cbn [capacity_loop]; [done|].
  rewrite (proj2 (Z.leb_le _ _)) by lia. destruct (Hrun (length reports) level) as (r & -> & ->).
  cbn [negb]. unfold u32_saturating_mul, u32_max in *. rewrite (proj2 (Z.eqb_neq _ _)) by lia.
  apply IH. lia.
Qed.

(** Without [--full-api] or with [--allow-mutations], [--readonly] is accepted
    and changes nothing of what the process reports. *)
Lemma arguments_refused_readonly args b :
  full_api args = false ->
  arguments_refused args
  = arguments_refused (mkArgs (base_url args) (ws_url_arg args) (concurrency args) (capacity args)
      (max_users args) (mode args) (duration args) (warmup args) (message_rate args) (api_rate args)
      (setup_interval_ms args) (setup_timeout args) (nofile_limit args) (admin_user args)
      (admin_password args) (admin_email args) (output args) (full_api args) (allow_mutations args) b).
Proof. intros H. unfold arguments_refused. simpl. by rewrite H. Qed.

(** ** Witnesses *)

Definition sample_args (m : Mode) : Args :=
  mkArgs (rs "http://127.0.0.1:3000") None (Some 2) false 1024 m 30 3 one one 5 180 256000
    (rs "test1") (rs "test1") (rs "test1@example.com") (rs "bench-results.json") false false false.

(** Two users and the administrator, 200 requests of which one failed. *)
Definition sample_trace : list Event :=
  [FetchAdd auth_successes 1; FetchAdd requests 120; Latency (rs "GET /health") 7; FetchAdd auth_successes 1;
   FetchAdd failures 1; Latency (rs "GET /health") 3; FetchAdd auth_successes 1; FetchAdd requests 80].

Lemma verdict_in_integers_witness :
  passed (make_report (sample_args Api) (metrics_after sample_trace) (Some 2) 30) = true.
Proof.
  rewrite (verdict_in_integers (sample_args Api) (metrics_after sample_trace) 2 30).
  - vm_compute. reflexivity.
  - intros c. destruct c; vm_compute; split; (discriminate || reflexivity).
  - vm_compute. split; (discriminate || reflexivity).
Defined.

(** An environment that sustains four users. *)
Definition sample_run (i : nat) (users : Z) : Result rstr Report :=
  Ok (make_report (sample_args Api) (if users <=? 4 then metrics_after [FetchAdd requests 9; FetchAdd auth_successes 5] else metrics_default)
        (Some users) 30).

Lemma capacity_search_witness :
  exists n reports, probes_passed sample_run n reports
    /\ search_ends sample_run 1000 n reports (capacity_loop sample_run 33 1000 1 None [])
    /\ match capacity_loop sample_run 33 1000 1 None [] with
       | Some (Ok (best, runs)) => best = Some 4 /\ length runs = 4%nat | _ => False end.
Proof.
  destruct (capacity_search sample_run 1000) as (n & reports & Hp & He).
  - vm_compute. split; (discriminate || reflexivity).
  - exists n, reports. split; [exact Hp|]. split; [exact He|]. vm_compute. split; reflexivity.
Defined.

Example reports_agree :
  endpoint_latency_ms (make_report (sample_args Api) (metrics_after sample_trace) None 30) !! rs "GET /health"
  = Some (mkPercentiles 2 7 7 7 7).
Proof. by vm_compute. Qed.
Example ws_url_default : ws_url (sample_args Mixed) = rs "ws://127.0.0.1:3000/api/v1/ws".
Proof. by vm_compute. Qed.
