(* ===== verification/Gate.v ===== *)
(** * The phase gates of the load generator

    [bench/src/main.rs]: [SetupGate], [wait_for_phase], [wait_for_socket_phase]
    and the loops of [run_once] that release the gates. The users and the
    coordinator run concurrently, so they are a step relation with one step per
    atomic access; [tokio]'s [Notify] is an interface. *)
From S2P Require Export Prelude.
Open Scope Z_scope.

(** ** [tokio::sync::Notify] *)

(** [notified] creates a future; [poll] completes it, or not yet. A future that
    exists when [notify_waiters] is called completes when it is next polled;
    [notify_one] may complete another one early, and a future dropped unpolled
    may pass that on. *)
Class Notify (N : Type) := {
  notify_new : N;
  notify_one : N -> N;
  notify_waiters : N -> N;
  notified : N -> nat * N;
  poll : N -> nat -> option N;
  dropped : N -> nat -> N;
  created : N -> nat -> Prop;
  woken : N -> nat -> Prop;
  notified_fresh n id n' : notified n = (id, n') -> ~ created n id /\ created n' id;
  created_one n id : created n id -> created (notify_one n) id;
  created_waiters n id : created n id -> created (notify_waiters n) id;
  created_notified n id i n' : created n id -> notified n = (i, n') -> created n' id;
  created_poll n id i n' : created n id -> poll n i = Some n' -> created n' id;
  created_dropped n id i : created n id -> created (dropped n i) id;
  waiters_wake n id : created n id -> woken (notify_waiters n) id;
  woken_completes n id : woken n id -> is_Some (poll n id);
  woken_one n id : woken n id -> woken (notify_one n) id;
  woken_notified n id i n' : woken n id -> notified n = (i, n') -> woken n' id;
  woken_poll n id i n' : woken n id -> poll n i = Some n' -> i <> id -> woken n' id;
  woken_dropped n id i : woken n id -> i <> id -> woken (dropped n i) id
}.

(** A concrete one: futures are numbered, those below a mark are woken, and a
    permit is left for the next. *)
Record Queue := mkQueue { next_future : nat; woken_below : nat; permit : bool }.
#[local] Program Instance queue_notify : Notify Queue := {|
  notify_new := mkQueue 0 0 false;
  notify_one q := mkQueue (next_future q) (woken_below q) true;
  notify_waiters q := mkQueue (next_future q) (next_future q) (permit q);
  notified q := (next_future q, mkQueue (S (next_future q)) (woken_below q) (permit q));
  poll q id :=
    if Nat.ltb id (woken_below q) then Some q
    else if permit q then Some (mkQueue (next_future q) (woken_below q) false) else None;
  dropped q _ := q;
  created q id := (id < next_future q)%nat;
  woken q id := (id < woken_below q)%nat
|}.
Next Obligation. simpl. intros q id n' [= <- <-]. simpl. lia. Qed.
Next Obligation. simpl. done. Qed.
Next Obligation. simpl. done. Qed.
Next Obligation. simpl. intros q id i n' H [= <- <-]. simpl. lia. Qed.
Next Obligation. simpl. intros q id i n' H Hp. destruct (Nat.ltb _ _), (permit q); by simplify_eq/=. Qed.
Next Obligation. simpl. done. Qed.
Next Obligation. simpl. done. Qed.
Next Obligation. simpl. intros q id H. rewrite (proj2 (Nat.ltb_lt _ _)) by done. by eexists. Qed.
Next Obligation. simpl. done. Qed.
Next Obligation. simpl. intros q id i n' H [= <- <-]. simpl. lia. Qed.
Next Obligation. simpl. intros q id i n' H Hp _. destruct (Nat.ltb _ _), (permit q); by simplify_eq/=. Qed.
Next Obligation. simpl. done. Qed.

(** ** The gate, the users and the coordinator *)

Record SetupGate (N : Type) := mkGate { ready : Z; released : bool; notify : N }.
Arguments mkGate {N}. Arguments ready {N}. Arguments released {N}. Arguments notify {N}.

(** Where a user is in [wait_for_phase] or [wait_for_socket_phase]: before the
    [fetch_add], before [notify_one], at the first load of [released], before
    [notified], at the second load, awaiting, through, or gone with its socket. *)
Inductive UserAt :=
| Arriving | Signalling | Checking | Creating | Rechecking (id : nat) | Waiting (id : nat) | Through | Lost.

(** Where [run_once] is: in the loop that sleeps until the users are ready or
    the deadline has passed, before the store, before [notify_waiters], past it. *)
Inductive CoordinatorAt := Counting | Storing | Waking | Released.

Record System (N : Type) := mkSystem {
  gate : SetupGate N;
  users : gmap nat UserAt;
  coordinator : CoordinatorAt;
  expired : bool
}.
Arguments mkSystem {N}. Arguments gate {N}. Arguments users {N}. Arguments coordinator {N}.
Arguments expired {N}.

Section Gate.
Context {N : Type} {Ntf : Notify N}.
Implicit Types (g : SetupGate N) (us : gmap nat UserAt) (n : N).

(** One step of a user, on the gate and on its own place. [with_socket] users
    also read frames while they wait. *)
Inductive user_step (with_socket : bool) : SetupGate N -> UserAt -> SetupGate N -> UserAt -> Prop :=
| arrive r b n : user_step with_socket (mkGate r b n) Arriving (mkGate (r + 1) b n) Signalling
| signal r b n : user_step with_socket (mkGate r b n) Signalling (mkGate r b (notify_one n)) Checking
| check_open r n : user_step with_socket (mkGate r true n) Checking (mkGate r true n) Through
| check_closed r n : user_step with_socket (mkGate r false n) Checking (mkGate r false n) Creating
| create r b n id n' :
    notified n = (id, n') -> user_step with_socket (mkGate r b n) Creating (mkGate r b n') (Rechecking id)
| recheck_open r n id :
    user_step with_socket (mkGate r true n) (Rechecking id) (mkGate r true (dropped n id)) Through
| recheck_closed r n id :
    user_step with_socket (mkGate r false n) (Rechecking id) (mkGate r false n) (Waiting id)
| wake r b n id n' :
    poll n id = Some n' -> user_step with_socket (mkGate r b n) (Waiting id) (mkGate r b n') Checking
| frame r b n id :
    with_socket = true -> user_step with_socket (mkGate r b n) (Waiting id) (mkGate r b (dropped n id)) Checking
| lose r b n id :
    with_socket = true -> user_step with_socket (mkGate r b n) (Waiting id) (mkGate r b (dropped n id)) Lost.

Inductive Label := ByUser (u : nat) | ByCoordinator | Clock.

(** [total] users take part. *)
Inductive step (with_socket : bool) (total : Z) : System N -> Label -> System N -> Prop :=
| step_user g us c e u at_ g' at' :
    us !! u = Some at_ -> user_step with_socket g at_ g' at' ->
    step with_socket total (mkSystem g us c e) (ByUser u) (mkSystem g' (<[u := at']> us) c e)
| step_counted g us e :
    total <= ready g \/ e = true ->
    step with_socket total (mkSystem g us Counting e) ByCoordinator (mkSystem g us Storing e)
| step_store r b n us e :
    step with_socket total (mkSystem (mkGate r b n) us Storing e) ByCoordinator
      (mkSystem (mkGate r true n) us Waking e)
| step_wake r b n us e :
    step with_socket total (mkSystem (mkGate r b n) us Waking e) ByCoordinator
      (mkSystem (mkGate r b (notify_waiters n)) us Released e)
| step_clock g us c : step with_socket total (mkSystem g us c false) Clock (mkSystem g us c true).

Definition start us : System N := mkSystem (mkGate 0 false notify_new) us Counting false.

Inductive reachable (with_socket : bool) (total : Z) (s0 : System N) : System N -> Prop :=
| reach_start : reachable with_socket total s0 s0
| reach_step s l s' :
    reachable with_socket total s0 s -> step with_socket total s l s' -> reachable with_socket total s0 s'.

Inductive runs (with_socket : bool) (total : Z) : System N -> list Label -> System N -> Prop :=
| runs_nil s : runs with_socket total s [] s
| runs_cons s l s' ls s'' :
    step with_socket total s l s' -> runs with_socket total s' ls s'' -> runs with_socket total s (l :: ls) s''.

(** ** What holds in every state *)

Definition arrived (at_ : UserAt) : bool := match at_ with Arriving => false | _ => true end.
(** The future a user holds. *)
Definition future (at_ : UserAt) : option nat :=
  match at_ with Rechecking id | Waiting id => Some id | _ => None end.
Definition is_open (c : CoordinatorAt) : bool := match c with Waking | Released => true | _ => false end.

Record Consistent (total : Z) (s : System N) : Prop := {
  all_users : Z.of_nat (size (users s)) = total;
  ready_counts : ready (gate s) = Z.of_nat (count_entries arrived (users s));
  open_released : released (gate s) = is_open (coordinator s);
  counted : coordinator s <> Counting -> expired s = true \/ total <= ready (gate s);
  futures_exist u at_ id : users s !! u = Some at_ -> future at_ = Some id -> created (notify (gate s)) id;
  futures_differ u v a b id :
    users s !! u = Some a -> users s !! v = Some b -> future a = Some id -> future b = Some id -> u = v;
  waiting_woken u id :
    coordinator s = Released -> users s !! u = Some (Waiting id) -> woken (notify (gate s)) id;
  through_open u : users s !! u = Some Through -> released (gate s) = true
}.

Lemma user_step_ready ws g at_ g' at' :
  user_step ws g at_ g' at' ->
  released g' = released g
  /\ ready g' = ready g + (if arrived at_ then 0 else 1) /\ arrived at' = true
  /\ (at' = Through -> released g = true).
Proof. destruct 1; simpl; repeat split; (done || lia). Qed.

(** What a user's step does to the futures: those of the others stay, its own
    exists and is new. *)
Lemma user_step_futures ws g at_ g' at' id :
  user_step ws g at_ g' at' ->
  (created (notify g) id -> created (notify g') id)
  /\ (future at' = Some id -> future at_ = Some id \/ created (notify g') id /\ ~ created (notify g) id).
Proof.
  destruct 1 as [| | | |r b n i n' E| | |r b n i n' E| |]; simpl; (split; [|try done; try (by left)]);
    try apply created_dropped; try done.
  - apply created_one.
  - intros H. by eapply created_notified.
  - intros [= <-]. right. destruct (notified_fresh _ _ _ E). done.
  - intros H. by eapply created_poll.
Qed.

Lemma user_step_woken ws g at_ g' at' id :
  user_step ws g at_ g' at' -> future at_ <> Some id -> woken (notify g) id -> woken (notify g') id.
Proof.
  destruct 1 as [| | | |r b n i n' E| | |r b n i n' E| |]; simpl; intros Hf Hw;
    try (apply woken_dropped; [done|congruence]); try done.
  - by apply woken_one.
  - by eapply woken_notified.
  - eapply woken_poll; [done..|]. congruence.
Qed.

Lemma user_waits ws g at_ g' id :
  user_step ws g at_ g' (Waiting id) -> released g = false.
Proof. by inversion 1. Qed.

Lemma user_step_consistent ws total s u at_ g' at' :
  Consistent total s -> users s !! u = Some at_ -> user_step ws (gate s) at_ g' at' ->
  Consistent total (mkSystem g' (<[u := at']> (users s)) (coordinator s) (expired s)).
Proof.
  intros I Hu Hs. destruct (user_step_ready _ _ _ _ _ Hs) as (Hrel & Hready & Ha & Hthrough).
  split; cbn [gate users coordinator expired].
  - rewrite map_size_insert_Some by (by eexists). apply I.
  - pose proof (count_entries_replace arrived (users s) u at_ at' Hu) as Hc.
    rewrite Ha in Hc. rewrite Hready, (ready_counts _ _ I). destruct (arrived at_); lia.
  - rewrite Hrel. apply I.
  - intros Hc. destruct (counted _ _ I Hc) as [|Hr]; [by left|right]. rewrite Hready. destruct (arrived at_); lia.
  - intros v b id Hv Hf. destruct (user_step_futures _ _ _ _ _ id Hs) as [Hkeep Hnew].
    apply lookup_insert_Some in Hv as [[<- <-]|[_ Hv]].
    + destruct (Hnew Hf) as [Hold|[? _]]; [|done]. apply Hkeep. by eapply (futures_exist _ _ I).
    + apply Hkeep. by eapply (futures_exist _ _ I).
  - assert (forall v b id, v <> u -> users s !! v = Some b -> future b = Some id -> future at' = Some id -> False) as Hx.
    { intros v b id Hvu Hv Hb Hf. destruct (user_step_futures _ _ _ _ _ id Hs) as [_ Hnew].
      destruct (Hnew Hf) as [Hold|[_ Hfresh]].
      - apply Hvu. by eapply (futures_differ _ _ I).
      - apply Hfresh. by eapply (futures_exist _ _ I). }
    intros v w a b id Hv Hw Hfa Hfb.
    apply lookup_insert_Some in Hv as [[<- <-]|[? Hv]], Hw as [[<- <-]|[? Hw]]; try done.
    + by destruct (Hx w b id).
    + by destruct (Hx v a id).
    + by eapply (futures_differ _ _ I).
  - intros v id Hc Hv. apply lookup_insert_Some in Hv as [[<- ->]|[Hvu Hv]].
    + apply user_waits in Hs. rewrite (open_released _ _ I), Hc in Hs. done.
    + eapply user_step_woken; [exact Hs| |by apply (waiting_woken _ _ I v)].
      intros Hf. apply Hvu. symmetry. by eapply (futures_differ _ _ I).
  - intros v Hv. rewrite Hrel. apply lookup_insert_Some in Hv as [[<- ->]|[_ Hv]].
    + by apply Hthrough.
    + by eapply (through_open _ _ I).
Qed.

Lemma step_consistent ws total s l s' : Consistent total s -> step ws total s l s' -> Consistent total s'.
Proof.
  intros I Hs. destruct Hs as [g us c e u at_ g' at' Hu Hs|g us e Hc|r b n us e|r b n us e|g us c].
  - by apply (user_step_consistent ws total (mkSystem g us c e) u at_).
  - destruct I. split; simpl in *; try done. intros _. tauto.
  - destruct I. split; simpl in *; try done. by intros _; apply counted0.
  - destruct I. split; simpl in *; try done.
    + intros _. by apply counted0.
    + intros u at_ id Hu Hf. apply created_waiters. by eapply futures_exist0.
    + intros u id _ Hu. apply waiters_wake. by eapply futures_exist0.
  - destruct I. split; simpl in *; try done. by left.
Qed.

Lemma start_consistent us :
  map_Forall (fun _ at_ => at_ = Arriving) us -> Consistent (Z.of_nat (size us)) (start us).
Proof.
  intros Hus. split; simpl; try done.
  - unfold count_entries. replace (filter _ us) with (∅ : gmap nat UserAt); [done|]. symmetry.
    apply map_empty. intros u. apply map_lookup_filter_None. right. intros at_ Hu. by rewrite (Hus u at_ Hu).
  - intros u at_ id Hu. by rewrite (Hus u at_ Hu).
  - intros u v a b id Hu. by rewrite (Hus u a Hu).
  - intros u Hu. by apply Hus in Hu.
Qed.

Lemma reachable_consistent ws us s :
  map_Forall (fun _ at_ => at_ = Arriving) us ->
  reachable ws (Z.of_nat (size us)) (start us) s -> Consistent (Z.of_nat (size us)) s.
Proof. intros Hus. induction 1; [by apply start_consistent|]. by eapply step_consistent. Qed.

(** ** Nobody passes early *)

(** No user is past the gate while another is still setting up, unless the
    deadline has passed. *)
Theorem gate_closed ws us s u v :
  map_Forall (fun _ at_ => at_ = Arriving) us ->
  reachable ws (Z.of_nat (size us)) (start us) s ->
  users s !! u = Some Through -> users s !! v = Some Arriving -> expired s = true.
Proof.
  intros Hus Hr Hu Hv. pose proof (reachable_consistent _ _ _ Hus Hr) as I.
  destruct (counted _ _ I) as [|Hready]; [|done|].
  - intros Hc. pose proof (through_open _ _ I u Hu) as Ho. by rewrite (open_released _ _ I), Hc in Ho.
  - exfalso. rewrite (ready_counts _ _ I), (count_entries_split arrived _ v _ Hv) in Hready.
    pose proof (count_entries_size arrived (delete v (users s))) as Hsize.
    rewrite map_size_delete_Some in Hsize by (by eexists). pose proof (all_users _ _ I).
    assert (size (users s) <> 0%nat) by (intros E; apply map_size_empty_inv in E; by rewrite E in Hv).
    simpl in Hready. lia.
Qed.

(** ** Nobody is left behind *)

(** The steps a user still has to make once the gate is open. *)
Definition remaining (at_ : UserAt) : nat :=
  match at_ with
  | Arriving => 7 | Signalling => 6 | Waiting _ => 5 | Checking => 4 | Creating => 3 | Rechecking _ => 2
  | Through | Lost => 0
  end.
Definition steps_of (u : nat) (ls : list Label) : nat :=
  length (List.filter (fun l => match l with ByUser v => Nat.eqb u v | _ => false end) ls).

Lemma user_step_remaining ws g at_ g' at' :
  released g = true -> user_step ws g at_ g' at' -> (remaining at' < remaining at_)%nat.
Proof. intros Hr. destruct 1; simpl in *; (done || lia). Qed.

Lemma user_can_step ws g at_ :
  released g = true -> remaining at_ <> 0%nat ->
  (forall id, at_ = Waiting id -> is_Some (poll (notify g) id)) ->
  exists g' at', user_step ws g at_ g' at'.
Proof.
  destruct g as [r b n]. simpl. intros -> Hrem Hw. destruct at_ as [| | | |id|id| |]; try done.
  - eexists _, _. constructor.
  - eexists _, _. constructor.
  - eexists _, _. constructor.
  - destruct (notified n) as [id n'] eqn:E. eexists _, _. by econstructor.
  - eexists _, _. constructor.
  - destruct (Hw id eq_refl) as [n' E]. eexists _, _. by eapply wake.
Qed.

Lemma run_remaining ws total s ls s' u at_ :
  Consistent total s -> coordinator s = Released -> runs ws total s ls s' -> users s !! u = Some at_ ->
  exists at', users s' !! u = Some at' /\ (remaining at' + steps_of u ls <= remaining at_)%nat.
Proof.
  intros I Hc Hr. revert at_ I Hc. induction Hr as [s|s l s' ls s'' Hs _ IH]; intros at_ I Hc Hu.
  { exists at_. split; [done|]. unfold steps_of. simpl. lia. }
  pose proof (step_consistent _ _ _ _ _ I Hs) as I'.
  destruct Hs as [g us c e v at_v g' at_v' Hv Hs|g us e|r b n us e|r b n us e|g us c]; simpl in *; try done.
  - assert (released g = true) as Ho by (pose proof (open_released _ _ I) as H; simpl in H; by rewrite H, Hc).
    unfold steps_of in *. simpl. destruct (Nat.eqb_spec u v) as [<-|Hne]; simpl.
    + rewrite Hv in Hu. injection Hu as ->. apply (user_step_remaining _ _ _ _ _ Ho) in Hs.
      destruct (IH at_v' I' Hc (lookup_insert_eq _ _ _)) as (at' & ? & ?). exists at'. split; [done|]. cbn [length]. lia.
    + apply (IH at_ I' Hc). by rewrite lookup_insert_ne.
  - by apply (IH at_ I' Hc).
Qed.

(** C32. No wake-up is lost: once a gate is released every user can move until it is
    through, and is through after at most seven steps of its own, whatever the
    others do in between; until then the coordinator can move as soon as the
    deadline has passed. *)
Theorem gate_opens ws us s :
  map_Forall (fun _ at_ => at_ = Arriving) us ->
  reachable ws (Z.of_nat (size us)) (start us) s ->
  (expired s = true -> coordinator s <> Released ->
     exists s', step ws (Z.of_nat (size us)) s ByCoordinator s')
  /\ (coordinator s = Released -> forall u at_, users s !! u = Some at_ ->
       (remaining at_ <> 0%nat -> exists s', step ws (Z.of_nat (size us)) s (ByUser u) s')
       /\ forall ls s', runs ws (Z.of_nat (size us)) s ls s' ->
            exists at', users s' !! u = Some at' /\ (remaining at' + steps_of u ls <= 7)%nat).
Proof.
  intros Hus Hr. pose proof (reachable_consistent _ _ _ Hus Hr) as I. split.
  - destruct s as [[r b n] us' [] e]; simpl; intros He Hc; try done; eexists; constructor. by right.
  - intros Hc u at_ Hu. split.
    + intros Hrem. destruct (user_can_step ws (gate s) at_) as (g' & at' & Hs); [|done| |].
      * by rewrite (open_released _ _ I), Hc.
      * intros id ->. apply woken_completes. by apply (waiting_woken _ _ I u).
      * destruct s. eexists. by eapply step_user.
    + intros ls s' Hrun. destruct (run_remaining _ _ _ _ _ _ _ I Hc Hrun Hu) as (at' & ? & ?).
      exists at'. split; [done|]. destruct at_; simpl in *; lia.
Qed.
End Gate.

(** ** Witnesses *)

(** One user that waits when the gate opens. *)
Lemma waiting_user_reachable :
  exists n us, us !! 0%nat = Some (Waiting 0)
    /\ reachable false 1 (start {[0%nat := Arriving]}) (mkSystem (mkGate 1 true n) us Released false).
Proof.
  eexists _, _. split; cycle 1.
  - eapply reach_step; [|by apply step_wake].
    eapply reach_step; [|by apply step_store].
    eapply reach_step; [|apply step_counted; left; simpl; lia].
    eapply reach_step; [|eapply (step_user _ _ _ _ _ _ 0); [apply lookup_insert_eq|apply recheck_closed]].
    eapply reach_step; [|eapply (step_user _ _ _ _ _ _ 0); [apply lookup_insert_eq|by apply create]].
    eapply reach_step; [|eapply (step_user _ _ _ _ _ _ 0); [apply lookup_insert_eq|apply check_closed]].
    eapply reach_step; [|eapply (step_user _ _ _ _ _ _ 0); [apply lookup_insert_eq|apply signal]].
    eapply reach_step; [apply reach_start|].
    eapply (step_user _ _ _ _ _ _ 0); [apply lookup_singleton_eq|apply arrive].
  - apply lookup_insert_eq.
Qed.

Lemma gate_opens_witness :
  exists s s' : System Queue, users s !! 0%nat = Some (Waiting 0) /\ step false 1 s (ByUser 0) s'.
Proof.
  destruct waiting_user_reachable as (n & us & Hu & Hr).
  assert (map_Forall (fun _ at_ => at_ = Arriving) ({[0%nat := Arriving]} : gmap nat UserAt)) as Hus
    by (by apply map_Forall_singleton).
  destruct (proj2 (gate_opens false _ _ Hus Hr) eq_refl 0%nat (Waiting 0) Hu) as [Hstep _].
  destruct Hstep as [s' Hs]; [discriminate|]. exists (mkSystem (mkGate 1 true n) us Released false), s'. split; [exact Hu|exact Hs].
Defined.
