(* ===== verification/Workload.v ===== *)
(** * The load generator: traffic

    [bench/src/main.rs]: logins, API requests, the life of a simulated user and
    a whole run. What the code awaits, the server included, is an [Outside] that
    answers; what it does to the shared counters is a trace of atomic updates
    ([Bench.Event]), one per task, and a run interleaves them. Waiting at a gate
    is in [Gate]; sleeping does nothing to the counters. *)
From Stdlib Require Import String SpecFloat.
From S2P Require Export Bench Validation.
From S2P Require Routes.
Open Scope Z_scope.

Notation GET := Routes.GET. Notation POST := Routes.POST. Notation PATCH := Routes.PATCH.
Notation DELETE := Routes.DELETE.

(** ** The outside *)

Record HttpRequest := mkHttpRequest {
  hr_method : Routes.Method; hr_url : rstr; hr_body : option json; hr_headers : HeaderMap
}.
(** The body is [None] when it is not JSON. *)
Record HttpReply := mkHttpReply { reply_status : Z; reply_headers : HeaderMap; reply_body : option json }.

(** Where a timeout cut a login short. *)
Variant Cut := NotCut | CutSending | CutReading.
Variant Connected := SocketOpen | ConnectFailed (error : rstr) | ConnectTimeout.
Variant Message := TextFrame (text : rstr) | CloseFrame | OtherFrame.
Variant SetupEnd := GateReleased | SetupError (error : rstr) | SetupClosed.
(** One turn of the [select!] loop of a user, with the clock in milliseconds. *)
Variant Turn :=
  | Read (message : Message) (now : Z) | ReadError (error : rstr) | ReadEnd
  | HeartbeatTick (sent : Result rstr unit)
  | MessageTick (uuid : rstr) (started : Z) (sent : Result rstr unit).
Variant AckTurn := AckRead (message : Message) (now : Z) | AckError (error : rstr) | AckEnd.

Record Outside (W : Type) := mkOutside {
  (** the answer or the transport error, and the milliseconds it took *)
  http : HttpRequest -> W -> Result rstr HttpReply * Z * W;
  uuid_simple : W -> rstr * W;
  (** is the deadline of the gate past? *)
  late : W -> bool * W;
  cut : W -> Cut * W;
  connect : rstr -> rstr -> W -> Connected * W;
  (** the frames read before the traffic gate opens, or the socket ends *)
  setup_turns : W -> list Message * SetupEnd * W;
  (** the turns before the shutdown, and those before the last deadline *)
  turns : W -> list Turn * W;
  ack_turns : W -> list AckTurn * W;
  (** what a spawned task and the rest see *)
  fork : W -> W * W
}.
Arguments mkOutside {W}. Arguments http {W}. Arguments uuid_simple {W}. Arguments late {W}.
Arguments cut {W}. Arguments connect {W}. Arguments setup_turns {W}. Arguments turns {W}.
Arguments ack_turns {W}. Arguments fork {W}.

(** ** Tasks *)

(** A computation leaves its trace and those of the tasks it spawned. *)
Record Ran (W A : Type) := mkRan { trace : list Event; tasks : list (list Event); value_of : A; outside : W }.
Arguments mkRan {W A}. Arguments trace {W A}. Arguments tasks {W A}. Arguments value_of {W A}.
Arguments outside {W A}.

Declare Scope task_scope.
Delimit Scope task_scope with task.
Open Scope task_scope.

Section Tasks.
Context {W : Type}.

Definition Task (A : Type) : Type := W -> Ran W A.
Definition ret {A} (a : A) : Task A := mkRan [] [] a.
Definition bind {A B} (m : Task A) (k : A -> Task B) : Task B := fun w =>
  let r := m w in
  let r' := k (value_of r) (outside r) in
  mkRan (trace r ++ trace r') (tasks r ++ tasks r') (value_of r') (outside r').
Definition emit (l : list Event) : Task unit := mkRan l [] tt.
Definition ask {A} (f : W -> A * W) : Task A := fun w => let (a, w') := f w in mkRan [] [] a w'.
(** [tokio::spawn] *)
Definition spawn (out : Outside W) (t : Task unit) : Task unit := fun w =>
  let (w1, w2) := fork out w in
  let r := t w1 in mkRan [] (trace r :: tasks r) tt w2.
(** The [?] operator. *)
Definition try {E A B} (m : Task (Result E A)) (k : A -> Task (Result E B)) : Task (Result E B) :=
  bind m (fun r => match r with Ok a => k a | Err e => ret (Err e) end).
End Tasks.
Arguments Task : clear implicits.

Notation "x <- m ;; k" := (bind m (fun x => k)) (at level 100, m at next level, right associativity) : task_scope.
Notation "m ;; k" := (bind m (fun _ => k)) (at level 100, right associativity) : task_scope.
Notation "x <-? m ;; k" := (try m (fun x => k)) (at level 100, m at next level, right associativity) : task_scope.
Notation "m ;;? k" := (try m (fun _ => k)) (at level 100, right associativity) : task_scope.

(** ** Requests *)

Definition is_success (status : Z) : bool := (200 <=? status) && (status <=? 299).

(** [headers.get_all(name)], the values that are visible text. *)
Definition header_all (headers : HeaderMap) (name : rstr) : list rstr :=
  List.filter (forallb visible_ascii) (map snd (List.filter (fun h => h.1 ≟ name) headers)).
Definition join (separator : rstr) (parts : list rstr) : rstr :=
  match parts with [] => [] | p :: ps => p ++ concat (map (app separator) ps) end.
Fixpoint str_contains (needle s : rstr) : bool :=
  starts_with needle s || match s with [] => false | _ :: s' => str_contains needle s' end.

(** ** Rates *)

(** [Duration::from_secs_f64], for a number of seconds that is not negative: the
    nearest nanosecond, ties to even. *)
Definition duration_from_secs_f64 (x : f64) : Z :=
  match x with
  | S754_finite false m e =>
      let n := Z.pos m * NANOS in
      if 0 <=? e then Z.shiftl n e
      else
        let q := Z.shiftr n (- e) in
        let r := n - Z.shiftl q (- e) in
        let half := Z.shiftl 1 (- e - 1) in
        if (half <? r) || ((r =? half) && Z.odd q) then q + 1 else q
  | _ => 0
  end.

(** The time between two events, from a rate per minute. *)
Definition rate_period (rate_per_minute : f64) : option Z :=
  if flt (S754_zero false) rate_per_minute then
    Some (duration_from_secs_f64
            (fclamp (literal 1 1000) (of_int 86400) (fdiv (of_int 60) rate_per_minute)))
  else None.

(** The start of a user's events within a period, in nanoseconds: a linear
    congruence spreads the users. *)
Definition distributed_phase (period : Z) (user_number : Z) : Z :=
  let micros := clamp 1 u64_max (period / 1000) in
  let mixed := as_u64 (as_u64 (user_number * 6364136223846793005) + 1442695040888963407) in
  (mixed mod micros) * 1000.

Section Client.
Context {W : Type} (out : Outside W) {J : JsonText} {T : UuidText}.
(** [Display] of a status line, and the order in which a [HashMap] lists its
    keys. *)
Context (show_status : Z -> rstr) (keys_of : gmap rstr Z -> list rstr).
Notation Task := (Task W).

Definition request_with_cookie (method : Routes.Method) (url : rstr) (body : option json) (name : rstr)
    (csrf cookie : option rstr) : Task (Result rstr json) :=
  let headers := match csrf with Some token => [(rs "x-csrf-token", token)] | None => [] end
              ++ match cookie with Some c => [(rs "cookie", c)] | None => [] end in
  answer <- ask (http out (mkHttpRequest method url body headers)) ;;
  let (response, elapsed) := answer in
  let result :=
    match response with
    | Ok reply =>
        let body := default JNull (reply_body reply) in
        if is_success (reply_status reply) then Ok body
        else Err (name ++ rs " returned " ++ show_status (reply_status reply) ++ rs ": " ++ json_to_string body)
    | Err error => Err error
    end in
  emit match result with Err error => [ErrorSeen http_errors error 1] | Ok _ => [] end ;;
  emit [FetchAdd api_requests 1] ;;
  emit (record name elapsed (is_ok result)) ;;
  ret result.

Definition request (method : Routes.Method) (url : rstr) (body : option json) (name : rstr) (csrf : option rstr) :
    Task (Result rstr json) :=
  request_with_cookie method url body name csrf None.

(** [serde_json::from_value::<AuthResponse>]: a map or a sequence of the one
    field. *)
Definition auth_response (body : json) : option Uuid :=
  match body with
  | JArr [id] => json_as_uuid id
  | _ => json_get body (rs "id") ≫= json_as_uuid
  end.

(** [None] is a login its timeout has cut. *)
Definition login (cut : Cut) (args : Args) (username password : rstr) :
    Task (option (Result rstr (rstr * Uuid))) :=
  let body := JObj [(rs "email", JStr (username ++ rs "@example.com")); (rs "password", JStr password)] in
  answer <- ask (http out (mkHttpRequest POST (root_url args ++ rs "/api/v1/auth/login") (Some body) [])) ;;
  let (response, elapsed) := answer in
  match cut, response with
  | CutSending, _ => ret None
  | _, Err error => ret (Some (Err error))
  | _, Ok reply =>
      let csrf := default [] (header_str (reply_headers reply) (rs "x-csrf-token")) in
      let cookies := join (rs "; ")
        (map (fun v => hd v (split_on (fun c => c =? 59) v)) (header_all (reply_headers reply) (rs "set-cookie"))) in
      let status := reply_status reply in
      emit [LoginStatus status] ;;
      match cut with
      | CutReading => ret None
      | _ =>
          let response_body := default JNull (reply_body reply) in
          let parsed := auth_response response_body in
          emit (if status =? 429 then [FetchAdd auth_throttles 1] else []) ;;
          match is_success status, parsed with
          | true, Some id =>
              emit (record (rs "POST /auth/login") elapsed true) ;;
              emit [FetchAdd auth_successes 1] ;;
              ret (Some (Ok (cookies ++ rs "; x-csrf-token=" ++ csrf, id)))
          | _, _ =>
              emit (record (rs "POST /auth/login") elapsed false) ;;
              let message := default (rs "invalid login response") (json_get response_body (rs "error") ≫= json_as_str) in
              emit [ErrorSeen login_errors message 1] ;;
              ret (Some (Err (rs "status:" ++ show_status status ++ rs " login for " ++ username
                              ++ rs " failed: " ++ message)))
          end
      end
  end.

(** ** The API, once *)

Definition SMOKE_READS : list (string * string) := [
  ("/api/v1/health", "GET /health"); ("/api/v1/health/live", "GET /health/live");
  ("/api/v1/health/ready", "GET /health/ready"); ("/api/v1/health/startup", "GET /health/startup");
  ("/api/v1/metrics", "GET /metrics"); ("/api/v1/auth/me", "GET /auth/me");
  ("/api/v1/channels", "GET /channels"); ("/api/v1/conversations", "GET /conversations");
  ("/api/v1/users/search?q=test", "GET /users/search");
  ("/api/v1/admin/users?limit=20", "GET /admin/users"); ("/api/v1/admin/roles", "GET /admin/roles");
  ("/api/v1/admin/permissions", "GET /admin/permissions");
  ("/api/v1/admin/audit?limit=20", "GET /admin/audit");
  ("/api/v1/admin/operations", "GET /admin/operations");
  ("/api/v1/admin/channels?limit=20", "GET /admin/channels");
  ("/api/v1/admin/messages?limit=20", "GET /admin/messages");
  ("/api/v1/admin/participants/main", "GET /admin/participants")]%string.

(** A request of the smoke run, and the name it is counted under. *)
Record Call := mkCall { call_method : Routes.Method; call_path : rstr; call_body : option json; call_name : string }.

Section Smoke.
Context (root csrf : rstr).
Notation Step := (Task (Result rstr unit)).

Definition call (method : Routes.Method) (path : rstr) (body : option json) (name : string) : Task (Result rstr json) :=
  request method (root ++ path) body (rs name) (Some csrf).
Definition done_ok : Step := ret (Ok tt).

Fixpoint call_all (l : list Call) : Step :=
  match l with
  | [] => done_ok
  | c :: l' => call (call_method c) (call_path c) (call_body c) (call_name c) ;;? call_all l'
  end.

(** The [id] of the first of the [items], or of the elements, of an answer. *)
Definition first_id (j : json) : option rstr :=
  (items ← json_as_array j; first ← head items; json_get first (rs "id") ≫= json_as_str)%stdpp.
Definition first_item_id (j : json) : option rstr := json_get j (rs "items") ≫= first_id.

Definition field (name : string) (value : rstr) : rstr * json := (rs name, JStr value).

Definition smoke_reads : Step :=
  call_all (map (fun e => mkCall GET (rs e.1) None e.2) SMOKE_READS).

(** The channel the run creates, changes, archives, restores, deletes and
    restores again. *)
Definition smoke_channel : Step :=
  unique <- ask (uuid_simple out) ;;
  let channel := rs "bench-" ++ unique in
  call POST (rs "/api/v1/admin/channels")
    (Some (JObj [field "name" channel; field "description" (rs "benchmark fixture")])) "POST /admin/channels" ;;?
  channels <-? call GET (rs "/api/v1/admin/channels?q=" ++ channel) None "GET /admin/channels/search" ;;
  match first_item_id channels with
  | None => done_ok
  | Some id =>
      let at_id := rs "/api/v1/admin/channels/" ++ id in
      call_all [
        mkCall PATCH at_id (Some (JObj [field "description" (rs "updated by benchmark")])) "PATCH /admin/channels/:id";
        mkCall POST (at_id ++ rs "/archive") None "POST /admin/channels/:id/archive";
        mkCall POST (at_id ++ rs "/restore") None "POST /admin/channels/:id/restore";
        mkCall POST (at_id ++ rs "/delete") None "POST /admin/channels/:id/delete";
        mkCall POST (at_id ++ rs "/undelete") None "POST /admin/channels/:id/undelete"]
  end.

(** The user it registers, by a client of its own without the token. *)
Definition fixture_registration (unique : rstr) : json :=
  JObj [field "email" (rs "bench-" ++ unique ++ rs "@example.com"); field "username" (rs "bench" ++ unique);
        field "password" (rs "benchmark-password-1234")].
Definition smoke_register (unique : rstr) : Task (Result rstr (option rstr)) :=
  registered <-? request POST (root ++ rs "/api/v1/auth/register") (Some (fixture_registration unique))
                  (rs "POST /auth/register") None ;;
  ret (Ok (json_get registered (rs "id") ≫= json_as_str)).

Definition smoke_account : Step :=
  account <-? call GET (rs "/api/v1/auth/me") None "GET /auth/me/account-target" ;;
  match json_get account (rs "username") ≫= json_as_str with
  | None => done_ok
  | Some username =>
      call_all [mkCall PATCH (rs "/api/v1/account") (Some (JObj [field "username" username])) "PATCH /account"]
  end.

Definition smoke_conversations (unique : rstr) : Step :=
  let public := rs "bench-public-" ++ unique in
  call POST (rs "/api/v1/channels") (Some (JObj [field "name" public])) "POST /channels" ;;?
  target <-? call GET (rs "/api/v1/users/search?q=test2") None "GET /users/search/target" ;;
  match first_id target with
  | None => done_ok
  | Some target_id =>
      let private := rs "bench-private-" ++ unique in
      let members := rs "/api/v1/channels/" ++ private ++ rs "/members" in
      call_all [
        mkCall POST (rs "/api/v1/conversations/direct") (Some (JObj [field "user_id" target_id])) "POST /conversations/direct";
        mkCall POST (rs "/api/v1/channels/private") (Some (JObj [field "name" private])) "POST /channels/private";
        mkCall GET members None "GET /channels/:name/members";
        mkCall POST members (Some (JObj [field "user_id" target_id])) "POST /channels/:name/members";
        mkCall DELETE (members ++ rs "/" ++ target_id) None "DELETE /channels/:name/members/:user"]
  end.

Definition smoke_users (fixture_user_id : option rstr) : Step :=
  call GET (rs "/api/v1/admin/users?limit=20") None "GET /admin/users/targets" ;;?
  match fixture_user_id with
  | None => done_ok
  | Some target_id =>
      let at_id := rs "/api/v1/admin/users/" ++ target_id in
      call_all [
        mkCall POST (at_id ++ rs "/disable") None "POST /admin/users/:id/disable";
        mkCall POST (at_id ++ rs "/enable") None "POST /admin/users/:id/enable";
        mkCall POST (at_id ++ rs "/password-reset") (Some (JObj [field "password" (rs "benchmark-reset-1234")])) "POST /admin/users/:id/password-reset";
        mkCall POST (at_id ++ rs "/invalidate-sessions") None "POST /admin/users/:id/invalidate-sessions";
        mkCall POST (at_id ++ rs "/roles/moderator") None "POST /admin/users/:id/roles/:role";
        mkCall DELETE (at_id ++ rs "/roles/moderator") None "DELETE /admin/users/:id/roles/:role"]
  end.

Definition smoke_messages : Step :=
  admin_messages <-? call GET (rs "/api/v1/admin/messages?limit=1") None "GET /admin/messages/target" ;;
  match first_item_id admin_messages with
  | None => done_ok
  | Some message_id =>
      let at_id := rs "/api/v1/admin/messages/" ++ message_id in
      let bulk := rs "/api/v1/admin/messages/bulk-moderate" in
      let reason := field "reason" (rs "benchmark") in
      let bulk_body action := JObj [(rs "ids", JArr [JStr message_id]); field "action" (rs action); reason] in
      call_all [
        mkCall GET (at_id ++ rs "/history") None "GET /admin/messages/:id/history";
        mkCall POST (at_id ++ rs "/delete") (Some (JObj [reason])) "POST /admin/messages/:id/delete";
        mkCall POST (at_id ++ rs "/restore") (Some (JObj [reason])) "POST /admin/messages/:id/restore";
        mkCall POST bulk (Some (bulk_body "delete")) "POST /admin/messages/bulk-moderate";
        mkCall POST bulk (Some (bulk_body "restore")) "POST /admin/messages/bulk-moderate/restore"]
  end.

Definition smoke_mutations : Step :=
  smoke_channel ;;?
  simple <- ask (uuid_simple out) ;;
  let unique := take 20 simple in
  fixture_user_id <-? smoke_register unique ;;
  smoke_account ;;?
  smoke_conversations unique ;;?
  smoke_users fixture_user_id ;;?
  smoke_messages ;;?
  match fixture_user_id with
  | Some target_id =>
      call_all [mkCall DELETE (rs "/api/v1/admin/users/" ++ target_id) None "DELETE /admin/users/:id"]
  | None => done_ok
  end ;;?
  call_all [mkCall POST (rs "/api/v1/auth/logout") None "POST /auth/logout"].
End Smoke.

Definition api_smoke (args : Args) (csrf : rstr) (mutate : bool) : Task (Result rstr unit) :=
  let root := root_url args in
  smoke_reads root csrf ;;?
  (if mutate && negb (readonly args) then smoke_mutations root csrf else done_ok).

(** ** The steady load *)

Definition USER_API_OPERATIONS : list (string * string) := [
  ("/api/v1/health", "GET /health"); ("/api/v1/health/live", "GET /health/live");
  ("/api/v1/health/ready", "GET /health/ready"); ("/api/v1/health/startup", "GET /health/startup");
  ("/api/v1/metrics", "GET /metrics"); ("/api/v1/auth/me", "GET /auth/me");
  ("/api/v1/channels", "GET /channels"); ("/api/v1/users/search?q=test", "GET /users/search");
  ("/api/v1/conversations", "GET /conversations");
  ("/api/v1/channels/main/members", "GET /channels/:name/members")]%string.
Definition ADMIN_API_OPERATIONS : list (string * string) := [
  ("/api/v1/admin/users?limit=20", "GET /admin/users"); ("/api/v1/admin/roles", "GET /admin/roles");
  ("/api/v1/admin/permissions", "GET /admin/permissions");
  ("/api/v1/admin/audit?limit=20", "GET /admin/audit");
  ("/api/v1/admin/operations", "GET /admin/operations");
  ("/api/v1/admin/channels?limit=20", "GET /admin/channels");
  ("/api/v1/admin/messages?limit=20", "GET /admin/messages");
  ("/api/v1/admin/participants/main", "GET /admin/participants")]%string.

Definition operation_count (is_admin : bool) : nat :=
  (length USER_API_OPERATIONS + (if is_admin then length ADMIN_API_OPERATIONS else 0))%nat.
(** The operation of the [sequence]-th request; out of range would panic. *)
Definition operation_at (user_number : nat) (is_admin : bool) (sequence : nat) : option (string * string) :=
  let index := ((user_number + sequence) mod operation_count is_admin)%nat in
  if Nat.ltb index (length USER_API_OPERATIONS) then USER_API_OPERATIONS !! index
  else ADMIN_API_OPERATIONS !! (index - length USER_API_OPERATIONS)%nat.

(** [while next < deadline]: one request a period. *)
Fixpoint api_requests_loop (fuel : nat) (args : Args) (cookie csrf : rstr) (user_number : nat) (is_admin : bool)
    (next deadline period : Z) (sequence : nat) : Task unit :=
  match fuel with
  | O => ret tt
  | S fuel' =>
      if next <? deadline then
        match operation_at user_number is_admin sequence with
        | None => ret tt
        | Some (path, name) =>
            request_with_cookie GET (root_url args ++ rs path) None (rs name) (Some csrf) (Some cookie) ;;
            api_requests_loop fuel' args cookie csrf user_number is_admin (next + period) deadline period (S sequence)
        end
      else ret tt
  end.

(** The two readings of the clock are [gap] apart; the fuel is the number of
    periods that fit ([Accounting.steady_load_counted]). *)
Definition api_fuel (next deadline period : Z) : nat := S (Z.to_nat ((deadline - next) / period)).
Definition run_api_workload (args : Args) (cookie csrf : rstr) (user_number : nat) (is_admin : bool)
    (duration gap : Z) : Task unit :=
  match rate_period (api_rate args) with
  | None => ret tt
  | Some period =>
      let next := gap + distributed_phase period (Z.of_nat user_number) in
      api_requests_loop (api_fuel next duration period) args cookie csrf user_number is_admin next duration period 0
  end.

(** ** A simulated user *)

(** The markers sent and not yet seen, with the time they were sent. *)
Notation Pending := (gmap rstr Z).

Definition error_frame_start : rstr :=
  rs "{" ++ [34] ++ rs "type" ++ [34] ++ rs ":" ++ [34] ++ rs "error" ++ [34].

(** The trace of a frame and the messages still pending. *)
Definition record_socket_frame (message : Message) (now : Z) (pending : option Pending) : list Event * option Pending :=
  match message with
  | TextFrame text =>
      if starts_with error_frame_start text then
        (match json_from_str text with
         | Some event =>
             record_realtime_error
               (default (rs "unspecified server error") (json_get event (rs "message") ≫= json_as_str))
         | None => []
         end, pending)
      else
        match pending with
        | None => ([], None)
        | Some waiting =>
            match List.find (fun marker => str_contains marker text) (keys_of waiting) with
            | None => ([], pending)
            | Some marker =>
                match waiting !! marker with
                | None => ([], pending)
                | Some started =>
                    (FetchAdd messages_acknowledged 1 :: record_latency (rs "WS message delivery") (now - started),
                     Some (delete marker waiting))
                end
            end
        end
  | _ => ([], pending)
  end.

(** The logins of [user_loop], at most five: a throttled one is tried again. *)
Fixpoint authenticate (attempts : nat) (attempt : nat) (args : Args) (username : rstr) : Task (option rstr) :=
  match attempts with
  | O => ret None
  | S attempts' =>
      no_time <- ask (late out) ;;
      if (no_time : bool) then ret None
      else
        cut_short <- ask (cut out) ;;
        outcome <- login cut_short args username username ;;
        match outcome with
        | Some (Ok (cookie, _)) => ret (Some cookie)
        | Some (Err error) =>
            if str_contains (rs "status:429") error && Nat.ltb attempt 4
            then authenticate attempts' (S attempt) args username
            else ret None
        | None => ret None
        end
  end.

Definition websocket_mode (m : Mode) : bool := match m with Api | Readonly => false | _ => true end.

Definition socket_failed (error : rstr) : list Event :=
  [FetchAdd ws_failures 1; FetchAdd setup_failures 1; ErrorSeen websocket_errors error 1].

(** Opens the socket and keeps it through the traffic gate. *)
Definition open_socket (args : Args) (cookie : rstr) : Task bool :=
  emit [FetchAdd ws_attempts 1] ;;
  opened <- ask (connect out (ws_url args) cookie) ;;
  match opened with
  | ConnectFailed error => emit (socket_failed error) ;; ret false
  | ConnectTimeout => emit (socket_failed (rs "setup timeout")) ;; ret false
  | SocketOpen =>
      phase <- ask (setup_turns out) ;;
      let (frames, ending) := phase in
      emit (concat (map (fun m => (record_socket_frame m 0 None).1) frames)) ;;
      match ending with
      | GateReleased => emit [FetchAdd ws_connected 1] ;; ret true
      | SetupError error => emit (socket_failed (rs "closed during setup: " ++ error)) ;; ret false
      | SetupClosed => emit (socket_failed (rs "closed during setup without a close frame")) ;; ret false
      end
  end.

(** The traffic loop: the trace, the messages still pending and whether the
    socket is still connected. *)
Fixpoint traffic (args : Args) (user_number : nat) (l : list Turn) (pending : Pending) : list Event * Pending * bool :=
  match l with
  | [] => ([], pending, true)
  | turn :: l' =>
      let stop error := (record_realtime_error error, pending, false) in
      let continue_with events pending :=
        let '(events', pending', connected) := traffic args user_number l' pending in
        (events ++ events', pending', connected) in
      match turn with
      | Read CloseFrame _ => stop (rs "server closed the socket during traffic")
      | Read message now =>
          let (events, pending') := record_socket_frame message now (Some pending) in
          continue_with events (default ∅ pending')
      | ReadError error => stop (rs "socket receive failed: " ++ error)
      | ReadEnd => stop (rs "socket closed without a close frame")
      | HeartbeatTick (Err error) => stop (rs "heartbeat send failed: " ++ error)
      | HeartbeatTick (Ok _) => continue_with [] pending
      | MessageTick uuid started sent =>
          if flt (S754_zero false) (message_rate args) then
            let marker := rs "bench:" ++ decimal (Z.of_nat user_number) ++ rs ":" ++ uuid in
            match sent with
            | Ok _ => continue_with [FetchAdd messages 1] (<[marker := started]> pending)
            | Err error => stop (rs "message send failed: " ++ error)
            end
          else continue_with [] pending
      end
  end.

(** The wait for the last acknowledgements, until none is missing, the socket
    ends or five seconds have passed. *)
Fixpoint acknowledgements (l : list AckTurn) (pending : Pending) : list Event * Pending * bool :=
  if decide (pending = ∅) then ([], pending, true)
  else
    match l with
    | [] => ([], pending, true)
    | AckRead message now :: l' =>
        let (events, pending') := record_socket_frame message now (Some pending) in
        let '(events', pending'', connected) := acknowledgements l' (default ∅ pending') in
        (events ++ events', pending'', connected)
    | AckError error :: _ =>
        (record_realtime_error (rs "socket receive failed while awaiting message acknowledgement: " ++ error),
         pending, false)
    | AckEnd :: _ =>
        (record_realtime_error (rs "socket closed while awaiting message acknowledgement"), pending, false)
    end.

Definition missing_acknowledgements (pending : Pending) : list Event :=
  if decide (pending = ∅) then []
  else
    let missing := Z.of_nat (size pending) in
    [FetchAdd realtime_failures missing; ErrorSeen realtime_errors (rs "message acknowledgement timed out") missing].

Definition socket_traffic (args : Args) (user_number : nat) : Task unit :=
  l <- ask (turns out) ;;
  let '(events, pending, connected) := traffic args user_number l ∅ in
  emit events ;;
  l' <- ask (ack_turns out) ;;
  let '(events', pending', _) :=
    if connected then acknowledgements l' pending else ([], pending, false) in
  emit events' ;;
  emit (missing_acknowledgements pending').

(** What follows the first occurrence of a string, and what precedes it. *)
Fixpoint after_first (needle : rstr) (s : rstr) : option rstr :=
  if starts_with needle s then Some (drop (length needle) s)
  else match s with [] => None | _ :: s' => after_first needle s' end.
Fixpoint before_first (needle : rstr) (s : rstr) : rstr :=
  if starts_with needle s then [] else match s with [] => [] | c :: s' => c :: before_first needle s' end.
(** [cookie.split("x-csrf-token=").nth(1).unwrap_or_default()] *)
Definition csrf_of (cookie : rstr) : rstr :=
  match after_first (rs "x-csrf-token=") cookie with
  | Some rest => before_first (rs "x-csrf-token=") rest
  | None => []
  end.

Definition user_name (user_number : nat) : rstr := rs "test" ++ decimal (Z.of_nat (user_number mod 6 + 1)).

Definition user_loop (args : Args) (user_number : nat) (gap : Z) : Task unit :=
  too_late <- ask (late out) ;;
  if (too_late : bool) then emit [FetchAdd setup_failures 1]
  else
    let username := user_name user_number in
    authenticated <- authenticate 5 0 args username ;;
    match authenticated with
    | None => emit [FetchAdd setup_failures 1]
    | Some cookie =>
        let workload := run_api_workload args cookie (csrf_of cookie) user_number (username ≟ rs "test1")
                          (duration args * NANOS) gap in
        if websocket_mode (mode args) then
          open <- open_socket args cookie ;;
          if (open : bool) then
            (match mode args with Mixed => spawn out workload | _ => ret tt end) ;;
            socket_traffic args user_number
          else ret tt
        else workload
    end.

(** ** A run *)

(** What a run meets: the limits of the process, the construction of its three
    HTTP clients, what the administrator and each user see, how the tasks
    interleave, and how long it takes. *)
Record Environment := mkEnvironment {
  limit_before : option rlimit;
  setrlimit : rlimit -> bool;
  limit_after : option rlimit;
  os_error : rstr;
  build : nat -> Result rstr unit;
  admin_outside : W;
  user_outside : nat -> W;
  user_gap : nat -> Z;
  interleave : list (list Event) -> list Event;
  elapsed : Z
}.

(** The administrator's login, and the API once. A login without a timeout is
    not cut. *)
Definition administrate (args : Args) : Task (Result rstr unit) :=
  outcome <- login NotCut args (admin_user args) (admin_password args) ;;
  match outcome with
  | Some (Ok (cookie, _)) =>
      if negb (websocket_mode (mode args)) || full_api args
      then api_smoke args (csrf_of cookie) (full_api args) else ret (Ok tt)
  | Some (Err error) => ret (Err error)
  | None => ret (Err [])
  end.

Definition user_tasks (env : Environment) (args : Args) (u : nat) : list (list Event) :=
  let r := user_loop args u (user_gap env u) (user_outside env u) in trace r :: tasks r.

(** The updates of the counters during a run. *)
Definition run_trace (env : Environment) (args : Args) (users : nat) : list Event :=
  trace (administrate args (admin_outside env))
  ++ interleave env (concat (map (user_tasks env args) (List.seq 0 users))).

Definition run_once (env : Environment) (args : Args) (users : Z) : Result rstr Report :=
  match raise_nofile_limit (nofile_limit args) (limit_before env) (setrlimit env) (limit_after env) (os_error env) with
  | Err e => Err e
  | Ok _ =>
      match build env 0 with
      | Err e => Err e
      | Ok _ =>
          match value_of (administrate args (admin_outside env)) with
          | Err e => Err e
          | Ok _ =>
              match build env 1, build env 2 with
              | Err e, _ | _, Err e => Err e
              | Ok _, Ok _ =>
                  Ok (make_report args (metrics_after (run_trace env args (Z.to_nat users))) (Some users) (elapsed env))
              end
          end
      end
  end.
End Client.
