(* ===== verification/Accounting.v ===== *)
(** * The load generator: what a run reports

    Which counters each task of [Workload] touches, the life of a user as its
    updates tell it, and what a passing report means. The steady load is shown to
    make the requests its rate asks for, through every operation in turn. *)
From Stdlib Require Import String SpecFloat.
From S2P Require Export Workload.
From S2P Require Reference.
Open Scope Z_scope.

(** ** Interleavings *)

(** The tasks run concurrently, each in its own order. *)
Inductive interleaved {A} : list (list A) -> list A -> Prop :=
| interleaved_done ts : Forall (fun t => t = []) ts -> interleaved ts []
| interleaved_step before t after x l :
    interleaved (before ++ t :: after) l -> interleaved (before ++ (x :: t) :: after) (x :: l).

Lemma interleaved_permutation {A} (ts : list (list A)) l : interleaved ts l -> Permutation l (concat ts).
Proof.
  induction 1 as [ts Hts|before t after x l _ IH].
  - replace (concat ts) with (@nil A); [done|]. by induction Hts as [|t ts -> _ IH].
  - rewrite IH, !concat_app. simpl. apply Permutation_middle.
Qed.

Lemma concat_interleaved {A} (ts : list (list A)) : interleaved ts (concat ts).
Proof.
  enough (forall before, Forall (fun t => t = []) before -> interleaved (before ++ ts) (concat ts)) as H by by apply (H []).
  induction ts as [|t ts IH]; intros before Hb; simpl; [rewrite app_nil_r; by constructor|].
  induction t as [|x t IHt]; simpl; [|by constructor].
  rewrite cons_middle, app_assoc. apply IH. apply Forall_app. by repeat constructor.
Qed.

(** ** Which counters a task touches *)

(** The trace touches only the counters of [cs], and never takes away. *)
Definition only (cs : Counter -> bool) (l : list Event) : Prop :=
  Forall (fun e => match e with FetchAdd c n => 0 <= n /\ cs c = true | _ => True end) l.
Definition of_requests (c : Counter) : bool :=
  match c with requests | failures | auth_throttles | setup_failures | api_requests => true | _ => false end.
Definition of_traffic (c : Counter) : bool :=
  match c with messages | messages_acknowledged | realtime_failures => true | _ => false end.

Lemma only_app cs l l' : only cs (l ++ l') <-> only cs l /\ only cs l'.
Proof. apply Forall_app. Qed.
Lemma only_amounts cs l : only cs l -> amounts l.
Proof. intros H. eapply Forall_impl; [exact H|]. intros []; tauto. Qed.
Lemma only_tally cs l c : only cs l -> cs c = false -> tally c l = 0.
Proof.
  intros Hl Hc. induction Hl as [|[c' n| | |] l He _ IH]; simpl; try lia.
  destruct (decide _) as [->|]; [|lia]. destruct He as [_ He]. congruence.
Qed.
Lemma amounts_app l l' : amounts (l ++ l') <-> amounts l /\ amounts l'.
Proof. apply Forall_app. Qed.

(** The updates of a computation and of the tasks it spawned. *)
Definition whole {W A} (r : Ran W A) : list Event := trace r ++ concat (tasks r).

Section Touching.
Context {W : Type}.

Lemma whole_bind {A B} (m : Task W A) (k : A -> Task W B) w :
  Permutation (whole (bind m k w)) (whole (m w) ++ whole (k (value_of (m w)) (outside (m w)))).
Proof. unfold whole, bind. simpl. rewrite concat_app. solve_Permutation. Qed.

Lemma tally_bind {A B} (m : Task W A) (k : A -> Task W B) w c :
  tally c (whole (bind m k w))
  = tally c (whole (m w)) + tally c (whole (k (value_of (m w)) (outside (m w)))).
Proof. by rewrite (tally_permutation _ _ _ (whole_bind m k w)), tally_app. Qed.

Lemma amounts_bind {A B} (m : Task W A) (k : A -> Task W B) w :
  amounts (whole (m w)) -> amounts (whole (k (value_of (m w)) (outside (m w)))) -> amounts (whole (bind m k w)).
Proof. intros H H'. unfold amounts. rewrite whole_bind. by apply amounts_app. Qed.

Lemma whole_emit l (w : W) : whole (emit l w) = l.
Proof. apply app_nil_r. Qed.
Lemma whole_ask {A} (f : W -> A * W) w : whole (ask f w) = [].
Proof. unfold ask, whole. by destruct (f w). Qed.
Lemma whole_spawn out (t : Task W unit) w : whole (spawn out t w) = whole (t (fork out w).1).
Proof. unfold spawn, whole. by destruct (fork out w). Qed.

(** The value of a task tells what it adds to a counter. *)
Definition Adds {A} (c : Counter) (f : A -> Z) (t : Task W A) : Prop :=
  forall w, tally c (whole (t w)) = f (value_of (t w)).

Lemma adds_ret {A} c f (a : A) : f a = 0 -> Adds c f (ret a).
Proof. by intros H w. Qed.
Lemma adds_ask {A} c (f : W -> A * W) : Adds c (fun _ => 0) (ask f).
Proof. intros w. by rewrite whole_ask. Qed.
Lemma adds_emit c l : Adds c (fun _ => tally c l) (emit l).
Proof. intros w. by rewrite whole_emit. Qed.
Lemma adds_bind {A B} c f g (m : Task W A) (k : A -> Task W B) :
  Adds c g m -> (forall a, Adds c (fun b => f b - g a) (k a)) -> Adds c f (bind m k).
Proof. intros Hm Hk w. rewrite tally_bind, (Hm w), (Hk _ _). simpl. lia. Qed.
Lemma adds_ext {A} c f g (t : Task W A) : (forall a, f a = g a) -> Adds c g t -> Adds c f t.
Proof. intros H Ht w. by rewrite H. Qed.

(** Tasks that touch only some counters. *)
Definition Touches {A} (cs : Counter -> bool) (t : Task W A) : Prop := forall w, only cs (whole (t w)).

Lemma touches_ret {A} cs (a : A) : Touches cs (ret a).
Proof. intros w. constructor. Qed.
Lemma touches_bind {A B} cs (m : Task W A) (k : A -> Task W B) :
  Touches cs m -> (forall a, Touches cs (k a)) -> Touches cs (bind m k).
Proof. intros Hm Hk w. unfold only. rewrite whole_bind. apply only_app. split; [apply Hm|apply Hk]. Qed.
Lemma touches_emit cs l : only cs l -> Touches cs (emit l).
Proof. intros H w. by rewrite whole_emit. Qed.
Lemma touches_ask {A} cs (f : W -> A * W) : Touches cs (ask f).
Proof. intros w. rewrite whole_ask. constructor. Qed.
Lemma touches_try {X A B} cs (m : Task W (Result X A)) (k : A -> Task W (Result X B)) :
  Touches cs m -> (forall a, Touches cs (k a)) -> Touches cs (try m k).
Proof. intros Hm Hk. apply touches_bind; [done|]. intros [a|e]; [apply Hk|apply touches_ret]. Qed.
Lemma adds_untouched {A} cs c (t : Task W A) : Touches cs t -> cs c = false -> Adds c (fun _ => 0) t.
Proof. intros Ht Hc w. by eapply only_tally. Qed.
End Touching.

(** Runs through a task, down to what it returns and what it emits. *)
Ltac adding :=
  repeat first [apply adds_ret | (eapply adds_bind; [first [apply adds_ask | apply adds_emit]|])
    | match goal with |- forall _, _ => intros ? end | case_match].

Create HintDb task.
#[export] Hint Resolve touches_ret touches_bind touches_emit touches_ask touches_try : task.
Ltac only_updates := repeat constructor; done.
#[export] Hint Extern 2 (only _ _) => only_updates : task.
#[export] Hint Extern 1 (Touches _ (match ?x with _ => _ end)) => destruct x : task.
#[export] Hint Extern 1 (forall _, Touches _ _) => intros ? : task.
Ltac touches := eauto 20 with task.

Section Accounting.
Context {W : Type} (out : Outside W) {J : JsonText} {T : UuidText}.
Context (show_status : Z -> rstr) (keys_of : gmap rstr Z -> list rstr).

Lemma record_only name millis ok : only of_requests (record name millis ok).
Proof. destruct ok; only_updates. Qed.
Hint Resolve record_only : task.

Lemma request_touches method url body name csrf cookie :
  Touches of_requests (request_with_cookie out show_status method url body name csrf cookie).
Proof.
  unfold request_with_cookie. apply touches_bind; [touches|]. intros [response millis].
  apply touches_bind; [|touches]. apply touches_emit. destruct response as [reply|e]; [|only_updates].
  destruct (is_success _); only_updates.
Qed.
Hint Resolve request_touches : task.

Lemma call_touches root csrf method path body name :
  Touches of_requests (call out show_status root csrf method path body name).
Proof. apply request_touches. Qed.
Lemma call_all_touches root csrf l : Touches of_requests (call_all out show_status root csrf l).
Proof.
  induction l as [|c l IH]; simpl; [apply touches_ret|].
  apply touches_try; [apply call_touches|by intros _].
Qed.

Lemma smoke_touches args csrf mutate : Touches of_requests (api_smoke out show_status args csrf mutate).
Proof.
  unfold api_smoke, smoke_reads, smoke_mutations, smoke_channel, smoke_register, smoke_account,
    smoke_conversations, smoke_users, smoke_messages, request.
  repeat first [apply call_all_touches | apply call_touches | apply request_touches | apply touches_ret
    | apply touches_ask | apply touches_try | apply touches_bind | case_match
    | match goal with |- forall _, _ => intros ? end].
Qed.

Lemma workload_touches args cookie csrf u admin duration gap :
  Touches of_requests (run_api_workload out show_status args cookie csrf u admin duration gap).
Proof.
  unfold run_api_workload. destruct (rate_period _) as [period|]; [|touches].
  generalize (api_fuel (gap + distributed_phase period (Z.of_nat u)) duration period).
  generalize (gap + distributed_phase period (Z.of_nat u)). generalize 0%nat at 1.
  intros sequence next fuel. revert sequence next.
  induction fuel as [|fuel IH]; intros sequence next; simpl; [touches|].
  destruct (_ <? _); [|touches]. destruct (operation_at _ _ _) as [[path name]|]; touches.
Qed.

(** ** What a user does to the counters *)

Definition of_login (c : Counter) : bool := match c with auth_successes => true | _ => of_requests c end.
Definition of_socket (c : Counter) : bool :=
  match c with ws_attempts | ws_connected | ws_failures | setup_failures | realtime_failures => true | _ => false end.

Lemma only_weaken cs cs' l : (forall c, cs c = true -> cs' c = true) -> only cs l -> only cs' l.
Proof. intros H Hl. eapply Forall_impl; [exact Hl|]. intros []; naive_solver. Qed.

Ltac touching :=
  repeat first [apply touches_ret | apply touches_ask | apply touches_emit | apply touches_bind | case_match
    | match goal with |- forall _, _ => intros ? end].

Lemma record_login name millis ok : only of_login (record name millis ok).
Proof. eapply only_weaken; [|apply record_only]. by intros []. Qed.

Lemma login_touches cut_short args username password :
  Touches of_login (login out show_status cut_short args username password).
Proof. unfold login. touching; (apply record_login || only_updates). Qed.

Lemma tally_record name millis ok c : of_requests c = false -> tally c (record name millis ok) = 0.
Proof. apply only_tally, record_only. Qed.

(** A login counts as a success exactly when it yields a cookie. *)
Lemma login_adds cut_short args username password :
  Adds auth_successes (fun r => match r with Some (Ok _) => 1 | _ => 0 end)
    (login out show_status cut_short args username password).
Proof.
  unfold login. adding; rewrite ?tally_record; done.
Qed.

Lemma authenticate_touches attempts attempt args username :
  Touches of_login (authenticate out show_status attempts attempt args username).
Proof.
  revert attempt. induction attempts as [|attempts IH]; intros attempt; cbn [authenticate]; [apply touches_ret|].
  repeat first [apply IH | apply login_touches | apply touches_ret | apply touches_ask | apply touches_bind | case_match
    | match goal with |- forall _, _ => intros ? end].
Qed.

Lemma authenticate_adds attempts attempt args username :
  Adds auth_successes (fun r => match r with Some _ => 1 | None => 0 end)
    (authenticate out show_status attempts attempt args username).
Proof.
  revert attempt. induction attempts as [|attempts IH]; intros attempt; cbn [authenticate]; [by apply adds_ret|].
  eapply adds_bind; [apply adds_ask|]. intros []; [by apply adds_ret|].
  eapply adds_bind; [apply adds_ask|]. intros cut_short.
  eapply adds_bind; [apply login_adds|]. intros [[[cookie id]|e]|]; [by apply adds_ret| |by apply adds_ret].
  destruct (_ && _); [|by apply adds_ret].
  eapply adds_ext; [|apply IH]. intros a. simpl. lia.
Qed.

Definition of_realtime (c : Counter) : bool := match c with realtime_failures => true | _ => false end.
Lemma realtime_error_only cs error : cs realtime_failures = true -> only cs (record_realtime_error error).
Proof. intros H. repeat constructor; done. Qed.

Lemma frame_idle message now : only of_realtime (record_socket_frame keys_of message now None).1.
Proof.
  unfold record_socket_frame. destruct message as [text| |]; [|constructor|constructor].
  destruct (starts_with _ _); [|constructor]. destruct (json_from_str text); [|constructor].
  by apply realtime_error_only.
Qed.
Lemma frames_idle l : only of_realtime (concat (map (fun m => (record_socket_frame keys_of m 0 None).1) l)).
Proof. induction l as [|m l IH]; simpl; [constructor|]. apply only_app. split; [apply frame_idle|done]. Qed.

(** Every acknowledgement takes one message off the pending ones. *)
Lemma frame_waiting message now p :
  let '(events, pending) := record_socket_frame keys_of message now (Some p) in
  exists q, pending = Some q /\ q ⊆ p /\ only of_traffic events /\ tally messages events = 0
    /\ tally messages_acknowledged events + Z.of_nat (size q) = Z.of_nat (size p).
Proof.
  unfold record_socket_frame. destruct message as [text| |]; try (by exists p; split_and!; try constructor).
  destruct (starts_with _ _).
  { exists p. split; [done|]. split; [done|]. destruct (json_from_str text) as [event|].
    - split; [by apply realtime_error_only|done].
    - split; [constructor|done]. }
  destruct (List.find _ _) as [marker|]; [|by exists p; split_and!; try constructor].
  destruct (p !! marker) as [started|] eqn:E; [|by exists p; split_and!; try constructor].
  exists (delete marker p). split; [done|]. split; [apply delete_subseteq|]. split; [only_updates|].
  split; [done|]. rewrite map_size_delete_Some by (by eexists).
  assert (size p <> 0%nat) by (intros H; apply map_size_empty_inv in H; by rewrite H in E). simpl. lia.
Qed.

Lemma acknowledgements_tally l p :
  let '(events, q, _) := acknowledgements keys_of l p in
  only of_traffic events /\ tally messages events = 0
  /\ tally messages_acknowledged events + Z.of_nat (size q) = Z.of_nat (size p).
Proof.
  revert p. induction l as [|turn l IH]; intros p; simpl; destruct (decide (p = ∅)); try (by split; [constructor|]).
  destruct turn as [message now|error|]; try (by split; [apply realtime_error_only|]).
  pose proof (frame_waiting message now p) as Hf. destruct (record_socket_frame _ _ _ _) as [events pending].
  destruct Hf as (q & -> & _ & Ho & Hm & Ha). specialize (IH q). simpl.
  destruct (acknowledgements _ _ _) as [[events' q'] connected]. destruct IH as (Ho' & Hm' & Ha').
  rewrite !tally_app. split; [by apply only_app|]. lia.
Qed.

(** The identifiers of the messages a user sends. *)
Definition uuids (l : list Turn) : list rstr :=
  omap (fun turn => match turn with MessageTick uuid _ _ => Some uuid | _ => None end) l.
Definition marker_of (u : nat) (uuid : rstr) : rstr := rs "bench:" ++ decimal (Z.of_nat u) ++ rs ":" ++ uuid.

Lemma traffic_tally args u l p :
  NoDup (uuids l) -> (forall uuid, uuid ∈ uuids l -> p !! marker_of u uuid = None) ->
  let '(events, q, _) := traffic keys_of args u l p in
  only of_traffic events
  /\ tally messages events + Z.of_nat (size p) = tally messages_acknowledged events + Z.of_nat (size q).
Proof.
  revert p. induction l as [|turn l IH]; intros p Hnd Hp; [by split; [constructor|]|].
  destruct turn as [message now|error| |sent|uuid started sent]; cbn [traffic uuids omap list_omap] in *.
  - pose proof (frame_waiting message now p) as Hf. destruct (record_socket_frame _ _ _ _) as [events pending] eqn:Ef.
    destruct message as [text| |]; [|by split; [apply realtime_error_only|]|];
      destruct Hf as (q & -> & Hq & Ho & Hm & Ha); cbn [default];
      (specialize (IH q Hnd); destruct (traffic _ _ _ _ _) as [[events' q'] connected];
       destruct IH as [Ho' Ht]; [intros uuid Hin; by eapply lookup_weaken_None; [apply Hp|]|];
       rewrite !tally_app; split; [by apply only_app|lia]).
  - by split; [apply realtime_error_only|].
  - by split; [apply realtime_error_only|].
  - destruct sent; [|by split; [apply realtime_error_only|]].
    specialize (IH p Hnd Hp). by destruct (traffic _ _ _ _ _) as [[events' q'] connected].
  - apply NoDup_cons in Hnd as [Hnew Hnd]. destruct (flt _ _).
    + destruct sent; [|by split; [apply realtime_error_only|]].
      specialize (IH (<[marker_of u uuid := started]> p) Hnd). unfold marker_of in IH.
      destruct (traffic _ _ _ _ _) as [[events' q'] connected]. destruct IH as [Ho Ht].
      { intros uuid' Hin. rewrite lookup_insert_ne; [apply Hp; set_solver|].
        intros E. apply app_inv_head, app_inv_head, app_inv_head in E. by subst. }
      split; [by apply only_app; split; [only_updates|]|].
      rewrite map_size_insert_None in Ht by (apply (Hp uuid); set_solver). rewrite !tally_app.
      change (tally messages [FetchAdd messages 1]) with 1.
      change (tally messages_acknowledged [FetchAdd messages 1]) with 0. lia.
    + specialize (IH p Hnd). destruct (traffic _ _ _ _ _) as [[events' q'] connected].
      destruct IH as [Ho Ht]; [intros; apply Hp; set_solver|]. by split.
Qed.

Lemma missing_tally p :
  only of_traffic (missing_acknowledgements p) /\ tally messages (missing_acknowledgements p) = 0
  /\ tally messages_acknowledged (missing_acknowledgements p) = 0
  /\ tally realtime_failures (missing_acknowledgements p) = Z.of_nat (size p).
Proof.
  unfold missing_acknowledgements. destruct (decide (p = ∅)) as [->|].
  - split; [constructor|]. by rewrite map_size_empty.
  - split; [repeat constructor; lia|]. simpl. lia.
Qed.

Lemma open_socket_touches args cookie : Touches of_socket (open_socket out keys_of args cookie).
Proof.
  unfold open_socket. touching; try only_updates.
  eapply only_weaken; [|apply frames_idle]. by intros [].
Qed.
Lemma open_socket_adds args cookie c :
  c <> realtime_failures ->
  Adds c (fun connected => (if decide (c = ws_attempts) then 1 else 0)
            + (if connected : bool then (if decide (c = ws_connected) then 1 else 0)
               else (if decide (c = ws_failures) then 1 else 0) + (if decide (c = setup_failures) then 1 else 0)))
    (open_socket out keys_of args cookie).
Proof.
  intros Hc. unfold open_socket. adding; rewrite ?(only_tally _ _ c (frames_idle _)) by (by destruct c);
    by destruct c.
Qed.

Section User.
Context (fresh : forall w, NoDup (uuids (turns out w).1)).

(** The messages sent and not acknowledged are counted as failures. *)
Lemma socket_traffic_tally args u w :
  let l := whole (socket_traffic out keys_of args u w) in
  only of_traffic l /\ 0 <= tally messages l - tally messages_acknowledged l <= tally realtime_failures l.
Proof.
  cbv zeta. unfold socket_traffic, bind, ask, emit, whole.
  pose proof (fresh w) as Hnd. destruct (turns out w) as [l w1]. cbn [fst] in Hnd.
  pose proof (traffic_tally args u l ∅ Hnd (fun _ _ => lookup_empty _)) as Ht.
  cbn [trace tasks value_of outside app concat]. destruct (traffic _ _ _ _ _) as [[events p] connected].
  cbn [trace tasks value_of outside app concat]. destruct (ack_turns out w1) as [l' w2].
  cbn [trace tasks value_of outside app concat]. destruct Ht as [Ho Ht].
  assert (exists events' q b, (if connected then acknowledgements keys_of l' p else ([], p, false)) = (events', q, b)
    /\ only of_traffic events' /\ tally messages events' = 0
    /\ tally messages_acknowledged events' + Z.of_nat (size q) = Z.of_nat (size p)) as (events' & q & b & -> & Ho' & Hm' & Ha').
  { destruct connected; [|by exists [], p, false; split_and!; try constructor].
    pose proof (acknowledgements_tally l' p) as Ha.
    destruct (acknowledgements _ _ _) as [[events' q] b]. by exists events', q, b. }
  destruct (missing_tally q) as (Ho'' & Hm'' & Ha'' & Hr'').
  cbn [trace tasks value_of outside app concat]. rewrite !app_nil_r, !tally_app, map_size_empty in *.
  pose proof (tally_nonneg realtime_failures _ (only_amounts _ _ Ho)).
  pose proof (tally_nonneg realtime_failures _ (only_amounts _ _ Ho')).
  split; [by rewrite !only_app|]. lia.
Qed.

(** What the trace of one user, its tasks included, tells. *)
Record Accounted (m : Mode) (l : list Event) : Prop := {
  acc_amounts : amounts l;
  acc_login : tally auth_successes l <= 1;
  acc_attempts : websocket_mode m = true -> tally ws_attempts l = tally auth_successes l;
  acc_connected : tally ws_connected l <= 1;
  acc_messages : 0 <= tally messages l - tally messages_acknowledged l <= tally realtime_failures l
}.

(** A user's updates are its logins, and what follows one that succeeded: a
    socket, and once the gate has opened its frames and the API requests, or
    those requests alone. *)
Inductive Lived (m : Mode) : list Event -> Prop :=
| lived_outside login late :
    only of_login login -> tally auth_successes login = 0 -> only of_requests late -> Lived m (login ++ late)
| lived_rest login load :
    websocket_mode m = false ->
    only of_login login -> tally auth_successes login = 1 -> only of_requests load -> Lived m (login ++ load)
| lived_socket login opening connected frames load :
    websocket_mode m = true ->
    only of_login login -> tally auth_successes login = 1 ->
    only of_socket opening -> tally ws_attempts opening = 1 -> tally ws_connected opening = connected ->
    0 <= connected <= 1 ->
    only of_traffic frames -> 0 <= tally messages frames - tally messages_acknowledged frames <= tally realtime_failures frames ->
    only of_requests load ->
    Lived m (login ++ opening ++ frames ++ load).

(** Up to the order of the updates. *)
Definition Lives (m : Mode) (l : list Event) : Prop := exists l', Permutation l l' /\ Lived m l'.
#[local] Instance lives_proper m : Proper (Permutation ==> iff) (Lives m).
Proof.
  intros a b Hab. split; intros (l' & Hp & Hl); exists l'; (split; [|done]); by rewrite <- Hp, Hab.
Qed.
Lemma lives_intro m l : Lived m l -> Lives m l.
Proof. by exists l. Qed.

Lemma user_loop_lives args u gap w :
  Lives (mode args) (whole (user_loop out show_status keys_of args u gap w)).
Proof.
  unfold user_loop. rewrite whole_bind, whole_ask. cbn [app].
  generalize (value_of (ask (late out) w)) (outside (ask (late out) w)). clear w. intros too_late w.
  destruct too_late; [rewrite whole_emit; apply lives_intro, (lived_outside _ [] _); only_updates|].
  rewrite whole_bind. set (username := user_name u).
  pose proof (authenticate_touches 5 0 args username w) as Hla.
  pose proof (authenticate_adds 5 0 args username w) as Hta.
  destruct (authenticate _ _ 5 0 args username w) as [tr ts [cookie|] w1]; cbn [value_of outside] in *.
  2: { rewrite whole_emit. apply lives_intro, lived_outside; by only_updates. }
  set (login := whole _) in *. clearbody login. set (load := run_api_workload _ _ _ _ _ _ _ _ _).
  assert (forall w, only of_requests (whole (load w))) as Hload by (intros w'; apply workload_touches).
  clearbody load. destruct (websocket_mode (mode args)) eqn:Ews; [|by apply lives_intro, lived_rest].
  rewrite whole_bind. pose proof (open_socket_touches args cookie w1) as Hso.
  pose proof (open_socket_adds args cookie ws_attempts ltac:(done) w1) as Hat.
  pose proof (open_socket_adds args cookie ws_connected ltac:(done) w1) as Hco.
  destruct (open_socket _ _ args cookie w1) as [tr' ts' connected w2]; cbn [value_of outside] in *.
  set (opening := whole _) in *. clearbody opening. cbn in Hat, Hco.
  destruct connected.
  2: { rewrite <- (app_nil_r opening), <- app_assoc. apply lives_intro.
       apply (lived_socket _ login opening 0 [] []); try done; constructor. }
  rewrite whole_bind. set (side := match mode args with Mixed => spawn out load | _ => ret tt end).
  assert (only of_requests (whole (side w2))) as Hsp.
  { unfold side. destruct (mode args); try constructor. rewrite whole_spawn. apply Hload. }
  set (spawned := whole (side w2)) in *. clearbody spawned.
  destruct (socket_traffic_tally args u (outside (side w2))) as [Ht Hm].
  set (frames := whole _) in *. clearbody frames.
  rewrite (Permutation_app_comm spawned frames). apply lives_intro.
  by apply (lived_socket _ login opening 1 frames spawned).
Qed.

Lemma lived_accounted m l : Lived m l -> Accounted m l.
Proof.
  destruct 1 as [login late Hl Ha Hr|login load Hws Hl Ha Hr|login opening connected frames load Hws Hl Ha Ho Hat Hco Hc Ht Hm Hr];
    split; rewrite ?tally_app; try (match goal with |- websocket_mode _ = true -> _ => intros Hw end).
  all: try (unfold amounts; rewrite !Forall_app; repeat split; by eapply only_amounts).
  all: try pose proof (tally_nonneg realtime_failures _ (only_amounts _ _ Ho)).
  all: repeat match goal with
    | H : only ?cs ?x |- context [tally ?c ?x] => rewrite (only_tally cs x c H) by done
    end; (lia || congruence).
Qed.

Lemma user_accounted args u gap w :
  Accounted (mode args) (whole (user_loop out show_status keys_of args u gap w)).
Proof.
  destruct (user_loop_lives args u gap w) as (l & Hp & [Ha H1 H2 H3 H4]%lived_accounted).
  split; rewrite ?(tally_permutation _ _ _ Hp); try done. unfold amounts. by rewrite Hp.
Qed.
End User.

(** ** What was really answered

    The counters are the program's own; these definitions speak of the outside
    alone, of what it answered in the states one user met, one after the other. *)

Definition login_request (args : Args) (username : rstr) : HttpRequest :=
  mkHttpRequest POST (root_url args ++ rs "/api/v1/auth/login")
    (Some (JObj [(rs "email", JStr (username ++ rs "@example.com")); (rs "password", JStr username)])) [].
(** The cookies and the token a reply sets, as they are sent back. *)
Definition reply_cookie (reply : HttpReply) : rstr :=
  join (rs "; ") (map (fun v => hd v (split_on (fun c => c =? 59) v)) (header_all (reply_headers reply) (rs "set-cookie")))
  ++ rs "; x-csrf-token=" ++ default [] (header_str (reply_headers reply) (rs "x-csrf-token")).

(** Logins that were tried in time, whatever was answered. *)
Inductive LoginTries (args : Args) (username : rstr) : W -> W -> Prop :=
| tries_none w : LoginTries args username w w
| tries_more w w1 w2 w3 w' c answer ms :
    late out w = (false, w1) -> cut out w1 = (c, w2) ->
    http out (login_request args username) w2 = (answer, ms, w3) ->
    LoginTries args username w3 w' -> LoginTries args username w w'.

(** The last of them was answered with a status of success and an identity. *)
Definition LoggedIn (args : Args) (username : rstr) (w : W) (cookie : rstr) (w' : W) : Prop :=
  exists w0 w1 w2 c reply ms id, LoginTries args username w w0
    /\ late out w0 = (false, w1) /\ cut out w1 = (c, w2)
    /\ http out (login_request args username) w2 = (Ok reply, ms, w')
    /\ is_success (reply_status reply) = true /\ auth_response (default JNull (reply_body reply)) = Some id
    /\ cookie = reply_cookie reply.

(** A frame that acknowledges a message carries its marker and is no error. *)
Definition acknowledges (marker : rstr) (m : Message) : Prop :=
  exists text, m = TextFrame text /\ starts_with error_frame_start text = false /\ str_contains marker text = true.

(** A turn in which the socket did what it was asked to. *)
Definition sound_turn (args : Args) (turn : Turn) : Prop :=
  match turn with
  | Read CloseFrame _ | ReadError _ | ReadEnd | HeartbeatTick (Err _) => False
  | Read (TextFrame text) _ => starts_with error_frame_start text = true -> json_from_str text = None
  | MessageTick _ _ (Err _) => flt (S754_zero false) (message_rate args) = false
  | _ => True
  end.

(** Every message sent was acknowledged by a frame that was read later. *)
Definition all_acknowledged (args : Args) (u : nat) (l : list Turn) (l' : list AckTurn) : Prop :=
  forall before uuid started after, l = before ++ MessageTick uuid started (Ok tt) :: after ->
    flt (S754_zero false) (message_rate args) = true ->
    exists m now, acknowledges (marker_of u uuid) m /\ (In (Read m now) after \/ In (AckRead m now) l').

(** A user was logged in and, in a run with sockets, connected through the gate;
    its socket had no trouble, and its messages were acknowledged. *)
Definition Served (args : Args) (u : nat) (w : W) : Prop :=
  exists w0 cookie w1, late out w = (false, w0) /\ LoggedIn args (user_name u) w0 cookie w1
    /\ (websocket_mode (mode args) = true ->
          exists w2 frames w3 w4 l w5 l' w6, connect out (ws_url args) cookie w1 = (SocketOpen, w2)
            /\ setup_turns out w2 = (frames, GateReleased, w3)
            /\ w4 = match mode args with Mixed => (fork out w3).2 | _ => w3 end
            /\ turns out w4 = (l, w5) /\ ack_turns out w5 = (l', w6)
            /\ Forall (sound_turn args) l /\ all_acknowledged args u l l').

(** What a task returns, and the outside it leaves. *)
Definition outcome {A} (r : Ran W A) : A * W := (value_of r, outside r).
Lemma outcome_bind {A B} (m : Task W A) (k : A -> Task W B) w b w' :
  outcome (bind m k w) = (b, w') -> exists a w1, outcome (m w) = (a, w1) /\ outcome (k a w1) = (b, w').
Proof. intros H. by exists (value_of (m w)), (outside (m w)). Qed.
Lemma outcome_ask {A} (f : W -> A * W) w : outcome (ask f w) = f w.
Proof. unfold ask. by destruct (f w). Qed.
Lemma outcome_spawn (t : Task W unit) w : outcome (spawn out t w) = (tt, (fork out w).2).
Proof. unfold spawn. by destruct (fork out w). Qed.

(** Takes the next question of a task from its run. *)
Ltac asks H x E :=
  let w := fresh "w" in
  apply outcome_bind in H as (x & w & E & H); rewrite outcome_ask in E.

Lemma login_outcome cut_short args username w r w' :
  outcome (login out show_status cut_short args username username w) = (r, w') ->
  exists answer ms, http out (login_request args username) w = (answer, ms, w')
    /\ forall cookie id, r = Some (Ok (cookie, id)) ->
         exists reply, answer = Ok reply /\ is_success (reply_status reply) = true
           /\ auth_response (default JNull (reply_body reply)) = Some id /\ cookie = reply_cookie reply.
Proof.
  unfold login. intros H. asks H answer E. destruct answer as [response ms]. exists response, ms.
  destruct cut_short; [|by injection H as <- <-|]; (destruct response as [reply|e]; [|by injection H as <- <-]);
    apply outcome_bind in H as ([] & w1 & [= <-] & H); [|by injection H as <- <-].
  apply outcome_bind in H as ([] & w2 & [= <-] & H).
  destruct (is_success (reply_status reply)) eqn:Es.
  2:{ do 2 apply outcome_bind in H as ([] & ? & [= <-] & H). by injection H as <- <-. }
  destruct (auth_response _) as [i|] eqn:Ei;
    do 2 apply outcome_bind in H as ([] & ? & [= <-] & H); injection H as <- <-; [|done].
  split; [exact E|]. intros cookie id [= <- <-]. by exists reply.
Qed.

Lemma authenticate_outcome attempts attempt args username w cookie w' :
  outcome (authenticate out show_status attempts attempt args username w) = (Some cookie, w') ->
  LoggedIn args username w cookie w'.
Proof.
  revert attempt w. induction attempts as [|attempts IH]; intros attempt w H; [done|]. cbn [authenticate] in H.
  asks H no_time El. destruct no_time; [done|]. asks H c Ec.
  apply outcome_bind in H as (r & w2 & Hl & H).
  apply login_outcome in Hl as (answer & ms & Hh & Hr).
  destruct r as [[[cookie' id]|e]|]; [| |done].
  - injection H as <- <-. destruct (Hr _ _ eq_refl) as (reply & -> & Hs & Hi & ->).
    exists w, w0, w1, c, reply, ms, id. split; [constructor|done].
  - destruct (_ && _); [|done]. apply IH in H as (v0 & v1 & v2 & c' & reply & ms' & id & Ht & H).
    exists v0, v1, v2, c', reply, ms', id. split; [by eapply tries_more|exact H].
Qed.

Lemma open_socket_outcome args cookie w w' :
  outcome (open_socket out keys_of args cookie w) = (true, w') ->
  exists w1 frames, connect out (ws_url args) cookie w = (SocketOpen, w1)
    /\ setup_turns out w1 = (frames, GateReleased, w').
Proof.
  unfold open_socket. intros H. apply outcome_bind in H as ([] & w1 & [= <-] & H).
  asks H opened E. destruct opened; [|by apply outcome_bind in H as ([] & ? & _ & H)..].
  asks H phase E2. destruct phase as [frames ending]. apply outcome_bind in H as ([] & w2 & [= <-] & H).
  destruct ending; apply outcome_bind in H as ([] & w3 & [= <-] & H); [|done..]. injection H as <-.
  by exists w0, frames.
Qed.

(** A frame takes a message off the pending ones only when it acknowledges it. *)
Lemma frame_acks message now p :
  let '(events, pending) := record_socket_frame keys_of message now (Some p) in
  exists q, pending = Some q /\ (forall m, is_Some (p !! m) -> is_Some (q !! m) \/ acknowledges m message)
    /\ 0 <= tally realtime_failures events
    /\ (tally realtime_failures events = 0 -> forall text, message = TextFrame text ->
          starts_with error_frame_start text = true -> json_from_str text = None).
Proof.
  unfold record_socket_frame. destruct message as [text| |]; try (by exists p; split_and!; auto).
  destruct (starts_with error_frame_start text) eqn:Es.
  { exists p. split; [done|]. split; [auto|]. destruct (json_from_str text) as [event|] eqn:Ej; [split; [done|]|split; [done|]].
    - intros H. discriminate H.
    - intros _ ? [= <-] _. exact Ej. }
  assert (forall text0, TextFrame text = TextFrame text0 -> starts_with error_frame_start text0 = true ->
    json_from_str text0 = None) as Hno by (intros ? [= <-]; congruence).
  destruct (List.find _ _) as [marker|] eqn:Ef; [|by exists p; split_and!; auto].
  destruct (p !! marker) as [started|] eqn:E; [|by exists p; split_and!; auto].
  exists (delete marker p). split; [done|]. split; [|by split].
  intros m Hm. destruct (decide (m = marker)) as [->|Hne]; [right|left; by rewrite lookup_delete_ne].
  apply find_some in Ef as [_ Hc]. by exists text.
Qed.

Definition read_later (m : rstr) (l : list Turn) : Prop :=
  exists message now, acknowledges m message /\ In (Read message now) l.
Lemma read_later_cons m turn l : read_later m l -> read_later m (turn :: l).
Proof. intros (message & now & Ha & Hin). exists message, now. split; [done|by right]. Qed.

(** Traffic that counts no failure had none, and leaves pending what was not
    acknowledged. *)
Definition traffic_clear (args : Args) (u : nat) (l : list Turn) (p q : gmap rstr Z) (connected : bool) : Prop :=
  connected = true /\ Forall (sound_turn args) l
  /\ (forall m, is_Some (p !! m) -> is_Some (q !! m) \/ read_later m l)
  /\ (forall before uuid started after, l = before ++ MessageTick uuid started (Ok tt) :: after ->
        flt (S754_zero false) (message_rate args) = true ->
        is_Some (q !! marker_of u uuid) \/ read_later (marker_of u uuid) after).

Lemma traffic_clear_cons args u turn l p p' q connected :
  traffic_clear args u l p' q connected -> sound_turn args turn ->
  (forall m, is_Some (p !! m) -> is_Some (p' !! m) \/ read_later m (turn :: l)) ->
  (forall uuid started, turn = MessageTick uuid started (Ok tt) ->
     flt (S754_zero false) (message_rate args) = true -> is_Some (p' !! marker_of u uuid)) ->
  traffic_clear args u (turn :: l) p q connected.
Proof.
  intros (-> & Hl & Hp & Hs) Ht Hp' Hs'. split; [done|]. split; [by constructor|]. split.
  - intros m [Hm|Hm]%Hp'; [|by right]. destruct (Hp m Hm); [by left|right; by apply read_later_cons].
  - intros [|t before] uuid started after [= Et El] Hr; [subst|by eapply Hs].
    by apply Hp, (Hs' uuid started).
Qed.

Lemma traffic_sound args u l p :
  let '(events, q, connected) := traffic keys_of args u l p in
  0 <= tally realtime_failures events
  /\ (tally realtime_failures events = 0 -> traffic_clear args u l p q connected).
Proof.
  revert p. induction l as [|turn l IH]; intros p.
  { split; [done|]. intros _. split; [done|]. split; [constructor|]. split; [by left|]. by intros [|? ?]. }
  destruct turn as [message now|error| |sent|uuid started sent]; cbn [traffic]; try by split.
  - pose proof (frame_acks message now p) as Hf. destruct (record_socket_frame _ _ _ _) as [events pending].
    destruct Hf as (p' & -> & Hp & Hpos & Hs).
    destruct message as [text| |]; [|by split|]; specialize (IH p'); cbn [default];
      (destruct (traffic _ _ _ _ _) as [[events' q] connected]; destruct IH as [Hpos' IH];
       rewrite tally_app; split; [lia|]; intros H0; assert (tally realtime_failures events = 0) as H1 by lia;
       apply (traffic_clear_cons _ _ _ _ p p'); [apply IH; lia| | |done]).
    2,4: intros m [Hm|Hm]%Hp; [by left|right; eexists _, now; split; [exact Hm|by left]].
    + simpl. intros He. by apply (Hs H1 text).
    + done.
  - destruct sent as [[]|]; [|by split]. specialize (IH p).
    destruct (traffic _ _ _ _ _) as [[events' q] connected]. destruct IH as [Hpos IH]. split; [done|].
    intros H0. apply (traffic_clear_cons _ _ _ _ p p); [by apply IH|done|by left|done].
  - destruct (flt _ _) eqn:Er.
    + destruct sent as [[]|]; [|by split]. specialize (IH (<[marker_of u uuid := started]> p)). unfold marker_of in IH.
      destruct (traffic _ _ _ _ _) as [[events' q] connected]. destruct IH as [Hpos IH]. split; [exact Hpos|].
      intros H0. eapply traffic_clear_cons; [apply IH; exact H0|done| |].
      * intros m Hm. left. destruct (decide (m = marker_of u uuid)) as [->|Hne]; [by rewrite lookup_insert_eq|].
        by rewrite lookup_insert_ne.
      * intros ? ? [= <- <-] _. fold (marker_of u uuid). by rewrite lookup_insert_eq.
    + specialize (IH p). destruct (traffic _ _ _ _ _) as [[events' q] connected]. destruct IH as [Hpos IH].
      split; [done|]. intros H0. apply (traffic_clear_cons _ _ _ _ p p); [by apply IH|by destruct sent|by left|].
      intros ? ? _ Hr. congruence.
Qed.

Lemma acknowledgements_sound l p :
  let '(events, q, _) := acknowledgements keys_of l p in
  0 <= tally realtime_failures events
  /\ forall m, is_Some (p !! m) -> is_Some (q !! m)
       \/ exists message now, acknowledges m message /\ In (AckRead message now) l.
Proof.
  revert p. induction l as [|turn l IH]; intros p; simpl; destruct (decide (p = ∅)); try (by split; [|auto]).
  destruct turn as [message now|error|]; try (by split; [|auto]).
  pose proof (frame_acks message now p) as Hf. destruct (record_socket_frame _ _ _ _) as [events pending].
  destruct Hf as (q & -> & Hp & Hpos & _). specialize (IH q). cbn [default].
  destruct (acknowledgements _ _ _) as [[events' q'] connected]. destruct IH as [Hpos' IH].
  rewrite tally_app. split; [lia|]. intros m [Hm|Hm]%Hp.
  - destruct (IH m Hm) as [?|(message' & now' & Ha & Hin)]; [by left|right]. exists message', now'. auto.
  - right. exists message, now. auto.
Qed.

Lemma tally_bind_ask {A B} c (f : W -> A * W) (k : A -> Task W B) w :
  tally c (whole (bind (ask f) k w)) = tally c (whole (k (f w).1 (f w).2)).
Proof. rewrite tally_bind, whole_ask. unfold ask. by destruct (f w). Qed.
Lemma tally_bind_emit {B} c l (k : unit -> Task W B) w :
  tally c (whole (bind (emit l) k w)) = tally c l + tally c (whole (k tt w)).
Proof. by rewrite tally_bind, whole_emit. Qed.

(** A socket that counts no failure in real time had its messages acknowledged. *)
Lemma socket_traffic_sound args u w :
  tally realtime_failures (whole (socket_traffic out keys_of args u w)) = 0 ->
  exists l w1 l' w2, turns out w = (l, w1) /\ ack_turns out w1 = (l', w2)
    /\ Forall (sound_turn args) l /\ all_acknowledged args u l l'.
Proof.
  unfold socket_traffic. rewrite tally_bind_ask. destruct (turns out w) as [l w1] eqn:El. cbn [fst snd].
  pose proof (traffic_sound args u l ∅) as Ht. destruct (traffic _ _ _ _ _) as [[events p] connected].
  destruct Ht as [Hpos Ht]. rewrite tally_bind_emit, tally_bind_ask.
  destruct (ack_turns out w1) as [l' w2] eqn:El'. cbn [fst snd].
  assert (exists events' q b, (if connected then acknowledgements keys_of l' p else ([], p, false)) = (events', q, b)
    /\ 0 <= tally realtime_failures events' /\ forall m, is_Some (p !! m) -> is_Some (q !! m)
       \/ exists message now, acknowledges m message /\ In (AckRead message now) l') as (events' & q & b & -> & Hpos' & Ha).
  { destruct connected; [|by exists [], p, false; split_and!; auto].
    pose proof (acknowledgements_sound l' p) as Ha.
    destruct (acknowledgements _ _ _) as [[events' q] b]. by exists events', q, b. }
  destruct (missing_tally q) as (_ & _ & _ & Hm).
  rewrite tally_bind_emit, whole_emit, Hm. intros H0.
  assert (q = ∅) as -> by (apply map_size_empty_inv; lia).
  destruct Ht as (_ & Hl & _ & Hs); [lia|]. exists l, w1, l', w2. split; [done|]. split; [done|]. split; [done|].
  intros before uuid started after E Hr. destruct (Hs before uuid started after E Hr) as [Hp|(m & now & ? & ?)].
  - destruct (Ha _ Hp) as [Hq|(m & now & ? & ?)]; [rewrite lookup_empty in Hq; by destruct Hq|].
    exists m, now. auto.
  - exists m, now. auto.
Qed.

(** The counters of a user tell that it was served. *)
Lemma user_loop_served args u gap w (fresh : forall w, NoDup (uuids (turns out w).1)) :
  let l := whole (user_loop out show_status keys_of args u gap w) in
  tally auth_successes l = 1 -> (websocket_mode (mode args) = true -> tally ws_connected l = 1) ->
  tally realtime_failures l = 0 -> Served args u w.
Proof.
  cbv zeta. unfold user_loop. rewrite !tally_bind_ask. destruct (late out w) as [too_late w0] eqn:El.
  cbn [fst snd]. destruct too_late; [rewrite whole_emit; done|]. rewrite !tally_bind.
  rewrite (authenticate_adds 5 0 args (user_name u) w0).
  pose proof (authenticate_touches 5 0 args (user_name u) w0) as Hat.
  rewrite !(only_tally of_login _ _ Hat) by done. clear Hat.
  pose proof (authenticate_outcome 5 0 args (user_name u) w0) as Ha. unfold outcome in Ha.
  destruct (authenticate _ _ 5 0 args (user_name u) w0) as [tr ts [cookie|] w1]; cbn [value_of outside] in *.
  2: { rewrite !whole_emit. done. }
  specialize (Ha cookie w1 eq_refl). set (load := run_api_workload _ _ _ _ _ _ _ _ _). intros _ Hc Hr.
  exists w0, cookie, w1. split; [done|]. split; [done|]. intros Hws. specialize (Hc Hws). rewrite Hws in Hc, Hr.
  rewrite tally_bind in Hc, Hr. pose proof (open_socket_adds args cookie ws_connected ltac:(done) w1) as Hco.
  pose proof (tally_nonneg realtime_failures _ (only_amounts _ _ (open_socket_touches args cookie w1))) as Hpos.
  pose proof (open_socket_outcome args cookie w1) as Ho. unfold outcome in Ho.
  destruct (open_socket _ _ args cookie w1) as [tr' ts' connected w3]; cbn [value_of outside] in *. rewrite Hco in Hc.
  destruct connected; [|discriminate Hc]. destruct (Ho w3 eq_refl) as (w2 & frames & Hcon & Hset).
  set (side := match mode args with Mixed => spawn out load | _ => ret tt end) in *. clear Hc.
  assert (outside (side w3) = match mode args with Mixed => (fork out w3).2 | _ => w3 end) as Hw4.
  { unfold side. destruct (mode args); try done. exact (f_equal snd (outcome_spawn load w3)). }
  assert (only of_requests (whole (side w3))) as Hs.
  { unfold side. destruct (mode args); try constructor. rewrite whole_spawn. apply workload_touches. }
  rewrite tally_bind, (only_tally of_requests _ _ Hs) in Hr by done.
  destruct (socket_traffic_tally fresh args u (outside (side w3))) as [Ht _].
  pose proof (tally_nonneg realtime_failures _ (only_amounts _ _ Ht)).
  destruct (socket_traffic_sound args u (outside (side w3))) as (l & w5 & l' & w6 & H1 & H2 & H3 & H4); [lia|].
  by exists w2, frames, w3, (outside (side w3)), l, w5, l', w6.
Qed.

(** Every request of the API is counted once, and as a failure exactly when it
    was not answered with a status of success. *)
Definition answered (answer : Result rstr HttpReply) : bool :=
  match answer with Ok reply => is_success (reply_status reply) | Err _ => false end.
Lemma request_judged method url body name csrf cookie w :
  let headers := match csrf with Some token => [(rs "x-csrf-token", token)] | None => [] end
              ++ match cookie with Some c => [(rs "cookie", c)] | None => [] end in
  let l := whole (request_with_cookie out show_status method url body name csrf cookie w) in
  tally requests l = 1
  /\ tally failures l = if answered (http out (mkHttpRequest method url body headers) w).1.1 then 0 else 1.
Proof.
  cbv zeta. unfold request_with_cookie. rewrite !tally_bind_ask.
  destruct (http out _ w) as [[response ms] w1]. cbn [fst snd]. rewrite !tally_bind_emit.
  destruct response as [reply|e]; [|done]. cbn [answered]. by destruct (is_success (reply_status reply)).
Qed.

(** ** A passing run *)

Lemma administrate_touches args : Touches of_login (administrate out show_status args).
Proof.
  unfold administrate. apply touches_bind; [apply login_touches|]. intros [[[cookie id]|e]|]; try apply touches_ret.
  destruct (_ || _); [|apply touches_ret]. intros w. eapply only_weaken; [|apply smoke_touches]. by intros [].
Qed.

Lemma administrate_tally args w :
  tally auth_successes (trace (administrate out show_status args w)) <= 1
  /\ only of_login (trace (administrate out show_status args w)).
Proof.
  pose proof (administrate_touches args w) as Ho. pose proof Ho as [Ht Hs]%only_app. split; [|done].
  enough (tally auth_successes (whole (administrate out show_status args w)) <= 1) as H.
  { unfold whole in H. rewrite tally_app in H. pose proof (tally_nonneg auth_successes _ (only_amounts _ _ Hs)). lia. }
  unfold administrate. rewrite tally_bind, (login_adds NotCut args (admin_user args) (admin_password args) w).
  destruct (value_of _) as [[[cookie id]|e]|]; [|done..].
  destruct (_ || _); [|done].
  rewrite (only_tally of_requests) by (done || apply smoke_touches). lia.
Qed.

(** Sums of the tallies of the users. *)
Definition total (f : nat -> Z) (l : list nat) : Z := foldr (fun u acc => f u + acc) 0 l.

Lemma total_all_one f l : (forall u, In u l -> f u <= 1) -> Z.of_nat (length l) <= total f l -> forall u, In u l -> f u = 1.
Proof.
  intros Hf Hl. assert (total f l <= Z.of_nat (length l) /\ (Z.of_nat (length l) <= total f l -> forall u, In u l -> f u = 1)) as [_ H];
    [|by apply H].
  clear Hl. induction l as [|v l IH]; cbn [total foldr length In] in *; [split; [done|by intros _ u []]|].
  destruct IH as [IH1 IH2]; [intros u Hu; apply Hf; by right|]. pose proof (Hf v (or_introl eq_refl)).
  unfold total in *. split; [lia|]. intros Hl u [<-|Hu]; [lia|]. apply IH2; [lia|done].
Qed.

Lemma total_all_zero f l : (forall u, In u l -> 0 <= f u) -> total f l <= 0 -> forall u, In u l -> f u = 0.
Proof.
  intros Hf Hl. assert (0 <= total f l /\ (total f l <= 0 -> forall u, In u l -> f u = 0)) as [_ H]; [|by apply H].
  clear Hl. induction l as [|v l IH]; cbn [total foldr In] in *; [split; [done|by intros _ u []]|].
  destruct IH as [IH1 IH2]; [intros u Hu; apply Hf; by right|]. pose proof (Hf v (or_introl eq_refl)).
  unfold total in *. split; [lia|]. intros Hl u [<-|Hu]; [lia|]. apply IH2; [lia|done].
Qed.

Lemma total_ext f g l : (forall u, In u l -> f u = g u) -> total f l = total g l.
Proof. induction l as [|v l IH]; intros H; [done|]. simpl. rewrite H by (by left). f_equal. apply IH. intros; apply H; by right. Qed.

Lemma tally_users c (g : nat -> list (list Event)) l :
  tally c (concat (concat (map g l))) = total (fun u => tally c (concat (g u))) l.
Proof. induction l as [|u l IH]; [done|]. simpl. by rewrite concat_app, tally_app, IH. Qed.

Section Run.
Context (env : Environment (W := W)) (args : Args).
Context (fresh : forall w, NoDup (uuids (turns out w).1)).
Context (schedule : forall ts, interleaved ts (interleave env ts)).

(** The updates of one user and its tasks. *)
Definition user_updates (u : nat) : list Event := concat (user_tasks out show_status keys_of env args u).

Lemma user_updates_accounted u : Accounted (mode args) (user_updates u).
Proof. by apply user_accounted. Qed.

Lemma run_tally c users :
  tally c (run_trace out show_status keys_of env args users)
  = tally c (trace (administrate out show_status args (admin_outside env)))
    + total (fun u => tally c (user_updates u)) (List.seq 0 users).
Proof.
  unfold run_trace. rewrite tally_app, (tally_permutation _ _ _ (interleaved_permutation _ _ (schedule _))).
  by rewrite tally_users.
Qed.

Lemma run_amounts users : amounts (run_trace out show_status keys_of env args users).
Proof.
  unfold run_trace. apply amounts_app. split; [eapply only_amounts, administrate_tally|].
  unfold amounts. rewrite (interleaved_permutation _ _ (schedule _)).
  induction (List.seq 0 users) as [|u l IH]; cbn [map concat]; [constructor|].
  rewrite concat_app. apply amounts_app. split; [apply (user_updates_accounted u)|exact IH].
Qed.

(** What the counters of a passing run say of each user. *)
Lemma passing_counts users r :
  0 < users <= u32_max ->
  (forall c, tally c (run_trace out show_status keys_of env args (Z.to_nat users)) < 2 ^ 50) ->
  run_once out show_status keys_of env args users = Ok r -> passed r = true ->
  (forall u, (u < Z.to_nat users)%nat ->
     tally auth_successes (user_updates u) = 1
     /\ (websocket_mode (mode args) = true -> tally ws_connected (user_updates u) = 1)
     /\ tally messages (user_updates u) = tally messages_acknowledged (user_updates u)
     /\ tally realtime_failures (user_updates u) = 0)
  /\ 100 * r_failures r < r_requests r /\ supported_users_lower_bound r = Some users.
Proof.
  intros Hu Hsmall Hrun Hpass.
  unfold run_once in Hrun.
  destruct (raise_nofile_limit _ _ _ _ _); [|done]. destruct (build env 0); [|done].
  destruct (value_of _); [|done]. destruct (build env 1), (build env 2); try done. injection Hrun as <-.
  set (n := Z.to_nat users) in *. set (l := run_trace _ _ _ _ _ n) in *.
  assert (forall c, counter (metrics_after l) c = tally c l) as Hc.
  { intros c. apply counter_exact; [apply run_amounts|]. specialize (Hsmall c). unfold u64_max. lia. }
  assert (small_counters (metrics_after l)) as Hm.
  { intros c. rewrite Hc. split; [apply tally_nonneg, run_amounts|apply Hsmall]. }
  assert (supported_users_lower_bound (make_report args (metrics_after l) (Some users) (elapsed env))
    = if passed (make_report args (metrics_after l) (Some users) (elapsed env)) then Some users else None) as Hs by done.
  rewrite Hpass in Hs. rewrite verdict_in_integers in Hpass by done. unfold verdict_exact in Hpass.
  rewrite !Hc in Hpass. apply andb_true_iff in Hpass as [[[Hf Hws]%andb_true_iff Ha]%andb_true_iff Hr].
  apply Z.ltb_lt in Hf. apply Z.leb_le in Ha. apply Z.eqb_eq in Hr.
  split; [|split; [cbn; by rewrite !Hc|done]].
  pose proof (administrate_tally args (admin_outside env)) as [Had Hao].
  unfold l in Ha, Hr, Hws. rewrite run_tally in Ha, Hr.
  rewrite (run_tally ws_attempts), (run_tally ws_connected) in Hws.
  rewrite (only_tally _ _ realtime_failures Hao) in Hr by done.
  rewrite (only_tally _ _ ws_attempts Hao), (only_tally _ _ ws_connected Hao) in Hws by done.
  assert (Z.of_nat (length (List.seq 0 n)) = users) as Hlen by (rewrite length_seq; unfold n; lia).
  assert (forall u, In u (List.seq 0 n) -> tally auth_successes (user_updates u) = 1) as Hlogin.
  { apply total_all_one; [intros u _; apply (user_updates_accounted u)|]. unfold saturating_sub in Ha. lia. }
  assert (forall u, In u (List.seq 0 n) -> tally realtime_failures (user_updates u) = 0) as Hreal.
  { apply total_all_zero; [|lia]. intros u _. apply tally_nonneg, (user_updates_accounted u). }
  intros u Hun. assert (In u (List.seq 0 n)) as Hin by (apply in_seq; lia).
  pose proof (user_updates_accounted u) as [_ _ Hat _ Hmsg]. rewrite (Hreal u Hin) in *.
  split; [by apply Hlogin|]. split; [|split; [lia|done]]. intros Hmode.
  assert (total (fun u => tally ws_attempts (user_updates u)) (List.seq 0 n) = users) as Hatt.
  { rewrite (total_ext _ (fun _ => 1)).
    - rewrite <- Hlen. clear. induction (List.seq 0 n) as [|v vs IH]; [done|].
      cbn [total foldr length]. rewrite Nat2Z.inj_succ, <- IH. unfold total. lia.
    - intros v Hv. rewrite (acc_attempts _ _ (user_updates_accounted v) Hmode). by apply Hlogin. }
  rewrite Hatt in Hws. apply (total_all_one (fun u => tally ws_connected (user_updates u)) (List.seq 0 n)); [|lia|done].
  intros v _. apply (user_updates_accounted v).
Qed.

(** C31. A run that passes was served. Of every user, by what the outside really
    answered it ([Served]): a login was answered with a status of success and an
    identity; in a run with sockets its socket then connected, with the cookies
    of that answer, and came through the gate; in the traffic no turn of it
    failed, no error frame was read, and every message it sent was acknowledged
    by a frame read later that carries its marker and is no error. What the
    counters of each user say agrees; fewer than one request in a hundred
    failed, where each request of the API counts once and as a failure exactly
    when it was not answered with a status of success. *)
Theorem passing_report_sound users r :
  0 < users <= u32_max ->
  (forall c, tally c (run_trace out show_status keys_of env args (Z.to_nat users)) < 2 ^ 50) ->
  run_once out show_status keys_of env args users = Ok r -> passed r = true ->
  (forall u, (u < Z.to_nat users)%nat -> Served args u (user_outside env u))
  /\ (forall u, (u < Z.to_nat users)%nat ->
     tally auth_successes (user_updates u) = 1
     /\ (websocket_mode (mode args) = true -> tally ws_connected (user_updates u) = 1)
     /\ tally messages (user_updates u) = tally messages_acknowledged (user_updates u)
     /\ tally realtime_failures (user_updates u) = 0)
  /\ 100 * r_failures r < r_requests r
  /\ (forall method url body name csrf cookie w,
       let headers := match csrf with Some token => [(rs "x-csrf-token", token)] | None => [] end
                   ++ match cookie with Some c => [(rs "cookie", c)] | None => [] end in
       let l := whole (request_with_cookie out show_status method url body name csrf cookie w) in
       tally requests l = 1
       /\ tally failures l = if answered (http out (mkHttpRequest method url body headers) w).1.1 then 0 else 1)
  /\ supported_users_lower_bound r = Some users.
Proof.
  intros Hu Hsmall Hrun Hpass. destruct (passing_counts users r Hu Hsmall Hrun Hpass) as (Hall & Hf & Hs).
  split; [|split; [exact Hall|split; [exact Hf|split; [|exact Hs]]]].
  - intros u Hun. destruct (Hall u Hun) as (H1 & H2 & _ & H4). by apply (user_loop_served args u (user_gap env u)).
  - intros. apply request_judged.
Qed.
End Run.
End Accounting.

(** ** The steady load *)

Section Load.
Context {W : Type} (out : Outside W) {J : JsonText} {T : UuidText}.
Context (show_status : Z -> rstr).

(** The operations a user may call: those of every user, and the
    administrator's. *)
Definition operations (admin : bool) : list (string * string) :=
  USER_API_OPERATIONS ++ (if admin then ADMIN_API_OPERATIONS else []).

Lemma operation_at_lookup u admin sequence :
  operation_at u admin sequence = operations admin !! ((u + sequence) mod operation_count admin)%nat.
Proof.
  unfold operation_at, operations. set (index := (_ mod _)%nat).
  destruct (Nat.ltb_spec index (length USER_API_OPERATIONS)); [by rewrite lookup_app_l|].
  rewrite lookup_app_r by done. destruct admin; [done|].
  assert (index < operation_count false)%nat as Hi by (by apply Nat.mod_upper_bound).
  change (operation_count false) with (length USER_API_OPERATIONS) in Hi. lia.
Qed.

Lemma operation_at_some u admin sequence : is_Some (operation_at u admin sequence).
Proof.
  rewrite operation_at_lookup. apply lookup_lt_is_Some.
  replace (length (operations admin)) with (operation_count admin) by (by destruct admin).
  apply Nat.mod_upper_bound. by destruct admin.
Qed.

Lemma operation_at_in u admin sequence op : operation_at u admin sequence = Some op -> In op (operations admin).
Proof. rewrite operation_at_lookup. intros H. by apply list_elem_of_In, (list_elem_of_lookup_2 _ _ _ H). Qed.

Lemma request_counted method url body name csrf cookie :
  Adds api_requests (fun _ => 1) (request_with_cookie out show_status method url body name csrf cookie).
Proof.
  unfold request_with_cookie. eapply adds_bind; [apply adds_ask|]. intros [response millis].
  do 3 (eapply adds_bind; [apply adds_emit|]; intros ?). apply adds_ret.
  destruct response as [reply|e]; [destruct (is_success _)|]; done.
Qed.

(** The requests whose time comes before the deadline. *)
Definition requests_due (next deadline period : Z) : Z := Z.max 0 ((deadline - next + period - 1) / period).

Lemma requests_due_step next deadline period :
  0 < period -> next < deadline -> requests_due next deadline period = 1 + requests_due (next + period) deadline period.
Proof.
  intros Hp Hn. unfold requests_due.
  replace (deadline - next + period - 1) with (deadline - (next + period) + period - 1 + 1 * period) by lia.
  rewrite Z.div_add by lia.
  assert (0 <= (deadline - (next + period) + period - 1) / period) by (apply Z.div_pos; lia). lia.
Qed.

(** The loop of the steady load ends, and makes exactly the requests its period
    has room for before the deadline, each counted once. *)
Theorem steady_load_counted fuel args cookie csrf u admin next deadline period sequence w :
  0 < period -> (api_fuel next deadline period <= fuel)%nat ->
  tally api_requests
    (whole (api_requests_loop out show_status fuel args cookie csrf u admin next deadline period sequence w))
  = requests_due next deadline period.
Proof.
  intros Hp Hf. assert (requests_due next deadline period <= Z.of_nat fuel) as Hfuel.
  { unfold api_fuel, requests_due in *. assert ((deadline - next + period - 1) / period <= (deadline - next) / period + 1); [|lia].
    replace ((deadline - next) / period + 1) with ((deadline - next + 1 * period) / period) by (apply Z.div_add; lia).
    apply Z.div_le_mono; lia. }
  clear Hf. revert next sequence w Hfuel. induction fuel as [|fuel IH]; intros next sequence w Hfuel; cbn [api_requests_loop].
  { unfold requests_due in *. cbn. lia. }
  destruct (Z.ltb_spec next deadline) as [Hlt|Hge].
  - rewrite requests_due_step in Hfuel |- * by done. destruct (operation_at_some u admin sequence) as [[path name] ->].
    rewrite tally_bind, (request_counted _ _ _ _ _ _ _), IH by lia. done.
  - unfold requests_due. cbn. assert ((deadline - next + period - 1) / period <= 0); [|lia].
    assert ((deadline - next + period - 1) / period < 1); [|lia]. apply Z.div_lt_upper_bound; lia.
Qed.

(** A user starts within its first period. *)
Lemma distributed_phase_within period u :
  1000 <= period <= u64_max -> 0 <= distributed_phase period u < period.
Proof.
  intros Hp. unfold distributed_phase. assert (1 <= period / 1000) by (apply Z.div_le_lower_bound; lia).
  assert (period / 1000 <= u64_max) by (apply Z.div_le_upper_bound; unfold u64_max in *; lia).
  replace (clamp 1 u64_max (period / 1000)) with (period / 1000) by (unfold clamp; lia).
  set (mixed := as_u64 _). pose proof (Z.mod_pos_bound mixed (period / 1000) ltac:(lia)).
  pose proof (Z.mul_div_le period 1000 ltac:(lia)). lia.
Qed.

Lemma rotation_permutation a n :
  Permutation (map (fun i => (a + i) mod n)%nat (List.seq 0 n)) (List.seq 0 n).
Proof.
  destruct (decide (n = 0%nat)) as [->|Hn]; [done|].
  assert (forall i j, (i < n)%nat -> (j < n)%nat -> ((a + i) mod n = (a + j) mod n)%nat -> i = j) as Hinj.
  { intros i j Hi Hj E.
    pose proof (Nat.div_mod (a + i) n Hn) as Ei. pose proof (Nat.div_mod (a + j) n Hn) as Ej. rewrite E in Ei.
    set (q := ((a + i) / n)%nat) in *. set (q' := ((a + j) / n)%nat) in *.
    destruct (Nat.lt_trichotomy q q') as [Hq|[Hq|Hq]]; [|rewrite Hq in Ei; lia|]; nia. }
  apply Permutation_sym, NoDup_Permutation_bis.
  - apply seq_NoDup.
  - by rewrite length_map.
  - intros x Hx%in_seq. apply in_map_iff. exists ((x + n - a mod n) mod n)%nat. split.
    + rewrite Nat.Div0.add_mod_idemp_r. pose proof (Nat.div_mod a n Hn). pose proof (Nat.mod_upper_bound a n Hn).
      replace (a + (x + n - a mod n))%nat with (x + (a / n + 1) * n)%nat by nia.
      rewrite Nat.Div0.mod_add. apply Nat.mod_small. lia.
    + apply in_seq. split; [lia|]. by apply Nat.mod_upper_bound.
Qed.

(** Every run of as many requests as there are operations calls each of them
    once, wherever it starts. *)
Theorem operations_in_turn u admin sequence :
  Permutation (map (fun i => operation_at u admin (sequence + i)) (List.seq 0 (operation_count admin)))
    (map Some (operations admin)).
Proof.
  assert (forall i, operation_at u admin (sequence + i)
    = operations admin !! ((u + sequence + i) mod operation_count admin)%nat) as E.
  { intros i. by rewrite operation_at_lookup, Nat.add_assoc. }
  rewrite (map_ext _ _ E), <- (map_map (fun i => ((u + sequence + i) mod operation_count admin)%nat) (fun i => operations admin !! i)).
  rewrite rotation_permutation. by destruct admin.
Qed.
End Load.

(** ** Witnesses *)

#[local] Existing Instance Reference.hyphenated_text.
#[local] Existing Instance Reference.coded_json.

(** A server that answers everything, for the user whose number is the state;
    each sends one message and reads it back. *)
Definition sample_outside : Outside nat :=
  mkOutside
    (fun _ u => (Ok (mkHttpReply 200 [(rs "x-csrf-token", rs "token"); (rs "set-cookie", rs "session=1; Path=/")]
                      (Some (JObj [(rs "id", json_uuid (Reference.uuid_of 1))]))), 5, u))
    (fun u => (rs "0", u)) (fun u => (false, u)) (fun u => (NotCut, u)) (fun _ _ u => (SocketOpen, u))
    (fun u => ([], GateReleased, u))
    (fun u => ([HeartbeatTick (Ok tt); MessageTick (rs "x") 10 (Ok tt);
                Read (TextFrame (rs "frame of " ++ marker_of u (rs "x"))) 14], u))
    (fun u => ([], u)) (fun u => (u, u)).
Definition sample_environment : Environment (W := nat) :=
  mkEnvironment (Some (mkRlimit 256 RLIM_INFINITY)) (fun _ => true) (Some (mkRlimit 256000 RLIM_INFINITY)) []
    (fun _ => Ok tt) 0%nat (fun u => u) (fun _ => 0) (@concat Event) (30 * NANOS).
Definition first_keys (pending : gmap rstr Z) : list rstr := (map_to_list pending).*1.

Lemma passing_report_sound_witness :
  Served sample_outside (sample_args Websocket) 1 1%nat
  /\ tally messages (user_updates sample_outside decimal first_keys sample_environment (sample_args Websocket) 1) = 1
  /\ tally messages (user_updates sample_outside decimal first_keys sample_environment (sample_args Websocket) 1)
     = tally messages_acknowledged
         (user_updates sample_outside decimal first_keys sample_environment (sample_args Websocket) 1).
Proof.
  assert (match run_once sample_outside decimal first_keys sample_environment (sample_args Websocket) 2 with
          | Ok r => passed r | Err _ => false end = true) as Hp by (vm_compute; reflexivity).
  destruct (run_once sample_outside decimal first_keys sample_environment (sample_args Websocket) 2) as [r|] eqn:Er;
    [|discriminate Hp].
  assert (1 < Z.to_nat 2)%nat as Hu by (vm_compute; lia).
  destruct (passing_report_sound sample_outside decimal first_keys sample_environment
    (sample_args Websocket) (fun w => NoDup_singleton _) concat_interleaved 2 r) as (Hserved & Hcounts & _).
  - vm_compute. split; (discriminate || reflexivity).
  - intros c. destruct c; vm_compute; reflexivity.
  - exact Er.
  - exact Hp.
  - split; [exact (Hserved 1%nat Hu)|]. split; [vm_compute; reflexivity|].
    exact (proj1 (proj2 (proj2 (Hcounts 1%nat Hu)))).
Defined.

(** A user whose last message is not acknowledged fails the run. *)
Example unacknowledged_fails :
  let lossy := mkOutside (http sample_outside) (uuid_simple sample_outside) (late sample_outside) (cut sample_outside)
    (connect sample_outside) (setup_turns sample_outside) (fun u => ([MessageTick (rs "x") 10 (Ok tt)], u))
    (ack_turns sample_outside) (fork sample_outside) in
  match run_once lossy decimal first_keys sample_environment (sample_args Mixed) 2 with
  | Ok r => (passed r, messages_unacknowledged r, r_realtime_failures r) | Err _ => (true, 0, 0) end = (false, 2, 2).
Proof. by vm_compute. Qed.

Lemma steady_load_counted_witness :
  tally api_requests
    (whole (api_requests_loop sample_outside decimal 31 (sample_args Mixed) [] [] 3 true 1500 60000 2000 0 0%nat)) = 30.
Proof.
  rewrite (steady_load_counted sample_outside decimal 31 (sample_args Mixed) [] [] 3 true 1500 60000 2000 0 0%nat).
  - vm_compute. reflexivity.
  - lia.
  - vm_compute. lia.
Defined.
