(* ===== verification/BenchServer.v ===== *)
(** * The load generator against the server

    The two programs of the repository together: the requests of
    [bench/src/main.rs] are routes of [routes.rs], the reading ones leave the
    server as it is, and the fixtures it creates satisfy the server's checks. *)
From Stdlib Require Import String.
From S2P Require Import Routes.
From S2P Require Import Accounting.
Open Scope Z_scope.
Open Scope task_scope.

(** ** Routes and paths *)

(** The segments of a path, without its query. *)
Definition segments (path : rstr) : list rstr :=
  split_on (fun c => c =? 47) (match split_once 63 path with Some (before, _) => before | None => path end).
(** A segment in braces stands for any that is not empty. *)
Definition segment_matches (template segment : rstr) : bool :=
  match template with
  | c :: _ => if c =? 123 then negb (is_empty segment) else template ≟ segment
  | [] => is_empty segment
  end.
Definition path_matches (template : string) (path : rstr) : bool :=
  let t := segments (rs template) in
  let p := segments path in
  Nat.eqb (length t) (length p) && forallb (fun e => segment_matches e.1 e.2) (zip t p).

Definition api_prefix : rstr := rs "/api/v1".
(** A path of the load generator, under [/api/v1]. *)
Definition under_api (path : string) : option rstr :=
  if starts_with api_prefix (rs path) then Some (drop (length api_prefix) (rs path)) else None.

(** The request a reading path of the load generator is for the server. *)
Definition sample_reads : list Request := [
  GetHealth; GetLive; GetReady; GetStartup; GetMetrics; GetMe; GetChannels; GetConversations;
  GetUserSearch (mkUserSearchQuery (Some (rs "test"))); GetMembers MAIN_CHANNEL;
  GetAdminUsers (mkUserListQuery None None (Some 20)); GetAdminRoles; GetAdminPermissions;
  GetAdminAudit (mkAuditListQuery None None None (Some 20)); GetAdminOperations;
  GetAdminChannels (mkChannelListQuery None (Some 20));
  GetAdminMessages (mkMessageAdminQuery None None None None None (Some 20));
  GetAdminParticipants MAIN_CHANNEL].

Definition reading_paths : list string :=
  map fst (SMOKE_READS ++ USER_API_OPERATIONS ++ ADMIN_API_OPERATIONS).

#[export] Instance method_eq_dec : EqDecision Method.
Proof. solve_decision. Defined.

(** The method and the path fit the route. *)
Definition fits (method : Method) (path : rstr) (r : Request) : bool :=
  bool_decide ((endpoint r).1 = method) && path_matches (endpoint r).2 path.

(** Every path the load generator reads is one of the server's, and is answered
    by a handler of a [GET]. *)
Theorem reading_paths_routed :
  Forall (fun path => exists rest r, under_api path = Some rest /\ In r sample_reads /\ fits GET rest r = true)
    reading_paths.
Proof.
  assert (forallb (fun path => match under_api path with
      | Some rest => existsb (fits GET rest) sample_reads | None => false end) reading_paths = true) as H
    by (by vm_compute).
  apply List.Forall_forall. intros path Hin. apply (forallb_in _ _ _ H) in Hin.
  destruct (under_api path) as [rest|]; [|done]. apply existsb_exists in Hin as (r & Hr & Hf). by exists rest, r.
Qed.

(** ** A run against the server *)

(** Tasks that keep a relation between what was outside before and after. *)
Section Keeps.
Context {W : Type} (R : relation W) `{!PreOrder R}.

Definition Keeps {A} (t : Task W A) : Prop := forall w, R w (outside (t w)).

Lemma keeps_ret {A} (a : A) : Keeps (ret a).
Proof. by intros w. Qed.
Lemma keeps_emit l : Keeps (emit l).
Proof. by intros w. Qed.
Lemma keeps_bind {A B} (m : Task W A) (k : A -> Task W B) : Keeps m -> (forall a, Keeps (k a)) -> Keeps (bind m k).
Proof. intros Hm Hk w. etrans; [apply Hm|apply Hk]. Qed.
Lemma keeps_try {X A B} (m : Task W (Result X A)) (k : A -> Task W (Result X B)) :
  Keeps m -> (forall a, Keeps (k a)) -> Keeps (try m k).
Proof. intros Hm Hk. apply keeps_bind; [done|]. intros []; [apply Hk|apply keeps_ret]. Qed.

Context (out : Outside W) {J : JsonText} {T : UuidText} (show_status : Z -> rstr).

Lemma keeps_request method url body name csrf cookie :
  (forall headers w, R w (http out (mkHttpRequest method url body headers) w).2) ->
  Keeps (request_with_cookie out show_status method url body name csrf cookie).
Proof.
  intros H. unfold request_with_cookie. apply keeps_bind.
  - intros w. unfold ask. pose proof (H (match csrf with Some token => [(rs "x-csrf-token", token)] | None => [] end
      ++ match cookie with Some c => [(rs "cookie", c)] | None => [] end) w) as Hw. by destruct (http _ _ _).
  - intros [response millis]. do 3 (apply keeps_bind; [apply keeps_emit|]; intros ?). apply keeps_ret.
Qed.

Lemma keeps_call_all root csrf l :
  (forall c headers w, In c l ->
     R w (http out (mkHttpRequest (call_method c) (root ++ call_path c) (call_body c) headers) w).2) ->
  Keeps (call_all out show_status root csrf l).
Proof.
  induction l as [|c l IH]; intros H; simpl; [apply keeps_ret|].
  apply keeps_try; [|intros _; apply IH; intros; apply H; by right].
  apply keeps_request. intros headers w. apply H. by left.
Qed.

Lemma keeps_steady_load args cookie csrf u admin duration gap :
  (forall path name headers w, In (path, name) (operations admin) ->
     R w (http out (mkHttpRequest GET (root_url args ++ rs path) None headers) w).2) ->
  Keeps (run_api_workload out show_status args cookie csrf u admin duration gap).
Proof.
  intros H. unfold run_api_workload. destruct (rate_period _) as [period|]; [|apply keeps_ret].
  generalize (api_fuel (gap + distributed_phase period (Z.of_nat u)) duration period) as fuel.
  generalize (gap + distributed_phase period (Z.of_nat u)) as next. generalize 0%nat at 1 as sequence.
  intros sequence next fuel. revert sequence next.
  induction fuel as [|fuel IH]; intros sequence next; cbn [api_requests_loop]; [apply keeps_ret|].
  destruct (_ <? _); [|apply keeps_ret]. destruct (operation_at _ _ _) as [[path name]|] eqn:E; [|apply keeps_ret].
  apply keeps_bind; [|intros _; apply IH]. apply keeps_request. intros headers w. apply (H path name).
  by eapply operation_at_in.
Qed.
End Keeps.

(** ** The server as the outside *)

Section Served.
Context {K : Type} {V : Valkey K} {T : UuidText} {J : JsonText} {U : Unicode} {C : Crypto}.
Context {L : UrlText} {X : UrlCrate} {H : HtmlCrate} {S : TextSearch}.
Context (st : AppState K).

(** The router and the extractors of axum, and the encoding of an answer: what a
    request decodes to fits its method and path. [env] is what the server meets
    at each request, [other] what else the load generator sees. *)
Context (root : rstr) (route : HttpRequest -> option Request) (answer : Result AppError Reply -> HttpReply).
Context (env : nat -> Env) (other : Outside (nat * World K)).
Definition routes_fit : Prop :=
  forall req r, route req = Some r ->
    exists path, hr_url req = root ++ api_prefix ++ path /\ fits (hr_method req) path r = true.

(** A request is served by the handler of its route, on the world the requests
    before it left. *)
Definition served (req : HttpRequest) (w : nat * World K) : Result rstr HttpReply * Z * (nat * World K) :=
  match route req with
  | Some r =>
      let (result, world) := serve st (hr_headers req) r (env w.1) w.2 in
      (Ok (answer result), 1, (Datatypes.S w.1, world))
  | None => (Ok (mkHttpReply 404 [] None), 1, w)
  end.
Definition server : Outside (nat * World K) :=
  mkOutside served (uuid_simple other) (late other) (cut other) (connect other) (setup_turns other)
    (turns other) (ack_turns other) (fork other).

(** The database and the stored files are the same. *)
Definition Untouched (w w' : nat * World K) : Prop := Quiet w.2 w'.2.
#[local] Instance untouched_preorder : PreOrder Untouched.
Proof. split; unfold Untouched, Quiet; [done|]. intros a b c [E1 E2] [E3 E4]. split; congruence. Qed.

(** The one reading request that writes is not among those of the load
    generator. *)
Lemma reading_paths_quiet path rest r :
  In path reading_paths -> rs path = api_prefix ++ rest -> fits GET rest r = true -> r <> GetNotificationPreferences.
Proof.
  assert (forallb (fun path => starts_with api_prefix (rs path)
      && negb (fits GET (drop (length api_prefix) (rs path)) GetNotificationPreferences)) reading_paths = true) as Hall
    by (by vm_compute).
  intros Hin E Hf ->. apply (forallb_in _ _ _ Hall), andb_true_iff in Hin as [_ Hin].
  rewrite E, drop_app_length, Hf in Hin. done.
Qed.

Lemma reading_untouched path headers w :
  Frame Quiet (st_cache_health st) -> routes_fit -> In path reading_paths ->
  Untouched w (served (mkHttpRequest GET (root ++ rs path) None headers) w).2.
Proof.
  intros Hh Hfit Hin. unfold served. destruct (route _) as [r|] eqn:Er; [|done].
  destruct (Hfit _ _ Er) as (rest & Hurl & Hf). cbn [hr_url hr_method hr_headers] in *. apply app_inv_head in Hurl.
  pose proof (reading_paths_quiet path rest r Hin Hurl Hf) as Hne. unfold fits in Hf. bool_simpl.
  unfold Untouched. destruct w as [n w]. cbn [fst snd].
  pose proof (serve_reads st headers r Hh ltac:(done) Hne (env n) w) as Hq. by destruct (serve _ _ _ _ _).
Qed.

(** C34. Apart from the logins, reading is all the load generator does over HTTP
    unless told to mutate: against the server, the pass over the API without mutations and the steady load of a
    user leave the database and the stored files as they were, whatever fails on
    the way. *)
Theorem load_leaves_server (show_status : Z -> rstr) args csrf cookie u admin duration gap w :
  Frame Quiet (st_cache_health st) -> routes_fit -> root = root_url args ->
  Untouched w (outside (api_smoke server show_status args csrf false w))
  /\ Untouched w (outside (run_api_workload server show_status args cookie csrf u admin duration gap w)).
Proof.
  intros Hh Hfit Hroot. split.
  - revert w. unfold api_smoke. apply keeps_try; [exact _| |intros a; apply keeps_ret; exact _].
    apply keeps_call_all; [exact _|]. intros c headers w Hin. rewrite <- Hroot.
    apply in_map_iff in Hin as ([path name] & <- & Hin). apply reading_untouched; [done..|].
    unfold reading_paths. rewrite map_app. apply in_app_iff. left. apply in_map_iff. by exists (path, name).
  - revert w. apply keeps_steady_load; [exact _|]. intros path name headers w Hin. rewrite <- Hroot. apply reading_untouched; [done..|].
    unfold reading_paths. rewrite !map_app, !in_app_iff. right. unfold operations in Hin.
    apply in_app_iff in Hin as [Hin|Hin]; [left|right; destruct admin; [|done]]; apply in_map_iff; by exists (path, name).
Qed.
End Served.

(** ** The fixtures *)

Definition hexadecimal (c : Z) : Prop := is_ascii_digit c || in_range 97 102 c = true.

Section Fixtures.
Context {U : Unicode}.

Lemma prefixed_chars prefix s :
  forallb channel_name_char prefix = true -> Forall hexadecimal s -> Forall (fun c => channel_name_char c = true) (prefix ++ s).
Proof.
  intros Hp Hs. apply Forall_app. split.
  - apply List.Forall_forall. intros c Hc. by apply (forallb_in _ _ _ Hp).
  - eapply List.Forall_impl; [|exact Hs]. unfold hexadecimal, channel_name_char, is_ascii_lower, in_range. intros c. lia.
Qed.

Lemma fixture_channel prefix s :
  forallb channel_name_char prefix = true -> prefix <> [] -> Forall hexadecimal s ->
  (length prefix + length s <= 40)%nat -> (length prefix + length s <> 4)%nat ->
  normalize_channel_name (prefix ++ s) = Ok (prefix ++ s).
Proof.
  intros Hp Hne Hs Hl Hm. pose proof (prefixed_chars prefix s Hp Hs) as Hc. apply normal_channel_name.
  - done.
  - by destruct prefix.
  - rewrite len_ascii by (by apply channel_chars_ascii). rewrite length_app. lia.
  - intros E. apply (f_equal length) in E. rewrite length_app in E. by apply Hm.
Qed.

(** A name longer than the reserved ones is not reserved. *)
Lemma long_username name :
  Forall (fun c => channel_name_char c = true) name -> (14 <= length name <= 40)%nat -> validate_username name = Ok tt.
Proof.
  intros Hc Hl. unfold validate_username. rewrite len_ascii by (by apply channel_chars_ascii).
  replace (Z.of_nat (length name) <? 2) with false by lia. replace (Z.of_nat (length name) >? 40) with false by lia.
  replace (forallb _ name) with true.
  2: { symmetry. apply forallb_forall. intros c Hin. pose proof (channel_char_alphanumeric c (Forall_In _ _ _ Hc Hin)). lia. }
  cbn [negb orb]. rewrite lowercase_channel_chars by done.
  destruct (existsb _ reserved_usernames) eqn:E; [|done]. exfalso.
  apply existsb_exists in E as (reserved & Hin & ->%bool_decide_eq_true).
  assert (forallb (fun r => Nat.ltb (length r) 14) reserved_usernames = true) as Hr by done.
  apply (forallb_in _ _ _ Hr), Nat.ltb_lt in Hin. lia.
Qed.
End Fixtures.

(** The names, the address and the passwords of the mutating pass satisfy every
    check of the server, for any identifier in hexadecimal. *)
Theorem fixtures_accepted {U : Unicode} simple :
  length simple = 32%nat -> Forall hexadecimal simple ->
  let unique := take 20 simple in
  normalize_channel_name (rs "bench-" ++ simple) = Ok (rs "bench-" ++ simple)
  /\ normalize_channel_name (rs "bench-public-" ++ unique) = Ok (rs "bench-public-" ++ unique)
  /\ normalize_channel_name (rs "bench-private-" ++ unique) = Ok (rs "bench-private-" ++ unique)
  /\ validate_username (rs "bench" ++ unique) = Ok tt
  /\ password_policy (rs "benchmark-password-1234") = Ok tt
  /\ password_policy (rs "benchmark-reset-1234") = Ok tt.
Proof.
  intros Hlen Hhex unique.
  assert (Forall hexadecimal unique) as Hu by (by apply Forall_take).
  assert (length unique = 20%nat) as Hul by (unfold unique; rewrite length_take; lia).
  split_and!; try (apply fixture_channel; (done || (rewrite ?Hlen, ?Hul; simpl; lia))); try done.
  apply long_username; [by apply prefixed_chars|rewrite length_app, Hul; simpl; lia].
Qed.

(** ** Witnesses *)

#[local] Existing Instance Reference.hyphenated_text.
#[local] Existing Instance Reference.coded_json.
#[local] Existing Instance ascii_unicode.
#[local] Existing Instance Valkey.keyspace_valkey.
#[local] Existing Instance Reference.sample_crypto.
#[local] Existing Instance sample_search.
#[local] Existing Instance sample_urls.
#[local] Existing Instance sample_url_text.
#[local] Existing Instance sample_html.

(** A router that knows the reading requests. *)
Definition sample_route (root : rstr) (req : HttpRequest) : option Request :=
  let prefix := root ++ api_prefix in
  if starts_with prefix (hr_url req)
  then List.find (fits (hr_method req) (drop (length prefix) (hr_url req))) sample_reads else None.

Lemma starts_with_split p s : starts_with p s = true -> s = p ++ drop (length p) s.
Proof.
  revert s. induction p as [|c p IH]; intros [|c' s]; simpl; try done.
  intros [->%Z.eqb_eq Hs]%andb_true_iff. f_equal. by apply IH.
Qed.

Lemma sample_routes_fit root : routes_fit root (sample_route root).
Proof.
  intros req r. unfold sample_route. destruct (starts_with _ _) eqn:E; [|done]. intros [_ Hf]%find_some.
  eexists. split; [|exact Hf]. rewrite app_assoc. by apply starts_with_split.
Qed.

Definition sample_server : Outside (nat * World Keyspace) :=
  server sample_state (sample_route (rs "http://127.0.0.1:3000"))
    (fun result => mkHttpReply (if is_ok result then 200 else 400) [] (Some JNull))
    (fun n => Reference.sample_env (900 + 100 * Z.of_nat n))
    (mkOutside (fun _ w => (Err [], 1, w)) (fun w => (rs "0", w)) (fun w => (false, w)) (fun w => (NotCut, w))
       (fun _ _ w => (SocketOpen, w)) (fun w => ([], GateReleased, w)) (fun w => ([], w)) (fun w => ([], w))
       (fun w => (w, w))).

Lemma load_leaves_server_witness :
  w_db (outside (run_api_workload sample_server decimal (sample_args Mixed) [] [] 3 true (60 * NANOS) 0
                   (0%nat, Media.media_world))).2 = w_db Media.media_world
  /\ (outside (run_api_workload sample_server decimal (sample_args Mixed) [] [] 3 true (60 * NANOS) 0
                   (0%nat, Media.media_world))).1 = 1%nat.
Proof.
  split; [|vm_compute; reflexivity].
  refine (proj1 (proj2 (load_leaves_server sample_state (rs "http://127.0.0.1:3000")
    (sample_route (rs "http://127.0.0.1:3000")) _ _ _ decimal (sample_args Mixed) [] [] 3 true (60 * NANOS) 0
    (0%nat, Media.media_world) (frame_ret Quiet tt) (sample_routes_fit _) _))).
  vm_compute. reflexivity.
Defined.

Lemma fixtures_accepted_witness :
  validate_username (rs "bench" ++ repeat 97 20) = Ok tt.
Proof.
  refine (proj1 (proj2 (proj2 (proj2 (fixtures_accepted (repeat 97 32) _ _))))); [reflexivity|].
  apply List.Forall_forall. intros c ->%repeat_spec. reflexivity.
Defined.
