(* ===== verification/UnitTests.v ===== *)
(** * The unit tests of the repository

    The assertions of the [#[cfg(test)]] modules that concern pure functions,
    evaluated on the model: where a test and a definition disagreed, the
    definition would not be the code's. *)
From Stdlib Require Import String.
From S2P Require Import Rooms Outbox Media Storage Preview Account History Files Reference.
Open Scope Z_scope.

#[local] Existing Instance ascii_unicode.
#[local] Existing Instance hyphenated_text.

(** [main.rs] *)
Example private_literals_are_not_public : is_public_ip (V4 127 0 0 1) = false /\ is_public_ip (V4 93 184 216 34) = true.
Proof. split; reflexivity. Qed.
Example history_keys_are_namespaced :
  history_key (rs "main") = rs "chat:history:main:messages" /\ history_order_key (rs "main") = rs "chat:history:main:order".
Proof. split; reflexivity. Qed.
Example emoji_validation_rejects_empty_and_control_input :
  normalize_emoji ([32; 32; 128077; 32; 32]) = Ok [128077]
  /\ is_ok (normalize_emoji []) = false /\ is_ok (normalize_emoji (rs "bad" ++ [10] ++ rs "emoji")) = false.
Proof. split; [|split]; reflexivity. Qed.
Example upload_names_cannot_escape_storage_directory :
  sanitize_upload_name (rs "../../secret.txt") = rs "secret.txt"
  /\ sanitize_upload_name (rs "photo" ++ [10] ++ rs ".png") = rs "photo.png".
Proof. split; reflexivity. Qed.

(** [api/media.rs] *)
Example upload_names_are_basename_only_and_control_free :
  sanitize_upload_name (rs "..\private/" ++ [0] ++ rs "notes.txt") = rs "notes.txt"
  /\ sanitize_upload_name (rs "  report.txt  ") = rs "report.txt".
Proof. split; reflexivity. Qed.
Example permalink_urls_are_stable_and_origin_scoped :
  permalink_url (rs "https://chat.example.test") (uuid_of 0)
    = rs "https://chat.example.test/?message=00000000-0000-0000-0000-000000000000"
  /\ permalink_url [] (uuid_of 0) = rs "/?message=00000000-0000-0000-0000-000000000000".
Proof. split; vm_compute; reflexivity. Qed.

(** The name is [résumé "final"\r\n.txt]. *)
Definition awkward_name : rstr :=
  rs "r" ++ [233] ++ rs "sum" ++ [233] ++ rs " " ++ [34] ++ rs "final" ++ [34; 13; 10] ++ rs ".txt".
Example download_names_are_safe_and_utf8_encoded :
  existsb (fun c => (c =? 10) || (c =? 13)) (content_disposition awkward_name) = false
  /\ encoded_name awkward_name = rs "r%C3%A9sum%C3%A9%20%22final%22.txt"
  /\ forallb visible_ascii (content_disposition awkward_name) = true.
Proof. split; [|split]; vm_compute; reflexivity. Qed.

(** [api/channels.rs] *)
Example mention_extraction_normalizes_deduplicates_and_excludes_author :
  extract_mentioned_usernames (rs "Hello @Alice, @alice and @author!") (rs "author") = [rs "alice"].
Proof. vm_compute. reflexivity. Qed.
Example mention_extraction_ignores_invalid_or_oversized_tokens :
  extract_mentioned_usernames (rs "@ -@ @" ++ repeat 97 65) (rs "author") = [].
Proof. vm_compute. reflexivity. Qed.
Example special_mention_scopes_are_detected_without_becoming_usernames :
  mention_scope (rs "hello @channel") = Some ScopeChannel /\ mention_scope (rs "hello @here!") = Some ScopeHere
  /\ mention_scope (rs "hello @Alice") = None
  /\ extract_mentioned_usernames (rs "hello @channel @here @Alice") (rs "author") = [rs "alice"].
Proof. split; [|split; [|split]]; vm_compute; reflexivity. Qed.
Example channel_names_are_normalized_and_bounded :
  normalize_channel_name (rs "  Team-Room  ") = Ok (rs "team-room") /\ is_ok (normalize_channel_name []) = false
  /\ is_ok (normalize_channel_name (rs "bad name")) = false /\ is_ok (normalize_channel_name (repeat 97 41)) = false.
Proof. split; [|split; [|split]]; vm_compute; reflexivity. Qed.
Example draft_bodies_are_trimmed_and_bounded :
  normalize_draft_body (rs "  hello  ") = Ok (rs "hello") /\ normalize_draft_body (rs "   ") = Ok []
  /\ is_ok (normalize_draft_body (repeat 120 2001)) = false.
Proof. split; [|split]; vm_compute; reflexivity. Qed.

(** [api/admin.rs] *)
Example retention_policy_rejects_unbounded_values :
  is_ok (validate_retention_days (Some 0)) = false /\ is_ok (validate_retention_days (Some 3651)) = false
  /\ validate_retention_days (Some 90) = Ok (Some 90) /\ validate_retention_days None = Ok None.
Proof. split; [|split; [|split]]; reflexivity. Qed.

(** [auth.rs] *)
Definition three_cookies : HeaderMap := [(rs "cookie", rs "other=x; vussa_session=session-id; tail=y")].
Example cookie_lookup_handles_multiple_values_without_cross_matching :
  cookie_value three_cookies (rs "vussa_session") = Some (rs "session-id") /\ cookie_value three_cookies (rs "missing") = None.
Proof. split; reflexivity. Qed.
Example password_policy_rejects_invalid_lengths :
  is_ok (password_policy (rs "short")) = false /\ is_ok (password_policy (repeat 97 201)) = false.
Proof. split; reflexivity. Qed.
Example permission_checks_are_exact (K : Type) (w : World K) :
  (require_permission (sample_auth 1 "a" ["chat:write"%string]) (rs "chat:write") (sample_env 0) w).1 = Ok tt
  /\ is_ok (require_permission (sample_auth 1 "a" ["chat:write"%string]) (rs "chat:moderate") (sample_env 0) w).1 = false.
Proof. split; reflexivity. Qed.
Example message_rate_limits_are_user_scoped user : message_rate_key user = rs "chat:rate:message:" ++ uuid_to_string user.
Proof. reflexivity. Qed.

(** [error.rs] *)
Example errors_have_stable_statuses :
  status (too_many_requests "busy") = 429 /\ message (bad_request "invalid") = "invalid"%string
  /\ message (unauthorized "login") = "login"%string /\ message (forbidden "denied") = "denied"%string
  /\ status (not_found "missing") = 404 /\ status (internal_server_error "failed") = 500.
Proof. repeat split. Qed.

(** [notifications/delivery.rs], [websocket/handler.rs], [websocket/history.rs], [storage.rs] *)
Example retry_delay_is_bounded_exponential_backoff :
  retry_delay_ms 0 = 1000 /\ retry_delay_ms 3 = 8000 /\ retry_delay_ms 99 = 3600000.
Proof. split; [|split]; reflexivity. Qed.
Example room_reconnect_backoff_is_bounded : next_room_retry_delay 250 = 500 /\ next_room_retry_delay 10000 = 10000.
Proof. split; reflexivity. Qed.
Definition same_host : HeaderMap := [(rs "origin", rs "https://chat.example"); (rs "host", rs "chat.example")].
Definition cross_origin : HeaderMap := [(rs "origin", rs "https://evil.example"); (rs "host", rs "chat.example")].
Example websocket_origin_requires_same_host_or_configured_origin :
  websocket_origin_allowed same_host None = true /\ websocket_origin_allowed cross_origin None = false
  /\ websocket_origin_allowed cross_origin (Some (rs "https://evil.example")) = true
  /\ websocket_origin_allowed [(rs "host", rs "chat.example")] None = true.
Proof. split; [|split; [|split]]; reflexivity. Qed.
Definition cursor_message (created_at : Z) (id : Uuid) : ChatMessage :=
  mkChatMessage id (rs "main") (rs "user") (rs "text") created_at false false None 0 json_empty [] None [].
Example history_cursor_preserves_uuid_tie_breaking :
  before_history_cursor (cursor_message 100 (uuid_of 1)) 100 (uuid_of 2) = true
  /\ before_history_cursor (cursor_message 100 (uuid_of 2)) 100 (uuid_of 2) = false
  /\ before_history_cursor (cursor_message 101 (uuid_of 1)) 100 (uuid_of 2) = false.
Proof. split; [|split]; reflexivity. Qed.
Example storage_keys_cannot_escape_root :
  is_ok (fs_path (rs "/tmp/uploads") (rs "../secret")) = false /\ is_ok (fs_path (rs "/tmp/uploads") (rs "nested/file")) = false
  /\ is_ok (fs_path (rs "/tmp/uploads") (rs "safe.bin")) = true.
Proof. split; [|split]; reflexivity. Qed.

(** [outbox.rs] *)
Example notification_payload_requires_two_valid_ids :
  notification_retry_ids (JObj [(rs "actor_id", json_uuid (uuid_of 7)); (rs "message_id", json_uuid (uuid_of 7))])
    = Ok (uuid_of 7, uuid_of 7)
  /\ is_ok (notification_retry_ids (JObj [(rs "actor_id", JStr (rs "invalid"))])) = false.
Proof. split; vm_compute; reflexivity. Qed.

(** [config.rs] *)
Example production_limits_are_bounded : HISTORY_PAGE_SIZE = 50%nat /\ MAX_FILE_BYTES = 25 * 1024 * 1024 /\ SESSION_TTL_SECONDS = 60 * 60 * 24 * 14.
Proof. split; [|split]; reflexivity. Qed.
